(* ===== verification/_CoqProject ===== *)
-Q . S2P
Prelude.v
Mutex.v
Memory.v
Multiboot2.v
PageAllocator.v
FreeList.v
AllocInv.v
AllocExec.v
AllocOps.v
AllocInit.v
AllocSpec.v
AllocTheorems.v
DoubleFree.v
GlobalAlloc.v
Smp.v
LockTypes.v
OneCpu.v
SmpAlloc.v
Bits.v
Gdt.v
AccessByte.v
Cpu.v
Boot.v
BootAlloc.v
Exception.v
Idt.v
Xapic.v
Ipi.v
Mps.v
Ports.v
Trampoline.v
Interrupt.v
Dispatch.v
Serial.v
Panic.v
SelfTest.v
Main.v
