(* ===== verification/Prelude.v ===== *)
(** * hello-os: a verification library for the kernel

    The program is a small x86-64 kernel in Rust (src/src/). This library
    models its own code as executable definitions and proves the theorems that
    make it correct. This file is the root: the documentation of the whole, and
    the prelude that all files share.

    ** The program's parts and the files that model them

    - [memory/mutex.rs], a spin lock that turns interrupts off while it is held:
      Mutex.v (one CPU: [lock], [try_lock], the guard's drop) and Smp.v (any
      number of CPUs with interrupts, as a transition system whose steps are
      the actions of [lock] and [drop]).
    - [memory/multiboot2.rs], the boot information: Multiboot2.v, on the
      physical memory of Memory.v. [fold_areas] is the [for] loop over the areas
      of a map, a call of [next] before each round of its body; the two loops of
      [PageAllocator::init] are instances.
    - [memory/page_allocator.rs], the physical page allocator with 4KB and 2MB
      pages, two free lists threaded through the page array, splitting and
      merging: PageAllocator.v has the code; FreeList.v the doubly linked lists;
      AllocInv.v the abstract state [Abs] and the invariant [Inv]; AllocExec.v
      the rules to run the code; AllocOps.v what each operation does; AllocInit.v
      [init]; AllocSpec.v the contract [alloc_step], the refinement and sessions
      of requests (what is handed out is a list with one entry for each
      hand-out, so that a block given twice would show); AllocTheorems.v the
      theorems; DoubleFree.v the double free that the code misses, in states
      outside of the invariant; LockTypes.v a type system for the locks held, in
      which the code is typed on every state; SmpAlloc.v and OneCpu.v the
      allocator's lock operations with interrupts, on many CPUs and on one.
    - [memory/mod.rs], the global allocator and [memory::init]: GlobalAlloc.v.
      The heap's theorems are proved against the class [PageProvider] and its
      laws, which the page allocator's theorems discharge.
    - [boot.asm], [multiboot_header.asm], the way from the loader to [rust_main]:
      Boot.v (instructions, routines, page tables and the processor's translation)
      and BootAlloc.v (what these page tables mean for the allocator's blocks).
    - [gdt/], [error.rs]: Gdt.v, and AccessByte.v for the access bytes as records.
      [cpu.rs]: Cpu.v (the layout of [Cpu], [get_current]). [interrupt/idt.rs]:
      Idt.v. [interrupt/exception.rs]: Exception.v. The crates these use for bits
      and selectors are the classes of Bits.v.
    - [interrupt/x86_xapic.rs], [interrupt/lapic.rs]: Xapic.v and Ipi.v, on a device
      that is a parameter (class [ApicDevice]). [interrupt/mps.rs]: Mps.v.
    - [interrupt/mod.rs], [interrupt/ioapic.rs]: Trampoline.v (the assembly
      around a handler), Interrupt.v (setup and handlers: what each function does
      to the kernel and to the frame that its argument refers to, [run_handler])
      and Dispatch.v (an interrupt from its vector to its return, on the state
      that setup leaves; [execute] is a processor whose instructions may fault).
    - [serial.rs]: Serial.v, on the ports of Ports.v.
    - [main.rs]: Panic.v ([println!], the panic and allocation error handlers),
      SelfTest.v ([test_allocator]), and Main.v, which composes the parts in the
      order of [boot.asm] and [rust_main], the idle loop included.

    ** How code is modelled

    A function is a Rocq function with the source's name. Code with effects is
    in the monad [M S A] below: a state, and an outcome that is [Done],
    [Panicked] or [Hang]. The kernel is built in the dev profile with
    [panic = "abort"], so overflow checks and slice bounds are outcomes of the
    model ([uadd], [slice_get]). Guards are taken and dropped where the source
    takes and drops them, in Rust's drop order, and a ghost trace records the
    lock events. Integers are [Z], truncated or checked where the source does
    so. What a total-correctness statement [wp m Q s] says is that [m] returns
    from [s] and its result and state satisfy [Q]: panics and loops are excluded,
    never assumed away.

    Loops whose end is not structural have fuel, one unit per iteration, and
    running out is [Hang]. [alloc_4kb] gets 2 (on one CPU it calls itself once,
    after a split, which leaves 4KB pages; [operations_refine_contract] shows that this
    is enough, [requests_balance_locks] that it is on every state, consistent or
    not); [mark_available] gets the number of frames of its range;
    iterating a memory map gets the bytes of the tag; [get_ioapic_entry] gets
    the entry count; [find_fp] the size of the area. The polling loops of
    [send_ipi] and [write_byte] and the tag search depend on the device or on
    the loader: their theorems say for which fuel they end, and for the polling
    loops that they hang otherwise. The loops of [boot.asm] count ECX down and
    need no fuel. The loops that are meant never to end (the halt loop of a
    panic, a fault whose handler returns to the faulting instruction, timer
    ticks in the idle loop) have a number of rounds, and their theorems hold for
    every number.

    ** What the theorems show

    - Page allocator: [init] establishes the invariant
      ([init_establishes_invariant]); every request refines the abstract
      allocator and preserves it ([operations_refine_contract]); over whole
      sessions live blocks, counted once per hand-out, are disjoint and aligned
      ([allocations_disjoint]), and the free frames and those of the live blocks
      are exactly the available ones ([no_leak]); [alloc_free_roundtrip],
      [alloc_none_iff]; the error branches ([free_error_paths],
      [init_panics_at_2tib], and [double_free_after_merge] for the first page of
      a merged superpage).
    - Boot: [boot_enters_rust_main] (long mode, the identity map of 4 GiB, the
      stack, [_bootinfo]); [blocks_mapped] and [high_memory_unmapped] relate the
      map to the allocator. Lemmas: other loaders end in the error
      ([boot_rejects_other_loaders]), the code trusts the loader's stack
      ([start_trusts_loader_stack]), the header sums to zero
      ([multiboot_header_ok]).
    - Locks: [mutex_contract]; [mutual_exclusion], [no_self_deadlock] and
      [lock_order_progress] for disciplined code on many CPUs; and where the
      allocator breaks the discipline: [requests_keep_interrupts_off] and
      [alloc_4kb_enables_interrupts_under_lock], [alloc_interrupt_deadlock],
      [alloc_free_deadlock] (for every consistent allocator, with the lock
      operations of the code and schedules written out); and what holds all the
      same:
      [requests_balance_locks] on every state of the allocator, and
      [sessions_survive_interrupts] on one CPU whose handlers take no lock, as
      those of this kernel that return do.
    - Heap and boot information: [heap_objects_disjoint],
      [alloc_breaks_large_layouts], [memory_init_dispatch], [find_tag_first],
      [memory_map_roundtrip], [zero_size_hangs]; the lemma
      [test_allocator_restores] for the kernel's own test.
    - Descriptor tables: [descriptor_roundtrip], [access_byte_fields] (the
      setters, as the processor decodes the descriptor), [init_cpu_segments], [cpu_stacks_apart]; the lemma [exception_roundtrip].
    - Interrupts: [interrupt_setup] (all 256 gates, masked controllers, the
      timer's vector, the order of [lidt] and [sti]); [handler_gets_frame] and
      [interrupt_transparent] for the trampolines; through the loaded table,
      [timer_ticks] and [fault_handlers_retry]; [send_ipi_order] for the local
      APIC. Lemmas: [unexpected_vector_panics], [register_access],
      [lapic_init_accesses], [processor_start], [timer_handler], and
      [find_fp_first] and [get_ioapic_entry_walk] for the MP tables.
    - Console and panics: [panic_reports], on the lemmas [serial_init_config],
      [write_str_transmits], [write_fmt_ok] and [print_sends_pieces].
    - The whole: [boot_complete] composes the parts from the loader's jump to the
      idle loop, and through any number of its rounds, with interrupts turned on
      once and after the IDT is loaded. [test_all], which is in between and which
      the sources do not define, is a parameter that gives back what it allocates
      ([test_ok]).

    ** Parameters and assumptions

    The crates x86, bit_field, bitfield, spin and lazy_static are not part of
    the sources; what the code uses of them are type classes with the documented
    laws (Bits.v, Gdt.v, Ipi.v, Interrupt.v, Serial.v), each with an instance. So
    are the devices. The compiled bodies of the interrupt handlers are a function
    on the machine that does to the frame what the function in the sources does
    and keeps the calling convention ([compiled_ok]), and the formatted text of a panic is an argument. The size of [PageMetadata], the
    linker symbol [__end], the addresses of statics and of the trampolines are
    arguments. The idle loop is taken to be compiled to [hlt] and a jump, and
    packed structs to have their fields in the order of declaration. Memory is
    sequentially consistent in Smp.v (one CPU's acquire and release are one
    step each).

    ** Not modelled

    Formatting, which is core's, and the numbers in the messages of the
    handlers; [build.rs], which runs the assembler; [memory/test.rs] (empty,
    though [rust_main] calls [test_all], which is a parameter) and the empty
    files of [console/]; caches, the TLB and the translation of addresses after
    boot (the models of the kernel's parts work on physical memory, which
    [boot_enters_rust_main] shows to be what they see below 4 GiB). *)
From stdpp Require Export base tactics numbers list gmap strings.
#[global] Open Scope Z_scope.

(** ** Outcomes of kernel code

    The kernel is built with [panic = "abort"] in the dev profile, so an
    out-of-range slice index, an arithmetic overflow and an explicit [panic!]
    all end the run; a loop that never ends is [Hang]. *)
Inductive panic_reason : Set :=
  | PIndex                  (** slice index out of range *)
  | POverflow               (** arithmetic overflow, checked in the dev profile *)
  | PNull                   (** [slice::from_raw_parts_mut] on a null pointer *)
  | PUnwrap                 (** [expect]/[unwrap] on [None] *)
  | PMessage (msg : string) (** [panic!(msg)] *).

Inductive outcome (A : Type) : Type :=
  | Done (a : A)
  | Panicked (r : panic_reason)
  | Hang.
Arguments Done {A} a.
Arguments Panicked {A} r.
Arguments Hang {A}.

(** ** The state-and-outcome monad *)
Definition M (S A : Type) : Type := S → outcome (A * S).

#[export] Instance M_ret S : MRet (M S) := λ A a s, Done (a, s).
#[export] Instance M_bind S : MBind (M S) := λ A B k m s,
  match m s with
  | Done (a, s') => k a s'
  | Panicked r => Panicked r
  | Hang => Hang
  end.

Definition panic {S A} (r : panic_reason) : M S A := λ _, Panicked r.
Definition hang {S A} : M S A := λ _, Hang.
Definition gets {S A} (f : S → A) : M S A := λ s, Done (f s, s).
Definition modify {S} (f : S → S) : M S unit := λ s, Done (tt, f s).

(** A [for] loop over [l] that updates the local variables [b] of its function. *)
Fixpoint fold_each {S A B} (l : list A) (body : B → A → M S B) (b : B) : M S B :=
  match l with
  | [] => mret b
  | x :: l' => b' ← body b x; fold_each l' body b'
  end.

(** [for x in l { body }] *)
Definition for_each {S A} (l : list A) (body : A → M S unit) : M S unit :=
  fold_each l (λ _ x, body x) tt.

(** [for i in lo..hi { body }] *)
Definition for_range {S} (lo hi : Z) (body : Z → M S unit) : M S unit :=
  for_each (seqZ lo (hi - lo)) body.
Definition fold_range {S B} (lo hi : Z) (body : B → Z → M S B) (b : B) : M S B :=
  fold_each (seqZ lo (hi - lo)) body b.

(** [for x in l { if !test(x) { return } }]: stops at the first failure. *)
Fixpoint check_each {S A} (l : list A) (test : A → M S bool) : M S bool :=
  match l with
  | [] => mret true
  | x :: l' => b ← test x; if (b : bool) then check_each l' test else mret false
  end.

(** ** Machine integers *)
Definition U8_MAX : Z := 255.
Definition U16_MAX : Z := 65535.
Definition U32_MAX : Z := 4294967295.
Definition U64_MAX : Z := 18446744073709551615.

(** [x as u8] and friends: truncation. *)
Definition as_u8 (x : Z) : Z := x mod 2 ^ 8.
Definition as_u16 (x : Z) : Z := x mod 2 ^ 16.
Definition as_u32 (x : Z) : Z := x mod 2 ^ 32.
Definition as_u64 (x : Z) : Z := x mod 2 ^ 64.

(** Checked [usize]/[u64] arithmetic (overflow checks are on). *)
Definition checked {S} (x : Z) : M S Z :=
  if (0 <=? x) && (x <=? U64_MAX) then mret x else panic POverflow.
Definition uadd {S} (x y : Z) : M S Z := checked (x + y).
Definition usub {S} (x y : Z) : M S Z := checked (x - y).
Definition umul {S} (x y : Z) : M S Z := checked (x * y).

(** ** Slices: a list indexed by a [usize] *)
Definition slice_len {A} (l : list A) : Z := Z.of_nat (length l).
Definition slice_get {A} (l : list A) (i : Z) : option A :=
  if 0 <=? i then l !! Z.to_nat i else None.
Definition slice_set {A} (l : list A) (i : Z) (x : A) : list A :=
  if 0 <=? i then <[Z.to_nat i := x]> l else l.

(** ** Total correctness *)
Definition wp {S A} (m : M S A) (Q : A → S → Prop) (s : S) : Prop :=
  ∃ a s', m s = Done (a, s') ∧ Q a s'.

(** A property of the outcome, whatever it is. *)
Definition runs {S A} (m : M S A) (Q : outcome (A * S) → Prop) (s : S) : Prop := Q (m s).

Section wp_rules.
Context {S : Type}.

Lemma runs_bind {A B} (m : M S A) (k : A → M S B) (Q : outcome (B * S) → Prop) s :
  wp m (λ a s', runs (k a) Q s') s → runs (m ≫= k) Q s.
Proof. intros (a & s' & Hm & HQ). unfold runs, mbind, M_bind. by rewrite Hm. Qed.

Lemma wp_run_eq {A} (m : M S A) (Q : A → S → Prop) a s s' : m s = Done (a, s') → Q a s' → wp m Q s.
Proof. intros. by exists a, s'. Qed.

Lemma wp_ret {A} (a : A) (Q : A → S → Prop) s : Q a s → wp (mret a) Q s.
Proof. intros H. by exists a, s. Qed.

Lemma wp_bind {A B} (m : M S A) (k : A → M S B) (Q : B → S → Prop) s :
  wp m (λ a s', wp (k a) Q s') s → wp (m ≫= k) Q s.
Proof.
  intros (a & s' & Hm & b & s'' & Hk & HQ). exists b, s''.
  split; [|done]. unfold mbind, M_bind. by rewrite Hm.
Qed.

Lemma wp_mono {A} (m : M S A) (Q R : A → S → Prop) s :
  wp m Q s → (∀ a s', Q a s' → R a s') → wp m R s.
Proof. intros (a & s' & Hm & HQ) HR. exists a, s'. eauto. Qed.

Lemma bind_Done {A B} (m : M S A) (k : A → M S B) a s s' :
  m s = Done (a, s') → (m ≫= k) s = k a s'.
Proof. intros H. unfold mbind, M_bind. by rewrite H. Qed.

Lemma wp_gets {A} (f : S → A) (Q : A → S → Prop) s : Q (f s) s → wp (gets f) Q s.
Proof. intros H. by exists (f s), s. Qed.

Lemma wp_modify (f : S → S) (Q : () → S → Prop) s : Q tt (f s) → wp (modify f) Q s.
Proof. intros H. by exists tt, (f s). Qed.

Lemma checked_ok x (s : S) : 0 ≤ x ≤ U64_MAX → checked x s = Done (x, s).
Proof.
  intros Hx. unfold checked.
  by rewrite (proj2 (Z.leb_le 0 x)), (proj2 (Z.leb_le x U64_MAX)) by lia.
Qed.

Lemma checked_overflow x (s : S) : U64_MAX < x → checked x s = Panicked POverflow.
Proof.
  intros Hx. unfold checked. by rewrite (proj2 (Z.leb_gt x U64_MAX)), andb_false_r by lia.
Qed.

Lemma wp_checked x (Q : Z → S → Prop) s :
  0 ≤ x ≤ U64_MAX → Q x s → wp (checked x) Q s.
Proof.
  intros Hx HQ. exists x, s. split; [|done]. by apply checked_ok.
Qed.

(** Loop rule: [I pre b s] holds when the prefix [pre] has been processed
    and the local variables are [b]. *)
Lemma wp_fold_each {A B} (l : list A) (body : B → A → M S B) (I : list A → B → S → Prop) b s :
  (∀ pre x post b s, l = pre ++ x :: post → I pre b s →
     wp (body b x) (λ b' s', I (pre ++ [x]) b' s') s) →
  I [] b s → wp (fold_each l body b) (λ b' s', I l b' s') s.
Proof.
  intros Hbody HI.
  cut (∀ pre post b s, l = pre ++ post → I pre b s →
         wp (fold_each post body b) (λ b' s', I l b' s') s).
  { intros H. by apply (H []). }
  clear HI s b. intros pre post. revert pre.
  induction post as [|x post IH]; intros pre b s Hl HI; simpl.
  - apply wp_ret. by rewrite app_nil_r in Hl; subst.
  - apply wp_bind. eapply wp_mono; [by eapply Hbody|].
    intros b' s' HI'. apply (IH (pre ++ [x])); [|done]. by rewrite <-app_assoc.
Qed.

Lemma wp_for_each {A} (l : list A) (body : A → M S unit) (I : list A → S → Prop) s :
  (∀ pre x post s, l = pre ++ x :: post → I pre s →
     wp (body x) (λ _ s', I (pre ++ [x]) s') s) →
  I [] s → wp (for_each l body) (λ _ s', I l s') s.
Proof.
  intros Hbody HI. apply (wp_fold_each l _ (λ pre _, I pre)); [|done].
  intros pre x post _ s' Hl HI'. eauto.
Qed.

(** The same rule for ranges, with the loop counter as the measure. *)
Lemma wp_fold_range {B} lo hi (body : B → Z → M S B) (I : Z → B → S → Prop) b s :
  lo ≤ hi →
  (∀ i b s, lo ≤ i < hi → I i b s → wp (body b i) (λ b' s', I (i + 1) b' s') s) →
  I lo b s → wp (fold_range lo hi body b) (λ b' s', I hi b' s') s.
Proof.
  intros Hle Hbody HI. unfold fold_range.
  eapply wp_mono; [apply (wp_fold_each _ _ (λ pre, I (lo + slice_len pre)))|].
  - intros pre x post b' s' Hl HI'.
    assert (x = lo + slice_len pre ∧ slice_len pre < hi - lo) as [-> Hlt].
    { assert (seqZ lo (hi - lo) !! length pre = Some x) as Hx
        by (rewrite Hl; by apply list_lookup_middle).
      apply lookup_seqZ in Hx as [??]. unfold slice_len. lia. }
    eapply wp_mono; [apply Hbody; [unfold slice_len in *; lia|done]|].
    intros b'' s''. unfold slice_len. rewrite length_app. simpl.
    by replace (lo + Z.of_nat (length pre) + 1)
      with (lo + Z.of_nat (length pre + 1)%nat) by lia.
  - by rewrite Z.add_0_r.
  - intros b' s' HI'. cbv beta in HI'.
    replace (lo + slice_len (seqZ lo (hi - lo))) with hi in HI'; [done|].
    unfold slice_len. rewrite length_seqZ. lia.
Qed.

Lemma wp_for_range lo hi (body : Z → M S unit) (I : Z → S → Prop) s :
  lo ≤ hi →
  (∀ i s, lo ≤ i < hi → I i s → wp (body i) (λ _ s', I (i + 1) s') s) →
  I lo s → wp (for_range lo hi body) (λ _ s', I hi s') s.
Proof.
  intros Hle Hbody HI.
  apply (wp_fold_range lo hi (λ _ x, body x) (λ i _, I i) tt); eauto.
Qed.

Lemma wp_check_each {A} (l : list A) (test : A → M S bool) (P : A → Prop) `{!∀ x, Decision (P x)} s :
  (∀ x, x ∈ l → test x s = Done (bool_decide (P x), s)) →
  check_each l test s = Done (bool_decide (Forall P l), s).
Proof.
  induction l as [|x l IH]; intros Ht; simpl.
  - done.
  - unfold mbind, M_bind. rewrite Ht by set_solver.
    destruct (decide (P x)) as [HP|HP].
    + rewrite (bool_decide_eq_true_2 (P x)) by done.
      rewrite IH by set_solver. do 2 f_equal.
      apply bool_decide_ext. rewrite Forall_cons. tauto.
    + rewrite (bool_decide_eq_false_2 (P x)) by done.
      rewrite bool_decide_eq_false_2; [done|]. by intros [??]%Forall_cons.
Qed.
End wp_rules.

(** Straight-line code: binds, reads and updates of the state. *)
Ltac wp_seq_step :=
  lazymatch goal with
  | |- wp (mbind _ _) _ _ => apply wp_bind
  | |- wp (modify _) _ _ => apply wp_modify
  | |- wp (gets _) _ _ => apply wp_gets
  | |- wp (mret _) _ _ => apply wp_ret
  end; cbv beta.

(** ** Slice lemmas *)
Section slice_lemmas.
Context {A : Type}.
Implicit Types (l : list A) (x : A) (i j : Z).

Lemma slice_get_Some_range l i x : slice_get l i = Some x → 0 ≤ i < slice_len l.
Proof.
  unfold slice_get, slice_len. destruct (Z.leb_spec 0 i); [|done].
  intros ?%lookup_lt_Some. lia.
Qed.

Lemma slice_get_is_Some l i : 0 ≤ i < slice_len l → ∃ x, slice_get l i = Some x.
Proof.
  unfold slice_get, slice_len. intros [??].
  rewrite (proj2 (Z.leb_le 0 i)) by done. apply lookup_lt_is_Some_2. lia.
Qed.

Lemma slice_get_None l i : slice_len l ≤ i → slice_get l i = None.
Proof.
  intros H. destruct (slice_get l i) eqn:E; [|done].
  apply slice_get_Some_range in E. lia.
Qed.

Lemma slice_get_set_eq l i x : 0 ≤ i < slice_len l → slice_get (slice_set l i x) i = Some x.
Proof.
  unfold slice_get, slice_set, slice_len. intros [??].
  rewrite !(proj2 (Z.leb_le 0 i)) by done. apply list_lookup_insert_eq. lia.
Qed.

Lemma slice_get_set_ne l i j x : i ≠ j → slice_get (slice_set l i x) j = slice_get l j.
Proof.
  unfold slice_get, slice_set. intros Hne.
  destruct (Z.leb_spec 0 i), (Z.leb_spec 0 j); try done.
  apply list_lookup_insert_ne. lia.
Qed.

Lemma slice_len_set l i x : slice_len (slice_set l i x) = slice_len l.
Proof.
  unfold slice_set, slice_len. destruct (0 <=? i); [|done].
  by rewrite length_insert.
Qed.

Lemma slice_len_nonneg l : 0 ≤ slice_len l.
Proof. unfold slice_len. lia. Qed.

Lemma slice_get_replicate n x i :
  0 ≤ i < Z.of_nat n → slice_get (replicate n x) i = Some x.
Proof.
  intros [??]. unfold slice_get. rewrite (proj2 (Z.leb_le 0 i)) by done.
  apply lookup_replicate. split; [done|lia].
Qed.

Lemma slice_len_replicate n x : slice_len (replicate n x) = Z.of_nat n.
Proof. unfold slice_len. by rewrite length_replicate. Qed.

Lemma slice_ext l1 l2 :
  slice_len l1 = slice_len l2 →
  (∀ i, 0 ≤ i < slice_len l1 → slice_get l1 i = slice_get l2 i) → l1 = l2.
Proof.
  unfold slice_len, slice_get. intros Hlen Heq. apply list_eq. intros n.
  destruct (decide (n < length l1)%nat) as [Hn|Hn].
  - specialize (Heq (Z.of_nat n)). rewrite (proj2 (Z.leb_le 0 _)) in Heq by lia.
    rewrite Nat2Z.id in Heq. apply Heq. lia.
  - rewrite !lookup_ge_None_2 by lia. done.
Qed.
End slice_lemmas.

(** ** Filters *)
Section filter_lemmas.
Context {A : Type} (P : A → Prop) `{!∀ x, Decision (P x)}.

Lemma filter_none (l : list A) : (∀ x, x ∈ l → ¬ P x) → filter P l = [].
Proof.
  induction l as [|x l IH]; intros Hl; [done|].
  rewrite filter_cons_False by (apply Hl; set_solver). apply IH. set_solver.
Qed.

Lemma filter_all (l : list A) : (∀ x, x ∈ l → P x) → filter P l = l.
Proof.
  induction l as [|x l IH]; intros Hl; [done|].
  rewrite filter_cons_True by (apply Hl; set_solver). f_equal. apply IH. set_solver.
Qed.
End filter_lemmas.

Create Rewrite HintDb slice.
#[export] Hint Rewrite @slice_len_set @slice_len_replicate : slice.
