(* ===== verification/Mutex.v ===== *)
(** * The interrupt-safe mutex (src/src/memory/mutex.rs)

    [Mutex], [MutexGuard], [lock], [try_lock] and the guard's [drop] as
    sequential operations on a kernel state that holds the CPU's interrupt
    flag and a ghost trace of the lock events. Smp.v has the same code as a
    transition system on many CPUs. *)
From S2P Require Import Prelude.

(** ** Lenses: how an operation reaches a piece of the kernel state *)
Record Lens (S A : Type) : Type := mkLens {
  view : S → A;
  put : A → S → S;
}.
Arguments mkLens {S A} view put.
Arguments view {S A} l s.
Arguments put {S A} l a s.

(** The laws of a lens. *)
Class LensLaws {S A} (l : Lens S A) : Prop := {
  view_put a s : view l (put l a s) = a;
  put_put a b s : put l a (put l b s) = put l a s;
  put_view s : put l (view l s) s = s;
}.

(** ** The processor's flags *)

(** [RFLAGS] with its interrupt flag (bit 9) kept apart from the other bits. *)
Record Cpu : Type := mkCpu { other_flags : Z; if_flag : bool }.

(** [pushfq; pop reg] *)
Definition pushfq (c : Cpu) : Z :=
  Z.lor (Z.ldiff (other_flags c) (Z.shiftl 1 9)) (if if_flag c then Z.shiftl 1 9 else 0).

(** Ghost events: what happened to the interrupt flag and to the locks. *)
Inductive LockEvent : Set :=
  | EvCli
  | EvSti
  | EvAcquire (name : string)
  | EvRelease (name : string).

#[export] Instance LockEvent_eq_dec : EqDecision LockEvent.
Proof. solve_decision. Defined.

(** What the mutex needs of the state of the kernel: the flags of the CPU it
    runs on and the ghost trace. *)
Class KernelState (S : Type) : Type := {
  cpu : Lens S Cpu;
  trace : Lens S (list LockEvent);
}.

(** ** The mutex *)

(** [locked: AtomicBool] and [data: UnsafeCell<T>]. *)
Record Mutex (T : Type) : Type := mkMutex { locked : bool; data : T }.
Arguments mkMutex {T} locked data.
Arguments locked {T} m.
Arguments data {T} m.

Definition Mutex_new {T} (value : T) : Mutex T := mkMutex false value.

(** A reference to a mutex of the kernel state, [&'a Mutex<T>]. *)
Record MutexRef (S T : Type) : Type := mkRef { ref_name : string; ref_lens : Lens S (Mutex T) }.
Arguments mkRef {S T} ref_name ref_lens.
Arguments ref_name {S T} m.
Arguments ref_lens {S T} m.

(** The RAII guard; its mutex is the reference passed next to it. *)
Record MutexGuard : Type := mkGuard { interrupts_were_enabled : bool }.

Section mutex_ops.
Context {S : Type} {KS : KernelState S}.

Definition log (e : LockEvent) : M S unit :=
  modify (λ s, put trace (view trace s ++ [e]) s).

Definition set_if (b : bool) : M S unit :=
  modify (λ s, put cpu (mkCpu (other_flags (view cpu s)) b) s).

Definition are_interrupts_enabled : M S bool :=
  rflags ← gets (λ s, pushfq (view cpu s));
  mret (negb (Z.land rflags (Z.shiftl 1 9) =? 0)).

Definition disable_interrupts : M S unit := set_if false;; log EvCli.
Definition enable_interrupts : M S unit := set_if true;; log EvSti.

Context {T : Type} (m : MutexRef S T).

Definition get_mutex : M S (Mutex T) := gets (view (ref_lens m)).
Definition set_mutex (x : Mutex T) : M S unit := modify (put (ref_lens m) x).

(** [self.locked.compare_exchange(false, true, ..)], [true] for [Ok]. *)
Definition compare_exchange : M S bool :=
  x ← get_mutex;
  if locked x then mret false
  else set_mutex (mkMutex true (data x));; log (EvAcquire (ref_name m));; mret true.

(** The spin loop of [lock]. The code runs with interrupts off, and in the
    sequential model no other CPU runs: a lock that is taken when the loop
    starts is taken for ever, and the loop never ends. *)
Definition spin : M S unit :=
  ok ← compare_exchange;
  if (ok : bool) then mret tt else hang.

Definition lock : M S MutexGuard :=
  interrupts_enabled ← are_interrupts_enabled;
  disable_interrupts;;
  spin;;
  mret (mkGuard interrupts_enabled).

Definition try_lock : M S (option MutexGuard) :=
  interrupts_enabled ← are_interrupts_enabled;
  disable_interrupts;;
  ok ← compare_exchange;
  if (ok : bool) then mret (Some (mkGuard interrupts_enabled))
  else
    (if (interrupts_enabled : bool) then enable_interrupts else mret tt);;
    mret None.

(** [Drop for MutexGuard] *)
Definition drop_guard (g : MutexGuard) : M S unit :=
  x ← get_mutex;
  set_mutex (mkMutex false (data x));;
  log (EvRelease (ref_name m));;
  if interrupts_were_enabled g then enable_interrupts else mret tt.

(** [*guard] and [*guard = v] *)
Definition deref : M S T := x ← get_mutex; mret (data x).
Definition assign (v : T) : M S unit :=
  x ← get_mutex; set_mutex (mkMutex (locked x) v).
End mutex_ops.

(** The interrupt flag and the locks held after an event, unless the event
    leaves interrupts on with a lock held. *)
Definition irq_step (st : bool * list string) (e : LockEvent) : option (bool * list string) :=
  let iflag' := match e with EvCli => false | EvSti => true | _ => st.1 end in
  let held' := match e with
    | EvAcquire n => n :: st.2
    | EvRelease n => filter (λ x, x ≠ n) st.2
    | _ => st.2 end in
  if iflag' && negb (bool_decide (held' = [])) then None else Some (iflag', held').

(** A trace along which interrupts are off whenever a lock is held. *)
Fixpoint irq_run (st : bool * list string) (t : list LockEvent) : option (bool * list string) :=
  match t with
  | [] => Some st
  | e :: t' => match irq_step st e with Some st' => irq_run st' t' | None => None end
  end.

(** ** Sequential lemmas *)
Lemma pushfq_bit9 c : negb (Z.land (pushfq c) (Z.shiftl 1 9) =? 0) = if_flag c.
Proof.
  unfold pushfq. change (Z.shiftl 1 9) with 512.
  rewrite Z.land_lor_distr_l.
  rewrite Z.ldiff_land, <-Z.land_assoc, (Z.land_comm (Z.lnot 512)).
  rewrite Z.land_lnot_diag, Z.land_0_r, Z.lor_0_l.
  by destruct (if_flag c).
Qed.

Lemma irq_run_app st t1 t2 :
  irq_run st (t1 ++ t2) = match irq_run st t1 with Some st' => irq_run st' t2 | None => None end.
Proof.
  revert st. induction t1 as [|e t1 IH]; intros st; simpl; [done|].
  by destruct (irq_step st e).
Qed.

Lemma irq_run_mid st st1 st2 pre ev post :
  irq_run st pre = Some st1 → irq_run st1 ev = Some st1 → irq_run st1 post = Some st2 →
  irq_run st (pre ++ ev ++ post) = Some st2.
Proof. intros H1 H2 H3. by rewrite irq_run_app, H1, irq_run_app, H2. Qed.

(** A trace that starts and ends with the flag [b] and no lock held, along which
    interrupts are off whenever a lock is held, and are never turned on when
    they were off at the start. *)
Definition quiet (b : bool) (t : list LockEvent) : Prop :=
  irq_run (b, []) t = Some (b, []) ∧ (b || negb (bool_decide (EvSti ∈ t))) = true.

Lemma quiet_nil b : quiet b [].
Proof. by destruct b. Qed.

Lemma quiet_app b t1 t2 : quiet b t1 → quiet b t2 → quiet b (t1 ++ t2).
Proof.
  intros [H1 E1] [H2 E2]. split; [by rewrite irq_run_app, H1|]. destruct b; [done|]. simpl in *.
  apply negb_true_iff, bool_decide_eq_false in E1. apply negb_true_iff, bool_decide_eq_false in E2.
  apply negb_true_iff, bool_decide_eq_false. set_solver.
Qed.

Lemma quiet_no_sti t : quiet false t → EvSti ∉ t.
Proof. intros [_ H]. simpl in H. by apply negb_true_iff, bool_decide_eq_false in H. Qed.

Section mutex_lemmas.
Context {S : Type} {KS : KernelState S}.

Lemma are_interrupts_enabled_run (s : S) :
  are_interrupts_enabled s = Done (if_flag (view cpu s), s).
Proof.
  unfold are_interrupts_enabled. unfold mbind, M_bind, gets, mret, M_ret.
  by rewrite pushfq_bit9.
Qed.
End mutex_lemmas.

(** ** Sequential specification *)

(** The flags, the trace and a mutex are separate pieces of the state. *)
Class MutexLaws {S T} {KS : KernelState S} (m : MutexRef S T) : Prop := {
  ml_cpu_cpu c s : view cpu (put cpu c s) = c;
  ml_cpu_trace t s : view cpu (put trace t s) = view cpu s;
  ml_cpu_ref x s : view cpu (put (ref_lens m) x s) = view cpu s;
  ml_ref_ref x s : view (ref_lens m) (put (ref_lens m) x s) = x;
  ml_ref_cpu c s : view (ref_lens m) (put cpu c s) = view (ref_lens m) s;
  ml_ref_trace t s : view (ref_lens m) (put trace t s) = view (ref_lens m) s;
}.

Section sequential.
Context {S T : Type} {KS : KernelState S} (m : MutexRef S T) {ML : MutexLaws m}.

(** What the code can see of a state: the flag and the mutex. *)
Definition mutex_view (s : S) : bool * Mutex T := (if_flag (view cpu s), view (ref_lens m) s).

Local Ltac views := repeat (simpl; rewrite ?(ml_cpu_cpu (m := m)), ?(ml_cpu_trace (m := m)),
  ?(ml_cpu_ref (m := m)), ?(ml_ref_ref (m := m)), ?(ml_ref_cpu (m := m)), ?(ml_ref_trace (m := m))).
Local Ltac run_mutex :=
  unfold lock, try_lock, spin, compare_exchange, drop_guard, get_mutex, set_mutex,
    disable_interrupts, enable_interrupts, set_if, log, wp, runs;
  rewrite ?(bind_Done _ _ _ _ _ (are_interrupts_enabled_run _));
  unfold mbind, M_bind, gets, modify, mret, M_ret; views.

Lemma lock_run s b x :
  mutex_view s = (b, mkMutex false x) →
  wp (lock m) (λ g s', g = mkGuard b ∧ mutex_view s' = (false, mkMutex true x)) s.
Proof.
  unfold mutex_view. intros [= Hb Hx]. run_mutex. rewrite Hx. simpl.
  eexists _, _. split; [reflexivity|]. split; [by rewrite Hb|]. by views.
Qed.

Lemma drop_run s g b l x :
  mutex_view s = (b, mkMutex l x) →
  wp (drop_guard m g) (λ _ s', mutex_view s' = (interrupts_were_enabled g || b, mkMutex false x)) s.
Proof.
  unfold mutex_view. intros [= Hb Hx]. run_mutex. destruct (interrupts_were_enabled g); simpl;
    (eexists _, _; split; [reflexivity|]); views; rewrite Hx; simpl; by rewrite ?Hb.
Qed.

Lemma try_lock_run s b l x :
  mutex_view s = (b, mkMutex l x) →
  wp (try_lock m) (λ r s',
    if l then r = None ∧ mutex_view s' = (b, mkMutex true x)
    else r = Some (mkGuard b) ∧ mutex_view s' = (false, mkMutex true x)) s.
Proof.
  unfold mutex_view. intros [= Hb Hx]. run_mutex. rewrite Hx, Hb. destruct l; simpl.
  - destruct b; simpl; (eexists _, _; split; [reflexivity|]; split; [done|]); views; by rewrite Hx.
  - eexists _, _. split; [reflexivity|]. split; [done|]. by views.
Qed.

Lemma lock_taken_hangs s : locked (view (ref_lens m) s) = true → lock m s = Hang.
Proof. intros Hl. run_mutex. by rewrite Hl. Qed.
End sequential.

(** C19: the mutex on one CPU. From a state where the interrupt flag is [b] and
    the mutex holds [x]: [lock] on a free mutex takes it, turns interrupts off
    and keeps the data; [lock] on a taken mutex never returns; [try_lock]
    behaves like [lock] on a free mutex, and otherwise returns [None] with the
    flag and the mutex as they were; and [lock] followed by the drop of its
    guard gives back the flag and the mutex exactly. *)
Theorem mutex_contract {S T} {KS : KernelState S} (m : MutexRef S T) {ML : MutexLaws m} s b l x :
  mutex_view m s = (b, mkMutex l x) →
  (l = false → wp (lock m) (λ g s', g = mkGuard b ∧ mutex_view m s' = (false, mkMutex true x)) s) ∧
  (l = true → lock m s = Hang) ∧
  wp (try_lock m) (λ r s',
    if l then r = None ∧ mutex_view m s' = (b, mkMutex true x)
    else r = Some (mkGuard b) ∧ mutex_view m s' = (false, mkMutex true x)) s ∧
  (l = false → wp (g ← lock m; drop_guard m g) (λ _ s', mutex_view m s' = (b, mkMutex false x)) s).
Proof.
  intros Hv. split_and!.
  - intros ->. by apply lock_run.
  - intros ->. apply lock_taken_hangs; [exact _|]. unfold mutex_view in Hv. injection Hv as _ Hx. by rewrite Hx.
  - by apply try_lock_run.
  - intros ->. apply wp_bind. eapply wp_mono; [by apply lock_run|].
    intros g s' [-> Hv']. eapply wp_mono; [by eapply drop_run|]. cbv beta. simpl.
    by rewrite orb_false_r.
Qed.

(** A state with one mutex. *)
Record OneMutex : Type := mkOneMutex { om_cpu : Cpu; om_trace : list LockEvent; om_mutex : Mutex Z }.

#[export] Instance OneMutex_state : KernelState OneMutex := {
  cpu := mkLens om_cpu (λ c s, mkOneMutex c (om_trace s) (om_mutex s));
  trace := mkLens om_trace (λ t s, mkOneMutex (om_cpu s) t (om_mutex s));
}.

Definition om_ref : MutexRef OneMutex Z :=
  mkRef "m" (mkLens om_mutex (λ x s, mkOneMutex (om_cpu s) (om_trace s) x)).

#[export] Instance om_laws : MutexLaws om_ref.
Proof. by split. Qed.

Lemma mutex_contract_witness :
  let s := mkOneMutex (mkCpu 2 true) [] (mkMutex true 7) in
  lock om_ref s = Hang ∧
  wp (try_lock om_ref) (λ r s', r = None ∧ mutex_view om_ref s' = (true, mkMutex true 7)) s.
Proof.
  destruct (mutex_contract (KS := OneMutex_state) om_ref (mkOneMutex (mkCpu 2 true) [] (mkMutex true 7)) true true 7 eq_refl)
    as (_ & H1 & H2 & _).
  split; [exact (H1 eq_refl)|exact H2].
Defined.
