(* ===== verification/Memory.v ===== *)
(** * Physical memory

    Memory is a function from addresses to bytes; numbers are stored little
    endian. *)
From S2P Require Import Prelude.

Abbreviation memory := (Z → Z).

(** The little-endian number in the [n] bytes at [a]. *)
Fixpoint read_le (n : nat) (mem : memory) (a : Z) : Z :=
  match n with
  | O => 0
  | S n' => as_u8 (mem a) + 256 * read_le n' mem (a + 1)
  end.

Definition read_u32 (mem : memory) (a : Z) : Z := read_le 4 mem a.
Definition read_u64 (mem : memory) (a : Z) : Z := read_le 8 mem a.

(** ** Bytes in memory *)

(** The [n] little-endian bytes of [x]. *)
Fixpoint le_bytes (n : nat) (x : Z) : list Z :=
  match n with
  | O => []
  | S n' => x mod 256 :: le_bytes n' (x / 256)
  end.

(** The bytes [bs] are in memory at [a]. *)
Definition holds (mem : memory) (a : Z) (bs : list Z) : Prop :=
  ∀ (i : nat) b, bs !! i = Some b → mem (a + Z.of_nat i) = b.

Lemma length_le_bytes n x : length (le_bytes n x) = n.
Proof. revert x. induction n; intros; simpl; auto. Qed.

Lemma holds_app mem a bs1 bs2 :
  holds mem a (bs1 ++ bs2) ↔ holds mem a bs1 ∧ holds mem (a + Z.of_nat (length bs1)) bs2.
Proof.
  split.
  - intros H. split; intros i b Hi.
    + apply H. by apply lookup_app_l_Some.
    + rewrite <-Z.add_assoc, <-Nat2Z.inj_add. apply H.
      rewrite lookup_app_r by lia. by rewrite Nat.add_sub_swap, Nat.sub_diag.
  - intros [H1 H2] i b [Hi|[Hle Hi]]%lookup_app_Some; [by apply H1|].
    apply H2 in Hi. rewrite <-Hi. f_equal. lia.
Qed.

Lemma holds_cons mem a b bs :
  holds mem a (b :: bs) ↔ mem a = b ∧ holds mem (a + 1) bs.
Proof.
  rewrite (holds_app mem a [b] bs). simpl.
  split; intros [H ?]; (split; [|done]).
  - rewrite <-(Z.add_0_r a). by apply (H O).
  - intros [|i] b' [=<-]. by rewrite Z.add_0_r.
Qed.

Lemma read_le_holds n mem a x :
  0 ≤ x < 256 ^ Z.of_nat n → holds mem a (le_bytes n x) → read_le n mem a = x.
Proof.
  revert a x. induction n as [|n IH]; intros a x Hx H; simpl in *.
  - lia.
  - apply holds_cons in H as [-> H].
    rewrite Nat2Z.inj_succ, Z.pow_succ_r in Hx by lia.
    rewrite (IH _ (x / 256)); [..|done].
    + unfold as_u8. change (2 ^ 8) with 256. rewrite Z.mod_mod by lia.
      pose proof (Z.div_mod x 256 ltac:(lia)). lia.
    + split; [apply Z.div_pos; lia|apply Z.div_lt_upper_bound; lia].
Qed.

Lemma read_u32_holds mem a x :
  0 ≤ x ≤ U32_MAX → holds mem a (le_bytes 4 x) → read_u32 mem a = x.
Proof. intros Hx. apply (read_le_holds 4). unfold U32_MAX in Hx. simpl. lia. Qed.

Lemma read_u64_holds mem a x :
  0 ≤ x ≤ U64_MAX → holds mem a (le_bytes 8 x) → read_u64 mem a = x.
Proof. intros Hx. apply (read_le_holds 8). unfold U64_MAX in Hx. simpl. lia. Qed.

(** Memory that holds [bs] at [a] and zeros elsewhere. *)
Definition bytes_at (a : Z) (bs : list Z) : memory := λ x, default 0 (slice_get bs (x - a)).

Lemma holds_bytes_at a bs : holds (bytes_at a bs) a bs.
Proof.
  intros i b Hi. unfold bytes_at. replace (a + Z.of_nat i - a) with (Z.of_nat i) by lia.
  unfold slice_get. rewrite (proj2 (Z.leb_le _ _)), Nat2Z.id, Hi by lia. done.
Qed.

(** ** The value of bytes *)
Fixpoint le_val (bs : list Z) : Z :=
  match bs with
  | [] => 0
  | b :: bs' => b mod 256 + 256 * le_val bs'
  end.

Lemma read_le_val mem a bs : holds mem a bs → read_le (length bs) mem a = le_val bs.
Proof.
  revert a. induction bs as [|b bs IH]; intros a H; simpl; [done|].
  apply holds_cons in H as [-> H]. by rewrite (IH _ H).
Qed.

Lemma le_val_le_bytes n x bs :
  le_val (le_bytes n x ++ bs) = x mod 256 ^ Z.of_nat n + 256 ^ Z.of_nat n * le_val bs.
Proof.
  revert x. induction n as [|n IH]; intros x.
  - change (256 ^ Z.of_nat 0) with 1. rewrite Z.mod_1_r. simpl. lia.
  - rewrite Nat2Z.inj_succ, Z.pow_succ_r by lia. cbn [le_bytes app le_val]. rewrite IH.
    rewrite Z.mod_mod by lia. assert (0 < 256 ^ Z.of_nat n) by (apply Z.pow_pos_nonneg; lia).
    rewrite (Z.rem_mul_r x 256) by lia. lia.
Qed.

(** A sub-range of bytes. *)
Lemma holds_sub mem a bs1 bs2 bs3 :
  holds mem a (bs1 ++ bs2 ++ bs3) → holds mem (a + Z.of_nat (length bs1)) bs2.
Proof. intros [_ [H _]%holds_app]%holds_app. done. Qed.

(** ** Stores *)

(** Memory after a store of the [n] little-endian bytes of [x] at [a]. *)
Definition write_le (n : nat) (a x : Z) (mem : memory) : memory := λ y,
  default (mem y) (slice_get (le_bytes n x) (y - a)).

Lemma write_le_other n a x mem y : y < a ∨ a + Z.of_nat n ≤ y → write_le n a x mem y = mem y.
Proof.
  intros Hy. unfold write_le. destruct (slice_get _ _) eqn:E; [|done].
  apply slice_get_Some_range in E. unfold slice_len in E. rewrite length_le_bytes in E. lia.
Qed.

Lemma write_le_holds n a x mem : holds (write_le n a x mem) a (le_bytes n x).
Proof.
  intros i b Hi. unfold write_le, slice_get. replace (a + Z.of_nat i - a) with (Z.of_nat i) by lia.
  by rewrite (proj2 (Z.leb_le _ _)), Nat2Z.id, Hi by lia.
Qed.

Lemma read_write_le n a x mem : 0 ≤ x < 256 ^ Z.of_nat n → read_le n (write_le n a x mem) a = x.
Proof. intros Hx. apply read_le_holds; [done|apply write_le_holds]. Qed.

(** Two memories agree on the [n] bytes at [a]. *)
Definition agree (mem mem' : memory) (a n : Z) : Prop := ∀ x, a ≤ x < a + n → mem' x = mem x.

Lemma read_le_agree n mem mem' a : agree mem mem' a (Z.of_nat n) → read_le n mem' a = read_le n mem a.
Proof.
  revert a. induction n as [|n IH]; intros a H; simpl; [done|].
  rewrite (H a) by lia. do 2 f_equal. apply IH. intros x Hx. apply H. lia.
Qed.

Lemma read_le_write_other n k a b x mem :
  b + Z.of_nat k ≤ a ∨ a + Z.of_nat n ≤ b → read_le k (write_le n a x mem) b = read_le k mem b.
Proof. intros Hd. apply read_le_agree. intros y Hy. apply write_le_other. lia. Qed.

(** A number is its low and its high bytes. *)
Lemma read_le_split n k mem a :
  read_le (n + k) mem a = read_le n mem a + 256 ^ Z.of_nat n * read_le k mem (a + Z.of_nat n).
Proof.
  revert a. induction n as [|n IH]; intros a.
  - cbn [Nat.add read_le]. change (256 ^ Z.of_nat 0) with 1. rewrite Z.add_0_r. lia.
  - rewrite Nat2Z.inj_succ, Z.pow_succ_r by lia. cbn [Nat.add read_le]. rewrite IH.
    replace (a + 1 + Z.of_nat n) with (a + Z.succ (Z.of_nat n)) by lia. lia.
Qed.

Lemma read_le_zero n mem a : (∀ x, a ≤ x < a + Z.of_nat n → mem x = 0) → read_le n mem a = 0.
Proof.
  revert a. induction n as [|n IH]; intros a H; simpl; [done|].
  rewrite (H a), (IH (a + 1)) by (intros; try apply H; lia). done.
Qed.

Lemma holds_agree mem mem' a bs : agree mem mem' a (Z.of_nat (length bs)) → holds mem a bs → holds mem' a bs.
Proof. intros Ha H i b Hi. rewrite Ha; [by apply H|]. apply lookup_lt_Some in Hi. lia. Qed.
