(* ===== verification/Multiboot2.v ===== *)
(** * The Multiboot2 boot information parser (src/src/memory/multiboot2.rs)

    A reference to a structure is its address. Both loops of the parser ([find_tag] and the
    iteration over a memory map) take fuel: running out of it is [Hang]. *)
From S2P Require Import Prelude Memory.

(** ** Tags *)
Definition MULTIBOOT2_TAG_TYPE_END : Z := 0.
Definition MULTIBOOT2_TAG_TYPE_MMAP : Z := 6.

(** [&*(current as *const TagHeader)] *)
Record TagHeader : Type := mkTagHeader { typ : Z; size : Z }.
Definition TagHeader_read (mem : memory) (a : Z) : TagHeader :=
  mkTagHeader (read_u32 mem a) (read_u32 mem (a + 4)).

(** [&*(ptr as *const MemoryMapTag)] *)
Record MemoryMapTag : Type :=
  mkMemoryMapTag { mmap_typ : Z; mmap_size : Z; entry_size : Z; entry_version : Z }.
Definition MemoryMapTag_read (mem : memory) (a : Z) : MemoryMapTag :=
  mkMemoryMapTag (read_u32 mem a) (read_u32 mem (a + 4))
                 (read_u32 mem (a + 8)) (read_u32 mem (a + 12)).
Definition size_of_MemoryMapTag : Z := 16.

(** [*(self.current as *const MemoryArea)] *)
Record MemoryArea : Type :=
  mkMemoryArea { base_addr : Z; length_ : Z; area_typ : Z; reserved : Z }.
Definition MemoryArea_read (mem : memory) (a : Z) : MemoryArea :=
  mkMemoryArea (read_u64 mem a) (read_u64 mem (a + 8))
               (read_u32 mem (a + 16)) (read_u32 mem (a + 20)).

(** [(x + 7) & !7] *)
Definition align_up8 (x : Z) : Z := Z.land x (Z.lnot 7).

Section parser.
Context {St : Type}.

(** [BootInfo::parse]: the address of the structure, unless it is null. *)
Definition BootInfo_parse (ptr : Z) : option Z :=
  if ptr =? 0 then None else Some ptr.

(** The loop of [find_tag]. *)
Fixpoint find_tag_loop (fuel : nat) (mem : memory) (tag_type current : Z) : M St (option Z) :=
  match fuel with
  | O => hang
  | S fuel' =>
      let tag := TagHeader_read mem current in
      if typ tag =? MULTIBOOT2_TAG_TYPE_END then mret None
      else if typ tag =? tag_type then mret (Some current)
      else
        x ← uadd current (size tag);
        y ← uadd x 7;
        find_tag_loop fuel' mem tag_type (align_up8 y)
  end.

Definition find_tag (fuel : nat) (mem : memory) (self_ptr tag_type : Z) : M St (option Z) :=
  current ← uadd self_ptr 8;
  find_tag_loop fuel mem tag_type current.

Definition memory_map_tag (fuel : nat) (mem : memory) (self_ptr : Z) : M St (option Z) :=
  find_tag fuel mem self_ptr MULTIBOOT2_TAG_TYPE_MMAP.

(** ** The iterator over memory areas *)
Record MemoryAreaIter : Type :=
  mkMemoryAreaIter { current : Z; iter_end : Z; iter_entry_size : Z }.

Definition memory_areas (mem : memory) (self_ptr : Z) : M St MemoryAreaIter :=
  let tag := MemoryMapTag_read mem self_ptr in
  let start := self_ptr + size_of_MemoryMapTag in
  end_ ← uadd self_ptr (mmap_size tag);
  mret (mkMemoryAreaIter start end_ (entry_size tag)).

Definition MemoryAreaIter_next (mem : memory) (it : MemoryAreaIter) :
    M St (option MemoryArea * MemoryAreaIter) :=
  if iter_end it <=? current it then mret (None, it)
  else
    let area := MemoryArea_read mem (current it) in
    c ← uadd (current it) (iter_entry_size it);
    mret (Some area, mkMemoryAreaIter c (iter_end it) (iter_entry_size it)).

(** [for entry in iter { body }], which updates the local variables [b] of its
    function: a call of [next] before each round of the body. *)
Fixpoint fold_iter {B} (fuel : nat) (mem : memory) (it : MemoryAreaIter) (body : B → MemoryArea → M St B) (b : B) : M St B :=
  match fuel with
  | O => hang
  | S fuel' =>
      '(o, it') ← MemoryAreaIter_next mem it;
      match o with
      | None => mret b
      | Some area => b' ← body b area; fold_iter fuel' mem it' body b'
      end
  end.

(** [for entry in mmap.memory_areas() { body }]: every entry takes at least one
    byte of the tag, so its size bounds the number of iterations. *)
Definition fold_areas {B} (mem : memory) (self_ptr : Z) (body : B → MemoryArea → M St B) (b : B) : M St B :=
  it ← memory_areas mem self_ptr;
  fold_iter (S (Z.to_nat (mmap_size (MemoryMapTag_read mem self_ptr)))) mem it body b.

(** The loops whose body keeps the entries it sees. *)
Definition keep_area (l : list MemoryArea) (area : MemoryArea) : M St (list MemoryArea) := mret (l ++ [area]).
Definition collect (fuel : nat) (mem : memory) (it : MemoryAreaIter) : M St (list MemoryArea) :=
  fold_iter fuel mem it keep_area [].
Definition areas_of (mem : memory) (self_ptr : Z) : M St (list MemoryArea) :=
  fold_areas mem self_ptr keep_area [].
End parser.

(** ** The format, as the loader writes it *)

Definition encode_area (a : MemoryArea) : list Z :=
  le_bytes 8 (base_addr a) ++ le_bytes 8 (length_ a) ++
  le_bytes 4 (area_typ a) ++ le_bytes 4 (reserved a).

Definition encode_mmap (version : Z) (areas : list MemoryArea) : list Z :=
  le_bytes 4 MULTIBOOT2_TAG_TYPE_MMAP ++
  le_bytes 4 (16 + 24 * Z.of_nat (length areas)) ++
  le_bytes 4 24 ++ le_bytes 4 version ++ mjoin (encode_area <$> areas).

(** A chain of tag headers, ended by the end tag; each tag is its type and
    the size its header gives. *)
Fixpoint tags_at (mem : memory) (a : Z) (tags : list (Z * Z)) : Prop :=
  match tags with
  | [] => typ (TagHeader_read mem a) = MULTIBOOT2_TAG_TYPE_END
  | (t, sz) :: tags' =>
      t ≠ MULTIBOOT2_TAG_TYPE_END ∧ TagHeader_read mem a = mkTagHeader t sz ∧
      a + sz + 7 ≤ U64_MAX ∧ tags_at mem (align_up8 (a + sz + 7)) tags'
  end.

(** The address of the first tag of type [ty] of the chain. *)
Fixpoint first_tag (a : Z) (ty : Z) (tags : list (Z * Z)) : option Z :=
  match tags with
  | [] => None
  | (t, sz) :: tags' => if t =? ty then Some a else first_tag (align_up8 (a + sz + 7)) ty tags'
  end.

Definition area_ok (a : MemoryArea) : Prop :=
  0 ≤ base_addr a ≤ U64_MAX ∧ 0 ≤ length_ a ≤ U64_MAX ∧
  0 ≤ area_typ a ≤ U32_MAX ∧ 0 ≤ reserved a ≤ U32_MAX.

(** ** Lemmas *)
Lemma length_encode_area a : length (encode_area a) = 24%nat.
Proof. unfold encode_area. by rewrite !length_app, !length_le_bytes. Qed.

Lemma length_encode_mmap version areas :
  length (encode_mmap version areas) = (16 + 24 * length areas)%nat.
Proof.
  unfold encode_mmap. rewrite !length_app, !length_le_bytes. rewrite !Nat.add_assoc. f_equal.
  induction areas as [|x areas IH]; [done|].
  change (mjoin (encode_area <$> x :: areas)) with (encode_area x ++ mjoin (encode_area <$> areas)).
  rewrite length_app, length_encode_area, IH. cbn [length]. lia.
Qed.

Lemma MemoryArea_read_holds mem a area :
  area_ok area → holds mem a (encode_area area) → MemoryArea_read mem a = area.
Proof.
  intros (Hb&Hl&Ht&Hr) H. unfold encode_area in H.
  apply holds_app in H as [H1 H]. apply holds_app in H as [H2 H].
  apply holds_app in H as [H3 H4]. rewrite !length_le_bytes in *.
  rewrite <-!Z.add_assoc in *. simpl in *.
  destruct area; unfold MemoryArea_read; simpl in *.
  by rewrite (read_u64_holds _ _ base_addr0), (read_u64_holds _ _ length_0),
    (read_u32_holds _ _ area_typ0), (read_u32_holds _ _ reserved0).
Qed.

(** Iterating from [c] over [areas] entries of 24 bytes. *)
Lemma fold_iter_holds {St B} fuel mem c areas (body : B → MemoryArea → M St B) b (s : St) :
  (length areas < fuel)%nat → Forall area_ok areas →
  0 ≤ c → c + 24 * Z.of_nat (length areas) ≤ U64_MAX →
  holds mem c (mjoin (encode_area <$> areas)) →
  fold_iter fuel mem (mkMemoryAreaIter c (c + 24 * Z.of_nat (length areas)) 24) body b s = fold_each areas body b s.
Proof.
  revert c fuel b s. induction areas as [|x areas IH]; intros c fuel b s Hf Hok Hc Hmax H;
    (destruct fuel as [|fuel]; [simpl in Hf; lia|]); cbn [fold_iter fold_each length] in *;
    unfold mbind, M_bind, MemoryAreaIter_next; cbn [iter_end current iter_entry_size].
  - by rewrite (proj2 (Z.leb_le _ _)) by lia.
  - rewrite (proj2 (Z.leb_gt _ _)) by lia.
    apply Forall_cons in Hok as [Hx Hok].
    change (holds mem c (encode_area x ++ mjoin (encode_area <$> areas))) in H.
    apply holds_app in H as [H1 H2]. rewrite length_encode_area in H2.
    unfold mbind, M_bind, uadd. rewrite checked_ok by lia.
    replace (c + 24 * Z.of_nat (S (length areas)))
      with (c + 24 + 24 * Z.of_nat (length areas)) by lia.
    unfold mret at 1, M_ret at 1. rewrite (MemoryArea_read_holds _ _ x) by done.
    destruct (body b x s) as [[b' s']| |]; [|done..]. apply IH; (done || lia).
Qed.

(** The loop over the memory map is the loop over the areas that it encodes. *)
Lemma fold_areas_holds {St B} mem a version areas (body : B → MemoryArea → M St B) b (s : St) :
  Forall area_ok areas → 0 ≤ a → 0 ≤ version ≤ U32_MAX →
  16 + 24 * Z.of_nat (length areas) ≤ U32_MAX →
  a + 16 + 24 * Z.of_nat (length areas) ≤ U64_MAX →
  holds mem a (encode_mmap version areas) →
  fold_areas mem a body b s = fold_each areas body b s.
Proof.
  intros Hok Ha Hv Hsz Hend H. unfold encode_mmap in H.
  apply holds_app in H as [H1 H]. apply holds_app in H as [H2 H].
  apply holds_app in H as [H3 H]. apply holds_app in H as [H4 H].
  rewrite !length_le_bytes, <-!Z.add_assoc in *.
  assert (MemoryMapTag_read mem a = mkMemoryMapTag 6 (16 + 24 * Z.of_nat (length areas)) 24 version) as Htag.
  { unfold MemoryMapTag_read. f_equal.
    - by apply read_u32_holds.
    - apply read_u32_holds; [lia|done].
    - by apply read_u32_holds.
    - by apply read_u32_holds. }
  unfold fold_areas, memory_areas. rewrite Htag. cbn [mmap_size entry_size].
  unfold mbind, M_bind, uadd. rewrite checked_ok by lia.
  unfold mret, M_ret, size_of_MemoryMapTag. rewrite Z.add_assoc.
  apply fold_iter_holds; (done || lia).
Qed.

Lemma fold_keep_area {St} areas l (s : St) : fold_each areas keep_area l s = Done (l ++ areas, s).
Proof.
  revert l. induction areas as [|x areas IH]; intros l; cbn; [by rewrite app_nil_r|].
  unfold mbind, M_bind. cbn. rewrite IH. by rewrite <-app_assoc.
Qed.

Lemma find_tag_loop_at {St} fuel mem a ty tags (s : St) :
  (length tags < fuel)%nat → 0 ≤ a → Forall (λ t, 0 ≤ t.2) tags → tags_at mem a tags →
  find_tag_loop fuel mem ty a s = Done (first_tag a ty tags, s).
Proof.
  revert a fuel. induction tags as [|[t sz] tags IH]; intros a fuel Hf Ha Hsz H;
    (destruct fuel as [|fuel]; [simpl in Hf; lia|]); cbn [find_tag_loop].
  - cbn [tags_at] in H. by rewrite H.
  - destruct H as (Ht & -> & Hmax & H). apply Forall_cons in Hsz as [Hs Hsz].
    simpl in *. rewrite (proj2 (Z.eqb_neq _ _)) by done.
    destruct (t =? ty); [done|].
    unfold mbind, M_bind, uadd. rewrite !checked_ok by lia.
    apply IH; [lia| |done|done].
    unfold align_up8. apply Z.land_nonneg. lia.
Qed.

(** The first address after the end tag. *)
Fixpoint tags_end (a : Z) (tags : list (Z * Z)) : Z :=
  match tags with
  | [] => a + 8
  | (_, sz) :: tags' => tags_end (align_up8 (a + sz + 7)) tags'
  end.

Lemma align_up8_bounds x : x - 7 ≤ align_up8 x ≤ x.
Proof.
  assert (align_up8 x = x / 2 ^ 3 * 2 ^ 3) as ->.
  { unfold align_up8. change 7 with (Z.ones 3). rewrite <-Z.ldiff_land, Z.ldiff_ones_r by lia.
    by rewrite Z.shiftl_mul_pow2, Z.shiftr_div_pow2 by lia. }
  pose proof (Z.div_mod x (2 ^ 3) ltac:(lia)). pose proof (Z.mod_pos_bound x (2 ^ 3) ltac:(lia)). lia.
Qed.

Lemma tags_end_ge a tags : Forall (λ t, 0 ≤ t.2) tags → a + 8 ≤ tags_end a tags.
Proof.
  revert a. induction tags as [|[t sz] tags IH]; intros a Hsz; cbn [tags_end]; [lia|].
  apply Forall_cons in Hsz as [Hs Hsz]. simpl in Hs. specialize (IH (align_up8 (a + sz + 7)) Hsz).
  pose proof (align_up8_bounds (a + sz + 7)). lia.
Qed.

(** Only the bytes of the chain matter. *)
Lemma tags_at_agree mem mem' a tags :
  Forall (λ t, 0 ≤ t.2) tags → (∀ x, a ≤ x < tags_end a tags → mem' x = mem x) →
  tags_at mem a tags → tags_at mem' a tags.
Proof.
  revert a. induction tags as [|[t sz] tags IH]; intros a Hsz Hag H.
  - cbn [tags_at tags_end] in *. rewrite <-H. unfold TagHeader_read, read_u32. cbn [typ].
    apply read_le_agree. intros x Hx. apply Hag. lia.
  - pose proof (tags_end_ge a _ Hsz) as Hge. apply Forall_cons in Hsz as [Hs Hsz]. simpl in Hs.
    pose proof (align_up8_bounds (a + sz + 7)). destruct H as (Ht & Hh & Hm & H). split_and!; [done| |done|].
    + rewrite <-Hh. unfold TagHeader_read, read_u32. f_equal; apply read_le_agree; intros x Hx; apply Hag; lia.
    + apply IH; [done| |done]. intros x Hx. apply Hag. cbn [tags_end]. lia.
Qed.

(** ** Theorems *)

(** C23: finding a tag. On a well-formed chain of tags the search ends and
    returns the first tag of the type asked for, or [None] when there is none
    before the end tag. *)
Theorem find_tag_first {St} fuel mem info ty tags (s : St) :
  0 ≤ info → info + 8 ≤ U64_MAX → (length tags < fuel)%nat →
  Forall (λ t, 0 ≤ t.2) tags → tags_at mem (info + 8) tags →
  find_tag fuel mem info ty s = Done (first_tag (info + 8) ty tags, s).
Proof.
  intros Hi Hmax Hf Hsz Ht. unfold find_tag, mbind, M_bind, uadd. rewrite checked_ok by lia.
  apply find_tag_loop_at; try done. lia.
Qed.

(** A boot information structure at 64 with a tag of type 1 and 12 bytes, a
    memory map tag at 88, and the end tag. *)
Definition sample_info : list Z :=
  le_bytes 4 200 ++ le_bytes 4 0 ++
  le_bytes 4 1 ++ le_bytes 4 12 ++ le_bytes 4 7 ++ le_bytes 4 0 ++
  encode_mmap 0 [mkMemoryArea 0x100000 0x700000 1 0] ++
  le_bytes 4 0 ++ le_bytes 4 8.

Lemma find_tag_first_witness :
  find_tag 3 (bytes_at 64 sample_info) 64 MULTIBOOT2_TAG_TYPE_MMAP tt = Done (Some 88, tt).
Proof.
  apply (find_tag_first 3 (bytes_at 64 sample_info) 64 6 [(1, 12); (6, 40)] tt).
  - lia.
  - vm_compute. discriminate.
  - simpl. lia.
  - repeat constructor; simpl; lia.
  - repeat split; vm_compute; discriminate || reflexivity.
Defined.

(** C22: the memory map round trip. Whatever list of areas the loader writes
    as a memory map tag, iterating over the tag ends and yields these areas in
    order. *)
Theorem memory_map_roundtrip {St} mem a version areas (s : St) :
  Forall area_ok areas → 0 ≤ a → 0 ≤ version ≤ U32_MAX →
  16 + 24 * Z.of_nat (length areas) ≤ U32_MAX →
  a + 16 + 24 * Z.of_nat (length areas) ≤ U64_MAX →
  holds mem a (encode_mmap version areas) →
  areas_of mem a s = Done (areas, s).
Proof. intros. unfold areas_of. by erewrite fold_areas_holds, fold_keep_area. Qed.

Lemma memory_map_roundtrip_witness :
  areas_of (bytes_at 88 (encode_mmap 0 [mkMemoryArea 0x100000 0x700000 1 0])) 88 tt =
    Done ([mkMemoryArea 0x100000 0x700000 1 0], tt).
Proof.
  apply (memory_map_roundtrip _ 88 0 [mkMemoryArea 0x100000 0x700000 1 0] tt).
  - repeat constructor; simpl; unfold U64_MAX, U32_MAX; lia.
  - lia.
  - unfold U32_MAX. lia.
  - vm_compute. discriminate.
  - vm_compute. discriminate.
  - apply holds_bytes_at.
Defined.

(** C24: malformed data. A tag of size 0 that is neither the end tag nor the
    one asked for makes [find_tag] loop for ever, and an entry size of 0 makes
    the iteration over a memory map loop for ever: neither loop looks at the
    size of what it walks over. *)
Theorem zero_size_hangs {St} mem ty current it (s : St) :
  (0 ≤ current → current + 7 ≤ U64_MAX → current mod 8 = 0 →
   typ (TagHeader_read mem current) ≠ MULTIBOOT2_TAG_TYPE_END →
   typ (TagHeader_read mem current) ≠ ty → size (TagHeader_read mem current) = 0 →
   ∀ fuel, find_tag_loop fuel mem ty current s = Hang) ∧
  (0 ≤ Multiboot2.current it < iter_end it → iter_end it ≤ U64_MAX → iter_entry_size it = 0 →
   ∀ fuel, collect fuel mem it s = Hang).
Proof.
  split.
  - intros Hc Hmax Hal He Ht Hz. induction fuel as [|fuel IH]; [done|]. cbn [find_tag_loop].
    rewrite (proj2 (Z.eqb_neq _ _)), (proj2 (Z.eqb_neq _ _)), Hz by done.
    unfold mbind, M_bind, uadd. rewrite !checked_ok by lia.
    replace (align_up8 (current + 0 + 7)) with current; [done|].
    unfold align_up8. change 7 with (Z.ones 3) at 2. rewrite <-Z.ldiff_land, Z.ldiff_ones_r by lia.
    rewrite Z.shiftl_mul_pow2, Z.shiftr_div_pow2 by lia. change (2 ^ 3) with 8.
    pose proof (Z.div_mod current 8 ltac:(lia)) as Hd. rewrite Hal in Hd.
    replace (current + 0 + 7) with (7 + current / 8 * 8) by lia. rewrite Z.div_add by lia.
    change (7 / 8) with 0. lia.
  - intros Hc Hmax Hz. unfold collect. generalize (@nil MemoryArea). intros l fuel. revert l.
    induction fuel as [|fuel IH]; intros l; [done|]. cbn [fold_iter].
    unfold MemoryAreaIter_next, mbind, M_bind. rewrite (proj2 (Z.leb_gt _ _)) by lia.
    unfold uadd. rewrite Hz, Z.add_0_r, checked_ok by lia. unfold mret, M_ret.
    replace (mkMemoryAreaIter _ _ _) with it by (destruct it; simpl in *; by subst). apply IH.
Qed.

Lemma zero_size_hangs_witness :
  find_tag_loop 1000 (bytes_at 16 (le_bytes 4 1 ++ le_bytes 4 0)) MULTIBOOT2_TAG_TYPE_MMAP 16 tt = Hang ∧
  collect 1000 (λ _, 0) (mkMemoryAreaIter 0 1 0) tt = Hang.
Proof.
  split.
  - apply (zero_size_hangs (bytes_at 16 (le_bytes 4 1 ++ le_bytes 4 0)) 6 16 (mkMemoryAreaIter 0 1 0) tt);
      vm_compute; discriminate || reflexivity.
  - apply (zero_size_hangs (λ _, 0) 6 16 (mkMemoryAreaIter 0 1 0) tt); vm_compute;
      (split; discriminate || reflexivity) || discriminate || reflexivity.
Defined.
