(* ===== verification/PageAllocator.v ===== *)
(** * The physical page allocator (src/src/memory/page_allocator.rs)

    The data and the operations of [PageAllocator], with every lock taken and
    every guard dropped where the source does it. Invariants and theorems are
    in the files that follow. *)
From S2P Require Import Prelude Mutex Memory Multiboot2.

Definition PAGE_SIZE_4KB : Z := 4096.
Definition PAGE_SIZE_2MB : Z := 2 * 1024 * 1024.
Definition PAGES_PER_2MB : Z := 512.

Inductive PageSize : Set := Size4KB | Size2MB.

Inductive PageState : Set := Unavailable | Free4KB | Free2MB | Allocated.

#[export] Instance PageState_eq_dec : EqDecision PageState.
Proof. solve_decision. Defined.

(** Metadata for a single page; [counter] is a [u16]. *)
Record PageMetadata : Type := mkPage {
  state : PageState;
  next : option Z;
  prev : option Z;
  counter : Z;
}.

Definition PageMetadata_new : PageMetadata := mkPage Unavailable None None 0.

Definition with_state (x : PageState) (m : PageMetadata) := mkPage x (next m) (prev m) (counter m).
Definition with_next (x : option Z) (m : PageMetadata) := mkPage (state m) x (prev m) (counter m).
Definition with_prev (x : option Z) (m : PageMetadata) := mkPage (state m) (next m) x (counter m).
Definition with_counter (x : Z) (m : PageMetadata) := mkPage (state m) (next m) (prev m) x.

(** [ptr] and the [len] records stored at [ptr]. *)
Record PageArrayWrapper : Type := mkWrapper { ptr : Z; pages : list PageMetadata }.
Definition PageArrayWrapper_new : PageArrayWrapper := mkWrapper 0 [].

Record PageAllocator : Type := mkAllocator {
  f_page_array : Mutex PageArrayWrapper;
  f_free_4kb_list : Mutex (option Z);
  f_free_2mb_list : Mutex (option Z);
  f_kernel_end : Mutex Z;
}.

Definition PageAllocator_new : PageAllocator :=
  mkAllocator (Mutex_new PageArrayWrapper_new) (Mutex_new None) (Mutex_new None) (Mutex_new 0).

(** The part of the machine the allocator runs on: the flags of its CPU, the
    [static PAGE_ALLOCATOR], and the ghost trace of lock events. *)
Record Machine : Type := mkMachine {
  m_cpu : Cpu;
  m_alloc : PageAllocator;
  m_trace : list LockEvent;
}.

#[export] Instance Machine_state : KernelState Machine := {
  cpu := mkLens m_cpu (λ c s, mkMachine c (m_alloc s) (m_trace s));
  trace := mkLens m_trace (λ t s, mkMachine (m_cpu s) (m_alloc s) t);
}.

Definition with_alloc (f : PageAllocator → PageAllocator) (s : Machine) : Machine :=
  mkMachine (m_cpu s) (f (m_alloc s)) (m_trace s).

Definition page_array : MutexRef Machine PageArrayWrapper := mkRef "page_array" (mkLens
  (λ s, f_page_array (m_alloc s))
  (λ x, with_alloc (λ a, mkAllocator x (f_free_4kb_list a) (f_free_2mb_list a) (f_kernel_end a)))).
Definition free_4kb_list : MutexRef Machine (option Z) := mkRef "free_4kb_list" (mkLens
  (λ s, f_free_4kb_list (m_alloc s))
  (λ x, with_alloc (λ a, mkAllocator (f_page_array a) x (f_free_2mb_list a) (f_kernel_end a)))).
Definition free_2mb_list : MutexRef Machine (option Z) := mkRef "free_2mb_list" (mkLens
  (λ s, f_free_2mb_list (m_alloc s))
  (λ x, with_alloc (λ a, mkAllocator (f_page_array a) (f_free_4kb_list a) x (f_kernel_end a)))).
Definition kernel_end : MutexRef Machine Z := mkRef "kernel_end" (mkLens
  (λ s, f_kernel_end (m_alloc s))
  (λ x, with_alloc (λ a, mkAllocator (f_page_array a) (f_free_4kb_list a) (f_free_2mb_list a) x))).

(** ** The slice behind [page_guard.as_slice()] *)

(** [slice::from_raw_parts_mut] refuses a null pointer. *)
Definition as_slice : M Machine unit :=
  w ← deref page_array;
  if ptr w =? 0 then panic PNull else mret tt.

Definition pages_len : M Machine Z := w ← deref page_array; mret (slice_len (pages w)).

(** [pages[i]], read *)
Definition page (i : Z) : M Machine PageMetadata :=
  w ← deref page_array;
  match slice_get (pages w) i with
  | Some p => mret p
  | None => panic PIndex
  end.

(** [pages[i]], written *)
Definition modify_page (i : Z) (f : PageMetadata → PageMetadata) : M Machine unit :=
  p ← page i;
  w ← deref page_array;
  assign page_array (mkWrapper (ptr w) (slice_set (pages w) i (f p))).

Definition set_state (i : Z) (x : PageState) : M Machine unit := modify_page i (with_state x).
Definition set_next (i : Z) (x : option Z) : M Machine unit := modify_page i (with_next x).
Definition set_prev (i : Z) (x : option Z) : M Machine unit := modify_page i (with_prev x).
Definition set_counter (i : Z) (x : Z) : M Machine unit := modify_page i (with_counter x).

(** [u16::saturating_sub] and [u16::saturating_add] *)
Definition saturating_sub (x y : Z) : Z := Z.max 0 (x - y).
Definition saturating_add (x y : Z) : Z := Z.min U16_MAX (x + y).

(** [pages[p].next = head; pages[p].prev = None;
     if let Some(old) = head { pages[old].prev = Some(p); }] *)
Definition link_front (p : Z) (head : option Z) : M Machine unit :=
  set_next p head;;
  set_prev p None;;
  match head with
  | Some old => set_prev old (Some p)
  | None => mret tt
  end.

(** [*head = pages[pfn].next;
     if let Some(next) = pages[pfn].next { pages[next].prev = None; }] *)
Definition unlink_front (head : MutexRef Machine (option Z)) (pfn : Z) : M Machine unit :=
  p ← page pfn;
  assign head (next p);;
  match next p with
  | Some next => set_prev next None
  | None => mret tt
  end.

(** [(pfn / PAGES_PER_2MB) * PAGES_PER_2MB] *)
Definition superpage_head (pfn : Z) : M Machine Z :=
  umul (pfn / PAGES_PER_2MB) PAGES_PER_2MB.

(** ** Allocation *)
Definition alloc_2mb : M Machine (option Z) :=
  head ← lock free_2mb_list;
  h ← deref free_2mb_list;
  match h with
  | None => drop_guard free_2mb_list head;; mret None
  | Some pfn =>
      page_guard ← lock page_array;
      as_slice;;
      unlink_front free_2mb_list pfn;;
      set_state pfn Allocated;;
      set_next pfn None;;
      set_prev pfn None;;
      addr ← umul pfn PAGE_SIZE_4KB;
      drop_guard page_array page_guard;;
      drop_guard free_2mb_list head;;
      mret (Some addr)
  end.

Definition split_2mb : M Machine (option unit) :=
  head ← lock free_2mb_list;
  h ← deref free_2mb_list;
  match h with
  | None => drop_guard free_2mb_list head;; mret None
  | Some pfn =>
      page_guard ← lock page_array;
      as_slice;;
      unlink_front free_2mb_list pfn;;
      drop_guard free_2mb_list head;;
      head_4kb ← lock free_4kb_list;
      set_counter pfn PAGES_PER_2MB;;
      for_range 0 PAGES_PER_2MB (λ i,
        p ← uadd pfn i;
        set_state p Free4KB;;
        h4 ← deref free_4kb_list;
        link_front p h4;;
        assign free_4kb_list (Some p));;
      drop_guard free_4kb_list head_4kb;;
      drop_guard page_array page_guard;;
      mret (Some tt)
  end.

(** [alloc_4kb] calls itself after a split; the fuel counts the calls. *)
Fixpoint alloc_4kb (fuel : nat) : M Machine (option Z) :=
  match fuel with
  | O => hang
  | S fuel' =>
      head ← lock free_4kb_list;
      h ← deref free_4kb_list;
      match h with
      | Some pfn =>
          page_guard ← lock page_array;
          as_slice;;
          unlink_front free_4kb_list pfn;;
          set_state pfn Allocated;;
          set_next pfn None;;
          set_prev pfn None;;
          drop_guard free_4kb_list head;;
          sp_head ← superpage_head pfn;
          len ← pages_len;
          (if sp_head <? len
           then p ← page sp_head; set_counter sp_head (saturating_sub (counter p) 1)
           else mret tt);;
          addr ← umul pfn PAGE_SIZE_4KB;
          drop_guard page_array page_guard;;
          mret (Some addr)
      | None =>
          drop_guard free_4kb_list head;;
          g ← lock free_2mb_list;
          l ← deref free_2mb_list;
          drop_guard free_2mb_list g;;
          match l with
          | None => mret None
          | Some _ =>
              r ← split_2mb;
              match r with
              | None => mret None
              | Some _ => alloc_4kb fuel'
              end
          end
      end
  end.

(** Two calls are enough: a split leaves 4KB pages behind. *)
Definition ALLOC_4KB_FUEL : nat := 2.

Definition allocate_page (size : PageSize) : M Machine (option Z) :=
  match size with
  | Size4KB => alloc_4kb ALLOC_4KB_FUEL
  | Size2MB => alloc_2mb
  end.

(** ** Deallocation *)

(** One iteration of the loop of [try_merge] that unlinks the page [p]. *)
Definition unlink_page (p : Z) : M Machine unit :=
  m ← page p;
  (match prev m with
   | Some prev_p => set_next prev_p (next m)
   | None =>
       g ← lock free_4kb_list;
       assign free_4kb_list (next m);;
       drop_guard free_4kb_list g
   end);;
  (match next m with
   | Some next_p => set_prev next_p (prev m)
   | None => mret tt
   end);;
  set_next p None;;
  set_prev p None.

Definition try_merge (pfn : Z) : M Machine unit :=
  sp_head ← superpage_head pfn;
  page_guard ← lock page_array;
  as_slice;;
  all_free ← check_each (seqZ 0 PAGES_PER_2MB) (λ i,
    q ← uadd sp_head i;
    m ← page q;
    mret (bool_decide (state m = Free4KB)));
  if (all_free : bool) then
    for_range 0 PAGES_PER_2MB (λ i, p ← uadd sp_head i; unlink_page p);;
    set_state sp_head Free2MB;;
    set_counter sp_head PAGES_PER_2MB;;
    head ← lock free_2mb_list;
    h ← deref free_2mb_list;
    link_front sp_head h;;
    assign free_2mb_list (Some sp_head);;
    drop_guard free_2mb_list head;;
    drop_guard page_array page_guard
  else drop_guard page_array page_guard.

Definition free_4kb (pfn : Z) : M Machine unit :=
  page_guard ← lock page_array;
  as_slice;;
  len ← pages_len;
  if len <=? pfn then drop_guard page_array page_guard
  else
    m ← page pfn;
    if bool_decide (state m = Free4KB) then drop_guard page_array page_guard
    else
      set_state pfn Free4KB;;
      sp_head ← superpage_head pfn;
      can_merge ←
        (if sp_head <? len then
           h ← page sp_head;
           set_counter sp_head (saturating_add (counter h) 1);;
           h' ← page sp_head;
           mret (counter h' =? PAGES_PER_2MB)
         else mret false);
      head ← lock free_4kb_list;
      h4 ← deref free_4kb_list;
      set_next pfn h4;;
      set_prev pfn None;;
      (match h4 with
       | Some old => if old <? len then set_prev old (Some pfn) else mret tt
       | None => mret tt
       end);;
      assign free_4kb_list (Some pfn);;
      drop_guard free_4kb_list head;;
      drop_guard page_array page_guard;;
      if (can_merge : bool) then try_merge pfn else mret tt.

Definition free_2mb (pfn : Z) : M Machine unit :=
  aligned_pfn ← superpage_head pfn;
  page_guard ← lock page_array;
  as_slice;;
  m ← page aligned_pfn;
  if bool_decide (state m = Free2MB) then drop_guard page_array page_guard
  else
    set_state aligned_pfn Free2MB;;
    set_counter aligned_pfn PAGES_PER_2MB;;
    head ← lock free_2mb_list;
    h ← deref free_2mb_list;
    link_front aligned_pfn h;;
    assign free_2mb_list (Some aligned_pfn);;
    drop_guard free_2mb_list head;;
    drop_guard page_array page_guard.

Definition free_page (addr : Z) (size : PageSize) : M Machine unit :=
  let pfn := addr / PAGE_SIZE_4KB in
  match size with
  | Size4KB => free_4kb pfn
  | Size2MB => free_2mb pfn
  end.

(** ** Initialisation *)

(** The [while] loop of [mark_available], one unit of fuel per iteration. *)
Fixpoint mark_loop (fuel : nat) (len end_pfn pfn : Z) : M Machine unit :=
  if (pfn <? end_pfn) && (pfn <? len) then
    match fuel with
    | O => hang
    | S fuel' =>
        addr ← umul pfn PAGE_SIZE_4KB;
        big ←
          (if addr mod PAGE_SIZE_2MB =? 0 then
             e ← uadd pfn PAGES_PER_2MB;
             mret ((e <=? end_pfn) && (e <=? len))
           else mret false);
        if (big : bool) then
          set_state pfn Free2MB;;
          set_counter pfn PAGES_PER_2MB;;
          for_range 1 PAGES_PER_2MB (λ i, p ← uadd pfn i; set_state p Unavailable);;
          pfn' ← uadd pfn PAGES_PER_2MB;
          mark_loop fuel' len end_pfn pfn'
        else
          set_state pfn Free4KB;;
          pfn' ← uadd pfn 1;
          mark_loop fuel' len end_pfn pfn'
    end
  else mret tt.

Definition mark_available (base length : Z) : M Machine unit :=
  page_guard ← lock page_array;
  as_slice;;
  let start_pfn := base / PAGE_SIZE_4KB in
  end_ ← uadd base length;
  let end_pfn := end_ / PAGE_SIZE_4KB in
  g ← lock kernel_end;
  k ← deref kernel_end;
  let kernel_pfn := k / PAGE_SIZE_4KB in
  drop_guard kernel_end g;;
  len ← pages_len;
  let pfn := Z.max start_pfn kernel_pfn in
  mark_loop (Z.to_nat (end_pfn - pfn)) len end_pfn pfn;;
  drop_guard page_array page_guard.

Definition build_lists : M Machine unit :=
  page_guard ← lock page_array;
  as_slice;;
  len ← pages_len;
  '(head_4kb, head_2mb) ← fold_range 0 len (λ '(head_4kb, head_2mb) pfn,
    m ← page pfn;
    match state m with
    | Free4KB => link_front pfn head_4kb;; mret (Some pfn, head_2mb)
    | Free2MB => link_front pfn head_2mb;; mret (head_4kb, Some pfn)
    | _ => mret (head_4kb, head_2mb)
    end) (None, None);
  g4 ← lock free_4kb_list;
  assign free_4kb_list head_4kb;;
  drop_guard free_4kb_list g4;;
  g2 ← lock free_2mb_list;
  assign free_2mb_list head_2mb;;
  drop_guard free_2mb_list g2;;
  drop_guard page_array page_guard.

(** [i32] arithmetic of the summary printed at the end of [init]. *)
Definition checked_i32 (x : Z) : M Machine Z :=
  if (-2147483648 <=? x) && (x <=? 2147483647) then mret x else panic POverflow.

(** [(x + size - 1) & !(size - 1)] *)
Definition round_up (x size : Z) : M Machine Z :=
  a ← uadd x size;
  b ← usub a 1;
  mret (Z.land b (Z.lnot (size - 1))).

Section init.
(** [core::mem::size_of::<PageMetadata>()] (the layout of a Rust struct is
    the compiler's choice), the linker symbol [__end], and the bytes that
    storing [n] fresh records at [a] leaves in memory. *)
Context (size_of_PageMetadata : Z) (kernel_image_end : Z)
        (store_metadata : Z → Z → memory → memory).

(** The bodies of the two loops over the memory map. *)
Definition higher_end (actual_max : Z) (entry : MemoryArea) : M Machine Z :=
  if area_typ entry =? 1 then
    end_addr ← uadd (base_addr entry) (length_ entry);
    mret (if actual_max <? end_addr then end_addr else actual_max)
  else mret actual_max.
Definition mark_area (entry : MemoryArea) : M Machine unit :=
  if area_typ entry =? 1
  then mark_available (base_addr entry) (length_ entry)
  else mret tt.

(** The end of the highest area of type 1 (available). *)
Definition highest_end (mem : memory) (mmap : Z) : M Machine Z :=
  fold_areas mem mmap higher_end 0.

Definition mark_areas (mem : memory) (mmap : Z) : M Machine unit :=
  fold_areas mem mmap (λ _ entry, mark_area entry) tt.

(** The free pages of each size, counted and summed up for the console. *)
Definition report_free : M Machine unit :=
  page_guard ← lock page_array;
  as_slice;;
  len ← pages_len;
  '(free_4kb, free_2mb) ← fold_range 0 len (λ '(free_4kb, free_2mb) pfn,
    m ← page pfn;
    match state m with
    | Free4KB => x ← checked_i32 (free_4kb + 1); mret (x, free_2mb)
    | Free2MB => x ← checked_i32 (free_2mb + 1); mret (free_4kb, x)
    | _ => mret (free_4kb, free_2mb)
    end) (0, 0);
  drop_guard page_array page_guard;;
  a ← checked_i32 (free_4kb * 4);
  b ← checked_i32 (free_2mb * 2048);
  _ ← checked_i32 (a + b);
  mret tt.

(** [init], with the memory map tag at address [mmap] of [mem]. The areas
    are read twice: before and after the metadata array is written. *)
Definition init (mem : memory) (mmap : Z) : M Machine unit :=
  actual_max ← highest_end mem mmap;
  max_addr ← round_up actual_max PAGE_SIZE_2MB;
  let total_pages := max_addr / PAGE_SIZE_4KB in
  kernel_end_ ← round_up kernel_image_end PAGE_SIZE_4KB;
  metadata_size ← umul total_pages size_of_PageMetadata;
  (if kernel_end_ =? 0 then panic PNull else mret tt);;
  let mem' := store_metadata kernel_end_ total_pages mem in
  wrapper ← lock page_array;
  assign page_array
    (mkWrapper kernel_end_ (replicate (Z.to_nat total_pages) PageMetadata_new));;
  drop_guard page_array wrapper;;
  a ← uadd kernel_end_ metadata_size;
  final_kernel_end ← round_up a PAGE_SIZE_4KB;
  g ← lock kernel_end;
  assign kernel_end final_kernel_end;;
  drop_guard kernel_end g;;
  mark_areas mem' mmap;;
  build_lists;;
  report_free.
End init.
