(* ===== verification/FreeList.v ===== *)
(** * Doubly linked free lists threaded through the page array

    [dll ps h l]: following [next] from the head [h] visits exactly the pages
    of [l], in order, and [prev] leads back. The pure functions [link_pages],
    [pop_pages] and [unlink_pages] are what [link_front], [unlink_front] and
    [unlink_page] do to the array; the lemmas say what they do to a list. *)
From S2P Require Import Prelude Mutex Memory Multiboot2 PageAllocator.

(** ** Pure updates of the page array *)
Definition upd (ps : list PageMetadata) (i : Z) (f : PageMetadata → PageMetadata) :
    list PageMetadata :=
  match slice_get ps i with Some m => slice_set ps i (f m) | None => ps end.

Definition link_pages (ps : list PageMetadata) (p : Z) (h : option Z) : list PageMetadata :=
  let ps1 := upd (upd ps p (with_next h)) p (with_prev None) in
  match h with Some old => upd ps1 old (with_prev (Some p)) | None => ps1 end.

Definition page_next (ps : list PageMetadata) (p : Z) : option Z := slice_get ps p ≫= next.
Definition page_prev (ps : list PageMetadata) (p : Z) : option Z := slice_get ps p ≫= prev.

Definition pop_pages (ps : list PageMetadata) (p : Z) : list PageMetadata :=
  match page_next ps p with Some n => upd ps n (with_prev None) | None => ps end.

Definition clear_links (ps : list PageMetadata) (p : Z) : list PageMetadata :=
  upd (upd ps p (with_next None)) p (with_prev None).

Definition unlink_pages (ps : list PageMetadata) (p : Z) : list PageMetadata :=
  let ps1 := match page_prev ps p with
             | Some q => upd ps q (with_next (page_next ps p)) | None => ps end in
  let ps2 := match page_next ps p with
             | Some q => upd ps1 q (with_prev (page_prev ps p)) | None => ps1 end in
  clear_links ps2 p.

#[global] Arguments upd : simpl never.
#[global] Arguments link_pages : simpl never.
#[global] Arguments pop_pages : simpl never.
#[global] Arguments clear_links : simpl never.
#[global] Arguments unlink_pages : simpl never.

(** The links of a page, and the rest of its record. *)
Definition lnk (ps : list PageMetadata) (p : Z) : option (option Z * option Z) :=
  (λ m, (prev m, next m)) <$> slice_get ps p.
Definition meta (ps : list PageMetadata) (p : Z) : option (PageState * Z) :=
  (λ m, (state m, counter m)) <$> slice_get ps p.

(** ** Segments and lists *)
Definition hd_or (l : list Z) (nx : option Z) : option Z :=
  match l with [] => nx | q :: _ => Some q end.
Definition last_or (pv : option Z) (l : list Z) : option Z :=
  match last l with Some q => Some q | None => pv end.

Fixpoint dseg (ps : list PageMetadata) (pv : option Z) (l : list Z) (nx : option Z) : Prop :=
  match l with
  | [] => True
  | p :: l' => lnk ps p = Some (pv, hd_or l' nx) ∧ dseg ps (Some p) l' nx
  end.

Definition dll (ps : list PageMetadata) (h : option Z) (l : list Z) : Prop :=
  h = hd_or l None ∧ dseg ps None l None ∧ NoDup l.

(** ** Lookups after an update *)
Lemma slice_get_upd ps i f j :
  slice_get (upd ps i f) j = if decide (i = j) then f <$> slice_get ps j else slice_get ps j.
Proof.
  unfold upd. case_decide as Hij; subst.
  - destruct (slice_get ps j) as [m|] eqn:E; [|by rewrite E].
    apply slice_get_set_eq. by eapply slice_get_Some_range.
  - destruct (slice_get ps i); [|done]. by apply slice_get_set_ne.
Qed.

Lemma slice_len_upd ps i f : slice_len (upd ps i f) = slice_len ps.
Proof. unfold upd. destruct (slice_get ps i); [apply slice_len_set|done]. Qed.

Lemma lnk_upd ps i f j :
  lnk (upd ps i f) j =
    if decide (i = j) then (λ m, (prev (f m), next (f m))) <$> slice_get ps j else lnk ps j.
Proof. unfold lnk. rewrite slice_get_upd. case_decide; [by destruct (slice_get ps j)|done]. Qed.

Lemma meta_upd ps i f j :
  meta (upd ps i f) j =
    if decide (i = j) then (λ m, (state (f m), counter (f m))) <$> slice_get ps j else meta ps j.
Proof. unfold meta. rewrite slice_get_upd. case_decide; [by destruct (slice_get ps j)|done]. Qed.

Lemma slice_len_link ps p h : slice_len (link_pages ps p h) = slice_len ps.
Proof. unfold link_pages. destruct h; by rewrite !slice_len_upd. Qed.
Lemma slice_len_pop ps p : slice_len (pop_pages ps p) = slice_len ps.
Proof. unfold pop_pages. destruct (page_next ps p); by rewrite ?slice_len_upd. Qed.
Lemma slice_len_clear ps p : slice_len (clear_links ps p) = slice_len ps.
Proof. unfold clear_links. by rewrite !slice_len_upd. Qed.
Lemma slice_len_unlink ps p : slice_len (unlink_pages ps p) = slice_len ps.
Proof.
  unfold unlink_pages. rewrite slice_len_clear.
  destruct (page_next ps p), (page_prev ps p); by rewrite ?slice_len_upd.
Qed.
#[export] Hint Rewrite slice_len_upd slice_len_link slice_len_pop slice_len_clear slice_len_unlink
  : slice.

(** A link update keeps the state and the counter of every page. *)
Lemma meta_upd_id ps i f j :
  (∀ m, state (f m) = state m) → (∀ m, counter (f m) = counter m) →
  meta (upd ps i f) j = meta ps j.
Proof.
  intros Hs Hc. rewrite meta_upd. case_decide; [|done].
  unfold meta. destruct (slice_get ps j); simpl; [|done]. by rewrite Hs, Hc.
Qed.

Lemma meta_link ps p h j : meta (link_pages ps p h) j = meta ps j.
Proof. unfold link_pages. destruct h; by rewrite !meta_upd_id. Qed.
Lemma meta_pop ps p j : meta (pop_pages ps p) j = meta ps j.
Proof. unfold pop_pages. destruct (page_next ps p); by rewrite ?meta_upd_id. Qed.
Lemma meta_clear ps p j : meta (clear_links ps p) j = meta ps j.
Proof. unfold clear_links. by rewrite !meta_upd_id. Qed.
Lemma meta_unlink ps p j : meta (unlink_pages ps p) j = meta ps j.
Proof.
  unfold unlink_pages. rewrite meta_clear.
  destruct (page_next ps p), (page_prev ps p); by rewrite ?meta_upd_id.
Qed.

(** A state or counter update keeps the links. *)
Lemma lnk_upd_id ps i f j :
  (∀ m, prev (f m) = prev m) → (∀ m, next (f m) = next m) →
  lnk (upd ps i f) j = lnk ps j.
Proof.
  intros Hs Hc. rewrite lnk_upd. case_decide; [|done].
  unfold lnk. destruct (slice_get ps j); simpl; [|done]. by rewrite Hs, Hc.
Qed.

Create Rewrite HintDb pages.
#[export] Hint Rewrite meta_link meta_pop meta_clear meta_unlink : pages.

Lemma lnk_Some_get ps p x : lnk ps p = Some x → ∃ m, slice_get ps p = Some m ∧ x = (prev m, next m).
Proof. unfold lnk. destruct (slice_get ps p) eqn:E; simpl; [|done]. intros [= <-]. eauto. Qed.

Lemma lnk_next ps p a b : lnk ps p = Some (a, b) → page_next ps p = b.
Proof. intros (m & Hm & [= -> ->])%lnk_Some_get. unfold page_next. by rewrite Hm. Qed.
Lemma lnk_prev ps p a b : lnk ps p = Some (a, b) → page_prev ps p = a.
Proof. intros (m & Hm & [= -> ->])%lnk_Some_get. unfold page_prev. by rewrite Hm. Qed.

(** ** Segments *)
Lemma last_or_app pv l1 l2 : last_or pv (l1 ++ l2) = last_or (last_or pv l1) l2.
Proof. unfold last_or. rewrite last_app. by destruct (last l2). Qed.

Lemma hd_or_app l1 l2 nx : hd_or (l1 ++ l2) nx = hd_or l1 (hd_or l2 nx).
Proof. by destruct l1. Qed.

Lemma dseg_app ps pv l1 l2 nx :
  dseg ps pv (l1 ++ l2) nx ↔ dseg ps pv l1 (hd_or l2 nx) ∧ dseg ps (last_or pv l1) l2 nx.
Proof.
  revert pv. induction l1 as [|p l1 IH]; intros pv; simpl; [tauto|].
  rewrite hd_or_app, IH.
  replace (last_or pv (p :: l1)) with (last_or (Some p) l1); [tauto|].
  change (p :: l1) with ([p] ++ l1). by rewrite last_or_app.
Qed.

Lemma dseg_frame ps ps' pv l nx :
  (∀ p, p ∈ l → lnk ps' p = lnk ps p) → dseg ps pv l nx → dseg ps' pv l nx.
Proof.
  revert pv. induction l as [|p l IH]; intros pv Hf; simpl; [done|].
  intros [Hp Hl]. split; [rewrite Hf; [done|set_solver]|].
  apply IH; [|done]. intros q Hq. apply Hf. set_solver.
Qed.

Lemma dll_frame ps ps' h l :
  (∀ p, p ∈ l → lnk ps' p = lnk ps p) → dll ps h l → dll ps' h l.
Proof. intros Hf (?&?&?). split_and!; try done. by eapply dseg_frame. Qed.

Lemma dseg_elem ps pv l nx p : dseg ps pv l nx → p ∈ l → is_Some (lnk ps p).
Proof.
  revert pv. induction l as [|q l IH]; intros pv; simpl; [set_solver|].
  intros [Hq Hl] [->|Hp]%elem_of_cons; eauto.
Qed.

Lemma dll_elem_range ps h l p : dll ps h l → p ∈ l → 0 ≤ p < slice_len ps.
Proof.
  intros (_ & Hd & _) Hp. destruct (dseg_elem _ _ _ _ _ Hd Hp) as [x Hx].
  apply lnk_Some_get in Hx as (m & Hm & _). by eapply slice_get_Some_range.
Qed.

Lemma dll_nil ps : dll ps None [].
Proof. split_and!; [done|done|constructor]. Qed.

(** ** Pushing *)
Lemma lnk_link_front ps p h :
  0 ≤ p < slice_len ps → h ≠ Some p → lnk (link_pages ps p h) p = Some (None, h).
Proof.
  intros [m Hm]%slice_get_is_Some Hh. unfold link_pages.
  assert (lnk (upd (upd ps p (with_next h)) p (with_prev None)) p = Some (None, h)) as H1.
  { rewrite lnk_upd, decide_True, slice_get_upd, decide_True, Hm by done. done. }
  destruct h as [old|]; [|done]. rewrite lnk_upd, decide_False by congruence. done.
Qed.

Lemma lnk_link_other ps p h q :
  q ≠ p → h ≠ Some q → lnk (link_pages ps p h) q = lnk ps q.
Proof.
  intros Hq Hh. unfold link_pages.
  destruct h as [old|]; rewrite !lnk_upd, !decide_False by congruence; done.
Qed.

Lemma lnk_link_old ps p old pv nx :
  old ≠ p → lnk ps old = Some (pv, nx) → lnk (link_pages ps p (Some old)) old = Some (Some p, nx).
Proof.
  intros Hne (m & Hm & [= -> ->])%lnk_Some_get. unfold link_pages.
  rewrite lnk_upd, decide_True by done.
  by rewrite !slice_get_upd, !decide_False, Hm by congruence.
Qed.

Lemma dll_push ps h l p :
  dll ps h l → p ∉ l → 0 ≤ p < slice_len ps → dll (link_pages ps p h) (Some p) (p :: l).
Proof.
  intros (-> & Hd & Hnd) Hp Hr. split_and!; [done| |by constructor]. simpl.
  split.
  { apply lnk_link_front; [done|]. destruct l; simpl; [done|]. intros [= ->]. set_solver. }
  destruct l as [|q l]; [done|]. simpl in *. destruct Hd as [Hq Hd].
  apply NoDup_cons in Hnd as [Hql Hnd]. split.
  - eapply lnk_link_old; [set_solver|done].
  - eapply dseg_frame; [|done]. intros r Hr'. apply lnk_link_other; [set_solver|]. congruence.
Qed.

(** ** Popping *)
Lemma lnk_pop_other ps p q :
  page_next ps p ≠ Some q → lnk (pop_pages ps p) q = lnk ps q.
Proof.
  intros Hn. unfold pop_pages. destruct (page_next ps p); [|done].
  rewrite lnk_upd, decide_False by congruence. done.
Qed.

Lemma dll_head_next ps h p l : dll ps h (p :: l) → page_next ps p = hd_or l None.
Proof. intros (_ & [Hp _] & _). by eapply lnk_next. Qed.

Lemma dll_pop ps h p l : dll ps h (p :: l) → dll (pop_pages ps p) (hd_or l None) l.
Proof.
  intros Hdll. pose proof (dll_head_next _ _ _ _ Hdll) as Hn.
  destruct Hdll as (_ & [Hp Hd] & [Hpl Hnd]%NoDup_cons).
  split_and!; [done| |done]. destruct l as [|q l]; [done|]. simpl in *.
  destruct Hd as [Hq Hd]. apply NoDup_cons in Hnd as [Hql Hnd]. split.
  - unfold pop_pages. rewrite Hn, lnk_upd, decide_True by done.
    apply lnk_Some_get in Hq as (m & Hm & [= _ ->]). by rewrite Hm.
  - eapply dseg_frame; [|done]. intros r Hr. apply lnk_pop_other. rewrite Hn. congruence.
Qed.

Lemma lnk_clear_other ps p q : q ≠ p → lnk (clear_links ps p) q = lnk ps q.
Proof. intros Hq. unfold clear_links. by rewrite !lnk_upd, !decide_False by congruence. Qed.

(** ** Removing from the middle *)
Lemma lnk_unlink_other ps p q :
  q ≠ p → page_prev ps p ≠ Some q → page_next ps p ≠ Some q →
  lnk (unlink_pages ps p) q = lnk ps q.
Proof.
  intros Hq Hp Hn. unfold unlink_pages. rewrite lnk_clear_other by done.
  destruct (page_next ps p), (page_prev ps p);
    rewrite ?lnk_upd, ?decide_False by congruence; done.
Qed.

Lemma lnk_unlink_prev ps p q a b :
  q ≠ p → page_prev ps p = Some q → page_next ps p ≠ Some q → lnk ps q = Some (a, b) →
  lnk (unlink_pages ps p) q = Some (a, page_next ps p).
Proof.
  intros Hq Hp Hn (m & Hm & [= -> ->])%lnk_Some_get.
  unfold unlink_pages. rewrite lnk_clear_other, Hp by done.
  assert (lnk (upd ps q (with_next (page_next ps p))) q = Some (prev m, page_next ps p)) as H1
    by (by rewrite lnk_upd, decide_True, Hm by done).
  destruct (page_next ps p) as [n|]; [|done]. rewrite lnk_upd, decide_False by congruence. done.
Qed.

Lemma lnk_unlink_next ps p q a b :
  q ≠ p → page_next ps p = Some q → page_prev ps p ≠ Some q → lnk ps q = Some (a, b) →
  lnk (unlink_pages ps p) q = Some (page_prev ps p, b).
Proof.
  intros Hq Hn Hp (m & Hm & [= -> ->])%lnk_Some_get.
  unfold unlink_pages. rewrite lnk_clear_other, Hn by done.
  rewrite lnk_upd, decide_True by done.
  destruct (page_prev ps p) as [r|]; [rewrite slice_get_upd, decide_False by congruence|];
    by rewrite Hm.
Qed.

Lemma dll_middle_links ps h l1 p l2 :
  dll ps h (l1 ++ p :: l2) → lnk ps p = Some (last_or None l1, hd_or l2 None).
Proof. intros (_ & Hd & _). apply dseg_app in Hd as [_ [Hp _]]. done. Qed.

Lemma last_or_elem pv l q : last_or pv l = Some q → pv = None → q ∈ l.
Proof.
  unfold last_or. intros H ->. destruct (last l) eqn:E; simplify_eq.
  by apply last_Some_elem_of.
Qed.

(** The head of the list after [p] is unlinked: [try_merge] writes it only
    when [p] has no predecessor. *)
Definition head_without (ps : list PageMetadata) (h : option Z) (p : Z) : option Z :=
  match page_prev ps p with None => page_next ps p | Some _ => h end.

Lemma dseg_unlink_front ps p pv l nx :
  p ∉ l → dseg ps pv l (Some p) → NoDup l →
  page_next ps p = nx → page_prev ps p = last_or None l →
  (∀ q, nx = Some q → q ∉ l) →
  dseg (unlink_pages ps p) pv l nx.
Proof.
  intros Hp Hd Hnd Hn Hpv Hnx. destruct (last l) as [q|] eqn:Hlast; last first.
  { apply last_None in Hlast as ->. done. }
  apply last_Some in Hlast as [l' ->].
  unfold last_or in Hpv. rewrite last_snoc in Hpv.
  apply dseg_app in Hd as [Hd1 [Hq _]]. apply dseg_app. simpl in *.
  apply NoDup_app in Hnd as (Hnd & Hdis & _). split.
  - eapply dseg_frame; [|done]. intros r Hr.
    apply lnk_unlink_other; [set_solver| |].
    + rewrite Hpv. intros [= <-]. set_solver.
    + rewrite Hn. intros ->. eapply Hnx; [done|]. set_solver.
  - split; [|done]. rewrite <-Hn.
    eapply lnk_unlink_prev; [set_solver|done| |done].
    rewrite Hn. intros ->. eapply Hnx; [done|]. set_solver.
Qed.

Lemma dseg_unlink_back ps p pv l nx :
  p ∉ l → dseg ps (Some p) l nx → NoDup l →
  page_prev ps p = pv → page_next ps p = hd_or l None →
  (∀ q, pv = Some q → q ∉ l) →
  dseg (unlink_pages ps p) pv l nx.
Proof.
  intros Hp Hd Hnd Hpv Hn Hnx. destruct l as [|q l]; [done|]. simpl in *.
  destruct Hd as [Hq Hd]. apply NoDup_cons in Hnd as [Hql Hnd]. split.
  - rewrite <-Hpv. eapply lnk_unlink_next; [set_solver|done| |done].
    rewrite Hpv. intros ->. eapply Hnx; [done|]. set_solver.
  - eapply dseg_frame; [|done]. intros r Hr.
    apply lnk_unlink_other; [set_solver| |rewrite Hn; congruence].
    rewrite Hpv. intros ->. eapply Hnx; [done|]. set_solver.
Qed.

Lemma dll_remove ps h l1 p l2 :
  dll ps h (l1 ++ p :: l2) → dll (unlink_pages ps p) (head_without ps h p) (l1 ++ l2).
Proof.
  intros Hdll. pose proof (dll_middle_links _ _ _ _ _ Hdll) as Hlnk.
  pose proof (lnk_next _ _ _ _ Hlnk) as Hn. pose proof (lnk_prev _ _ _ _ Hlnk) as Hpv.
  destruct Hdll as (-> & Hd & Hnd).
  apply dseg_app in Hd as [Hd1 [_ Hd2]]. simpl in Hd1.
  apply NoDup_app in Hnd as (Hnd1 & Hdis & [Hp2 Hnd2]%NoDup_cons).
  split_and!.
  - unfold head_without. rewrite Hpv, Hn. destruct l1 as [|q l1]; [done|].
    unfold last_or. rewrite last_cons. by destruct (last l1).
  - apply dseg_app. split.
    + apply dseg_unlink_front; try done.
      * set_solver.
      * intros q Hq. destruct l2; simplify_eq/=. set_solver.
    + apply dseg_unlink_back; try done.
      intros q Hq Hin. apply last_or_elem in Hq; [|done]. set_solver.
  - apply NoDup_app. split_and!; [done|set_solver|done].
Qed.

(** The links of pages that are not in the list are not touched. *)
Lemma lnk_remove_outside ps h l p q :
  dll ps h l → p ∈ l → q ∉ l → lnk (unlink_pages ps p) q = lnk ps q.
Proof.
  intros Hdll Hp Hq. apply list_elem_of_split in Hp as (l1 & l2 & ->).
  pose proof (dll_middle_links _ _ _ _ _ Hdll) as Hlnk.
  apply lnk_unlink_other; [set_solver| |].
  - rewrite (lnk_prev _ _ _ _ Hlnk). intros H%last_or_elem; [set_solver|done].
  - rewrite (lnk_next _ _ _ _ Hlnk). destruct l2; simpl; [done|]. intros [= ->]. set_solver.
Qed.
