(* ===== verification/AllocInv.v ===== *)
(** * The abstract state of the page allocator and its invariant

    [Abs] is the allocator as its clients see it: the free 4KB pages and the
    free 2MB pages in list order, the pages handed out, and the superpages
    whose free-page counter is exact. [MetaInv] relates it to the page states
    and counters, [Inv] adds the linked lists. The six [abs_*] moves are what
    the operations do to it; each preserves [MetaInv]. *)
From S2P Require Import Prelude Mutex Memory Multiboot2 PageAllocator FreeList.

(** ** Superpages *)
Definition sp (p : Z) : Z := p / PAGES_PER_2MB * PAGES_PER_2MB.
Definition blk (s : Z) : list Z := seqZ s PAGES_PER_2MB.
#[global] Arguments blk : simpl never.

(** Pages of [l] that lie in the superpage [s]. *)
Definition count_in (s : Z) (l : list Z) : Z := Z.of_nat (length (filter (λ p, sp p = s) l)).

Record Abs : Type := mkAbs {
  a_l4 : list Z;       (** free 4KB pages, head first *)
  a_l2 : list Z;       (** first pages of the free 2MB pages, head first *)
  a_al4 : gset Z;      (** 4KB pages handed out *)
  a_al2 : gset Z;      (** 2MB pages handed out *)
  a_tr : gset Z;       (** superpages that have been a 2MB page: exact counters *)
}.

(** ** The moves *)
Definition abs_alloc4 (a : Abs) (p : Z) (l : list Z) : Abs :=
  mkAbs l (a_l2 a) ({[p]} ∪ a_al4 a) (a_al2 a) (a_tr a).
Definition abs_alloc2 (a : Abs) (s : Z) (l : list Z) : Abs :=
  mkAbs (a_l4 a) l (a_al4 a) ({[s]} ∪ a_al2 a) (a_tr a).
Definition abs_split (a : Abs) (s : Z) (l : list Z) : Abs :=
  mkAbs (reverse (blk s) ++ a_l4 a) l (a_al4 a) (a_al2 a) (a_tr a).
Definition abs_free4 (a : Abs) (p : Z) : Abs :=
  mkAbs (p :: a_l4 a) (a_l2 a) (a_al4 a ∖ {[p]}) (a_al2 a) (a_tr a).
Definition abs_free2 (a : Abs) (s : Z) : Abs :=
  mkAbs (a_l4 a) (s :: a_l2 a) (a_al4 a) (a_al2 a ∖ {[s]}) (a_tr a).
Definition abs_merge (a : Abs) (s : Z) : Abs :=
  mkAbs (filter (λ p, sp p ≠ s) (a_l4 a)) (s :: a_l2 a) (a_al4 a) (a_al2 a) ({[s]} ∪ a_tr a).

(** The frames the allocator manages, free or handed out. *)
Definition managed (a : Abs) (p : Z) : Prop :=
  p ∈ a_l4 a ∨ p ∈ a_al4 a ∨ sp p ∈ a_l2 a ∨ sp p ∈ a_al2 a.

(** Every superpage with an exact counter is merged as soon as it is free. *)
Definition fully_merged (a : Abs) : Prop :=
  ∀ s, s ∈ a_tr a → s ∉ a_l2 a → s ∉ a_al2 a → (count_in s (a_l4 a) < PAGES_PER_2MB)%Z.

(** ** The invariant on states and counters *)
Record MetaInv (len : Z) (st : Z → option PageState) (ct : Z → option Z) (a : Abs) : Prop := {
  mi_len : len mod PAGES_PER_2MB = 0;
  mi_st_dom p : is_Some (st p) ↔ 0 ≤ p < len;
  mi_ct_dom p : 0 ≤ p < len → ∃ n, ct p = Some n ∧ 0 ≤ n ≤ U16_MAX;
  mi_nodup4 : NoDup (a_l4 a);
  mi_nodup2 : NoDup (a_l2 a);
  mi_l4 p : p ∈ a_l4 a → st p = Some Free4KB;
  mi_l2 s : s ∈ a_l2 a → st s = Some Free2MB ∧ sp s = s;
  mi_al4 p : p ∈ a_al4 a → st p = Some Allocated;
  mi_al2 s : s ∈ a_al2 a → st s = Some Allocated ∧ sp s = s;
  (** no 4KB page, free or handed out, lies in a 2MB page *)
  mi_own p : p ∈ a_l4 a ∨ p ∈ a_al4 a → sp p ∉ a_l2 a ∧ sp p ∉ a_al2 a;
  (** a page marked [Free4KB] is in the list or inside a 2MB page *)
  mi_stale p : st p = Some Free4KB → p ∈ a_l4 a ∨ sp p ∈ a_l2 a ∨ sp p ∈ a_al2 a;
  mi_free2 s : st s = Some Free2MB → s ∈ a_l2 a;
  mi_tracked s : s ∈ a_l2 a ∨ s ∈ a_al2 a → s ∈ a_tr a;
  mi_tr_head s : s ∈ a_tr a → sp s = s ∧ 0 ≤ s < len;
  mi_big s : s ∈ a_l2 a ∨ s ∈ a_al2 a → ct s = Some PAGES_PER_2MB;
  mi_count s : s ∈ a_tr a → s ∉ a_l2 a → s ∉ a_al2 a →
    ct s = Some (count_in s (a_l4 a)) ∧
    ∀ p, sp p = s → p ∈ a_l4 a ∨ p ∈ a_al4 a;
}.

(** The allocator's data, without the locks. *)
Record Core : Type := mkCore {
  c_ptr : Z;
  c_pages : list PageMetadata;
  c_h4 : option Z;
  c_h2 : option Z;
  c_kend : Z;
}.

Definition pstate (ps : list PageMetadata) (p : Z) : option PageState := fst <$> meta ps p.
Definition pcount (ps : list PageMetadata) (p : Z) : option Z := snd <$> meta ps p.

(** Page numbers whose address fits in a [usize]. *)
Definition MAX_PAGES : Z := 2 ^ 52.

Record Inv (c : Core) (a : Abs) : Prop := {
  inv_ptr : c_ptr c ≠ 0;
  inv_max : slice_len (c_pages c) ≤ MAX_PAGES;
  inv_dll4 : dll (c_pages c) (c_h4 c) (a_l4 a);
  inv_dll2 : dll (c_pages c) (c_h2 c) (a_l2 a);
  inv_meta : MetaInv (slice_len (c_pages c)) (pstate (c_pages c)) (pcount (c_pages c)) a;
}.

(** ** Superpage arithmetic *)

(** Arithmetic with the allocator's constants unfolded. *)
Ltac plia :=
  unfold MAX_PAGES, PAGES_PER_2MB, PAGE_SIZE_4KB, PAGE_SIZE_2MB, U64_MAX, U16_MAX in *; lia.

Lemma sp_spec p : sp p ≤ p < sp p + PAGES_PER_2MB.
Proof. unfold sp, PAGES_PER_2MB. pose proof (Z.mod_pos_bound p 512). pose proof (Z.div_mod p 512). lia. Qed.

Lemma sp_eq s p : sp s = s → s ≤ p < s + PAGES_PER_2MB → sp p = s.
Proof.
  unfold sp, PAGES_PER_2MB. intros Hs Hp.
  replace (p / 512) with (s / 512); [done|].
  pose proof (Z.div_mod p 512). pose proof (Z.mod_pos_bound p 512).
  pose proof (Z.div_mod s 512). lia.
Qed.

Lemma sp_sp p : sp (sp p) = sp p.
Proof. unfold sp, PAGES_PER_2MB. by rewrite Z.div_mul. Qed.

Lemma elem_of_blk s p : p ∈ blk s ↔ s ≤ p < s + PAGES_PER_2MB.
Proof. unfold blk. by rewrite elem_of_seqZ. Qed.

Lemma elem_of_blk_sp s p : sp s = s → p ∈ blk s ↔ sp p = s.
Proof.
  intros Hs. rewrite elem_of_blk. split; [by apply sp_eq|].
  intros <-. pose proof (sp_spec p). lia.
Qed.

Lemma blk_range s p len :
  len mod PAGES_PER_2MB = 0 → sp p = s → 0 ≤ s < len → 0 ≤ p < len.
Proof.
  unfold sp, PAGES_PER_2MB. intros Hl <- Hs.
  pose proof (Z.div_mod p 512). pose proof (Z.mod_pos_bound p 512).
  pose proof (Z.div_mod len 512). lia.
Qed.

Lemma sp_range p len : 0 ≤ p < len → 0 ≤ sp p < len.
Proof.
  unfold sp, PAGES_PER_2MB. intros Hp.
  pose proof (Z.div_mod p 512). pose proof (Z.mod_pos_bound p 512). lia.
Qed.

(** ** Counting *)
Lemma count_in_cons s p l :
  count_in s (p :: l) = (if decide (sp p = s) then 1 else 0) + count_in s l.
Proof. unfold count_in. rewrite filter_cons. case_decide; simpl; lia. Qed.

Lemma count_in_app s l1 l2 : count_in s (l1 ++ l2) = count_in s l1 + count_in s l2.
Proof. unfold count_in. rewrite filter_app, length_app. lia. Qed.

Lemma count_in_nonneg s l : 0 ≤ count_in s l.
Proof. unfold count_in. lia. Qed.

Lemma count_in_none s l : (∀ p, p ∈ l → sp p ≠ s) → count_in s l = 0.
Proof.
  intros H. unfold count_in. by rewrite filter_none.
Qed.

Lemma count_in_filter s s' l :
  s ≠ s' → count_in s (filter (λ p, sp p ≠ s') l) = count_in s l.
Proof.
  intros Hs. unfold count_in. rewrite list_filter_filter_l; [done|]. congruence.
Qed.

Lemma length_blk s : length (blk s) = Z.to_nat PAGES_PER_2MB.
Proof. unfold blk. by rewrite length_seqZ. Qed.

Lemma count_in_blk s : sp s = s → count_in s (reverse (blk s)) = PAGES_PER_2MB.
Proof.
  intros Hs. unfold count_in. rewrite filter_all.
  - rewrite length_reverse, length_blk. done.
  - intros p Hp%elem_of_reverse. by apply elem_of_blk_sp.
Qed.

(** A duplicate-free list has at most 512 pages of a superpage, and 512 only
    when it has them all. *)
Lemma count_in_submset s l :
  sp s = s → NoDup l → filter (λ p, sp p = s) l ⊆+ blk s.
Proof.
  intros Hs Hnd. apply NoDup_submseteq; [by apply NoDup_filter|].
  intros p [Hp _]%list_elem_of_filter. by apply elem_of_blk_sp.
Qed.

Lemma count_in_full s l :
  sp s = s → NoDup l → (count_in s l = PAGES_PER_2MB ↔ ∀ p, sp p = s → p ∈ l).
Proof.
  intros Hs Hnd. pose proof (count_in_submset s l Hs Hnd) as Hsub. split.
  - intros Hc p Hp.
    assert (filter (λ p, sp p = s) l ≡ₚ blk s) as Hperm.
    { apply submseteq_length_Permutation; [done|].
      rewrite length_blk. unfold count_in in Hc. plia. }
    assert (p ∈ filter (λ p, sp p = s) l) as H.
    { rewrite Hperm. by apply elem_of_blk_sp. }
    by apply list_elem_of_filter in H as [_ ?].
  - intros Hall. unfold count_in.
    assert (blk s ⊆+ filter (λ p, sp p = s) l) as Hsub'.
    { apply NoDup_submseteq; [apply NoDup_seqZ|].
      intros p Hp%elem_of_blk_sp; [|done]. apply list_elem_of_filter. auto. }
    pose proof (submseteq_length _ _ Hsub). pose proof (submseteq_length _ _ Hsub').
    rewrite length_blk in *. plia.
Qed.

Lemma count_in_le s l : sp s = s → NoDup l → count_in s l ≤ PAGES_PER_2MB.
Proof.
  intros Hs Hnd. pose proof (submseteq_length _ _ (count_in_submset s l Hs Hnd)) as H.
  rewrite length_blk in H. unfold count_in. plia.
Qed.

(** ** The moves preserve the invariant *)
Lemma mi_st_some len st ct a p x : MetaInv len st ct a → st p = Some x → 0 ≤ p < len.
Proof. intros H Hp. apply (mi_st_dom _ _ _ _ H). eauto. Qed.

Lemma mi_l4_range len st ct a p : MetaInv len st ct a → p ∈ a_l4 a → 0 ≤ p < len.
Proof. intros H Hp. eapply mi_st_some; [done|]. by eapply mi_l4. Qed.

Lemma mi_l2_range len st ct a s : MetaInv len st ct a → s ∈ a_l2 a → 0 ≤ s < len ∧ sp s = s.
Proof. intros H Hp. destruct (mi_l2 _ _ _ _ H s Hp). split; [by eapply mi_st_some|done]. Qed.

Lemma mi_al2_range len st ct a s : MetaInv len st ct a → s ∈ a_al2 a → 0 ≤ s < len ∧ sp s = s.
Proof. intros H Hp. destruct (mi_al2 _ _ _ _ H s Hp). split; [by eapply mi_st_some|done]. Qed.

(** Changing the state of a page of the array keeps the domain. *)
Lemma st_dom_upd len (st st' : Z → option PageState) p x :
  (∀ q, is_Some (st q) ↔ 0 ≤ q < len) → 0 ≤ p < len →
  (∀ j, st' j = if decide (j = p) then Some x else st j) →
  ∀ q, is_Some (st' q) ↔ 0 ≤ q < len.
Proof.
  intros Hdom Hp Heq q. rewrite Heq. case_decide as E; [subst|apply Hdom].
  split; [done|eauto].
Qed.

Lemma meta_alloc4 len st ct a p l st' ct' :
  MetaInv len st ct a → a_l4 a = p :: l →
  (∀ j, st' j = if decide (j = p) then Some Allocated else st j) →
  (∀ j, ct' j = if decide (j = sp p) then (λ n, saturating_sub n 1) <$> ct j else ct j) →
  MetaInv len st' ct' (abs_alloc4 a p l).
Proof.
  intros H Hl Hst Hct.
  assert (p ∈ a_l4 a) as Hp by (rewrite Hl; set_solver).
  pose proof (mi_nodup4 _ _ _ _ H) as Hnd. rewrite Hl in Hnd.
  apply NoDup_cons in Hnd as [Hpl Hnd].
  destruct (mi_own _ _ _ _ H p (or_introl Hp)) as [Hsp2 Hspa].
  assert (∀ j, j ∈ l → j ∈ a_l4 a) as Hsub by (rewrite Hl; set_solver).
  split; simpl.
  - apply H.
  - eapply st_dom_upd; [apply H|by eapply mi_l4_range|done].
  - intros j Hj. rewrite Hct. destruct (mi_ct_dom _ _ _ _ H j Hj) as (n & -> & Hn).
    case_decide; simpl; eexists; (split; [done|]); [|done]. unfold saturating_sub. lia.
  - done.
  - apply H.
  - intros q Hq. rewrite Hst, decide_False by congruence. eapply mi_l4; eauto.
  - intros s Hs. rewrite Hst, decide_False; [by eapply mi_l2|].
    intros ->. destruct (mi_l2 _ _ _ _ H p Hs). rewrite (mi_l4 _ _ _ _ H p Hp) in *. done.
  - intros q [->%elem_of_singleton|Hq]%elem_of_union; rewrite Hst; [by rewrite decide_True|].
    case_decide; [done|]. by eapply mi_al4.
  - intros s Hs. rewrite Hst. destruct (mi_al2 _ _ _ _ H s Hs). by case_decide.
  - intros q Hq. destruct (decide (q = p)) as [->|Hne]; [done|].
    apply (mi_own _ _ _ _ H). set_solver.
  - intros q. rewrite Hst. case_decide; [done|]. intros Hq.
    destruct (mi_stale _ _ _ _ H q Hq) as [Hin|?]; [|by right].
    left. rewrite Hl in Hin. set_solver.
  - intros s. rewrite Hst. case_decide; [done|]. apply H.
  - apply H.
  - apply H.
  - intros s Hs. rewrite Hct, decide_False; [by eapply mi_big|]. intros ->. naive_solver.
  - intros s Hs Hs2 Hsa. destruct (mi_count _ _ _ _ H s Hs Hs2 Hsa) as [Hc Hall].
    rewrite Hl, count_in_cons in Hc. split.
    + rewrite Hct, Hc. pose proof (count_in_nonneg s l).
      case_decide as E.
      * rewrite decide_True by done. simpl. f_equal. unfold saturating_sub. lia.
      * rewrite decide_False by congruence. f_equal; lia.
    + intros q Hq. destruct (Hall q Hq) as [Hin|?]; [|set_solver].
      rewrite Hl in Hin. set_solver.
Qed.

(** The head of the list of 2MB pages. *)
Lemma mi_l2_head len st ct a s l :
  MetaInv len st ct a → a_l2 a = s :: l →
  s ∈ a_l2 a ∧ st s = Some Free2MB ∧ (0 ≤ s < len ∧ sp s = s) ∧ s ∉ l ∧ NoDup l ∧ s ∉ a_al2 a ∧
  (∀ j, j ∈ l → j ∈ a_l2 a) ∧ (∀ j, j ∈ a_l2 a → j = s ∨ j ∈ l).
Proof.
  intros H Hl. assert (s ∈ a_l2 a) as Hs by (rewrite Hl; set_solver).
  pose proof (mi_l2 _ _ _ _ H s Hs) as [Hs2 _].
  pose proof (mi_nodup2 _ _ _ _ H) as Hnd. rewrite Hl in Hnd. apply NoDup_cons in Hnd as [Hsl Hnd].
  split_and!; try done; try by eapply mi_l2_range.
  - intros [??]%(mi_al2 _ _ _ _ H). congruence.
  - rewrite Hl. set_solver.
  - rewrite Hl. set_solver.
Qed.

Lemma meta_alloc2 len st ct a s l st' ct' :
  MetaInv len st ct a → a_l2 a = s :: l →
  (∀ j, st' j = if decide (j = s) then Some Allocated else st j) →
  (∀ j, ct' j = ct j) →
  MetaInv len st' ct' (abs_alloc2 a s l).
Proof.
  intros H Hl Hst Hct.
  destruct (mi_l2_head _ _ _ _ _ _ H Hl) as (Hs & Hs2 & [_ Hsps] & Hsl & Hnd & _ & Hsub & Hsub').
  split; simpl.
  - apply H.
  - eapply st_dom_upd; [apply H|by eapply mi_l2_range|done].
  - intros j Hj. rewrite Hct. by eapply mi_ct_dom.
  - apply H.
  - done.
  - intros q Hq. pose proof (mi_l4 _ _ _ _ H q Hq). rewrite Hst, decide_False by congruence. done.
  - intros q Hq. rewrite Hst, decide_False by congruence. eapply mi_l2; eauto.
  - intros q Hq. rewrite Hst. case_decide; [done|]. by eapply mi_al4.
  - intros q [->%elem_of_singleton|Hq]%elem_of_union; rewrite Hst; [by rewrite decide_True|].
    destruct (mi_al2 _ _ _ _ H q Hq). by case_decide.
  - intros q Hq. destruct (mi_own _ _ _ _ H q Hq). split; [naive_solver|].
    intros [E%elem_of_singleton|?]%elem_of_union; [|done]. congruence.
  - intros q. rewrite Hst. case_decide; [done|]. intros Hq.
    destruct (mi_stale _ _ _ _ H q Hq) as [?|[[->|?]%Hsub'|?]]; set_solver.
  - intros q. rewrite Hst. case_decide; [done|]. intros Hq.
    destruct (Hsub' q) as [->|?]; [by eapply mi_free2|done|done].
  - intros q Hq. apply (mi_tracked _ _ _ _ H). set_solver.
  - apply H.
  - intros q Hq. rewrite Hct. apply (mi_big _ _ _ _ H). set_solver.
  - intros q Hq Hq2 Hqa. rewrite Hct. apply (mi_count _ _ _ _ H); [done| |set_solver].
    intros [->|?]%Hsub'; [set_solver|done].
Qed.

Lemma meta_free2 len st ct a s st' ct' :
  MetaInv len st ct a → s ∈ a_al2 a →
  (∀ j, st' j = if decide (j = s) then Some Free2MB else st j) →
  (∀ j, ct' j = if decide (j = s) then Some PAGES_PER_2MB else ct j) →
  MetaInv len st' ct' (abs_free2 a s).
Proof.
  intros H Hs Hst Hct.
  destruct (mi_al2 _ _ _ _ H s Hs) as [Hs2 Hsps].
  assert (s ∉ a_l2 a) as Hsl by (intros [??]%(mi_l2 _ _ _ _ H); congruence).
  split; simpl.
  - apply H.
  - eapply st_dom_upd; [apply H|by eapply mi_al2_range|done].
  - intros j Hj. rewrite Hct. case_decide; [|by eapply mi_ct_dom]. eexists. split; [done|plia].
  - apply H.
  - apply NoDup_cons. split; [done|apply H].
  - intros q Hq. pose proof (mi_l4 _ _ _ _ H q Hq). rewrite Hst, decide_False by congruence. done.
  - intros q [->|Hq]%elem_of_cons; rewrite Hst; [by rewrite decide_True|].
    rewrite decide_False by congruence. by eapply mi_l2.
  - intros q Hq. rewrite Hst, decide_False; [by eapply mi_al4|].
    intros ->. destruct (mi_own _ _ _ _ H s (or_intror Hq)). rewrite Hsps in *. done.
  - intros q [Hq Hne]%elem_of_difference. rewrite Hst, decide_False by set_solver.
    by eapply mi_al2.
  - intros q Hq. destruct (mi_own _ _ _ _ H q Hq) as [Hq2 Hqa]. split; [|set_solver].
    intros [E|?]%elem_of_cons; [|done]. rewrite E in Hqa. done.
  - intros q. rewrite Hst. case_decide; [done|]. intros Hq.
    destruct (mi_stale _ _ _ _ H q Hq) as [?|[?|?]]; [auto|set_solver|].
    destruct (decide (sp q = s)); set_solver.
  - intros q. rewrite Hst. case_decide; [set_solver|]. intros Hq%(mi_free2 _ _ _ _ H). set_solver.
  - intros q Hq. apply (mi_tracked _ _ _ _ H). set_solver.
  - apply H.
  - intros q Hq. rewrite Hct. case_decide; [done|]. apply (mi_big _ _ _ _ H). set_solver.
  - intros q Hq Hq2 Hqa. rewrite Hct, decide_False by set_solver.
    apply (mi_count _ _ _ _ H); [done|set_solver|]. set_solver.
Qed.

Lemma meta_free4 len st ct a p st' ct' :
  MetaInv len st ct a → p ∈ a_al4 a →
  (∀ j, st' j = if decide (j = p) then Some Free4KB else st j) →
  (∀ j, ct' j = if decide (j = sp p) then (λ n, saturating_add n 1) <$> ct j else ct j) →
  MetaInv len st' ct' (abs_free4 a p).
Proof.
  intros H Hp Hst Hct.
  pose proof (mi_al4 _ _ _ _ H p Hp) as Hps.
  destruct (mi_own _ _ _ _ H p (or_intror Hp)) as [Hsp2 Hspa].
  assert (p ∉ a_l4 a) as Hpl by (intros ?%(mi_l4 _ _ _ _ H); congruence).
  split; simpl.
  - apply H.
  - eapply st_dom_upd; [apply H|by eapply mi_st_some|done].
  - intros j Hj. rewrite Hct. destruct (mi_ct_dom _ _ _ _ H j Hj) as (n & -> & Hn).
    case_decide; simpl; eexists; (split; [done|]); [|done]. unfold saturating_add. plia.
  - apply NoDup_cons. split; [done|apply H].
  - apply H.
  - intros q [->|Hq]%elem_of_cons; rewrite Hst; [by rewrite decide_True|].
    rewrite decide_False by congruence. by eapply mi_l4.
  - intros s Hs. destruct (mi_l2 _ _ _ _ H s Hs). rewrite Hst, decide_False by congruence. done.
  - intros q [Hq Hne]%elem_of_difference. rewrite Hst, decide_False by set_solver.
    by eapply mi_al4.
  - intros s Hs. destruct (mi_al2 _ _ _ _ H s Hs) as [? E]. rewrite Hst, decide_False; [done|].
    intros ->. congruence.
  - intros q Hq. destruct (decide (q = p)) as [->|Hne]; [done|].
    apply (mi_own _ _ _ _ H). set_solver.
  - intros q. rewrite Hst. case_decide; [set_solver|]. intros Hq.
    destruct (mi_stale _ _ _ _ H q Hq) as [?|?]; set_solver.
  - intros s. rewrite Hst. case_decide; [done|]. apply H.
  - apply H.
  - apply H.
  - intros s Hs. rewrite Hct, decide_False; [by eapply mi_big|]. intros ->. naive_solver.
  - intros s Hs Hs2 Hsa. destruct (mi_count _ _ _ _ H s Hs Hs2 Hsa) as [Hc Hall].
    rewrite count_in_cons. split.
    + rewrite Hct, Hc. pose proof (count_in_nonneg s (a_l4 a)).
      pose proof (count_in_le s (a_l4 a) (proj1 (mi_tr_head _ _ _ _ H s Hs)) (mi_nodup4 _ _ _ _ H)).
      case_decide as E.
      * rewrite decide_True by done. simpl. f_equal. unfold saturating_add. plia.
      * rewrite decide_False by congruence. done.
    + intros q Hq. destruct (decide (q = p)); [set_solver|]. destruct (Hall q Hq); set_solver.
Qed.

(** The pages of a superpage, in the order in which a split lists them. *)
Lemma reverse_blk s : sp s = s →
  (∀ q, q ∈ reverse (blk s) ↔ sp q = s) ∧ NoDup (reverse (blk s)) ∧ count_in s (reverse (blk s)) = PAGES_PER_2MB.
Proof.
  intros Hs. split_and!; [intros q; rewrite elem_of_reverse; by apply elem_of_blk_sp| |by apply count_in_blk].
  rewrite reverse_Permutation. apply NoDup_seqZ.
Qed.

Lemma meta_split len st ct a s l st' ct' :
  MetaInv len st ct a → a_l2 a = s :: l →
  (∀ j, st' j = if decide (sp j = s) then Some Free4KB else st j) →
  (∀ j, ct' j = if decide (j = s) then Some PAGES_PER_2MB else ct j) →
  MetaInv len st' ct' (abs_split a s l).
Proof.
  intros H Hl Hst Hct.
  destruct (mi_l2_head _ _ _ _ _ _ H Hl) as (Hs & Hs2 & [Hsr Hsps] & Hsl & Hnd & Hsa & Hsub & Hsub').
  assert (∀ q, q ∈ a_l4 a ∨ q ∈ a_al4 a → sp q ≠ s) as Hown.
  { intros q Hq E. destruct (mi_own _ _ _ _ H q Hq). congruence. }
  destruct (reverse_blk s Hsps) as (Hblk & HndB & HcB). unfold abs_split.
  revert Hblk HndB HcB. generalize (reverse (blk s)) as B. intros B Hblk HndB HcB.
  split; simpl.
  - apply H.
  - intros q. rewrite Hst. case_decide as E; [|apply H]. split; [|eauto].
    intros _. eapply blk_range; [apply H|done|done].
  - intros j Hj. rewrite Hct. case_decide; [|by eapply mi_ct_dom]. eexists. split; [done|plia].
  - apply NoDup_app. split_and!.
    + done.
    + intros q Hq%Hblk Hq'. by apply (Hown q); [left|].
    + apply H.
  - done.
  - intros q [Hq%Hblk|Hq]%elem_of_app; rewrite Hst; [by rewrite decide_True|].
    rewrite decide_False by eauto. by eapply mi_l4.
  - intros q Hq. destruct (mi_l2 _ _ _ _ H q (Hsub q Hq)) as [? E].
    rewrite Hst, decide_False; [done|]. congruence.
  - intros q Hq. rewrite Hst, decide_False by eauto. by eapply mi_al4.
  - intros q Hq. destruct (mi_al2 _ _ _ _ H q Hq) as [? E].
    rewrite Hst, decide_False; [done|]. congruence.
  - intros q Hq.
    assert (q ∈ B ∨ q ∈ a_l4 a ∨ q ∈ a_al4 a) as [Eq%Hblk|Hq'] by set_solver.
    + by rewrite Eq.
    + destruct (mi_own _ _ _ _ H q Hq'). naive_solver.
  - intros q. rewrite Hst. case_decide as E.
    + intros _. left. apply elem_of_app. left. by apply Hblk.
    + intros Hq. destruct (mi_stale _ _ _ _ H q Hq) as [?|[[?|?]%Hsub'|?]]; set_solver.
  - intros q. rewrite Hst. case_decide as E; [done|]. intros Hq.
    destruct (Hsub' q) as [->|?]; [by eapply mi_free2|done|done].
  - intros q Hq. apply (mi_tracked _ _ _ _ H). naive_solver.
  - apply H.
  - intros q Hq. rewrite Hct, decide_False by naive_solver. apply (mi_big _ _ _ _ H). naive_solver.
  - intros q Hq Hq2 Hqa. rewrite Hct, count_in_app. case_decide as E.
    + subst q. rewrite HcB, count_in_none by eauto. split; [done|].
      intros q Hq'%Hblk. left. set_solver.
    + rewrite (count_in_none q B) by (intros r Hr%Hblk; congruence).
      assert (q ∉ a_l2 a) by naive_solver.
      destruct (mi_count _ _ _ _ H q) as [-> Hall]; [done..|]. split; [done|].
      intros r Hr. destruct (Hall r Hr); [left|by right]. set_solver.
Qed.

Lemma meta_merge len st ct a s st' ct' :
  MetaInv len st ct a → sp s = s → 0 ≤ s < len → s ∉ a_l2 a → s ∉ a_al2 a →
  (∀ p, sp p = s → p ∈ a_l4 a) →
  (∀ j, st' j = if decide (j = s) then Some Free2MB else st j) →
  (∀ j, ct' j = if decide (j = s) then Some PAGES_PER_2MB else ct j) →
  MetaInv len st' ct' (abs_merge a s).
Proof.
  intros H Hsps Hsr Hs2 Hsa Hall Hst Hct.
  assert (∀ q, q ∈ filter (λ p, sp p ≠ s) (a_l4 a) → q ∈ a_l4 a ∧ sp q ≠ s) as Hf.
  { intros q [??]%list_elem_of_filter. done. }
  assert (∀ q, q ∈ a_al4 a → sp q ≠ s) as Hal.
  { intros q Hq E%Hall. pose proof (mi_l4 _ _ _ _ H q E).
    pose proof (mi_al4 _ _ _ _ H q Hq). congruence. }
  split; simpl.
  - apply H.
  - by eapply st_dom_upd; [apply H| |].
  - intros j Hj. rewrite Hct. case_decide; [|by eapply mi_ct_dom]. eexists. split; [done|plia].
  - apply NoDup_filter, H.
  - apply NoDup_cons. split; [done|apply H].
  - intros q [Hq E]%Hf. rewrite Hst, decide_False by congruence. by eapply mi_l4.
  - intros q [->|Hq]%elem_of_cons; rewrite Hst; [by rewrite decide_True|].
    rewrite decide_False by congruence. by eapply mi_l2.
  - intros q Hq. rewrite Hst, decide_False; [by eapply mi_al4|]. intros ->. by apply (Hal s).
  - intros q Hq. rewrite Hst, decide_False by congruence. by eapply mi_al2.
  - intros q Hq. assert (sp q ≠ s ∧ (q ∈ a_l4 a ∨ q ∈ a_al4 a)) as [Hne Hq']
      by (destruct Hq as [[??]%Hf|Hq]; eauto).
    destruct (mi_own _ _ _ _ H q Hq'). set_solver.
  - intros q. rewrite Hst. case_decide; [done|]. intros Hq.
    destruct (decide (sp q = s)) as [E|E]; [set_solver|].
    destruct (mi_stale _ _ _ _ H q Hq) as [?|[?|?]]; [|set_solver..].
    left. by apply list_elem_of_filter.
  - intros q. rewrite Hst. case_decide; [set_solver|]. intros Hq%(mi_free2 _ _ _ _ H). set_solver.
  - intros q Hq. destruct (decide (q = s)); [set_solver|].
    apply elem_of_union. right. apply (mi_tracked _ _ _ _ H). set_solver.
  - intros q [->%elem_of_singleton|Hq]%elem_of_union; [done|]. by eapply mi_tr_head.
  - intros q Hq. rewrite Hct. case_decide; [done|]. apply (mi_big _ _ _ _ H). set_solver.
  - intros q Hq Hq2 Hqa. rewrite Hct, decide_False by set_solver.
    rewrite count_in_filter by set_solver.
    destruct (mi_count _ _ _ _ H q) as [-> Hq3]; [set_solver..|]. split; [done|].
    intros r Hr. destruct (Hq3 r Hr); [left|by right].
    apply list_elem_of_filter. split; [|done]. set_solver.
Qed.
