(* ===== verification/AllocExec.v ===== *)
(** * Running the allocator's code

    [mach] is the machine in normal form: which locks are taken, the flags of
    the CPU, the trace and the allocator's data. Each primitive of the model
    has one rule on it, and [wp_run] chains them, so that a proof about an
    operation starts where the code touches data. *)
From S2P Require Import Prelude Mutex Memory Multiboot2 PageAllocator FreeList AllocInv.

(** Locks taken: page array, 4KB list, 2MB list, kernel end. *)
Record Locks : Type := mkLocks { l_pa : bool; l_f4 : bool; l_f2 : bool; l_ke : bool }.
Definition no_locks : Locks := mkLocks false false false false.

Definition mach (k : Locks) (o : Z) (b : bool) (t : list LockEvent) (c : Core) : Machine :=
  mkMachine (mkCpu o b)
    (mkAllocator (mkMutex (l_pa k) (mkWrapper (c_ptr c) (c_pages c)))
       (mkMutex (l_f4 k) (c_h4 c)) (mkMutex (l_f2 k) (c_h2 c)) (mkMutex (l_ke k) (c_kend c))) t.

(** No operation is in progress. *)
Abbreviation idle := (mach no_locks).

Definition with_pages (ps : list PageMetadata) (c : Core) : Core :=
  mkCore (c_ptr c) ps (c_h4 c) (c_h2 c) (c_kend c).
Definition with_h4 (h : option Z) (c : Core) : Core :=
  mkCore (c_ptr c) (c_pages c) h (c_h2 c) (c_kend c).
Definition with_h2 (h : option Z) (c : Core) : Core :=
  mkCore (c_ptr c) (c_pages c) (c_h4 c) h (c_kend c).
Definition with_kend (e : Z) (c : Core) : Core :=
  mkCore (c_ptr c) (c_pages c) (c_h4 c) (c_h2 c) e.

(** What dropping a guard that found interrupts [g] adds to the trace. *)
Definition drop_events (n : string) (g : bool) : list LockEvent :=
  EvRelease n :: if g then [EvSti] else [].

(** ** Rules for locks and lock-protected data *)
Section rules.
Context (o : Z).
Implicit Types (b g : bool) (t : list LockEvent) (c : Core).

Local Ltac lock_rule :=
  intros HQ; unfold lock, spin, compare_exchange, wp, disable_interrupts, set_if, log;
  eexists _, _; split; [|exact HQ];
  rewrite (bind_Done _ _ _ _ _ (are_interrupts_enabled_run _));
  unfold mach; simpl; unfold mbind, M_bind; simpl; by rewrite <-app_assoc.

Lemma wp_lock_pa b t c k4 k2 kk Q :
  Q (mkGuard b) (mach (mkLocks true k4 k2 kk) o false (t ++ [EvCli; EvAcquire "page_array"]) c) →
  wp (lock page_array) Q (mach (mkLocks false k4 k2 kk) o b t c).
Proof. lock_rule. Qed.

Lemma wp_lock_f4 b t c kp k2 kk Q :
  Q (mkGuard b) (mach (mkLocks kp true k2 kk) o false (t ++ [EvCli; EvAcquire "free_4kb_list"]) c) →
  wp (lock free_4kb_list) Q (mach (mkLocks kp false k2 kk) o b t c).
Proof. lock_rule. Qed.

Lemma wp_lock_f2 b t c kp k4 kk Q :
  Q (mkGuard b) (mach (mkLocks kp k4 true kk) o false (t ++ [EvCli; EvAcquire "free_2mb_list"]) c) →
  wp (lock free_2mb_list) Q (mach (mkLocks kp k4 false kk) o b t c).
Proof. lock_rule. Qed.

Lemma wp_lock_ke b t c kp k4 k2 Q :
  Q (mkGuard b) (mach (mkLocks kp k4 k2 true) o false (t ++ [EvCli; EvAcquire "kernel_end"]) c) →
  wp (lock kernel_end) Q (mach (mkLocks kp k4 k2 false) o b t c).
Proof. lock_rule. Qed.

Local Ltac drop_rule :=
  intros HQ; unfold drop_guard, wp, drop_events in *; eexists tt, _; split; [|exact HQ];
  lazymatch goal with |- context [mkGuard ?x] => destruct x end;
  unfold mach, enable_interrupts, set_if, log, modify, mbind, M_bind; simpl; by rewrite <-?app_assoc.

Lemma wp_drop_pa g b t c k Q :
  Q tt (mach (mkLocks false (l_f4 k) (l_f2 k) (l_ke k)) o (g || b) (t ++ drop_events "page_array" g) c) →
  wp (drop_guard page_array (mkGuard g)) Q (mach k o b t c).
Proof. drop_rule. Qed.

Lemma wp_drop_f4 g b t c k Q :
  Q tt (mach (mkLocks (l_pa k) false (l_f2 k) (l_ke k)) o (g || b) (t ++ drop_events "free_4kb_list" g) c) →
  wp (drop_guard free_4kb_list (mkGuard g)) Q (mach k o b t c).
Proof. drop_rule. Qed.

Lemma wp_drop_f2 g b t c k Q :
  Q tt (mach (mkLocks (l_pa k) (l_f4 k) false (l_ke k)) o (g || b) (t ++ drop_events "free_2mb_list" g) c) →
  wp (drop_guard free_2mb_list (mkGuard g)) Q (mach k o b t c).
Proof. drop_rule. Qed.

Lemma wp_drop_ke g b t c k Q :
  Q tt (mach (mkLocks (l_pa k) (l_f4 k) (l_f2 k) false) o (g || b) (t ++ drop_events "kernel_end" g) c) →
  wp (drop_guard kernel_end (mkGuard g)) Q (mach k o b t c).
Proof. drop_rule. Qed.

Lemma wp_deref_f4 b t c k Q :
  Q (c_h4 c) (mach k o b t c) → wp (deref free_4kb_list) Q (mach k o b t c).
Proof. intros HQ. by exists (c_h4 c), (mach k o b t c). Qed.
Lemma wp_deref_f2 b t c k Q :
  Q (c_h2 c) (mach k o b t c) → wp (deref free_2mb_list) Q (mach k o b t c).
Proof. intros HQ. by exists (c_h2 c), (mach k o b t c). Qed.
Lemma wp_deref_ke b t c k Q :
  Q (c_kend c) (mach k o b t c) → wp (deref kernel_end) Q (mach k o b t c).
Proof. intros HQ. by exists (c_kend c), (mach k o b t c). Qed.

Lemma wp_assign_f4 x b t c k Q :
  Q tt (mach k o b t (with_h4 x c)) → wp (assign free_4kb_list x) Q (mach k o b t c).
Proof. intros HQ. by exists tt, (mach k o b t (with_h4 x c)). Qed.
Lemma wp_assign_f2 x b t c k Q :
  Q tt (mach k o b t (with_h2 x c)) → wp (assign free_2mb_list x) Q (mach k o b t c).
Proof. intros HQ. by exists tt, (mach k o b t (with_h2 x c)). Qed.
Lemma wp_assign_ke x b t c k Q :
  Q tt (mach k o b t (with_kend x c)) → wp (assign kernel_end x) Q (mach k o b t c).
Proof. intros HQ. by exists tt, (mach k o b t (with_kend x c)). Qed.
Lemma wp_assign_pa x ps b t c k Q :
  Q tt (mach k o b t (mkCore x ps (c_h4 c) (c_h2 c) (c_kend c))) →
  wp (assign page_array (mkWrapper x ps)) Q (mach k o b t c).
Proof. intros HQ. by exists tt, (mach k o b t (mkCore x ps (c_h4 c) (c_h2 c) (c_kend c))). Qed.

(** ** Rules for the page array *)
Lemma wp_as_slice b t c k Q :
  c_ptr c ≠ 0 → Q tt (mach k o b t c) → wp as_slice Q (mach k o b t c).
Proof.
  intros Hp HQ. exists tt, (mach k o b t c). split; [|done].
  unfold as_slice, deref, get_mutex, gets, mach, mbind, M_bind, mret, M_ret. simpl.
  by rewrite (proj2 (Z.eqb_neq _ _)).
Qed.

Lemma wp_pages_len b t c k Q :
  Q (slice_len (c_pages c)) (mach k o b t c) → wp pages_len Q (mach k o b t c).
Proof. intros HQ. by exists (slice_len (c_pages c)), (mach k o b t c). Qed.

Lemma wp_page i m b t c k Q :
  slice_get (c_pages c) i = Some m → Q m (mach k o b t c) → wp (page i) Q (mach k o b t c).
Proof.
  intros Hi HQ. exists m, (mach k o b t c). split; [|done].
  unfold page, deref, get_mutex, gets, mach, mbind, M_bind, mret, M_ret. simpl. by rewrite Hi.
Qed.

Lemma wp_modify_page i f b t c k Q :
  0 ≤ i < slice_len (c_pages c) →
  Q tt (mach k o b t (with_pages (upd (c_pages c) i f) c)) →
  wp (modify_page i f) Q (mach k o b t c).
Proof.
  intros [m Hm]%slice_get_is_Some HQ.
  unfold modify_page. apply wp_bind. eapply wp_page; [done|].
  unfold upd in HQ. rewrite Hm in HQ. by exists tt, (mach k o b t (with_pages (slice_set (c_pages c) i (f m)) c)).
Qed.

Lemma wp_link_front p h b t c k Q :
  0 ≤ p < slice_len (c_pages c) →
  (∀ old, h = Some old → 0 ≤ old < slice_len (c_pages c)) →
  Q tt (mach k o b t (with_pages (link_pages (c_pages c) p h) c)) →
  wp (link_front p h) Q (mach k o b t c).
Proof.
  intros Hp Hh HQ. unfold link_front, link_pages in *.
  apply wp_bind, wp_modify_page; [done|].
  apply wp_bind, wp_modify_page; [simpl; by rewrite slice_len_upd|].
  destruct h as [old|]; [|by apply wp_ret].
  apply wp_modify_page; [simpl; rewrite !slice_len_upd; eauto|done].
Qed.

Lemma wp_unlink_front_f4 p b t c k Q :
  0 ≤ p < slice_len (c_pages c) →
  (∀ n, page_next (c_pages c) p = Some n → 0 ≤ n < slice_len (c_pages c)) →
  Q tt (mach k o b t (with_h4 (page_next (c_pages c) p) (with_pages (pop_pages (c_pages c) p) c))) →
  wp (unlink_front free_4kb_list p) Q (mach k o b t c).
Proof.
  intros [m Hm]%slice_get_is_Some Hn HQ. unfold unlink_front, pop_pages, page_next in *.
  rewrite Hm in *. simpl in *. apply wp_bind. eapply wp_page; [done|].
  apply wp_bind, wp_assign_f4. destruct (next m) as [n|]; [|by apply wp_ret].
  apply wp_modify_page; [simpl; eauto|done].
Qed.

Lemma wp_unlink_front_f2 p b t c k Q :
  0 ≤ p < slice_len (c_pages c) →
  (∀ n, page_next (c_pages c) p = Some n → 0 ≤ n < slice_len (c_pages c)) →
  Q tt (mach k o b t (with_h2 (page_next (c_pages c) p) (with_pages (pop_pages (c_pages c) p) c))) →
  wp (unlink_front free_2mb_list p) Q (mach k o b t c).
Proof.
  intros [m Hm]%slice_get_is_Some Hn HQ. unfold unlink_front, pop_pages, page_next in *.
  rewrite Hm in *. simpl in *. apply wp_bind. eapply wp_page; [done|].
  apply wp_bind, wp_assign_f2. destruct (next m) as [n|]; [|by apply wp_ret].
  apply wp_modify_page; [simpl; eauto|done].
Qed.

Lemma wp_superpage_head p b t c k Q :
  0 ≤ p < MAX_PAGES → Q (sp p) (mach k o b t c) → wp (superpage_head p) Q (mach k o b t c).
Proof.
  intros Hp HQ. unfold superpage_head, umul. apply wp_checked; [|done].
  pose proof (sp_range p MAX_PAGES Hp). unfold sp in *. plia.
Qed.
End rules.

(** Primitives whose rule has no side condition. *)
Ltac wp_prim :=
  lazymatch goal with
  | |- wp (mbind _ _) _ _ => apply wp_bind
  | |- wp (mret _) _ _ => apply wp_ret
  | |- wp (lock page_array) _ _ => apply wp_lock_pa
  | |- wp (lock free_4kb_list) _ _ => apply wp_lock_f4
  | |- wp (lock free_2mb_list) _ _ => apply wp_lock_f2
  | |- wp (lock kernel_end) _ _ => apply wp_lock_ke
  | |- wp (drop_guard page_array _) _ _ => apply wp_drop_pa
  | |- wp (drop_guard free_4kb_list _) _ _ => apply wp_drop_f4
  | |- wp (drop_guard free_2mb_list _) _ _ => apply wp_drop_f2
  | |- wp (drop_guard kernel_end _) _ _ => apply wp_drop_ke
  | |- wp (deref free_4kb_list) _ _ => apply wp_deref_f4
  | |- wp (deref free_2mb_list) _ _ => apply wp_deref_f2
  | |- wp (deref kernel_end) _ _ => apply wp_deref_ke
  | |- wp (assign free_4kb_list _) _ _ => apply wp_assign_f4
  | |- wp (assign free_2mb_list _) _ _ => apply wp_assign_f2
  | |- wp (assign kernel_end _) _ _ => apply wp_assign_ke
  | |- wp (assign page_array _) _ _ => apply wp_assign_pa
  | |- wp pages_len _ _ => apply wp_pages_len
  | |- wp as_slice _ _ => apply wp_as_slice; [cbn; assumption|]
  end; cbv beta; cbn [l_pa l_f4 l_f2 l_ke c_ptr c_pages c_h4 c_h2 c_kend
    with_pages with_h4 with_h2 with_kend].
Ltac wp_run := repeat wp_prim.

(** A page update: the index is in range by the lengths known. *)
Ltac in_range := cbn [c_pages with_pages with_h4 with_h2 with_kend];
  autorewrite with slice; first [assumption|lia].
Ltac wp_upd := unfold set_state, set_next, set_prev, set_counter;
  (apply wp_modify_page; [in_range|]); cbv beta;
  cbn [c_ptr c_pages c_h4 c_h2 c_kend with_pages with_h4 with_h2 with_kend].
