(* ===== verification/AllocOps.v ===== *)
(** * Functional correctness of the allocator's operations

    Each operation, run on an idle machine whose data satisfies [Inv] for an
    abstract state, returns what the abstract move says and leaves an idle
    machine that satisfies [Inv] for the new abstract state. *)
From S2P Require Import Prelude Mutex Memory Multiboot2 PageAllocator FreeList AllocInv AllocExec.

(** ** States and counters after an update *)
Lemma pstate_meta ps ps' j : meta ps' j = meta ps j → pstate ps' j = pstate ps j.
Proof. unfold pstate. by intros ->. Qed.
Lemma pcount_meta ps ps' j : meta ps' j = meta ps j → pcount ps' j = pcount ps j.
Proof. unfold pcount. by intros ->. Qed.

Lemma pstate_link ps p h j : pstate (link_pages ps p h) j = pstate ps j.
Proof. apply pstate_meta, meta_link. Qed.
Lemma pstate_pop ps p j : pstate (pop_pages ps p) j = pstate ps j.
Proof. apply pstate_meta, meta_pop. Qed.
Lemma pstate_clear ps p j : pstate (clear_links ps p) j = pstate ps j.
Proof. apply pstate_meta, meta_clear. Qed.
Lemma pcount_link ps p h j : pcount (link_pages ps p h) j = pcount ps j.
Proof. apply pcount_meta, meta_link. Qed.
Lemma pcount_pop ps p j : pcount (pop_pages ps p) j = pcount ps j.
Proof. apply pcount_meta, meta_pop. Qed.
Lemma pcount_clear ps p j : pcount (clear_links ps p) j = pcount ps j.
Proof. apply pcount_meta, meta_clear. Qed.

Lemma pstate_set_counter ps p x j : pstate (upd ps p (with_counter x)) j = pstate ps j.
Proof.
  unfold pstate. rewrite meta_upd. case_decide; [|done]. unfold meta. by destruct (slice_get ps j).
Qed.
Lemma pcount_set_state ps p x j : pcount (upd ps p (with_state x)) j = pcount ps j.
Proof.
  unfold pcount. rewrite meta_upd. case_decide; [|done]. unfold meta. by destruct (slice_get ps j).
Qed.
Lemma pstate_set_state ps p x j :
  0 ≤ p < slice_len ps →
  pstate (upd ps p (with_state x)) j = if decide (j = p) then Some x else pstate ps j.
Proof.
  intros [m Hm]%slice_get_is_Some. unfold pstate. rewrite meta_upd.
  destruct (decide (p = j)) as [->|Hne]; [by rewrite Hm, decide_True|].
  by rewrite decide_False.
Qed.
Lemma pcount_set_counter ps p x j :
  0 ≤ p < slice_len ps →
  pcount (upd ps p (with_counter x)) j = if decide (j = p) then Some x else pcount ps j.
Proof.
  intros [m Hm]%slice_get_is_Some. unfold pcount. rewrite meta_upd.
  destruct (decide (p = j)) as [->|Hne]; [by rewrite Hm, decide_True|].
  by rewrite decide_False.
Qed.

#[export] Hint Rewrite pstate_link pstate_pop pstate_clear pcount_link pcount_pop pcount_clear
  pstate_set_counter pcount_set_state : pages.
#[export] Hint Rewrite pstate_set_state pcount_set_counter using in_range : pages.

Lemma lnk_set_state ps p x j : lnk (upd ps p (with_state x)) j = lnk ps j.
Proof. by apply lnk_upd_id. Qed.
Lemma lnk_set_counter ps p x j : lnk (upd ps p (with_counter x)) j = lnk ps j.
Proof. by apply lnk_upd_id. Qed.
#[export] Hint Rewrite lnk_set_state lnk_set_counter : pages.

Lemma pcount_get ps p m : slice_get ps p = Some m → pcount ps p = Some (counter m).
Proof. intros Hm. unfold pcount, meta. by rewrite Hm. Qed.
Lemma pstate_get ps p m : slice_get ps p = Some m → pstate ps p = Some (state m).
Proof. intros Hm. unfold pstate, meta. by rewrite Hm. Qed.

(** ** Consequences of the invariant *)
Section inv_facts.
Context (c : Core) (a : Abs) (HI : Inv c a).

Lemma inv_lists_disjoint p : p ∈ a_l4 a → p ∉ a_l2 a.
Proof.
  intros H4 H2. destruct (mi_l2 _ _ _ _ (inv_meta _ _ HI) p H2) as [E _].
  rewrite (mi_l4 _ _ _ _ (inv_meta _ _ HI) p H4) in E. done.
Qed.

Lemma inv_l4_range p : p ∈ a_l4 a → 0 ≤ p < slice_len (c_pages c).
Proof. apply (mi_l4_range _ _ _ _ _ (inv_meta _ _ HI)). Qed.

Lemma inv_l2_range p : p ∈ a_l2 a → 0 ≤ p < slice_len (c_pages c).
Proof. apply (mi_l2_range _ _ _ _ _ (inv_meta _ _ HI)). Qed.

Lemma inv_next4_range p l n :
  a_l4 a = p :: l → page_next (c_pages c) p = Some n → 0 ≤ n < slice_len (c_pages c) ∧ n ∈ l.
Proof.
  intros Hl Hn. pose proof (inv_dll4 _ _ HI) as Hd. rewrite Hl in Hd.
  rewrite (dll_head_next _ _ _ _ Hd) in Hn. destruct l as [|q l]; simplify_eq/=.
  split; [apply inv_l4_range; rewrite Hl|]; set_solver.
Qed.

Lemma inv_next2_range p l n :
  a_l2 a = p :: l → page_next (c_pages c) p = Some n → 0 ≤ n < slice_len (c_pages c) ∧ n ∈ l.
Proof.
  intros Hl Hn. pose proof (inv_dll2 _ _ HI) as Hd. rewrite Hl in Hd.
  rewrite (dll_head_next _ _ _ _ Hd) in Hn. destruct l as [|q l]; simplify_eq/=.
  split; [apply inv_l2_range; rewrite Hl|]; set_solver.
Qed.

Lemma inv_h4 : c_h4 c = hd_or (a_l4 a) None.
Proof. by destruct (inv_dll4 _ _ HI). Qed.
Lemma inv_h2 : c_h2 c = hd_or (a_l2 a) None.
Proof. by destruct (inv_dll2 _ _ HI). Qed.

Lemma inv_h4_range old : c_h4 c = Some old → 0 ≤ old < slice_len (c_pages c) ∧ old ∈ a_l4 a.
Proof.
  rewrite inv_h4. destruct (a_l4 a) eqn:E; simpl; [done|]. intros [= ->].
  split; [apply inv_l4_range; rewrite E|]; set_solver.
Qed.
Lemma inv_h2_range old : c_h2 c = Some old → 0 ≤ old < slice_len (c_pages c) ∧ old ∈ a_l2 a.
Proof.
  rewrite inv_h2. destruct (a_l2 a) eqn:E; simpl; [done|]. intros [= ->].
  split; [apply inv_l2_range; rewrite E|]; set_solver.
Qed.
End inv_facts.

(** ** The moves on the data *)
Definition take_pages (ps : list PageMetadata) (p : Z) : list PageMetadata :=
  clear_links (upd (pop_pages ps p) p (with_state Allocated)) p.

Lemma slice_len_take ps p : slice_len (take_pages ps p) = slice_len ps.
Proof. unfold take_pages. by autorewrite with slice. Qed.
#[export] Hint Rewrite slice_len_take : slice.

Lemma lnk_take_other ps p q :
  q ≠ p → page_next ps p ≠ Some q → lnk (take_pages ps p) q = lnk ps q.
Proof.
  intros Hq Hn. unfold take_pages. rewrite lnk_clear_other, lnk_set_state by done.
  by apply lnk_pop_other.
Qed.

Lemma dll_take ps h p l : dll ps h (p :: l) → dll (take_pages ps p) (page_next ps p) l.
Proof.
  intros Hd. rewrite (dll_head_next _ _ _ _ Hd). pose proof Hd as (_ & _ & [Hp _]%NoDup_cons).
  eapply dll_frame; [|by eapply dll_pop]. intros q Hq. unfold take_pages.
  rewrite lnk_clear_other, lnk_set_state by congruence. done.
Qed.

Lemma inv_alloc2 c a s l :
  Inv c a → a_l2 a = s :: l →
  Inv (with_h2 (page_next (c_pages c) s) (with_pages (take_pages (c_pages c) s) c)) (abs_alloc2 a s l).
Proof.
  intros HI Hl. assert (s ∈ a_l2 a) as Hs by (rewrite Hl; set_solver).
  pose proof (inv_l2_range _ _ HI s Hs) as Hr.
  split; simpl; autorewrite with slice; try apply HI.
  - eapply dll_frame; [|apply HI]. intros q Hq.
    pose proof (inv_lists_disjoint _ _ HI q Hq) as Hq2.
    apply lnk_take_other; [congruence|].
    intros [_ Hn]%(inv_next2_range _ _ HI s l); [|done]. rewrite Hl in Hq2. set_solver.
  - apply (dll_take _ (c_h2 c)). rewrite <-Hl. apply HI.
  - eapply meta_alloc2; [apply HI|done|..]; intros j; unfold take_pages; by autorewrite with pages.
Qed.

Lemma inv_alloc4 c a p l m :
  Inv c a → a_l4 a = p :: l →
  slice_get (take_pages (c_pages c) p) (sp p) = Some m →
  Inv (with_h4 (page_next (c_pages c) p) (with_pages
        (upd (take_pages (c_pages c) p) (sp p) (with_counter (saturating_sub (counter m) 1))) c))
      (abs_alloc4 a p l).
Proof.
  intros HI Hl Hm. assert (p ∈ a_l4 a) as Hp by (rewrite Hl; set_solver).
  pose proof (inv_l4_range _ _ HI p Hp) as Hr. pose proof (sp_range _ _ Hr) as Hr'.
  split; simpl; autorewrite with slice; try apply HI.
  - eapply dll_frame; [intros; apply lnk_set_counter|].
    apply (dll_take _ (c_h4 c)). rewrite <-Hl. apply HI.
  - eapply dll_frame; [|apply HI]. intros q Hq. rewrite lnk_set_counter.
    assert (q ∉ a_l4 a) as Hq4 by (intros H; by apply (inv_lists_disjoint _ _ HI q H)).
    apply lnk_take_other; [congruence|].
    intros [_ Hn]%(inv_next4_range _ _ HI p l); [|done]. rewrite Hl in Hq4. set_solver.
  - apply pcount_get in Hm. unfold take_pages in Hm. autorewrite with pages in Hm.
    eapply meta_alloc4; [apply HI|done|..]; intros j; unfold take_pages; autorewrite with pages.
    + done.
    + case_decide; [subst|done]. by rewrite Hm.
Qed.

(** Freeing: the page [p] is marked and pushed on its list. *)
Lemma inv_free2 c a s :
  Inv c a → s ∈ a_al2 a →
  Inv (with_h2 (Some s) (with_pages (link_pages
        (upd (upd (c_pages c) s (with_state Free2MB)) s (with_counter PAGES_PER_2MB)) s (c_h2 c)) c))
      (abs_free2 a s).
Proof.
  intros HI Hs. destruct (mi_al2_range _ _ _ _ _ (inv_meta _ _ HI) Hs) as [Hr Hsp].
  pose proof (mi_al2 _ _ _ _ (inv_meta _ _ HI) s Hs) as [Hst _].
  assert (s ∉ a_l2 a) as Hs2 by (intros [??]%(mi_l2 _ _ _ _ (inv_meta _ _ HI)); congruence).
  assert (s ∉ a_l4 a) as Hs4 by (intros ?%(mi_l4 _ _ _ _ (inv_meta _ _ HI)); congruence).
  split; simpl; autorewrite with slice; try apply HI.
  - eapply dll_frame; [|apply HI]. intros q Hq.
    rewrite lnk_link_other; [by autorewrite with pages|congruence|].
    intros [_ ?]%(inv_h2_range _ _ HI). by apply (inv_lists_disjoint _ _ HI q).
  - apply dll_push; [|done|by autorewrite with slice].
    eapply dll_frame; [|apply HI]. intros. by autorewrite with pages.
  - eapply meta_free2; [apply HI|done|..]; intros j; by autorewrite with pages.
Qed.

Lemma inv_free4 c a p m :
  Inv c a → p ∈ a_al4 a →
  slice_get (upd (c_pages c) p (with_state Free4KB)) (sp p) = Some m →
  Inv (with_h4 (Some p) (with_pages (link_pages
        (upd (upd (c_pages c) p (with_state Free4KB)) (sp p)
           (with_counter (saturating_add (counter m) 1))) p (c_h4 c)) c))
      (abs_free4 a p).
Proof.
  intros HI Hp Hm. pose proof (mi_al4 _ _ _ _ (inv_meta _ _ HI) p Hp) as Hst.
  pose proof (mi_st_some _ _ _ _ _ _ (inv_meta _ _ HI) Hst) as Hr.
  pose proof (sp_range _ _ Hr) as Hr'.
  assert (p ∉ a_l2 a) as Hs2 by (intros [??]%(mi_l2 _ _ _ _ (inv_meta _ _ HI)); congruence).
  assert (p ∉ a_l4 a) as Hs4 by (intros ?%(mi_l4 _ _ _ _ (inv_meta _ _ HI)); congruence).
  split; simpl; autorewrite with slice; try apply HI.
  - apply dll_push; [|done|by autorewrite with slice].
    eapply dll_frame; [|apply HI]. intros. by autorewrite with pages.
  - eapply dll_frame; [|apply HI]. intros q Hq.
    rewrite lnk_link_other; [by autorewrite with pages|congruence|].
    intros [_ H4]%(inv_h4_range _ _ HI). by apply (inv_lists_disjoint _ _ HI q).
  - apply pcount_get in Hm. autorewrite with pages in Hm.
    eapply meta_free4; [apply HI|done|..]; intros j; autorewrite with pages.
    + done.
    + case_decide; [subst|done]. by rewrite Hm.
Qed.

(** ** Splitting *)

(** The block of [s] as far as the loop of [split_2mb] has gone. *)
Lemma reverse_seqZ_succ s i : 0 ≤ i → reverse (seqZ s (i + 1)) = (s + i) :: reverse (seqZ s i).
Proof.
  intros Hi. rewrite seqZ_app by lia. rewrite reverse_app. done.
Qed.

(** What the loop has done to the array after [i] pages. *)
Record split_inv (s : Z) (l4 l2 : list Z) (ps : list PageMetadata) (i : Z)
    (ps' : list PageMetadata) (h4 : option Z) (h2 : option Z) : Prop := {
  si_len : slice_len ps' = slice_len ps;
  si_dll4 : dll ps' h4 (reverse (seqZ s i) ++ l4);
  si_dll2 : dll ps' h2 l2;
  si_state j : pstate ps' j = if decide (s ≤ j < s + i) then Some Free4KB else pstate ps j;
  si_count j : pcount ps' j = pcount ps j;
}.

Lemma split_inv_step s l4 l2 ps i ps' h4 h2 :
  split_inv s l4 l2 ps i ps' h4 h2 → 0 ≤ i → 0 ≤ s + i < slice_len ps →
  s + i ∉ l4 → s + i ∉ l2 → (∀ j, j ∈ reverse (seqZ s i) ++ l4 → j ∉ l2) →
  split_inv s l4 l2 ps (i + 1)
    (link_pages (upd ps' (s + i) (with_state Free4KB)) (s + i) h4) (Some (s + i)) h2.
Proof.
  intros [Hlen Hd4 Hd2 Hst Hct] Hi Hr H4 H2 Hdis.
  assert (s + i ∉ reverse (seqZ s i) ++ l4) as Hni.
  { rewrite elem_of_app, elem_of_reverse, elem_of_seqZ. intros [?|?]; [lia|done]. }
  split.
  - by autorewrite with slice.
  - rewrite reverse_seqZ_succ by done. apply dll_push; [|done|autorewrite with slice; lia].
    eapply dll_frame; [|done]. intros. by autorewrite with pages.
  - eapply dll_frame; [|done]. intros q Hq.
    rewrite lnk_link_other; [by autorewrite with pages|congruence|].
    destruct Hd4 as [-> _]. intros E. apply (Hdis q); [|done].
    destruct (reverse (seqZ s i) ++ l4); simplify_eq/=. set_solver.
  - intros j. rewrite pstate_link, pstate_set_state, Hst by lia.
    destruct (decide (j = s + i)); [subst; by rewrite decide_True by lia|].
    destruct (decide (s ≤ j < s + i)); [by rewrite decide_True by lia|by rewrite decide_False by lia].
  - intros j. by autorewrite with pages.
Qed.

(** The data after [split_2mb] of the first 2MB page. *)
Lemma inv_split c a s l ps' h4 :
  Inv c a → a_l2 a = s :: l →
  split_inv s (a_l4 a) l (upd (pop_pages (c_pages c) s) s (with_counter PAGES_PER_2MB))
    PAGES_PER_2MB ps' h4 (page_next (c_pages c) s) →
  Inv (mkCore (c_ptr c) ps' h4 (page_next (c_pages c) s) (c_kend c)) (abs_split a s l) ∧
  slice_len ps' = slice_len (c_pages c).
Proof.
  intros HI Hl [Hlen Hd4 Hd2 Hst Hct].
  assert (s ∈ a_l2 a) as Hs by (rewrite Hl; apply list_elem_of_here).
  destruct (mi_l2_range _ _ _ _ _ (inv_meta _ _ HI) Hs) as [Hr Hsp].
  autorewrite with slice in Hlen. split; [|done].
  split; cbn [c_ptr c_pages c_h4 c_h2 c_kend]; rewrite ?Hlen; try apply HI.
  - exact Hd4.
  - exact Hd2.
  - eapply meta_split; [apply HI|done|..].
    + intros j. rewrite Hst. autorewrite with pages.
      destruct (decide (sp j = s)) as [E|E].
      * rewrite decide_True; [done|]. pose proof (sp_spec j). lia.
      * rewrite decide_False; [done|]. intros Hj. apply E. by apply sp_eq.
    + intros j. rewrite Hct. by autorewrite with pages.
Qed.

(** [try_merge] of the superpage [s]: merged when all its pages are free. *)
Definition merge_if_free (a : Abs) (s : Z) : Abs :=
  if decide (Forall (λ q, q ∈ a_l4 a) (blk s)) then abs_merge a s else a.

(** [free_4kb] of [p], where the counter of its superpage is [n]: the merge is
    tried only when the counter reaches 512. *)
Definition free4_result (a : Abs) (p n : Z) : Abs :=
  if saturating_add n 1 =? PAGES_PER_2MB then merge_if_free (abs_free4 a p) (sp p)
  else abs_free4 a p.

(** ** Merging *)

(** What is left of the list after the loop of [try_merge] has unlinked the
    first [i] pages of the superpage [s]. *)
Definition without_block (s i : Z) (l : list Z) : list Z := filter (λ q, ¬ (s ≤ q < s + i)) l.

Lemma without_block_succ s i l :
  0 ≤ i → without_block s (i + 1) l = filter (λ q, q ≠ s + i) (without_block s i l).
Proof.
  intros Hi. unfold without_block. rewrite list_filter_filter. apply list_filter_iff.
  intros q. lia.
Qed.

Lemma without_block_all s l :
  sp s = s → without_block s PAGES_PER_2MB l = filter (λ q, sp q ≠ s) l.
Proof.
  intros Hs. apply list_filter_iff. intros q. apply not_iff_compat.
  rewrite <-elem_of_blk. by apply elem_of_blk_sp.
Qed.

Lemma filter_ne_split (l : list Z) p :
  NoDup l → p ∈ l → ∃ l1 l2, l = l1 ++ p :: l2 ∧ filter (λ q, q ≠ p) l = l1 ++ l2.
Proof.
  intros Hnd (l1 & l2 & ->)%list_elem_of_split. exists l1, l2. split; [done|].
  apply NoDup_app in Hnd as (_ & Hd & [Hp _]%NoDup_cons).
  rewrite filter_app, filter_cons_False by tauto.
  rewrite !filter_all; [done|..]; intros q Hq ->; [done|]. apply (Hd p Hq). set_solver.
Qed.

Record merge_inv (s : Z) (l4 l2 : list Z) (ps : list PageMetadata) (i : Z)
    (ps' : list PageMetadata) (h4 h2 : option Z) : Prop := {
  mg_len : slice_len ps' = slice_len ps;
  mg_dll4 : dll ps' h4 (without_block s i l4);
  mg_dll2 : dll ps' h2 l2;
  mg_meta j : meta ps' j = meta ps j;
}.

Lemma merge_inv_step s l4 l2 ps i ps' h4 h2 :
  merge_inv s l4 l2 ps i ps' h4 h2 → 0 ≤ i → s + i ∈ l4 → (∀ q, q ∈ l4 → q ∉ l2) →
  merge_inv s l4 l2 ps (i + 1) (unlink_pages ps' (s + i)) (head_without ps' h4 (s + i)) h2.
Proof.
  intros [Hlen Hd4 Hd2 Hm] Hi Hin Hdis.
  assert (s + i ∈ without_block s i l4) as Hin'.
  { apply list_elem_of_filter. split; [lia|done]. }
  split.
  - by autorewrite with slice.
  - rewrite without_block_succ by done.
    destruct (filter_ne_split _ _ (proj2 (proj2 Hd4)) Hin') as (l1 & l2' & E & ->).
    rewrite E in Hd4. by apply dll_remove.
  - eapply dll_frame; [|done]. intros q Hq. eapply lnk_remove_outside; [exact Hd4|exact Hin'|].
    intros [_ Hq4]%list_elem_of_filter. by apply (Hdis q).
  - intros j. by rewrite meta_unlink.
Qed.

(** The data after [try_merge] of the free superpage [s]. *)
Lemma inv_merge c a s ps' h4 :
  Inv c a → sp s = s → 0 ≤ s < slice_len (c_pages c) → s ∉ a_l2 a → s ∉ a_al2 a →
  (∀ p, sp p = s → p ∈ a_l4 a) →
  merge_inv s (a_l4 a) (a_l2 a) (c_pages c) PAGES_PER_2MB ps' h4 (c_h2 c) →
  Inv (mkCore (c_ptr c)
        (link_pages (upd (upd ps' s (with_state Free2MB)) s (with_counter PAGES_PER_2MB)) s (c_h2 c))
        h4 (Some s) (c_kend c)) (abs_merge a s).
Proof.
  intros HI Hsp Hr Hs2 Hsa Hall [Hlen Hd4 Hd2 Hm].
  rewrite without_block_all in Hd4 by done.
  split; simpl; autorewrite with slice; rewrite ?Hlen; try apply HI.
  - eapply dll_frame; [|done]. intros q [Hne Hq]%list_elem_of_filter.
    rewrite lnk_link_other; [by autorewrite with pages|congruence|].
    intros [_ ?]%(inv_h2_range _ _ HI). by apply (inv_lists_disjoint _ _ HI q).
  - apply dll_push; [|done|autorewrite with slice; by rewrite Hlen].
    eapply dll_frame; [|done]. intros. by autorewrite with pages.
  - rewrite <-Hlen in Hr.
    eapply meta_merge; [apply HI|done|by rewrite <-Hlen|done..| |]; intros j;
      autorewrite with pages; (case_decide; [done|]);
      [by apply pstate_meta|by apply pcount_meta].
Qed.

Section ops.
Context (o : Z).

(** An operation that started on the idle machine [idle o b t c] ended: the
    machine is idle again with the same interrupt flag. When [safe] is [true]
    or interrupts were off at the start, they were off whenever it held a
    lock; otherwise it has run with interrupts on and a lock held. *)
Definition ends (safe b : bool) (t : list LockEvent) (c : Core) (a' : Abs) (s' : Machine) : Prop :=
  ∃ ev c', s' = idle o b (t ++ ev) c' ∧ Inv c' a' ∧ c_kend c' = c_kend c ∧
    slice_len (c_pages c') = slice_len (c_pages c) ∧
    irq_run (b, []) ev = if safe || negb b then Some (b, []) else None.

Local Ltac finish :=
  rewrite <-?app_assoc; eexists _, _; split_and!;
  [reflexivity | | | | vm_compute; reflexivity].
Local Ltac finish_with := rewrite <-?app_assoc; eexists; split_and!; [reflexivity | | |].

(** The same with the events that it adds to the trace. *)
Definition ends_with (ev : list LockEvent) (b : bool) (t : list LockEvent) (c : Core) (a' : Abs) (s' : Machine) : Prop :=
  ∃ c', s' = idle o b (t ++ ev) c' ∧ Inv c' a' ∧ c_kend c' = c_kend c ∧ slice_len (c_pages c') = slice_len (c_pages c).

Lemma ends_with_ends safe ev b t c a' s' :
  irq_run (b, []) ev = (if safe || negb b then Some (b, []) else None) → ends_with ev b t c a' s' → ends safe b t c a' s'.
Proof. intros He (c' & -> & ? & ? & ?). by exists ev, c'. Qed.

(** From the exact events of an operation to [ends]. *)
Local Ltac forget_events H :=
  eapply wp_mono; [eapply H; eassumption|]; cbv beta;
  lazymatch goal with
  | |- ∀ _ _, _ = _ ∧ _ → _ => intros ? ? [? ?]; split; [assumption|]
  | |- _ => intros ? ? ?
  end; eapply ends_with_ends; [|eassumption];
  lazymatch goal with b : bool |- _ => destruct b end; vm_compute; reflexivity.

(** What each operation does with the locks. *)
Definition take (n : string) : list LockEvent := [EvCli; EvAcquire n].
Definition ev_alloc_2mb (b : bool) : list LockEvent :=
  take "free_2mb_list" ++ take "page_array" ++ drop_events "page_array" false ++ drop_events "free_2mb_list" b.
Definition ev_free_2mb (b : bool) : list LockEvent :=
  take "page_array" ++ take "free_2mb_list" ++ drop_events "free_2mb_list" false ++ drop_events "page_array" b.
Definition ev_alloc_4kb (b : bool) : list LockEvent :=
  take "free_4kb_list" ++ take "page_array" ++ drop_events "free_4kb_list" b ++ drop_events "page_array" false.
Definition ev_split_2mb (b : bool) : list LockEvent :=
  take "free_2mb_list" ++ take "page_array" ++ drop_events "free_2mb_list" b ++
  take "free_4kb_list" ++ drop_events "free_4kb_list" b ++ drop_events "page_array" false.
Definition ev_alloc_4kb_split (b : bool) : list LockEvent :=
  take "free_4kb_list" ++ drop_events "free_4kb_list" b ++ take "free_2mb_list" ++ drop_events "free_2mb_list" b ++
  ev_split_2mb b ++ ev_alloc_4kb b.

Lemma alloc_2mb_none b t c a :
  Inv c a → a_l2 a = [] →
  wp alloc_2mb (λ r s', r = None ∧ ends true b t c a s') (idle o b t c).
Proof.
  intros HI Hl. pose proof (inv_h2 _ _ HI) as Hh. rewrite Hl in Hh. simpl in Hh.
  unfold alloc_2mb. wp_run. rewrite Hh. wp_run. split; [done|].
  destruct b; finish; done.
Qed.

Lemma alloc_2mb_some_ev b t c a s l :
  Inv c a → a_l2 a = s :: l →
  wp alloc_2mb (λ r s', r = Some (s * PAGE_SIZE_4KB) ∧ ends_with (ev_alloc_2mb b) b t c (abs_alloc2 a s l) s')
    (idle o b t c).
Proof.
  intros HI Hl. pose proof (inv_h2 _ _ HI) as Hh. rewrite Hl in Hh. simpl in Hh.
  assert (0 ≤ s < slice_len (c_pages c)) as Hr
    by (apply (inv_l2_range _ _ HI); rewrite Hl; set_solver).
  pose proof (inv_ptr _ _ HI) as Hptr. pose proof (inv_max _ _ HI) as Hmax.
  pose proof (inv_alloc2 _ _ _ _ HI Hl) as HI'.
  unfold alloc_2mb. wp_run. rewrite Hh. wp_run.
  apply wp_unlink_front_f2; [done|by intros n [??]%(inv_next2_range _ _ HI s l)|].
  wp_run. wp_upd. wp_run. wp_upd. wp_run. wp_upd. wp_run.
  apply wp_checked; [plia|]. wp_run. split; [done|].
  destruct b; finish_with; try done; simpl; by autorewrite with slice.
Qed.

Lemma alloc_2mb_some b t c a s l :
  Inv c a → a_l2 a = s :: l →
  wp alloc_2mb (λ r s', r = Some (s * PAGE_SIZE_4KB) ∧ ends true b t c (abs_alloc2 a s l) s')
    (idle o b t c).
Proof. intros HI Hl. forget_events alloc_2mb_some_ev. Qed.

Lemma free_2mb_owned_ev b t c a s :
  Inv c a → s ∈ a_al2 a →
  wp (free_2mb s) (λ _ s', ends_with (ev_free_2mb b) b t c (abs_free2 a s) s') (idle o b t c).
Proof.
  intros HI Hs. destruct (mi_al2_range _ _ _ _ _ (inv_meta _ _ HI) Hs) as [Hr Hsp].
  destruct (slice_get_is_Some (c_pages c) s Hr) as [m Hm].
  pose proof (mi_al2 _ _ _ _ (inv_meta _ _ HI) s Hs) as [Hst _].
  rewrite (pstate_get _ _ _ Hm) in Hst. simplify_eq.
  pose proof (inv_ptr _ _ HI) as Hptr. pose proof (inv_max _ _ HI) as Hmax.
  pose proof (inv_free2 _ _ _ HI Hs) as HI'.
  unfold free_2mb. wp_run. apply wp_superpage_head; [lia|]. rewrite Hsp. wp_run.
  eapply wp_page; [done|]. rewrite bool_decide_eq_false_2 by congruence.
  wp_run. wp_upd. wp_run. wp_upd. wp_run.
  apply wp_link_front; [in_range| |].
  { intros old Hold. destruct (inv_h2_range _ _ HI old Hold). in_range. }
  wp_run. destruct b; finish_with; try done; simpl; by autorewrite with slice.
Qed.

Lemma free_2mb_owned b t c a s :
  Inv c a → s ∈ a_al2 a →
  wp (free_2mb s) (λ _ s', ends true b t c (abs_free2 a s) s') (idle o b t c).
Proof. intros HI Hs. forget_events free_2mb_owned_ev. Qed.

(** No page of the superpage to split is on a list. *)
Lemma split_block_free c a s l : Inv c a → a_l2 a = s :: l →
  (∀ j, sp j = s → j ∉ a_l4 a) ∧ (∀ j, sp j = s → j ∉ l).
Proof.
  intros HI Hl. destruct (mi_l2_head _ _ _ _ _ _ (inv_meta _ _ HI) Hl) as (Hs & _ & _ & Hsl & _ & _ & Hsub & _). split.
  - intros j Hj Hin. destruct (mi_own _ _ _ _ (inv_meta _ _ HI) j (or_introl Hin)). congruence.
  - intros j Hj Hin. destruct (mi_l2 _ _ _ _ (inv_meta _ _ HI) j (Hsub j Hin)). congruence.
Qed.

(** The array when the loop of [split_2mb] starts. *)
Lemma split_inv_start c a s l : Inv c a → a_l2 a = s :: l →
  let ps0 := upd (pop_pages (c_pages c) s) s (with_counter PAGES_PER_2MB) in
  split_inv s (a_l4 a) l ps0 0 ps0 (c_h4 c) (page_next (c_pages c) s).
Proof.
  intros HI Hl ps0. split.
  - done.
  - change (reverse (seqZ s 0)) with (@nil Z). unfold ps0.
    eapply dll_frame; [|apply HI]. intros q Hq. rewrite lnk_set_counter.
    apply lnk_pop_other. intros [_ Hn]%(inv_next2_range _ _ HI s l); [|done].
    apply (inv_lists_disjoint _ _ HI q Hq). rewrite Hl. set_solver.
  - unfold ps0. eapply dll_frame; [intros; apply lnk_set_counter|].
    pose proof (inv_dll2 _ _ HI) as Hd. rewrite Hl in Hd.
    rewrite (dll_head_next _ _ _ _ Hd). by eapply dll_pop.
  - intros j. by rewrite decide_False by lia.
  - done.
Qed.

(** [split_2mb] takes the first free 2MB page apart. *)
Lemma split_2mb_some_ev b t c a s l :
  Inv c a → a_l2 a = s :: l →
  wp split_2mb (λ r s', r = Some tt ∧ ends_with (ev_split_2mb b) b t c (abs_split a s l) s') (idle o b t c).
Proof.
  intros HI Hl. pose proof (inv_h2 _ _ HI) as Hh. rewrite Hl in Hh. simpl in Hh.
  assert (s ∈ a_l2 a) as Hs by (rewrite Hl; set_solver).
  destruct (mi_l2_range _ _ _ _ _ (inv_meta _ _ HI) Hs) as [Hr Hsp].
  pose proof (mi_len _ _ _ _ (inv_meta _ _ HI)) as Hlen.
  pose proof (inv_ptr _ _ HI) as Hptr. pose proof (inv_max _ _ HI) as Hmax.
  unfold split_2mb. wp_run. rewrite Hh. wp_run.
  apply wp_unlink_front_f2; [done|by intros n [??]%(inv_next2_range _ _ HI s l)|].
  wp_run. wp_upd. wp_run.
  set (ps0 := upd (pop_pages (c_pages c) s) s (with_counter PAGES_PER_2MB)).
  lazymatch goal with |- wp _ _ (mach _ _ _ ?tr _) => set (T := tr) end.
  eapply wp_mono; [apply (wp_for_range 0 PAGES_PER_2MB _ (λ i s', ∃ ps' h4,
    split_inv s (a_l4 a) l ps0 i ps' h4 (page_next (c_pages c) s) ∧
    s' = mach (mkLocks true true false false) o false T
           (mkCore (c_ptr c) ps' h4 (page_next (c_pages c) s) (c_kend c))))|].
  - plia.
  - intros i s' Hi (ps' & h4 & HS & ->).
    assert (sp (s + i) = s) as Hspi by (apply sp_eq; [done|lia]).
    pose proof (blk_range _ _ _ Hlen Hspi Hr) as Hri.
    assert (slice_len ps' = slice_len (c_pages c)) as Hl'.
    { rewrite (si_len _ _ _ _ _ _ _ _ HS). unfold ps0. by autorewrite with slice. }
    wp_run. apply wp_checked; [plia|]. wp_run. wp_upd. wp_run.
    apply wp_link_front; [in_range| |].
    { intros old Hold. cbn in Hold. assert (0 ≤ old < slice_len ps') as Ho; [|in_range].
      pose proof (si_dll4 _ _ _ _ _ _ _ _ HS) as Hd. eapply (dll_elem_range _ _ _ _ Hd).
      destruct Hd as [Hhd _]. rewrite Hhd in Hold.
      destruct (reverse (seqZ s i) ++ a_l4 a); simplify_eq/=. set_solver. }
    wp_run. eexists _, _. split; [|reflexivity].
    destruct (split_block_free _ _ _ _ HI Hl) as [H4 H2].
    apply split_inv_step; [done|lia|unfold ps0; by autorewrite with slice|eauto|eauto|].
    intros j [Hj|Hj]%elem_of_app.
    + apply elem_of_reverse, elem_of_seqZ in Hj. apply H2, sp_eq; [done|lia].
    + intros Hjl. apply (inv_lists_disjoint _ _ HI j Hj). rewrite Hl. set_solver.
  - exists ps0, (c_h4 c). split; [by apply split_inv_start|reflexivity].
  - intros [] s' (ps' & h4 & HS & ->). wp_run.
    destruct (inv_split _ _ _ _ _ _ HI Hl HS) as [HI' Hlen'].
    split; [done|]. subst T. destruct b; finish_with; done.
Qed.

(** Running on from where an operation ended. *)
Lemma ends_trans safe1 safe2 b t c c1 a' ev s' :
  c_kend c1 = c_kend c → slice_len (c_pages c1) = slice_len (c_pages c) →
  (irq_run (b, []) ev = if safe1 || negb b then Some (b, []) else None) →
  ends safe2 b (t ++ ev) c1 a' s' → ends (safe1 && safe2) b t c a' s'.
Proof.
  intros Hk Hl He (ev' & c' & -> & HI & Hk' & Hl' & He').
  exists (ev ++ ev'), c'. rewrite app_assoc. split_and!; [done..|congruence|congruence|].
  rewrite irq_run_app, He. by destruct safe1, safe2, b.
Qed.

Lemma alloc_4kb_hit_ev n b t c a p l :
  Inv c a → a_l4 a = p :: l →
  wp (alloc_4kb (S n)) (λ r s', r = Some (p * PAGE_SIZE_4KB) ∧
    ends_with (ev_alloc_4kb b) b t c (abs_alloc4 a p l) s') (idle o b t c).
Proof.
  intros HI Hl. pose proof (inv_h4 _ _ HI) as Hh. rewrite Hl in Hh. simpl in Hh.
  assert (0 ≤ p < slice_len (c_pages c)) as Hr
    by (apply (inv_l4_range _ _ HI); rewrite Hl; set_solver).
  pose proof (sp_range _ _ Hr) as Hr'.
  pose proof (inv_ptr _ _ HI) as Hptr. pose proof (inv_max _ _ HI) as Hmax.
  destruct (slice_get_is_Some (take_pages (c_pages c) p) (sp p)) as [m Hm];
    [by autorewrite with slice|].
  pose proof (inv_alloc4 _ _ _ _ _ HI Hl Hm) as HI'.
  cbn [alloc_4kb]. wp_run. rewrite Hh. wp_run.
  apply wp_unlink_front_f4; [done|by intros n' [??]%(inv_next4_range _ _ HI p l)|].
  wp_run. wp_upd. wp_run. wp_upd. wp_run. wp_upd. wp_run.
  apply wp_superpage_head; [lia|]. wp_run.
  autorewrite with slice. rewrite (proj2 (Z.ltb_lt _ _)) by lia. wp_run.
  eapply wp_page; [exact Hm|]. wp_upd. wp_run.
  apply wp_checked; [plia|]. wp_run. split; [done|].
  destruct b; finish_with; try done; simpl; by autorewrite with slice.
Qed.

Lemma alloc_4kb_hit n b t c a p l :
  Inv c a → a_l4 a = p :: l →
  wp (alloc_4kb (S n)) (λ r s', r = Some (p * PAGE_SIZE_4KB) ∧
    ends false b t c (abs_alloc4 a p l) s') (idle o b t c).
Proof. intros HI Hl. forget_events alloc_4kb_hit_ev. Qed.

Lemma alloc_4kb_empty n b t c a :
  Inv c a → a_l4 a = [] → a_l2 a = [] →
  wp (alloc_4kb (S n)) (λ r s', r = None ∧ ends true b t c a s') (idle o b t c).
Proof.
  intros HI Hl4 Hl2. pose proof (inv_h4 _ _ HI) as Hh. rewrite Hl4 in Hh. simpl in Hh.
  pose proof (inv_h2 _ _ HI) as Hh2. rewrite Hl2 in Hh2. simpl in Hh2.
  cbn [alloc_4kb]. wp_run. rewrite Hh. wp_run. rewrite Hh2. wp_run. split; [done|].
  destruct b; finish; done.
Qed.

Lemma alloc_4kb_split_ev n b t c a s l :
  Inv c a → a_l4 a = [] → a_l2 a = s :: l →
  wp (alloc_4kb (S (S n))) (λ r s', r = Some ((s + 511) * PAGE_SIZE_4KB) ∧
    ends_with (ev_alloc_4kb_split b) b t c (abs_alloc4 (abs_split a s l) (s + 511) (reverse (seqZ s 511))) s')
    (idle o b t c).
Proof.
  intros HI Hl4 Hl2. pose proof (inv_h4 _ _ HI) as Hh. rewrite Hl4 in Hh. simpl in Hh.
  pose proof (inv_h2 _ _ HI) as Hh2. rewrite Hl2 in Hh2. simpl in Hh2.
  remember (S n) as n' eqn:En. cbn [alloc_4kb]. wp_run. rewrite Hh. wp_run. rewrite Hh2. wp_run.
  rewrite !orb_false_r. change (mkLocks false false false false) with no_locks.
  eapply wp_mono; [exact (split_2mb_some_ev b _ c a s l HI Hl2)|].
  intros r s' (-> & c1 & -> & HI1 & Hk1 & Hlen1). subst n'.
  eapply wp_mono; [apply (alloc_4kb_hit_ev n b _ c1 (abs_split a s l) (s + 511) (reverse (seqZ s 511)))|].
  - done.
  - unfold abs_split. cbn [a_l4]. rewrite Hl4, app_nil_r. unfold blk.
    change PAGES_PER_2MB with (511 + 1). rewrite (reverse_seqZ_succ s 511) by lia. reflexivity.
  - intros r s' (-> & c2 & -> & HI2 & Hk2 & Hlen2). split; [done|]. exists c2.
    split; [by rewrite <-!app_assoc|]. split; [done|]. split; congruence.
Qed.

Lemma alloc_4kb_split n b t c a s l :
  Inv c a → a_l4 a = [] → a_l2 a = s :: l →
  wp (alloc_4kb (S (S n))) (λ r s', r = Some ((s + 511) * PAGE_SIZE_4KB) ∧
    ends false b t c (abs_alloc4 (abs_split a s l) (s + 511) (reverse (seqZ s 511))) s')
    (idle o b t c).
Proof. intros HI Hl4 Hl2. forget_events alloc_4kb_split_ev. Qed.

Lemma wp_unlink_page p t c h l Q :
  dll (c_pages c) h l → p ∈ l →
  (∀ ev, irq_run (false, ["page_array"]) ev = Some (false, ["page_array"]) →
     Q tt (mach (mkLocks true false false false) o false (t ++ ev)
            (with_h4 (head_without (c_pages c) (c_h4 c) p)
               (with_pages (unlink_pages (c_pages c) p) c)))) →
  wp (unlink_page p) Q (mach (mkLocks true false false false) o false t c).
Proof.
  intros Hd Hp HQ. pose proof (dll_elem_range _ _ _ _ Hd Hp) as Hr.
  destruct (slice_get_is_Some _ _ Hr) as [m Hm].
  assert (∀ q, prev m = Some q ∨ next m = Some q → 0 ≤ q < slice_len (c_pages c)) as Hq.
  { intros q Hq. apply (dll_elem_range _ _ _ q Hd).
    apply list_elem_of_split in Hp as (l1 & l2 & ->).
    pose proof (dll_middle_links _ _ _ _ _ Hd) as Hl. unfold lnk in Hl. rewrite Hm in Hl.
    injection Hl as E1 E2. rewrite E1, E2 in Hq. destruct Hq as [Hq|Hq].
    - apply last_or_elem in Hq; [|done]. set_solver.
    - destruct l2; simplify_eq/=. set_solver. }
  unfold head_without, unlink_pages, page_prev, page_next, clear_links in HQ.
  rewrite Hm in HQ. simpl in HQ.
  unfold unlink_page. wp_run. eapply wp_page; [done|].
  destruct (prev m) as [pv|] eqn:Epv; wp_run.
  - specialize (HQ [] eq_refl). rewrite app_nil_r in HQ.
    pose proof (Hq pv (or_introl eq_refl)). wp_upd. destruct (next m) as [nx|] eqn:Enx; wp_run.
    + pose proof (Hq nx (or_intror eq_refl)). wp_upd. wp_run. wp_upd. wp_upd. done.
    + wp_upd. wp_upd. done.
  - rewrite <-!app_assoc.
    specialize (HQ [EvCli; EvAcquire "free_4kb_list"; EvRelease "free_4kb_list"]
      ltac:(vm_compute; reflexivity)).
    destruct (next m) as [nx|] eqn:Enx; wp_run.
    + pose proof (Hq nx (or_intror eq_refl)). wp_upd. wp_run. wp_upd. wp_upd. done.
    + wp_upd. wp_upd. done.
Qed.

(** The test of [try_merge] reads off whether the page is in the list. *)
Lemma try_merge_check k b t c a p :
  Inv c a → p ∈ a_l4 a →
  check_each (seqZ 0 PAGES_PER_2MB) (λ i, q ← uadd (sp p) i; m ← page q;
    mret (bool_decide (state m = Free4KB))) (mach k o b t c)
  = Done (bool_decide (Forall (λ q, q ∈ a_l4 a) (blk (sp p))), mach k o b t c).
Proof.
  intros HI Hp. pose proof (inv_l4_range _ _ HI p Hp) as Hr.
  pose proof (inv_max _ _ HI) as Hmax. pose proof (mi_len _ _ _ _ (inv_meta _ _ HI)) as Hlen.
  destruct (mi_own _ _ _ _ (inv_meta _ _ HI) p (or_introl Hp)) as [Hn2 Hna].
  rewrite (wp_check_each _ _ (λ i, sp p + i ∈ a_l4 a)).
  - do 2 f_equal. apply bool_decide_ext. rewrite !Forall_forall. split; intros H q Hq.
    + apply elem_of_blk in Hq. replace q with (sp p + (q - sp p)) by lia.
      apply H, elem_of_seqZ. lia.
    + apply elem_of_seqZ in Hq. apply H, elem_of_blk. lia.
  - intros i Hi%elem_of_seqZ.
    assert (sp (sp p + i) = sp p) as Hsp by (apply sp_eq; [apply sp_sp|lia]).
    pose proof (blk_range _ _ _ Hlen Hsp (sp_range _ _ Hr)) as Hri.
    destruct (slice_get_is_Some _ _ Hri) as [m Hm].
    unfold mbind, M_bind, uadd. rewrite checked_ok by plia.
    assert (wp (page (sp p + i)) (λ x s', x = m ∧ s' = mach k o b t c) (mach k o b t c))
      as (x & s' & -> & -> & ->) by by eapply wp_page.
    unfold mret, M_ret. do 2 f_equal. apply bool_decide_ext. apply pstate_get in Hm. split.
    + intros E. rewrite E in Hm. apply (mi_stale _ _ _ _ (inv_meta _ _ HI)) in Hm.
      rewrite Hsp in Hm. naive_solver.
    + intros E%(mi_l4 _ _ _ _ (inv_meta _ _ HI)). congruence.
Qed.

Lemma try_merge_spec b t c a p :
  Inv c a → p ∈ a_l4 a →
  wp (try_merge p) (λ _ s', ends true b t c (merge_if_free a (sp p)) s') (idle o b t c).
Proof.
  intros HI Hp. pose proof (inv_l4_range _ _ HI p Hp) as Hr.
  pose proof (inv_max _ _ HI) as Hmax. pose proof (inv_ptr _ _ HI) as Hptr.
  pose proof (sp_range _ _ Hr) as Hrs.
  destruct (mi_own _ _ _ _ (inv_meta _ _ HI) p (or_introl Hp)) as [Hn2 Hna].
  unfold try_merge. wp_run. apply wp_superpage_head; [lia|]. wp_run.
  eexists _, _. split; [by apply try_merge_check|]. unfold merge_if_free. case_decide as Hall.
  2: { rewrite bool_decide_eq_false_2 by done. wp_run. destruct b; finish; done. }
  rewrite bool_decide_eq_true_2 by done. rewrite Forall_forall in Hall.
  assert (∀ q, sp q = sp p → q ∈ a_l4 a) as Hall'.
  { intros q Hq. apply Hall, elem_of_blk_sp; [apply sp_sp|done]. }
  wp_run. lazymatch goal with |- wp _ _ (mach _ _ _ ?tr _) => set (T := tr) end.
  eapply wp_mono; [apply (wp_for_range 0 PAGES_PER_2MB _ (λ i s', ∃ ps' h4 ev,
    merge_inv (sp p) (a_l4 a) (a_l2 a) (c_pages c) i ps' h4 (c_h2 c) ∧
    irq_run (false, ["page_array"]) ev = Some (false, ["page_array"]) ∧
    s' = mach (mkLocks true false false false) o false (T ++ ev)
           (mkCore (c_ptr c) ps' h4 (c_h2 c) (c_kend c))))|].
  - plia.
  - intros i s' Hi (ps' & h4 & ev & HM & Hev & ->).
    assert (sp p + i ∈ a_l4 a) as Hin by (apply Hall, elem_of_blk; lia).
    wp_run. apply wp_checked; [pose proof (inv_l4_range _ _ HI _ Hin); plia|].
    eapply wp_unlink_page; [exact (mg_dll4 _ _ _ _ _ _ _ _ HM)| |].
    { apply list_elem_of_filter. split; [lia|done]. }
    intros ev' Hev'. rewrite <-app_assoc. eexists _, _, (ev ++ ev'). split_and!; [| |reflexivity].
    + apply merge_inv_step; [done|lia|done|apply (inv_lists_disjoint _ _ HI)].
    + by rewrite irq_run_app, Hev.
  - exists (c_pages c), (c_h4 c), []. rewrite app_nil_r. split_and!; [|done|by destruct c].
    split; try done; try apply HI. unfold without_block.
    rewrite filter_all by lia. apply HI.
  - intros [] s' (ps' & h4 & ev & HM & Hev & ->).
    pose proof (mg_len _ _ _ _ _ _ _ _ HM) as Hl'.
    pose proof (inv_merge _ _ _ _ _ HI (sp_sp p) Hrs Hn2 Hna Hall' HM) as HI'.
    wp_run. wp_upd. wp_run. wp_upd. wp_run.
    apply wp_link_front; [in_range| |].
    { intros old Hold. destruct (inv_h2_range _ _ HI old Hold). in_range. }
    wp_run. subst T. rewrite <-!app_assoc.
    destruct b; (eexists _, _; split_and!; [reflexivity|done|done| |]);
      try (simpl; autorewrite with slice; done);
      apply (irq_run_mid _ (false, ["page_array"]));
      first [exact Hev|vm_compute; reflexivity].
Qed.

(** The end of [free_4kb]: the page has been linked, the guards are dropped
    and the merge is tried. *)
Lemma free_4kb_tail b t c c1 a p (can : bool) :
  Inv (with_h4 (Some p) c1) (abs_free4 a p) →
  c_kend c1 = c_kend c → slice_len (c_pages c1) = slice_len (c_pages c) →
  wp (assign free_4kb_list (Some p);; drop_guard free_4kb_list (mkGuard false);;
      drop_guard page_array (mkGuard b);; if can then try_merge p else mret tt)
    (λ _ s', ends true b t c
      (if can then merge_if_free (abs_free4 a p) (sp p) else abs_free4 a p) s')
    (mach (mkLocks true true false false) o false
       (t ++ [EvCli; EvAcquire "page_array"] ++ [EvCli; EvAcquire "free_4kb_list"]) c1).
Proof.
  intros HI Hk Hl. wp_run. rewrite orb_false_r. rewrite <-!app_assoc.
  change (mkLocks false false false false) with no_locks.
  lazymatch goal with |- context [t ++ ?e] => set (ev := e) end.
  assert (irq_run (b, []) ev = Some (b, [])) as Hev by (destruct b; vm_compute; reflexivity).
  destruct can; [|wp_run; by exists ev, (with_h4 (Some p) c1)].
  eapply wp_mono; [apply try_merge_spec; [exact HI|simpl; set_solver]|].
  intros [] s' He. by apply (ends_trans true true b t c (with_h4 (Some p) c1) _ ev).
Qed.

Lemma free_4kb_owned b t c a p :
  Inv c a → p ∈ a_al4 a →
  ∃ n, pcount (c_pages c) (sp p) = Some n ∧
    wp (free_4kb p) (λ _ s', ends true b t c (free4_result a p n) s') (idle o b t c).
Proof.
  intros HI Hp. pose proof (mi_al4 _ _ _ _ (inv_meta _ _ HI) p Hp) as Hst.
  pose proof (mi_st_some _ _ _ _ _ _ (inv_meta _ _ HI) Hst) as Hr.
  pose proof (sp_range _ _ Hr) as Hrs.
  pose proof (inv_max _ _ HI) as Hmax. pose proof (inv_ptr _ _ HI) as Hptr.
  destruct (slice_get_is_Some _ _ Hr) as [mp Hmp].
  rewrite (pstate_get _ _ _ Hmp) in Hst. simplify_eq.
  destruct (slice_get_is_Some (upd (c_pages c) p (with_state Free4KB)) (sp p)) as [m Hm];
    [by autorewrite with slice|].
  pose proof (inv_free4 _ _ _ _ HI Hp Hm) as HI'. pose proof (pcount_get _ _ _ Hm) as Hn.
  rewrite pcount_set_state in Hn. exists (counter m). split; [done|].
  unfold free_4kb. wp_run. rewrite (proj2 (Z.leb_gt _ _)) by lia. wp_run.
  eapply wp_page; [done|]. rewrite bool_decide_eq_false_2 by congruence.
  wp_run. wp_upd. wp_run. apply wp_superpage_head; [lia|]. wp_run.
  rewrite (proj2 (Z.ltb_lt _ _)) by lia. wp_run. eapply wp_page; [exact Hm|].
  wp_run. wp_upd. wp_run.
  eapply wp_page; [cbn; rewrite slice_get_upd, decide_True, Hm by done; reflexivity|].
  wp_run. wp_upd. wp_run. wp_upd. wp_run. rewrite <-!app_assoc.
  unfold link_pages in HI'. destruct (c_h4 c) as [old|] eqn:Eh.
  - destruct (inv_h4_range _ _ HI old Eh) as [Ho _].
    rewrite (proj2 (Z.ltb_lt _ _)) by lia. wp_upd.
    apply free_4kb_tail; [exact HI'|done|by cbn; autorewrite with slice].
  - apply wp_ret. apply free_4kb_tail; [exact HI'|done|by cbn; autorewrite with slice].
Qed.
End ops.
