(* ===== verification/AllocInit.v ===== *)
(** * Initialisation of the page allocator

    [mark_available] and [build_lists] establish [Inv]: the frames that are
    free after [init] are exactly the whole frames of the available areas that
    lie above the kernel and its metadata. *)
From Stdlib Require Import Sorted.
From S2P Require Import Prelude Mutex Memory Multiboot2 PageAllocator FreeList AllocInv AllocExec AllocOps.

(** ** Marking *)

(** Two descriptions of a set of frames that differ by arithmetic. *)
Ltac frames := intros ?; cbv beta; rewrite ?Logic.or_assoc; apply or_iff_compat_l; plia.

(** Marked arrays: [R] is the set of frames the areas seen so far give. *)
Record mark_inv (len : Z) (R : Z → Prop) (ps : list PageMetadata) : Prop := {
  mk_len : slice_len ps = len;
  mk_out p : 0 ≤ p < len → ¬ R p → pstate ps p = Some Unavailable;
  mk_free p : pstate ps p = Some Free4KB → R p;
  mk_alloc p : pstate ps p ≠ Some Allocated;
  mk_big s : pstate ps s = Some Free2MB → sp s = s ∧ pcount ps s = Some PAGES_PER_2MB ∧
    ∀ p, sp p = s → R p ∧ (p ≠ s → pstate ps p = Some Unavailable);
  mk_in p : R p → 0 ≤ p < len ∧ (pstate ps p = Some Free4KB ∨ pstate ps (sp p) = Some Free2MB);
  mk_count p : 0 ≤ p < len → ∃ n, pcount ps p = Some n ∧ 0 ≤ n ≤ PAGES_PER_2MB;
}.

(** The frames of an area that [mark_available] marks. *)
Definition area_frames (kernel_pfn len : Z) (base length : Z) (p : Z) : Prop :=
  Z.max (base / PAGE_SIZE_4KB) kernel_pfn ≤ p < Z.min ((base + length) / PAGE_SIZE_4KB) len.

(** The frames of a memory map that [init] frees. *)
Definition map_frames (kernel_pfn len : Z) (areas : list MemoryArea) (p : Z) : Prop :=
  ∃ x, x ∈ areas ∧ area_typ x = 1 ∧ area_frames kernel_pfn len (base_addr x) (length_ x) p.

(** Two areas do not overlap. *)
Definition area_disjoint (x y : MemoryArea) : Prop :=
  base_addr x + length_ x ≤ base_addr y ∨ base_addr y + length_ y ≤ base_addr x.

(** The available areas of the map lie below [limit] and do not overlap. *)
Definition map_ok (limit : Z) (areas : list MemoryArea) : Prop :=
  (∀ x, x ∈ areas → area_typ x = 1 →
     0 ≤ base_addr x ∧ 0 ≤ length_ x ∧ base_addr x + length_ x ≤ limit) ∧
  (∀ i j x y, areas !! i = Some x → areas !! j = Some y → i ≠ j →
     area_typ x = 1 → area_typ y = 1 → area_disjoint x y).

Lemma mark_inv_ext len R R' ps :
  (∀ p, R p ↔ R' p) → mark_inv len R ps → mark_inv len R' ps.
Proof.
  intros HR [H1 H2 Hf H3 H4 H5 H6]. split; try done.
  - intros p Hp Hn. apply H2; [done|]. by rewrite HR.
  - intros p Hp. apply HR, Hf, Hp.
  - intros s Hs. destruct (H4 s Hs) as (?&?&Hb). split_and!; [done..|].
    intros p Hp. rewrite <-HR. by apply Hb.
  - intros p Hp%HR. by apply H5.
Qed.

Lemma mark_inv_new n :
  mark_inv (Z.of_nat n) (λ _, False) (replicate n PageMetadata_new).
Proof.
  assert (∀ p m, slice_get (replicate n PageMetadata_new) p = Some m → m = PageMetadata_new) as Hm.
  { intros p m. unfold slice_get. destruct (0 <=? p); [|done]. by intros [-> _]%lookup_replicate. }
  assert (∀ p x, pstate (replicate n PageMetadata_new) p = Some x → x = Unavailable) as Hs.
  { intros p x. unfold pstate, meta. destruct (slice_get _ p) eqn:E; simpl; [|done].
    apply Hm in E as ->. by intros [= <-]. }
  split.
  - apply slice_len_replicate.
  - intros p Hp _. unfold pstate, meta. by rewrite slice_get_replicate.
  - by intros p ?%Hs.
  - by intros p ?%Hs.
  - by intros s ?%Hs.
  - done.
  - intros p Hp. exists 0. unfold pcount, meta. rewrite slice_get_replicate by done.
    split; [done|plia].
Qed.

(** One 4KB frame. *)
Lemma mark_inv_4kb len R ps pfn :
  mark_inv len R ps → 0 ≤ pfn < len → ¬ R pfn →
  mark_inv len (λ p, R p ∨ p = pfn) (upd ps pfn (with_state Free4KB)).
Proof.
  intros [Hlen Hout Hfr Hal Hbig Hin Hct] Hp HR. subst len.
  assert (∀ s, pstate ps s = Some Free2MB → sp pfn ≠ s) as Hns.
  { intros s Hs E. destruct (Hbig s Hs) as (_ & _ & Hb). apply HR. by apply Hb. }
  assert (∀ s, pstate ps s = Some Free2MB → s ≠ pfn) as Hns'.
  { intros s Hs ->. rewrite Hout in Hs by done. done. }
  split; intros; autorewrite with pages slice in *.
  - done.
  - rewrite decide_False by tauto. apply Hout; tauto.
  - case_decide; [by right|left; by apply Hfr].
  - case_decide; [done|]. apply Hal.
  - case_decide; [done|]. destruct (Hbig s H) as (?&?&Hb). split_and!; [done..|].
    intros p E. autorewrite with pages. destruct (Hb p E). split; [by left|].
    intros Hne. rewrite decide_False; [by auto|]. intros ->. by apply (Hns s).
  - destruct H as [H| ->].
    + destruct (Hin p H) as [? [E|E]]; (split; [done|]).
      * left. by case_decide.
      * right. rewrite decide_False; [done|]. by apply Hns'.
    + split; [done|]. left. by rewrite decide_True.
  - by apply Hct.
Qed.

(** One 2MB page: its first record is marked and its other records keep their
    state, which is [Unavailable]. *)
Lemma mark_inv_2mb len R ps ps' pfn :
  mark_inv len R ps → sp pfn = pfn → 0 ≤ pfn → pfn + PAGES_PER_2MB ≤ len →
  (∀ p, sp p = pfn → ¬ R p) →
  slice_len ps' = len →
  (∀ p, pstate ps' p = if decide (p = pfn) then Some Free2MB else pstate ps p) →
  (∀ p, pcount ps' p = if decide (p = pfn) then Some PAGES_PER_2MB else pcount ps p) →
  mark_inv len (λ p, R p ∨ sp p = pfn) ps'.
Proof.
  intros [Hlen Hout Hfr Hal Hbig Hin Hct] Hsp Hp Hend HR Hlen' Hst Hcn.
  assert (∀ p, sp p = pfn → 0 ≤ p < len) as Hblk.
  { intros p E. pose proof (sp_spec p). lia. }
  assert (∀ s, pstate ps s = Some Free2MB → s ≠ pfn ∧ ¬ sp s = pfn) as Hns.
  { intros s Hs. assert (R s) as Hr by (destruct (Hbig s Hs) as (E&_&Hb); by apply Hb).
    split; [intros ->|intros E]; by eapply HR. }
  split.
  - done.
  - intros p Hr Hn. rewrite Hst, decide_False; [apply Hout; tauto|]. intros ->. tauto.
  - intros p. rewrite Hst. case_decide; [done|]. intros ?%Hfr. by left.
  - intros p. rewrite Hst. case_decide; [done|apply Hal].
  - intros s. rewrite Hst, Hcn. case_decide as E.
    + intros _. subst s. split_and!; [done..|]. intros p Hpp. split; [by right|].
      intros Hne. rewrite Hst, decide_False by done. apply Hout; eauto.
    + intros Hs. destruct (Hbig s Hs) as (?&?&Hb), (Hns s Hs) as [? Hnsp]. split_and!; [done..|].
      intros p Hpp. destruct (Hb p Hpp) as [? Hu]. split; [by left|].
      intros Hne. rewrite Hst, decide_False; [by auto|]. intros ->. congruence.
  - intros p [Hr|Hr].
    + destruct (Hin p Hr) as [? Hs]. split; [done|]. rewrite !Hst.
      rewrite decide_False by (intros ->; by apply (HR pfn)).
      destruct Hs as [Hs|Hs]; [by left|right].
      rewrite decide_False; [done|]. by destruct (Hns _ Hs).
    + split; [by apply Hblk|]. right. rewrite Hst, Hr. by rewrite decide_True.
  - intros p Hr. rewrite Hcn. case_decide; [|by apply Hct]. eexists. split; [done|plia].
Qed.

Lemma aligned_sp pfn : pfn * PAGE_SIZE_4KB mod PAGE_SIZE_2MB = 0 ↔ sp pfn = pfn.
Proof.
  unfold sp, PAGE_SIZE_4KB, PAGE_SIZE_2MB, PAGES_PER_2MB.
  change (2 * 1024 * 1024) with (512 * 4096). rewrite Z.mul_mod_distr_r by lia.
  pose proof (Z.div_mod pfn 512 ltac:(lia)). lia.
Qed.

Section marking.
Context (o : Z).

(** Running the allocator's code with the page array locked. *)
Local Abbreviation locked_pa := (mach (mkLocks true false false false) o false).

(** The other pages of a 2MB page that has just been marked. *)
Lemma mark_rest ps ps1 pfn len t c :
  slice_len ps1 = len → 0 ≤ pfn → pfn + PAGES_PER_2MB ≤ len → len ≤ MAX_PAGES →
  (∀ p, pfn < p < pfn + PAGES_PER_2MB → pstate ps p = Some Unavailable) →
  (∀ p, pstate ps1 p = if decide (p = pfn) then Some Free2MB else pstate ps p) →
  (∀ p, pcount ps1 p = if decide (p = pfn) then Some PAGES_PER_2MB else pcount ps p) →
  wp (for_range 1 PAGES_PER_2MB (λ i, p ← uadd pfn i; set_state p Unavailable)) (λ _ s', ∃ ps',
      s' = locked_pa t (with_pages ps' c) ∧ slice_len ps' = len ∧
      (∀ p, pstate ps' p = if decide (p = pfn) then Some Free2MB else pstate ps p) ∧
      (∀ p, pcount ps' p = if decide (p = pfn) then Some PAGES_PER_2MB else pcount ps p))
    (locked_pa t (with_pages ps1 c)).
Proof.
  intros Hlen Hp Hend Hmax Hun Hst Hct.
  apply (wp_for_range 1 PAGES_PER_2MB _ (λ _ s', ∃ ps', s' = locked_pa t (with_pages ps' c) ∧ slice_len ps' = len ∧
    (∀ p, pstate ps' p = if decide (p = pfn) then Some Free2MB else pstate ps p) ∧
    (∀ p, pcount ps' p = if decide (p = pfn) then Some PAGES_PER_2MB else pcount ps p))).
  - plia.
  - intros i s' Hi (ps' & -> & Hl' & Hst' & Hct'). wp_run. apply wp_checked; [plia|].
    unfold set_state. apply wp_modify_page; [cbn; lia|]. eexists.
    split_and!; [reflexivity|by autorewrite with slice|..]; intros p; cbn; [|by autorewrite with pages].
    rewrite pstate_set_state, Hst' by lia. destruct (decide (p = pfn + i)) as [->|]; [|done].
    rewrite decide_False by lia. symmetry. apply Hun. lia.
  - exists ps1. by split_and!.
Qed.

Lemma mark_loop_spec fuel len end_pfn start pfn R ps t c :
  (Z.to_nat (end_pfn - pfn) ≤ fuel)%nat → 0 ≤ start ≤ pfn → len ≤ MAX_PAGES →
  end_pfn ≤ MAX_PAGES →
  mark_inv len (λ p, R p ∨ start ≤ p < Z.min pfn (Z.min end_pfn len)) ps →
  (∀ p, start ≤ p < end_pfn → ¬ R p) →
  wp (mark_loop fuel len end_pfn pfn)
    (λ _ s', ∃ ps', s' = locked_pa t (with_pages ps' c) ∧
       mark_inv len (λ p, R p ∨ start ≤ p < Z.min end_pfn len) ps')
    (locked_pa t (with_pages ps c)).
Proof.
  revert pfn ps. induction fuel as [|fuel IH]; intros pfn ps Hf Hs Hmax Hend HM HR;
    cbn [mark_loop]; destruct (Z.ltb_spec pfn end_pfn) as [H1|H1]; simpl; try lia.
  - apply wp_ret. exists ps. split; [done|]. eapply mark_inv_ext, HM. frames.
  - destruct (Z.ltb_spec pfn len) as [H2|H2]; last first.
    { apply wp_ret. exists ps. split; [done|]. eapply mark_inv_ext, HM. frames. }
    pose proof (mk_len _ _ _ HM) as Hlen.
    apply wp_bind, wp_checked; [plia|]. apply wp_bind.
    set (Q := λ (big : bool) (s' : Machine), s' = locked_pa t (with_pages ps c) ∧
      (big = true → sp pfn = pfn ∧ pfn + PAGES_PER_2MB ≤ end_pfn ∧ pfn + PAGES_PER_2MB ≤ len)).
    apply (wp_mono _ Q).
    { destruct (Z.eqb_spec (pfn * PAGE_SIZE_4KB mod PAGE_SIZE_2MB) 0) as [Ha%aligned_sp|_];
        [|by apply wp_ret; unfold Q].
      apply wp_bind, wp_checked; [plia|]. apply wp_ret. split; [done|].
      intros [?%Z.leb_le ?%Z.leb_le]%andb_true_iff. done. }
    intros big s' [-> Hbig]. destruct big.
    + destruct (Hbig eq_refl) as (Ha & He1 & He2).
      assert (∀ p, sp p = pfn ↔ pfn ≤ p < pfn + PAGES_PER_2MB) as Hblk.
      { intros p. by rewrite <-(elem_of_blk_sp pfn p Ha), elem_of_blk. }
      wp_run. wp_upd. wp_run. wp_upd. wp_run.
      eapply wp_mono; [apply (mark_rest ps _ pfn len)|].
      * by autorewrite with slice.
      * lia.
      * done.
      * done.
      * intros p Hp. apply (mk_out _ _ _ HM); [plia|]. intros [Hr|?]; [|lia]. by apply (HR p); [lia|].
      * intros p. by autorewrite with pages.
      * intros p. by autorewrite with pages.
      * intros [] s' (ps' & -> & Hl' & Hst' & Hct'). wp_run. apply wp_checked; [plia|].
        apply IH; [plia|plia|done|done| |done].
        eapply mark_inv_ext, mark_inv_2mb; [|exact HM|done|lia|done| |done..].
        -- intros p. cbv beta. rewrite Hblk. revert p. frames.
        -- intros p Hp%Hblk [Hr|?]; [|lia]. by apply (HR p); [lia|].
    + wp_run. wp_upd. wp_run. apply wp_checked; [plia|].
      apply IH; [lia|lia|done|done| |done].
      eapply mark_inv_ext; [|eapply mark_inv_4kb; [exact HM|lia|]]; [frames|].
      intros [Hr|?]; [by apply (HR pfn); [lia|]|lia].
  - apply wp_ret. exists ps. split; [done|]. eapply mark_inv_ext, HM. frames.
Qed.

(** [mark_available] on an idle machine. *)
Lemma mark_available_spec b t c len R base length :
  c_ptr c ≠ 0 → 0 ≤ c_kend c → len ≤ MAX_PAGES →
  0 ≤ base → 0 ≤ length → base + length ≤ U64_MAX →
  mark_inv len R (c_pages c) →
  (∀ p, base / PAGE_SIZE_4KB ≤ p < (base + length) / PAGE_SIZE_4KB → ¬ R p) →
  wp (mark_available base length) (λ _ s', ∃ ev ps', s' = idle o b (t ++ ev) (with_pages ps' c) ∧ quiet b ev ∧
    mark_inv len (λ p, R p ∨ area_frames (c_kend c / PAGE_SIZE_4KB) len base length p) ps')
    (idle o b t c).
Proof.
  intros Hptr Hk Hmax Hb Hl Hend HM HR. unfold mark_available. wp_run.
  apply wp_checked; [lia|]. wp_run. rewrite (mk_len _ _ _ HM).
  assert (0 ≤ base / PAGE_SIZE_4KB) by (apply Z.div_pos; plia).
  assert ((base + length) / PAGE_SIZE_4KB ≤ MAX_PAGES)
    by (apply Z.div_le_upper_bound; plia).
  assert (c = with_pages (c_pages c) c) as Hc by by destruct c. rewrite Hc at 1.
  eapply wp_mono; [apply (mark_loop_spec _ _ _
    (Z.max (base / PAGE_SIZE_4KB) (c_kend c / PAGE_SIZE_4KB)) _ R); try done; try lia|].
  - eapply mark_inv_ext, HM. intros p. cbv beta. split; [intros; by left|]. intros [?|?]; [done|lia].
  - intros p Hp. apply HR. lia.
  - intros [] s' (ps' & -> & HM'). wp_run. exists ([EvCli; EvAcquire "page_array"; EvCli; EvAcquire "kernel_end";
      EvRelease "kernel_end"] ++ drop_events "page_array" b), ps'.
    split; [destruct b; rewrite <-!app_assoc; reflexivity|]. split; [by destruct b|exact HM'].
Qed.

Lemma div_disjoint x y p :
  0 ≤ base_addr x → 0 ≤ length_ x → 0 ≤ base_addr y → 0 ≤ length_ y → area_disjoint x y →
  base_addr x / PAGE_SIZE_4KB ≤ p < (base_addr x + length_ x) / PAGE_SIZE_4KB →
  ¬ (base_addr y / PAGE_SIZE_4KB ≤ p < (base_addr y + length_ y) / PAGE_SIZE_4KB).
Proof.
  intros ???? [Hd|Hd] Hx Hy; apply (Z.div_le_mono _ _ PAGE_SIZE_4KB) in Hd; plia.
Qed.

Lemma mark_areas_spec b t c len limit areas :
  c_ptr c ≠ 0 → 0 ≤ c_kend c → len ≤ MAX_PAGES → limit ≤ U64_MAX → map_ok limit areas →
  mark_inv len (λ _, False) (c_pages c) →
  wp (for_each areas mark_area) (λ _ s', ∃ ev ps', s' = idle o b (t ++ ev) (with_pages ps' c) ∧ quiet b ev ∧
    mark_inv len (map_frames (c_kend c / PAGE_SIZE_4KB) len areas) ps')
    (idle o b t c).
Proof.
  intros Hptr Hk Hmax Hlim [Hok Hdis] HM.
  apply (wp_for_each _ _ (λ pre s', ∃ ev ps', s' = idle o b (t ++ ev) (with_pages ps' c) ∧ quiet b ev ∧
    mark_inv len (map_frames (c_kend c / PAGE_SIZE_4KB) len pre) ps')).
  - intros pre x post s' -> (ev & ps & -> & Hq & HM').
    assert (∀ p, map_frames (c_kend c / PAGE_SIZE_4KB) len (pre ++ [x]) p ↔
      map_frames (c_kend c / PAGE_SIZE_4KB) len pre p ∨ (area_typ x = 1 ∧
        area_frames (c_kend c / PAGE_SIZE_4KB) len (base_addr x) (length_ x) p)) as Hext.
    { intros p. unfold map_frames. split.
      - intros (y & [Hy|Hy]%elem_of_app & Hy'); [left; by exists y|right].
        apply list_elem_of_singleton in Hy as ->. done.
      - intros [(y & Hy & Hy')|Hx]; [exists y|exists x]; set_solver. }
    unfold mark_area. destruct (Z.eqb_spec (area_typ x) 1) as [Hx|Hx].
    + destruct (Hok x) as (Hb & Hl & Hend); [set_solver|done|].
      eapply wp_mono; [apply (mark_available_spec b (t ++ ev) (with_pages ps c) len
        (map_frames (c_kend c / PAGE_SIZE_4KB) len pre)); try done; [lia|]|].
      * intros p Hp (y & Hy & Hy1 & Hyf). unfold area_frames in Hyf.
        destruct (Hok y) as (Hb' & Hl' & Hend'); [set_solver|done|].
        apply list_elem_of_lookup in Hy as [j Hj].
        eapply (div_disjoint x y p); [done..| |done|lia].
        eapply (Hdis (length pre) j); [by apply list_lookup_middle| |
          apply lookup_lt_Some in Hj; lia|done|done].
        by apply lookup_app_l_Some.
      * intros [] s' (ev' & ps' & -> & Hq' & HM''). exists (ev ++ ev'), ps'. rewrite app_assoc.
        split_and!; [done|by apply quiet_app|]. eapply mark_inv_ext, HM''. intros p. cbn. rewrite Hext. tauto.
    + apply wp_ret. exists ev, ps. split_and!; [done..|]. eapply mark_inv_ext, HM'.
      intros p. rewrite Hext. tauto.
  - exists [], (c_pages c). rewrite app_nil_r. split_and!; [by destruct c|apply quiet_nil|].
    eapply mark_inv_ext, HM. intros p. split; [done|]. intros (x & ?%elem_of_nil & _). done.
Qed.
End marking.

(** ** Building the lists *)

(** The pages below [i] in state [x], the last one first. *)
Definition free_list (ps : list PageMetadata) (x : PageState) (i : Z) : list Z :=
  reverse (filter (λ p, pstate ps p = Some x) (seqZ 0 i)).

(** The abstract state after [init]. *)
Definition fresh_abs (ps : list PageMetadata) : Abs :=
  let l2 := free_list ps Free2MB (slice_len ps) in
  mkAbs (free_list ps Free4KB (slice_len ps)) l2 ∅ ∅ (list_to_set l2).

Lemma elem_of_free_list ps x i p : p ∈ free_list ps x i ↔ 0 ≤ p < i ∧ pstate ps p = Some x.
Proof.
  unfold free_list. rewrite elem_of_reverse, list_elem_of_filter, elem_of_seqZ.
  rewrite Z.add_0_l. tauto.
Qed.

Lemma free_list_succ ps x i :
  0 ≤ i → free_list ps x (i + 1) =
    if decide (pstate ps i = Some x) then i :: free_list ps x i else free_list ps x i.
Proof.
  intros Hi. unfold free_list. rewrite seqZ_app by lia.
  change (seqZ (0 + i) 1) with [0 + i]. rewrite Z.add_0_l, filter_app, reverse_app, filter_cons.
  case_decide; done.
Qed.

Lemma free_list_ext ps ps' x i :
  (∀ p, pstate ps p = pstate ps' p) → free_list ps x i = free_list ps' x i.
Proof.
  intros E. unfold free_list. f_equal. apply list_filter_iff. intros p. by rewrite E.
Qed.

Lemma NoDup_free_list ps x i : NoDup (free_list ps x i).
Proof. unfold free_list. rewrite reverse_Permutation. apply NoDup_filter, NoDup_seqZ. Qed.

(** The lists [build_lists] makes start with their highest page. *)
Lemma free_list_desc ps x i : StronglySorted Z.gt (free_list ps x i).
Proof.
  destruct (Z.le_gt_cases 0 i) as [Hi|Hi];
    [|unfold free_list; rewrite (seqZ_nil 0 i) by lia; constructor].
  revert i Hi. apply natlike_ind; [constructor|]. intros i Hi IH. rewrite <-Z.add_1_r, free_list_succ by done.
  case_decide; [|done]. constructor; [done|]. apply Forall_forall. intros p [Hp _]%elem_of_free_list. lia.
Qed.

Lemma pstate_range ps p x : pstate ps p = Some x → 0 ≤ p < slice_len ps.
Proof.
  unfold pstate, meta. destruct (slice_get ps p) eqn:E; [|done]. intros _.
  by eapply slice_get_Some_range.
Qed.

(** What the loop of [build_lists] has done after the pages below [i]. *)
Record build_inv (ps : list PageMetadata) (i : Z) (ps' : list PageMetadata)
    (h4 h2 : option Z) : Prop := {
  bi_len : slice_len ps' = slice_len ps;
  bi_meta j : meta ps' j = meta ps j;
  bi_dll4 : dll ps' h4 (free_list ps Free4KB i);
  bi_dll2 : dll ps' h2 (free_list ps Free2MB i);
}.

Lemma dll_head_in ps h l q : dll ps h l → h = Some q → q ∈ l.
Proof. intros [-> _]. destruct l; simpl; [done|]. intros [= ->]. set_solver. Qed.

(** Pushing page [i] on one of two lists of pages below [i]. *)
Lemma push_two ps' i h l h' l' :
  0 ≤ i < slice_len ps' → (∀ p, p ∈ l → p < i ∧ p ∉ l') → (∀ p, p ∈ l' → p < i) →
  dll ps' h l → dll ps' h' l' →
  dll (link_pages ps' i h) (Some i) (i :: l) ∧ dll (link_pages ps' i h) h' l'.
Proof.
  intros Hi Hl Hl' Hd Hd'. split.
  - apply dll_push; [done| |done]. intros [? _]%Hl. lia.
  - eapply dll_frame; [|done]. intros q Hq. apply lnk_link_other.
    + intros ->. apply Hl' in Hq. lia.
    + intros E%(dll_head_in _ _ _ _ Hd). by apply Hl in E as [_ ?].
Qed.

Lemma build_inv_step ps i ps' h4 h2 :
  build_inv ps i ps' h4 h2 → 0 ≤ i < slice_len ps →
  match pstate ps i with
  | Some Free4KB => build_inv ps (i + 1) (link_pages ps' i h4) (Some i) h2
  | Some Free2MB => build_inv ps (i + 1) (link_pages ps' i h2) h4 (Some i)
  | _ => build_inv ps (i + 1) ps' h4 h2
  end.
Proof.
  intros [Hlen Hm H4 H2] Hi.
  assert (∀ x y p, x ≠ y → p ∈ free_list ps x i → p < i ∧ p ∉ free_list ps y i) as Hd.
  { intros x y p Hne [Hp E]%elem_of_free_list. split; [lia|].
    intros [_ E']%elem_of_free_list. congruence. }
  assert (∀ x p, p ∈ free_list ps x i → p < i) as Hlt.
  { intros x p [Hp _]%elem_of_free_list. lia. }
  pose proof (free_list_succ ps Free4KB i ltac:(lia)) as E4.
  pose proof (free_list_succ ps Free2MB i ltac:(lia)) as E2.
  rewrite <-Hlen in Hi.
  destruct (push_two ps' i h4 _ h2 _ Hi (λ p, Hd Free4KB Free2MB p ltac:(done)) (Hlt Free2MB) H4 H2).
  destruct (push_two ps' i h2 _ h4 _ Hi (λ p, Hd Free2MB Free4KB p ltac:(done)) (Hlt Free4KB) H2 H4).
  destruct (pstate ps i) as [[]|]; repeat case_decide; try congruence;
    (split; [by autorewrite with slice|by intros j; rewrite ?meta_link|rewrite E4|rewrite E2]);
    assumption.
Qed.

(** The data [build_lists] leaves satisfies the invariant. *)
Lemma inv_built c len R ps' h4 h2 :
  c_ptr c ≠ 0 → len mod PAGES_PER_2MB = 0 → len ≤ MAX_PAGES →
  mark_inv len R (c_pages c) →
  build_inv (c_pages c) len ps' h4 h2 →
  Inv (mkCore (c_ptr c) ps' h4 h2 (c_kend c)) (fresh_abs (c_pages c)) ∧
  (∀ p, managed (fresh_abs (c_pages c)) p ↔ R p).
Proof.
  intros Hptr Hlen Hmax [Hl Hout Hfr Hal Hbig Hin Hct] [Hl' Hm Hd4 Hd2]. subst len.
  assert (∀ x p, p ∈ free_list (c_pages c) x (slice_len (c_pages c)) ↔ pstate (c_pages c) p = Some x) as Hf.
  { intros x p. rewrite elem_of_free_list. split; [by intros [_ ?]|].
    intros E. split; [by eapply pstate_range|done]. }
  assert (∀ p, pstate ps' p = pstate (c_pages c) p) as Es by (intros; by apply pstate_meta).
  assert (∀ p, pcount ps' p = pcount (c_pages c) p) as Ec by (intros; by apply pcount_meta).
  assert (∀ p, is_Some (pstate (c_pages c) p) ↔ 0 ≤ p < slice_len (c_pages c)) as Hdom.
  { intros p. split; [intros [x Hx]; by eapply pstate_range|].
    intros [m Hm']%slice_get_is_Some. rewrite (pstate_get _ _ _ Hm'). eauto. }
  assert (∀ p, pstate (c_pages c) p = Some Free4KB → pstate (c_pages c) (sp p) ≠ Some Free2MB) as Hx.
  { intros p Hp Hs. destruct (Hbig _ Hs) as (_ & _ & Hb). destruct (Hb p eq_refl) as [_ Hu].
    destruct (decide (p = sp p)) as [E|E]; [congruence|]. rewrite Hu in Hp; done. }
  split; [split; simpl; try done; [by rewrite Hl'|]|].
  - rewrite Hl'. split; simpl.
    + done.
    + intros p. rewrite Es. apply Hdom.
    + intros p Hp. rewrite Ec. destruct (Hct p Hp) as (n & ? & ?). exists n. split; [done|plia].
    + apply NoDup_free_list.
    + apply NoDup_free_list.
    + intros p. by rewrite Hf, Es.
    + intros s. rewrite Hf, Es. intros Hs. split; [done|]. by apply Hbig.
    + by intros p ?%elem_of_empty.
    + by intros s ?%elem_of_empty.
    + intros p [Hp%Hf|?%elem_of_empty]; [|done]. rewrite Hf, elem_of_empty. split; [by apply Hx|tauto].
    + intros p. rewrite Es, Hf. auto.
    + intros s. by rewrite Es, Hf.
    + intros s [?|?%elem_of_empty]; [|done]. by apply elem_of_list_to_set.
    + intros s Hs%elem_of_list_to_set%Hf. split; [by apply Hbig|by eapply pstate_range].
    + intros s [Hs%Hf|?%elem_of_empty]; [|done]. rewrite Ec. by apply Hbig.
    + intros s Hs%elem_of_list_to_set Hn. done.
  - intros p. unfold managed, fresh_abs. simpl. rewrite !Hf, !elem_of_empty. split.
    + intros [?|[?|[Hs|?]]]; [by apply Hfr|done| |done]. destruct (Hbig _ Hs) as (_ & _ & Hb). by apply Hb.
    + intros Hp. destruct (Hin p Hp) as [_ [?|?]]; auto.
Qed.

Section building.
Context (o : Z).

(** [build_lists] after the pages have been marked. *)
Lemma build_lists_spec b t c len R :
  c_ptr c ≠ 0 → len mod PAGES_PER_2MB = 0 → len ≤ MAX_PAGES →
  mark_inv len R (c_pages c) →
  wp build_lists (λ _ s', ∃ ev c', s' = idle o b (t ++ ev) c' ∧ quiet b ev ∧
    Inv c' (fresh_abs (c_pages c)) ∧ (∀ p, managed (fresh_abs (c_pages c)) p ↔ R p) ∧
    c_kend c' = c_kend c ∧ slice_len (c_pages c') = len ∧
    (∀ p, pstate (c_pages c') p = pstate (c_pages c) p)) (idle o b t c).
Proof.
  intros Hptr Hmod Hmax HM. pose proof (mk_len _ _ _ HM) as Hlen.
  unfold build_lists. wp_run. rewrite Hlen.
  lazymatch goal with |- wp _ _ (mach ?k _ _ ?tr _) => set (T := tr) end.
  eapply wp_mono; [apply (wp_fold_range 0 len _ (λ i '(h4, h2) s', ∃ ps',
    build_inv (c_pages c) i ps' h4 h2 ∧
    s' = mach (mkLocks true false false false) o false T (with_pages ps' c)))|].
  - rewrite <-Hlen. apply slice_len_nonneg.
  - intros i [h4 h2] s' Hi (ps' & HB & ->).
    assert (0 ≤ i < slice_len (c_pages c)) as Hi' by lia.
    pose proof (build_inv_step _ _ _ _ _ HB Hi') as Hstep.
    destruct HB as [Hl' Hm [Hh4 Hd4] [Hh2 Hd2]].
    destruct (slice_get_is_Some ps' i) as [m Hg]; [lia|].
    assert (pstate (c_pages c) i = Some (state m)) as Est.
    { rewrite <-(pstate_meta _ _ _ (Hm i)). by apply pstate_get. }
    assert (∀ x old, hd_or (free_list (c_pages c) x i) None = Some old → 0 ≤ old < slice_len ps') as Hold.
    { intros x old. destruct (free_list (c_pages c) x i) eqn:E; [done|]. intros [= ->].
      assert (old ∈ free_list (c_pages c) x i) as [? _]%elem_of_free_list by (rewrite E; set_solver).
      lia. }
    rewrite Est in Hstep. apply wp_bind. eapply wp_page; [exact Hg|].
    destruct (state m); wp_run; try (by exists ps').
    + apply wp_link_front; [in_range|subst h4; apply Hold|]. wp_run. by eexists.
    + apply wp_link_front; [in_range|subst h2; apply Hold|]. wp_run. by eexists.
  - exists (c_pages c). split; [|by destruct c]. split; try done; split_and!; try done; apply NoDup_nil_2.
  - intros [h4 h2] s' (ps' & HB & ->). wp_run. subst T.
    destruct (inv_built c len R ps' h4 h2) as [HI Hman]; try done.
    destruct HB as [Hl' Hm _ _].
    destruct b; rewrite <-?app_assoc; eexists _, _; (split_and!; [reflexivity|done|exact HI|..]);
      try done; try (simpl; lia); intros p; by apply pstate_meta.
Qed.

(** ** The summary *)

(** Free memory in KB. *)
Definition free_kb (ps : list PageMetadata) : Z :=
  4 * Z.of_nat (length (free_list ps Free4KB (slice_len ps))) +
  2048 * Z.of_nat (length (free_list ps Free2MB (slice_len ps))).

Lemma length_free_list_le ps x i : 0 ≤ i → Z.of_nat (length (free_list ps x i)) ≤ i.
Proof.
  intros Hi. unfold free_list. rewrite length_reverse.
  pose proof (length_filter (λ p, pstate ps p = Some x) (seqZ 0 i)) as H.
  rewrite length_seqZ in H. lia.
Qed.

Lemma checked_i32_spec x (s : Machine) :
  0 ≤ x → checked_i32 x s = if x <=? 2147483647 then Done (x, s) else Panicked POverflow.
Proof.
  intros Hx. unfold checked_i32. rewrite (proj2 (Z.leb_le _ _)) by lia. simpl. by destruct (x <=? _).
Qed.

Lemma wp_checked_i32 x Q (s : Machine) : 0 ≤ x ≤ 2147483647 → Q x s → wp (checked_i32 x) Q s.
Proof.
  intros Hx HQ. exists x, s. rewrite checked_i32_spec, (proj2 (Z.leb_le _ _)) by lia. done.
Qed.

(** The counting loop. *)
Lemma report_count b t c :
  slice_len (c_pages c) ≤ 2147483647 →
  wp (fold_range 0 (slice_len (c_pages c)) (λ '(free_4kb, free_2mb) pfn,
    m ← page pfn;
    match state m with
    | Free4KB => x ← checked_i32 (free_4kb + 1); mret (x, free_2mb)
    | Free2MB => x ← checked_i32 (free_2mb + 1); mret (free_4kb, x)
    | _ => mret (free_4kb, free_2mb)
    end) (0, 0))
    (λ r s', r = (Z.of_nat (length (free_list (c_pages c) Free4KB (slice_len (c_pages c)))),
                  Z.of_nat (length (free_list (c_pages c) Free2MB (slice_len (c_pages c))))) ∧
       s' = mach (mkLocks true false false false) o b t c)
    (mach (mkLocks true false false false) o b t c).
Proof.
  intros Hmax. apply (wp_fold_range _ _ _ (λ i r s',
    r = (Z.of_nat (length (free_list (c_pages c) Free4KB i)),
         Z.of_nat (length (free_list (c_pages c) Free2MB i))) ∧
    s' = mach (mkLocks true false false false) o b t c)).
  - apply slice_len_nonneg.
  - intros i _ _ Hi [-> ->]. destruct (slice_get_is_Some (c_pages c) i Hi) as [m Hm].
    pose proof (length_free_list_le (c_pages c) Free4KB i ltac:(lia)).
    pose proof (length_free_list_le (c_pages c) Free2MB i ltac:(lia)).
    rewrite !free_list_succ, (pstate_get _ _ _ Hm) by lia.
    apply wp_bind. eapply wp_page; [exact Hm|].
    destruct (state m); repeat case_decide; try congruence; wp_run;
      try (apply wp_checked_i32; [lia|]; wp_run); (split; [|done]); f_equal; simpl; lia.
  - done.
Qed.

(** The summary is computed in [i32]: it overflows when the free memory in
    KB does. *)
Lemma report_free_spec b t c :
  c_ptr c ≠ 0 → slice_len (c_pages c) ≤ 2147483647 →
  report_free (idle o b t c) =
    if free_kb (c_pages c) <=? 2147483647
    then Done (tt, idle o b (t ++ [EvCli; EvAcquire "page_array"] ++ drop_events "page_array" b) c)
    else Panicked POverflow.
Proof.
  intros Hptr Hmax. unfold report_free.
  destruct (wp_lock_pa o b t c false false false (λ g s', g = mkGuard b ∧ s' =
    mach (mkLocks true false false false) o false (t ++ [EvCli; EvAcquire "page_array"]) c))
    as (? & ? & E & -> & ->); [done|].
  rewrite (bind_Done _ _ _ _ _ E). clear E.
  set (s1 := mach _ _ _ _ _).
  assert (as_slice s1 = Done (tt, s1)) as E.
  { by destruct (wp_as_slice o false (t ++ [EvCli; EvAcquire "page_array"]) c
      (mkLocks true false false false) (λ _ s', s' = s1)) as ([] & ? & E & ->). }
  rewrite (bind_Done _ _ _ _ _ E).
  rewrite (bind_Done pages_len _ (slice_len (c_pages c)) s1 s1 eq_refl).
  destruct (report_count false (t ++ [EvCli; EvAcquire "page_array"]) c Hmax) as (? & ? & E' & -> & ->).
  rewrite (bind_Done _ _ _ _ _ E'). clear E E'.
  destruct (wp_drop_pa o b false (t ++ [EvCli; EvAcquire "page_array"]) c (mkLocks true false false false)
    (λ _ s', s' = idle o b (t ++ [EvCli; EvAcquire "page_array"] ++ drop_events "page_array" b) c))
    as ([] & ? & E & ->); [by rewrite orb_false_r, app_assoc|].
  rewrite (bind_Done _ _ _ _ _ E). unfold free_kb.
  generalize (Nat2Z.is_nonneg (length (free_list (c_pages c) Free4KB (slice_len (c_pages c))))).
  generalize (Nat2Z.is_nonneg (length (free_list (c_pages c) Free2MB (slice_len (c_pages c))))).
  generalize (Z.of_nat (length (free_list (c_pages c) Free4KB (slice_len (c_pages c))))) as n4.
  generalize (Z.of_nat (length (free_list (c_pages c) Free2MB (slice_len (c_pages c))))) as n2.
  intros n2 n4 Hn2 Hn4.
  unfold mbind, M_bind. rewrite checked_i32_spec by lia.
  destruct (Z.leb_spec (n4 * 4) 2147483647); [|by rewrite (proj2 (Z.leb_gt _ _)) by lia].
  rewrite checked_i32_spec by lia.
  destruct (Z.leb_spec (n2 * 2048) 2147483647); [|by rewrite (proj2 (Z.leb_gt _ _)) by lia].
  rewrite checked_i32_spec by lia. rewrite (Z.mul_comm n4), (Z.mul_comm n2).
  by destruct (_ <=? _).
Qed.
End building.

(** ** Free memory fits in the tracked memory *)

(** The free frames of an abstract state. *)
Definition free_frames (a : Abs) : list Z := a_l4 a ++ (a_l2 a ≫= blk).

Lemma elem_of_free_frames len st ct a p :
  MetaInv len st ct a → p ∈ free_frames a ↔ p ∈ a_l4 a ∨ sp p ∈ a_l2 a.
Proof.
  intros H. unfold free_frames. rewrite elem_of_app, list_elem_of_bind. apply or_iff_compat_l.
  split.
  - intros (s & Hp & Hs). destruct (mi_l2 _ _ _ _ H s Hs) as [_ Hsp].
    apply (elem_of_blk_sp s p Hsp) in Hp. by rewrite Hp.
  - intros Hs. exists (sp p). split; [|done]. apply elem_of_blk_sp; [apply sp_sp|done].
Qed.

Lemma NoDup_free_frames len st ct a : MetaInv len st ct a → NoDup (free_frames a).
Proof.
  intros H. apply NoDup_app. split_and!; [apply H| |].
  - intros p Hp (s & Hps & Hs)%list_elem_of_bind. destruct (mi_l2 _ _ _ _ H s Hs) as [_ Hsp].
    apply (elem_of_blk_sp s p Hsp) in Hps. subst s. by destruct (mi_own _ _ _ _ H p (or_introl Hp)).
  - apply NoDup_bind.
    + intros s s' p Hs Hs' Hp Hp'. destruct (mi_l2 _ _ _ _ H s Hs) as [_ E].
      destruct (mi_l2 _ _ _ _ H s' Hs') as [_ E'].
      apply (elem_of_blk_sp s p E) in Hp. apply (elem_of_blk_sp s' p E') in Hp'. congruence.
    + intros. apply NoDup_seqZ.
    + apply H.
Qed.

Lemma length_free_frames a :
  Z.of_nat (length (free_frames a)) = Z.of_nat (length (a_l4 a)) + 512 * Z.of_nat (length (a_l2 a)).
Proof.
  unfold free_frames. rewrite length_app. rewrite Nat2Z.inj_add. f_equal.
  induction (a_l2 a) as [|s l IH]; [done|]. rewrite bind_cons, length_app, length_blk, Nat2Z.inj_add, IH.
  cbn [length]. unfold PAGES_PER_2MB. lia.
Qed.

Lemma free_frames_le len st ct a :
  MetaInv len st ct a → 0 ≤ len → Z.of_nat (length (free_frames a)) ≤ len.
Proof.
  intros H Hlen. assert (length (free_frames a) ≤ length (seqZ 0 len))%nat as Hle.
  { apply submseteq_length, NoDup_submseteq; [by eapply NoDup_free_frames|].
    intros p. rewrite elem_of_free_frames, elem_of_seqZ by done. intros [Hp|Hp].
    - pose proof (mi_l4_range _ _ _ _ _ H Hp). lia.
    - destruct (mi_l2_range _ _ _ _ _ H Hp) as [Hr _].
      pose proof (blk_range (sp p) p len (mi_len _ _ _ _ H) eq_refl Hr). lia. }
  rewrite length_seqZ in Hle. lia.
Qed.

(** ** [init] *)

(** [x] rounded up to a multiple of [size]. *)
Definition align_up (x size : Z) : Z := (x + size - 1) / size * size.

Lemma round_up_spec x k (s : Machine) :
  0 ≤ x → 0 ≤ k < 64 → x + 2 ^ k ≤ U64_MAX →
  round_up x (2 ^ k) s = Done (align_up x (2 ^ k), s).
Proof.
  intros Hx Hk Hmax. assert (0 < 2 ^ k) by (apply Z.pow_pos_nonneg; lia).
  unfold round_up, uadd, usub, mbind, M_bind. rewrite !checked_ok by lia.
  unfold mret, M_ret, align_up. do 2 f_equal.
  replace (2 ^ k - 1) with (Z.ones k) by (rewrite Z.ones_equiv; lia).
  rewrite <-Z.ldiff_land, Z.ldiff_ones_r by lia.
  rewrite Z.shiftl_mul_pow2, Z.shiftr_div_pow2 by lia. done.
Qed.

Lemma align_up_bounds x size : 0 < size → x ≤ align_up x size < x + size.
Proof.
  intros Hs. unfold align_up. pose proof (Z.div_mod (x + size - 1) size ltac:(lia)).
  pose proof (Z.mod_pos_bound (x + size - 1) size Hs). lia.
Qed.

Lemma align_up_mod x size : 0 < size → align_up x size mod size = 0.
Proof. intros Hs. unfold align_up. apply Z.mod_mul. lia. Qed.

(** The end of the available memory. *)
Definition memory_top (areas : list MemoryArea) : Z :=
  foldr (λ x m, if area_typ x =? 1 then Z.max (base_addr x + length_ x) m else m) 0 areas.

(** The number of frames tracked. *)
Definition total_pages (areas : list MemoryArea) : Z :=
  align_up (memory_top areas) PAGE_SIZE_2MB / PAGE_SIZE_4KB.

Lemma memory_top_bounds limit areas :
  0 ≤ limit → map_ok limit areas → 0 ≤ memory_top areas ≤ limit.
Proof.
  intros Hl [Hok _]. induction areas as [|x areas IH]; simpl; [lia|].
  assert (0 ≤ memory_top areas ≤ limit) by (apply IH; intros; apply Hok; set_solver).
  destruct (Z.eqb_spec (area_typ x) 1) as [Ht|Ht]; [|done].
  destruct (Hok x) as (?&?&?); [set_solver|done|]. lia.
Qed.

Lemma memory_top_ge areas x :
  x ∈ areas → area_typ x = 1 → base_addr x + length_ x ≤ memory_top areas.
Proof.
  induction areas as [|y areas IH]; simpl; [by intros ?%elem_of_nil|].
  intros [->|Hx]%elem_of_cons Ht; [rewrite (proj2 (Z.eqb_eq _ _)) by done; lia|].
  specialize (IH Hx Ht). destruct (_ =? _); lia.
Qed.

Lemma highest_end_spec limit areas (s : Machine) :
  limit ≤ U64_MAX → map_ok limit areas → fold_each areas higher_end 0 s = Done (memory_top areas, s).
Proof.
  intros Hl [Hok _].
  assert (∀ x, x ∈ areas → area_typ x = 1 → 0 ≤ base_addr x + length_ x ≤ U64_MAX) as Hok'.
  { intros x Hx Ht. destruct (Hok x Hx Ht). lia. }
  cut (∀ m, 0 ≤ m → fold_each areas higher_end m s = Done (Z.max m (memory_top areas), s)).
  { intros ->; [|lia]. do 2 f_equal. apply Z.max_r.
    clear. induction areas as [|x areas IH]; simpl; [lia|]. destruct (_ =? _); lia. }
  clear Hok. induction areas as [|x areas IH]; intros m Hm; simpl.
  - by rewrite Z.max_l by lia.
  - assert (∀ m', 0 ≤ m' → fold_each areas _ m' s = _) as IH'
      by (apply IH; intros; apply Hok'; set_solver).
    unfold mbind at 1, M_bind at 1, higher_end at 1. destruct (Z.eqb_spec (area_typ x) 1) as [Ht|Ht].
    + specialize (Hok' x ltac:(set_solver) Ht).
      unfold mbind at 1, M_bind at 1, uadd at 1. rewrite checked_ok by done.
      unfold mret at 1, M_ret at 1. rewrite IH' by (destruct (_ <? _); lia).
      do 2 f_equal. destruct (Z.ltb_spec m (base_addr x + length_ x)); lia.
    + unfold mret at 1, M_ret at 1. by apply IH'.
Qed.

Section init_spec.
Context (o : Z) (size_of_PageMetadata kernel_image_end : Z)
        (store_metadata : Z → Z → memory → memory).

(** Where the metadata array starts, and the first address after it. *)
Definition metadata_base : Z := align_up kernel_image_end PAGE_SIZE_4KB.
Definition first_free (areas : list MemoryArea) : Z :=
  align_up (metadata_base + total_pages areas * size_of_PageMetadata) PAGE_SIZE_4KB.

(** Addresses are below 4 TiB. *)
Definition ADDR_LIMIT : Z := 2 ^ 42.

(** A record is not empty and fits in a page, and the kernel's image ends
    at a physical address that is not 0. *)
Hypothesis size_ok : 0 < size_of_PageMetadata ≤ PAGE_SIZE_4KB.
Hypothesis image_ok : 0 < kernel_image_end ≤ ADDR_LIMIT.
(** Storing [n] records at [a] changes the bytes of these records only. *)
Hypothesis store_frame : ∀ a n mem x,
  x < a ∨ a + n * size_of_PageMetadata ≤ x → store_metadata a n mem x = mem x.

Lemma total_pages_bounds areas :
  map_ok ADDR_LIMIT areas →
  0 ≤ total_pages areas ≤ 2 ^ 30 ∧ total_pages areas mod PAGES_PER_2MB = 0.
Proof.
  intros Hok. pose proof (memory_top_bounds ADDR_LIMIT areas ltac:(done) Hok) as Ht.
  unfold total_pages, align_up, ADDR_LIMIT in *.
  change PAGE_SIZE_2MB with (512 * 4096). unfold PAGE_SIZE_4KB, PAGES_PER_2MB.
  rewrite Z.mul_assoc, Z.div_mul by done. split.
  - split; [apply Z.mul_nonneg_nonneg; [apply Z.div_pos; lia|done]|].
    assert ((memory_top areas + 512 * 4096 - 1) / (512 * 4096) ≤ 2 ^ 21); [|lia].
    apply Z.lt_succ_r, Z.div_lt_upper_bound; lia.
  - apply Z.mod_mul. done.
Qed.

(** The metadata array does not overlap the tag, so the second iteration
    over the memory map reads what the first one read. *)
Lemma areas_after_store {B} mmap version areas mem (body : B → MemoryArea → M Machine B) x s :
  Forall area_ok areas → 0 ≤ mmap → 0 ≤ version ≤ U32_MAX →
  16 + 24 * Z.of_nat (length areas) ≤ U32_MAX →
  mmap + 16 + 24 * Z.of_nat (length areas) ≤ ADDR_LIMIT →
  holds mem mmap (encode_mmap version areas) →
  mmap + 16 + 24 * Z.of_nat (length areas) ≤ metadata_base ∨
    metadata_base + total_pages areas * size_of_PageMetadata ≤ mmap →
  fold_areas (store_metadata metadata_base (total_pages areas) mem) mmap body x s = fold_each areas body x s.
Proof.
  intros Hok Hm Hv Hsz Hend Hh Hd. eapply fold_areas_holds; try done.
  { unfold ADDR_LIMIT, U64_MAX in *. lia. }
  intros i b Hi. rewrite store_frame; [by apply Hh|].
  apply lookup_lt_Some in Hi.
  rewrite length_encode_mmap in Hi. destruct Hd as [Hd|Hd]; [left|right]; lia.
Qed.

(** The allocator's data once the lists are built. *)
Record prepared (areas : list MemoryArea) (c : Core) (a : Abs) : Prop := {
  pr_inv : Inv c a;
  pr_al4 : a_al4 a = ∅;
  pr_al2 : a_al2 a = ∅;
  pr_merged : fully_merged a;
  pr_len : slice_len (c_pages c) = total_pages areas;
  pr_kend : c_kend c = first_free areas;
  pr_managed p : managed a p ↔
    map_frames (first_free areas / PAGE_SIZE_4KB) (total_pages areas) areas p;
  pr_desc4 : StronglySorted Z.gt (a_l4 a);
  pr_desc2 : StronglySorted Z.gt (a_l2 a);
  pr_kb : free_kb (c_pages c) = 4 * Z.of_nat (length (free_frames a));
}.

(** [init] once the metadata array is written. *)
Lemma init_tail b t c0 areas ev0 Q :
  map_ok ADDR_LIMIT areas → c_ptr c0 ≠ 0 → 0 ≤ first_free areas → c_kend c0 = first_free areas →
  mark_inv (total_pages areas) (λ _, False) (c_pages c0) → quiet b ev0 →
  (∀ ev c a, prepared areas c a → quiet b ev → Q (report_free (idle o b (t ++ ev) c))) →
  runs (for_each areas mark_area;; build_lists;; report_free) Q (idle o b (t ++ ev0) c0).
Proof.
  intros Hok Hptr Hff Hkend HM0 Hq0 HQ. destruct (total_pages_bounds areas Hok) as [Htp Hmod].
  apply runs_bind. eapply wp_mono; [eapply (mark_areas_spec o b (t ++ ev0) c0 (total_pages areas) ADDR_LIMIT areas);
    try done; unfold MAX_PAGES; simpl; lia|].
  intros [] s1 (ev1 & ps1 & -> & Hq1 & HM1).
  apply runs_bind. eapply wp_mono; [eapply (build_lists_spec o b _ (with_pages ps1 c0) (total_pages areas));
    try done; unfold MAX_PAGES; lia|].
  intros [] s2 (ev2 & c2 & -> & Hq2 & HI & Hman & Hk & Hl & Hst). cbn [c_pages with_pages] in *.
  unfold runs. rewrite <-!app_assoc. apply (HQ _ c2 (fresh_abs ps1)); [|by repeat apply quiet_app]. split; try done.
  - intros s Hs%elem_of_list_to_set Hn. done.
  - by rewrite Hk.
  - by rewrite <-Hkend.
  - apply free_list_desc.
  - apply free_list_desc.
  - rewrite length_free_frames. unfold free_kb, fresh_abs. cbn [a_l4 a_l2].
    rewrite !(free_list_ext (c_pages c2) ps1), Hl, (mk_len _ _ _ HM1) by done. lia.
Qed.

Lemma init_runs b t version areas mem mmap Q :
  map_ok ADDR_LIMIT areas → Forall area_ok areas → 0 ≤ mmap → 0 ≤ version ≤ U32_MAX →
  16 + 24 * Z.of_nat (length areas) ≤ U32_MAX →
  mmap + 16 + 24 * Z.of_nat (length areas) ≤ ADDR_LIMIT →
  holds mem mmap (encode_mmap version areas) →
  mmap + 16 + 24 * Z.of_nat (length areas) ≤ metadata_base ∨
    metadata_base + total_pages areas * size_of_PageMetadata ≤ mmap →
  (∀ ev c a, prepared areas c a → quiet b ev → Q (report_free (idle o b (t ++ ev) c))) →
  runs (init size_of_PageMetadata kernel_image_end store_metadata mem mmap) Q
    (mkMachine (mkCpu o b) PageAllocator_new t).
Proof.
  intros Hok Haok Hm Hv Hsz Hend Hh Hd HQ.
  destruct (total_pages_bounds areas Hok) as [Htp Hmod].
  pose proof (memory_top_bounds ADDR_LIMIT areas ltac:(done) Hok) as Htop.
  pose proof (align_up_bounds kernel_image_end PAGE_SIZE_4KB ltac:(done)) as Hmb. fold metadata_base in Hmb.
  pose proof (align_up_bounds (metadata_base + total_pages areas * size_of_PageMetadata) PAGE_SIZE_4KB
    ltac:(done)) as Hff. fold (first_free areas) in Hff.
  assert (0 ≤ total_pages areas * size_of_PageMetadata ≤ 2 ^ 42) as Hmeta.
  { unfold PAGE_SIZE_4KB in size_ok. split; [nia|].
    change (2 ^ 42) with (2 ^ 30 * 4096). apply Z.mul_le_mono_nonneg; lia. }
  assert (∀ s, highest_end mem mmap s = Done (memory_top areas, s)) as Htopm.
  { intros s. unfold highest_end. erewrite (fold_areas_holds (St := Machine)); [by apply (highest_end_spec (2 ^ 42))|try done..].
    unfold ADDR_LIMIT, U64_MAX in *. lia. }
  assert (∀ s, mark_areas (store_metadata metadata_base (total_pages areas) mem) mmap s = for_each areas mark_area s) as Hmark
    by (intros s; by eapply areas_after_store).
  assert (∀ x k (s : Machine), 0 ≤ x ≤ 2 ^ 44 → 0 ≤ k < 44 → round_up x (2 ^ k) s = Done (align_up x (2 ^ k), s)) as Hru.
  { intros x k s Hx Hk. apply round_up_spec; [lia|lia|].
    pose proof (Z.pow_lt_mono_r 2 k 44). unfold U64_MAX. lia. }
  unfold ADDR_LIMIT, PAGE_SIZE_4KB in *. unfold init.
  change (mkMachine (mkCpu o b) PageAllocator_new t) with (idle o b t (mkCore 0 [] None None 0)).
  apply runs_bind. eapply wp_run_eq; [apply Htopm|].
  apply runs_bind. eapply wp_run_eq; [apply (Hru _ 21); lia|].
  change (align_up (memory_top areas) (2 ^ 21) / PAGE_SIZE_4KB) with (total_pages areas). cbv zeta.
  apply runs_bind. eapply wp_run_eq; [apply (Hru _ 12); lia|].
  change (align_up kernel_image_end (2 ^ 12)) with metadata_base.
  apply runs_bind, wp_checked; [unfold U64_MAX; lia|].
  apply runs_bind. destruct (Z.eqb_spec metadata_base 0) as [?|Hnz]; [lia|]. apply wp_ret.
  do 3 (apply runs_bind; wp_run). apply runs_bind, wp_checked; [unfold U64_MAX; lia|].
  apply runs_bind. eapply wp_run_eq; [apply (Hru _ 12); lia|].
  change (align_up _ (2 ^ 12)) with (first_free areas).
  do 3 (apply runs_bind; wp_run). rewrite !orb_false_r, <-!app_assoc.
  unfold runs. unfold mbind at 1, M_bind at 1. rewrite Hmark.
  apply init_tail; try done; [simpl; lia| |by destruct b].
  cbn [c_pages with_kend]. rewrite <-(Z2Nat.id (total_pages areas)) at 1 by lia. apply mark_inv_new.
Qed.

(** [init] ends, or its summary overflows. *)
Lemma init_outcome b t version areas mem mmap :
  map_ok ADDR_LIMIT areas → Forall area_ok areas → 0 ≤ mmap → 0 ≤ version ≤ U32_MAX →
  16 + 24 * Z.of_nat (length areas) ≤ U32_MAX →
  mmap + 16 + 24 * Z.of_nat (length areas) ≤ ADDR_LIMIT →
  holds mem mmap (encode_mmap version areas) →
  mmap + 16 + 24 * Z.of_nat (length areas) ≤ metadata_base ∨
    metadata_base + total_pages areas * size_of_PageMetadata ≤ mmap →
  ∃ ev c a, prepared areas c a ∧ quiet b ev ∧
    init size_of_PageMetadata kernel_image_end store_metadata mem mmap
      (mkMachine (mkCpu o b) PageAllocator_new t) =
    if 4 * Z.of_nat (length (free_frames a)) <=? 2147483647
    then Done (tt, idle o b (t ++ ev) c) else Panicked POverflow.
Proof.
  intros. eapply (init_runs _ _ _ _ _ _ (λ r, ∃ ev c a, prepared areas c a ∧ quiet b ev ∧ r = _)); try done.
  intros ev c a HP Hq. destruct (total_pages_bounds areas) as [Htp _]; [done|].
  rewrite report_free_spec, (pr_kb _ _ _ HP), <-app_assoc
    by (try apply HP; rewrite ?(pr_len _ _ _ HP); lia).
  eexists _, c, a. split_and!; [done| |reflexivity].
  apply quiet_app; [done|by destruct b].
Qed.
End init_spec.
