(* ===== verification/AllocSpec.v ===== *)
(** * The allocator's contract

    [alloc_step] is the specification: an abstract machine over [Abs] with one
    rule per branch of the four operations. Every operation of the code refines
    it; what the clients rely on (disjoint allocations, no leak, eager merging)
    is proved about the rules and carried over to whole sessions of requests. *)
From S2P Require Import Prelude Mutex Memory Multiboot2 PageAllocator FreeList AllocInv AllocExec AllocOps.

#[export] Instance PageSize_eq_dec : EqDecision PageSize.
Proof. solve_decision. Defined.

#[export] Instance PageSize_countable : Countable PageSize :=
  inj_countable' (λ x, match x with Size4KB => true | Size2MB => false end)
    (λ b, if b : bool then Size4KB else Size2MB) ltac:(by intros []).

(** ** The specification *)
Inductive Request : Set :=
  | AllocReq (size : PageSize)
  | FreeReq (addr : Z) (size : PageSize).

(** The address an allocation returns; [None] for a free. *)
Abbreviation Response := (option Z).

Inductive alloc_step (a : Abs) : Request → Response → Abs → Prop :=
  | step_alloc4 p l :
      a_l4 a = p :: l →
      alloc_step a (AllocReq Size4KB) (Some (p * PAGE_SIZE_4KB)) (abs_alloc4 a p l)
  | step_alloc4_split s l :
      a_l4 a = [] → a_l2 a = s :: l →
      alloc_step a (AllocReq Size4KB) (Some ((s + 511) * PAGE_SIZE_4KB))
        (abs_alloc4 (abs_split a s l) (s + 511) (reverse (seqZ s 511)))
  | step_alloc4_none :
      a_l4 a = [] → a_l2 a = [] → alloc_step a (AllocReq Size4KB) None a
  | step_alloc2 s l :
      a_l2 a = s :: l →
      alloc_step a (AllocReq Size2MB) (Some (s * PAGE_SIZE_4KB)) (abs_alloc2 a s l)
  | step_alloc2_none :
      a_l2 a = [] → alloc_step a (AllocReq Size2MB) None a
  | step_free4 p :
      p ∈ a_al4 a →
      (sp p ∈ a_tr a → ∃ q, sp q = sp p ∧ q ≠ p ∧ q ∉ a_l4 a) →
      alloc_step a (FreeReq (p * PAGE_SIZE_4KB) Size4KB) None (abs_free4 a p)
  | step_free4_merge p :
      p ∈ a_al4 a →
      (∀ q, sp q = sp p → q = p ∨ q ∈ a_l4 a) →
      alloc_step a (FreeReq (p * PAGE_SIZE_4KB) Size4KB) None (abs_merge (abs_free4 a p) (sp p))
  | step_free2 s :
      s ∈ a_al2 a →
      alloc_step a (FreeReq (s * PAGE_SIZE_4KB) Size2MB) None (abs_free2 a s).

(** The block [(addr, size)] is handed out. *)
Definition owned (a : Abs) (addr : Z) (size : PageSize) : Prop :=
  addr mod PAGE_SIZE_4KB = 0 ∧
  match size with
  | Size4KB => addr / PAGE_SIZE_4KB ∈ a_al4 a
  | Size2MB => addr / PAGE_SIZE_4KB ∈ a_al2 a
  end.

(** Clients free what they own. *)
Definition legal (a : Abs) (r : Request) : Prop :=
  match r with
  | AllocReq _ => True
  | FreeReq addr size => owned a addr size
  end.

(** The code that serves a request. *)
Definition perform (r : Request) : M Machine Response :=
  match r with
  | AllocReq size => allocate_page size
  | FreeReq addr size => free_page addr size;; mret None
  end.

(** Does serving [r] in [a] keep interrupts off while locks are held? *)
Definition irq_safe (a : Abs) (r : Request) : bool :=
  match r with
  | AllocReq Size4KB => bool_decide (a_l4 a = [] ∧ a_l2 a = [])
  | _ => true
  end.

Lemma page_addr p : p * PAGE_SIZE_4KB / PAGE_SIZE_4KB = p.
Proof. unfold PAGE_SIZE_4KB. by rewrite Z.div_mul. Qed.

Lemma owned_addr a addr size :
  owned a addr size → addr = addr / PAGE_SIZE_4KB * PAGE_SIZE_4KB.
Proof.
  intros [Hm _]. unfold PAGE_SIZE_4KB in *. pose proof (Z.div_mod addr 4096 ltac:(lia)). lia.
Qed.

(** ** Freeing a 4KB page follows the specification *)

(** The counter of a superpage decides the merge rightly. *)
Lemma free4_result_step c a p n :
  Inv c a → p ∈ a_al4 a → pcount (c_pages c) (sp p) = Some n →
  alloc_step a (FreeReq (p * PAGE_SIZE_4KB) Size4KB) None (free4_result a p n).
Proof.
  intros HI Hp Hn. pose proof (inv_meta _ _ HI) as HM.
  assert (p ∉ a_l4 a) as Hpl.
  { intros Hin. pose proof (mi_l4 _ _ _ _ HM p Hin). pose proof (mi_al4 _ _ _ _ HM p Hp). congruence. }
  destruct (mi_own _ _ _ _ HM p (or_intror Hp)) as [Hn2 Hna].
  unfold free4_result, merge_if_free.
  assert (sp p ∈ a_tr a → (∀ q, sp q = sp p → q = p ∨ q ∈ a_l4 a) → saturating_add n 1 = PAGES_PER_2MB) as Hcnt.
  { intros Htr Hall. destruct (mi_count _ _ _ _ HM (sp p) Htr Hn2 Hna) as [Hc _].
    assert (count_in (sp p) (p :: a_l4 a) = PAGES_PER_2MB) as Hfull.
    { apply count_in_full; [apply sp_sp|apply NoDup_cons; split; [done|apply HM]|].
      intros q Hq. destruct (Hall q Hq); set_solver. }
    rewrite count_in_cons, decide_True in Hfull by done.
    rewrite Hn in Hc. injection Hc as ->. unfold saturating_add. plia. }
  assert (Forall (λ q, q ∈ a_l4 (abs_free4 a p)) (blk (sp p)) ↔
    ∀ q, sp q = sp p → q = p ∨ q ∈ a_l4 a) as Hblk.
  { rewrite Forall_forall. cbn [a_l4 abs_free4].
    pose proof (λ q, elem_of_blk_sp (sp p) q (sp_sp p)) as Hb.
    split; intros H q Hq; [|apply elem_of_cons, H, (proj1 (Hb q)), Hq].
    by apply elem_of_cons, H, (proj2 (Hb q)). }
  assert (¬ (∀ q, sp q = sp p → q = p ∨ q ∈ a_l4 a) → ∃ q, sp q = sp p ∧ q ≠ p ∧ q ∉ a_l4 a) as Hex.
  { rewrite <-Hblk. intros (q & Hq & Hq')%not_Forall_Exists%Exists_exists; [|apply _].
    exists q. apply (elem_of_blk_sp _ _ (sp_sp p)) in Hq. cbn [a_l4 abs_free4] in Hq'. set_solver. }
  destruct (Z.eqb_spec (saturating_add n 1) PAGES_PER_2MB) as [E|E]; [case_decide as Hd|].
  - constructor; [done|]. by apply Hblk.
  - constructor; [done|]. intros _. apply Hex. by rewrite <-Hblk.
  - constructor; [done|]. intros Htr. apply Hex. intros Hall. by apply E, Hcnt.
Qed.

(** ** Refinement *)
Section refinement.
Context (o : Z).

(** Every request that clients may make is served: the code ends, does not
    panic, and does what one rule of the specification allows. *)
Lemma perform_refines b t c a r :
  Inv c a → legal a r →
  wp (perform r) (λ resp s', ∃ a', alloc_step a r resp a' ∧ ends o (irq_safe a r) b t c a' s')
    (idle o b t c).
Proof.
  intros HI Hleg. destruct r as [[]|addr []]; cbn [perform irq_safe legal allocate_page free_page] in *.
  - unfold ALLOC_4KB_FUEL. destruct (a_l4 a) as [|p l] eqn:E4; [destruct (a_l2 a) as [|s l] eqn:E2|].
    + rewrite bool_decide_eq_true_2 by done.
      eapply wp_mono; [by eapply alloc_4kb_empty|]. intros r s' [-> He]. exists a. split; [by constructor|done].
    + rewrite bool_decide_eq_false_2 by naive_solver.
      eapply wp_mono; [by eapply alloc_4kb_split|]. intros r s' [-> He].
      eexists. split; [by eapply step_alloc4_split|done].
    + rewrite bool_decide_eq_false_2 by naive_solver.
      eapply wp_mono; [by eapply alloc_4kb_hit|]. intros r s' [-> He].
      eexists. split; [by eapply step_alloc4|done].
  - destruct (a_l2 a) as [|s l] eqn:E2.
    + eapply wp_mono; [by eapply alloc_2mb_none|]. intros r s' [-> He]. exists a. split; [by constructor|done].
    + eapply wp_mono; [by eapply alloc_2mb_some|]. intros r s' [-> He].
      eexists. split; [by eapply step_alloc2|done].
  - pose proof (owned_addr _ _ _ Hleg) as Ha. destruct Hleg as [_ Hp].
    destruct (free_4kb_owned o b t c a _ HI Hp) as (n & Hn & Hwp).
    apply wp_bind. eapply wp_mono; [exact Hwp|]. intros [] s' He. apply wp_ret.
    eexists. split; [|exact He]. rewrite Ha at 1. by eapply free4_result_step.
  - pose proof (owned_addr _ _ _ Hleg) as Ha. destruct Hleg as [_ Hp].
    apply wp_bind. eapply wp_mono; [by apply free_2mb_owned|]. intros [] s' He. apply wp_ret.
    eexists. split; [|exact He]. rewrite Ha at 1. by constructor.
Qed.
End refinement.

(** ** What the specification promises *)

(** Bytes of a block. *)
Definition size_bytes (size : PageSize) : Z :=
  match size with Size4KB => PAGE_SIZE_4KB | Size2MB => PAGE_SIZE_2MB end.

Definition blocks_disjoint (x y : Z * PageSize) : Prop :=
  x.1 + size_bytes x.2 ≤ y.1 ∨ y.1 + size_bytes y.2 ≤ x.1.

(** The frames of an owned block. *)
Lemma owned_frames len st ct a addr size x :
  MetaInv len st ct a → owned a addr size → addr ≤ x < addr + size_bytes size →
  match size with
  | Size4KB => x / PAGE_SIZE_4KB = addr / PAGE_SIZE_4KB
  | Size2MB => sp (x / PAGE_SIZE_4KB) = addr / PAGE_SIZE_4KB
  end.
Proof.
  intros HM Ho Hx. pose proof (owned_addr _ _ _ Ho) as Ha. destruct Ho as [_ Ho].
  unfold size_bytes, PAGE_SIZE_2MB, PAGE_SIZE_4KB in *.
  pose proof (Z.div_mod x 4096 ltac:(lia)). pose proof (Z.mod_pos_bound x 4096 ltac:(lia)).
  destruct size; [lia|]. destruct (mi_al2 _ _ _ _ HM _ Ho) as [_ Hsp].
  apply sp_eq; [done|]. unfold PAGES_PER_2MB. lia.
Qed.

(** Every byte of an owned block lies in a frame the allocator manages. *)
Lemma owned_managed len st ct a addr size x :
  MetaInv len st ct a → owned a addr size → addr ≤ x < addr + size_bytes size →
  managed a (x / PAGE_SIZE_4KB).
Proof.
  intros HM Ho Hx. pose proof (owned_frames _ _ _ _ _ _ _ HM Ho Hx) as Hf. destruct Ho as [_ Ho].
  unfold managed. destruct size; rewrite Hf; auto.
Qed.

(** Two different blocks that are handed out share no byte. *)
Lemma owned_disjoint len st ct a x y :
  MetaInv len st ct a → owned a x.1 x.2 → owned a y.1 y.2 → x ≠ y → blocks_disjoint x y.
Proof.
  intros HM Hx Hy Hne. destruct (decide (blocks_disjoint x y)) as [|Hnd]; [done|].
  exfalso. destruct x as [ax sx], y as [ay sy]. cbn [fst snd] in *.
  set (z := Z.max ax ay).
  assert (0 < size_bytes sx ∧ 0 < size_bytes sy) as [? ?] by (destruct sx, sy; done).
  assert (ax ≤ z < ax + size_bytes sx ∧ ay ≤ z < ay + size_bytes sy) as [Hzx Hzy].
  { unfold blocks_disjoint, z in *. simpl in *. lia. }
  pose proof (owned_frames _ _ _ _ _ _ _ HM Hx Hzx) as Fx.
  pose proof (owned_frames _ _ _ _ _ _ _ HM Hy Hzy) as Fy.
  pose proof (owned_addr _ _ _ Hx) as Ax. pose proof (owned_addr _ _ _ Hy) as Ay.
  destruct Hx as [_ Hx], Hy as [_ Hy].
  destruct sx, sy; cbn in Fx, Fy.
  - apply Hne. f_equal. congruence.
  - rewrite Fx in Fy. destruct (mi_own _ _ _ _ HM _ (or_intror Hx)). congruence.
  - rewrite Fy in Fx. destruct (mi_own _ _ _ _ HM _ (or_intror Hy)). congruence.
  - apply Hne. f_equal. congruence.
Qed.

(** ** The blocks that a client holds *)

(** One entry [x] goes. *)
Fixpoint give_back (x : Z * PageSize) (own : list (Z * PageSize)) : list (Z * PageSize) :=
  match own with
  | [] => []
  | y :: own' => if decide (x = y) then own' else y :: give_back x own'
  end.

(** What a request does to the blocks handed out: a list, in which a block that
    is handed out twice appears twice. *)
Definition owned_after (r : Request) (resp : Response) (own : list (Z * PageSize)) : list (Z * PageSize) :=
  match r, resp with
  | AllocReq size, Some addr => (addr, size) :: own
  | AllocReq _, None => own
  | FreeReq addr size, _ => give_back (addr, size) own
  end.

(** [own] lists the blocks handed out, each once. *)
Definition owns (a : Abs) (own : list (Z * PageSize)) : Prop :=
  NoDup own ∧ ∀ addr size, (addr, size) ∈ own ↔ owned a addr size.

Lemma elem_of_give_back x z own : NoDup own → z ∈ give_back x own ↔ z ∈ own ∧ z ≠ x.
Proof.
  induction 1 as [|y own Hy Hnd IH]; cbn [give_back]; [set_solver|]. case_decide as E; [subst y|].
  - rewrite elem_of_cons. split; [|naive_solver]. intros Hz. split; [by right|]. by intros ->.
  - rewrite !elem_of_cons, IH. naive_solver.
Qed.

Lemma NoDup_give_back x own : NoDup own → NoDup (give_back x own).
Proof.
  induction 1 as [|y own Hy Hnd IH]; cbn [give_back]; [constructor|]. case_decide; [done|].
  apply NoDup_cons. split; [|done]. rewrite elem_of_give_back by done. naive_solver.
Qed.

Lemma owned_page a p size :
  owned a (p * PAGE_SIZE_4KB) size ↔
  match size with Size4KB => p ∈ a_al4 a | Size2MB => p ∈ a_al2 a end.
Proof.
  unfold owned. rewrite page_addr. unfold PAGE_SIZE_4KB. rewrite Z.mod_mul by done.
  destruct size; tauto.
Qed.

Lemma owned_iff a addr size :
  owned a addr size ↔ ∃ p, addr = p * PAGE_SIZE_4KB ∧
    match size with Size4KB => p ∈ a_al4 a | Size2MB => p ∈ a_al2 a end.
Proof.
  split.
  - intros Ho. exists (addr / PAGE_SIZE_4KB). split; [by eapply owned_addr|]. apply Ho.
  - intros (p & -> & Hp). by apply owned_page.
Qed.

Lemma page_addr_inj p q : p * PAGE_SIZE_4KB = q * PAGE_SIZE_4KB → p = q.
Proof. unfold PAGE_SIZE_4KB. lia. Qed.

(** A block that is handed out was not handed out before. *)
Lemma step_fresh len st ct a size addr a' :
  MetaInv len st ct a → alloc_step a (AllocReq size) (Some addr) a' → ¬ owned a addr size.
Proof.
  intros HM Hs Ho. inversion Hs as [p l E|s l E4 E2| |s l E| | | |]; subst; apply owned_page in Ho; simpl in Ho.
  - assert (p ∈ a_l4 a) as Hp by (rewrite E; set_solver).
    pose proof (mi_l4 _ _ _ _ HM p Hp). pose proof (mi_al4 _ _ _ _ HM p Ho). congruence.
  - assert (s ∈ a_l2 a) as Hp by (rewrite E2; set_solver). destruct (mi_l2 _ _ _ _ HM s Hp) as [_ Hsp].
    destruct (mi_own _ _ _ _ HM (s + 511) (or_intror Ho)) as [Hn _].
    rewrite (sp_eq s (s + 511)) in Hn by plia. done.
  - assert (s ∈ a_l2 a) as Hp by (rewrite E; set_solver).
    destruct (mi_l2 _ _ _ _ HM s Hp), (mi_al2 _ _ _ _ HM s Ho). congruence.
Qed.

Lemma step_owned a r resp a' addr size :
  alloc_step a r resp a' →
  owned a' addr size ↔
    match r, resp with
    | AllocReq sz, Some x => (addr, size) = (x, sz) ∨ owned a addr size
    | AllocReq _, None => owned a addr size
    | FreeReq x sz, _ => owned a addr size ∧ (addr, size) ≠ (x, sz)
    end.
Proof.
  intros Hs. inversion Hs as [p l E|s l E4 E2| |s l E| |p Hp|p Hp|s Hp]; subst; clear Hs; try done.
  all: rewrite !owned_iff; destruct size; cbn [a_al4 a_al2 abs_alloc4 abs_split abs_alloc2 abs_free4 abs_free2 abs_merge].
  all: setoid_rewrite elem_of_union || setoid_rewrite elem_of_difference || idtac.
  all: setoid_rewrite elem_of_singleton || idtac.
  all: naive_solver (eauto using page_addr_inj).
Qed.

Lemma step_owns len st ct a r resp a' own :
  MetaInv len st ct a → alloc_step a r resp a' → owns a own → owns a' (owned_after r resp own).
Proof.
  intros HM Hs [Hnd Ho]. pose proof (λ x sz, step_owned a r resp a' x sz Hs) as Hs'. split.
  - destruct r as [sz|x sz], resp as [x'|]; cbn [owned_after]; try done; try by apply NoDup_give_back.
    apply NoDup_cons. split; [|done]. intros Hin%Ho. by eapply step_fresh.
  - intros addr size. rewrite Hs'. destruct r as [sz|x sz], resp as [x'|]; cbn [owned_after];
      rewrite ?elem_of_cons, ?elem_of_give_back, Ho by done; done.
Qed.

(** Exact counters stay exact. *)
Lemma step_tracked a r resp a' : alloc_step a r resp a' → a_tr a ⊆ a_tr a'.
Proof. intros Hs. inversion Hs; subst; cbn; try done. apply union_subseteq_r. Qed.

(** No frame is lost or gained. *)
Lemma step_managed len st ct a r resp a' :
  MetaInv len st ct a → alloc_step a r resp a' → ∀ p, managed a' p ↔ managed a p.
Proof.
  intros HM Hs q. unfold managed.
  inversion Hs as [p l E|s l E4 E2| |s l E| |p Hp|p Hp Hall|s Hp]; subst;
    cbn [a_l4 a_l2 a_al4 a_al2 abs_alloc4 abs_split abs_alloc2 abs_free4 abs_free2 abs_merge]; try done.
  - rewrite E. set_solver.
  - assert (s ∈ a_l2 a) as Hp by (rewrite E2; set_solver). destruct (mi_l2 _ _ _ _ HM s Hp) as [_ Hsp].
    rewrite E4, E2, elem_of_nil, elem_of_reverse, elem_of_seqZ, elem_of_union, elem_of_singleton, elem_of_cons.
    pose proof (elem_of_blk_sp s q Hsp) as Hb. rewrite elem_of_blk in Hb.
    assert (s ≤ q < s + 511 ∨ q = s + 511 ↔ sp q = s) as Hb' by (rewrite <-Hb; plia). tauto.
  - rewrite E. set_solver.
  - destruct (decide (q = p)); set_solver.
  - rewrite list_elem_of_filter, !elem_of_cons, elem_of_difference, elem_of_singleton.
    destruct (decide (q = p)) as [->|Hq]; [tauto|]. destruct (decide (sp q = sp p)) as [E|E]; [|tauto].
    destruct (Hall q E); [done|]. tauto.
  - destruct (decide (sp q = s)); set_solver.
Qed.

(** Free 2MB pages stay whole: a superpage whose counter is exact is merged by
    the free that completes it. *)
Lemma step_merged len st ct a r resp a' :
  MetaInv len st ct a → alloc_step a r resp a' → fully_merged a → fully_merged a'.
Proof.
  intros HM Hs HF. unfold fully_merged in *.
  inversion Hs as [p l E|s l E4 E2| |s l E| |p Hp Hex|p Hp Hall|s Hp]; subst;
    cbn [a_l4 a_l2 a_al2 a_tr abs_alloc4 abs_split abs_alloc2 abs_free4 abs_free2 abs_merge]; try done;
    intros u Hu Hu2 Hua.
  - specialize (HF u Hu Hu2 Hua). rewrite E, count_in_cons in HF. case_decide; lia.
  - assert (s ∈ a_l2 a) as Hp by (rewrite E2; set_solver). destruct (mi_l2 _ _ _ _ HM s Hp) as [_ Hsp].
    unfold count_in. pose proof (length_filter (λ p, sp p = u) (reverse (seqZ s 511))) as Hle.
    rewrite length_reverse, length_seqZ in Hle. plia.
  - apply HF; clear HF HM Hs; rewrite ?E; set_solver.
  - destruct (decide (sp p = u)) as [<-|Hne]; [|rewrite count_in_cons, decide_False by done; by apply HF].
    destruct (Hex Hu) as (q & Hq & Hqp & Hql).
    assert (p ∉ a_l4 a) as Hpl.
    { intros Hin. pose proof (mi_l4 _ _ _ _ HM p Hin). pose proof (mi_al4 _ _ _ _ HM p Hp). congruence. }
    assert (NoDup (p :: a_l4 a)) as Hnd by (apply NoDup_cons; split; [done|apply HM]).
    pose proof (count_in_le (sp p) (p :: a_l4 a) (sp_sp p) Hnd).
    assert (count_in (sp p) (p :: a_l4 a) ≠ PAGES_PER_2MB) as Hnf; [|lia].
    rewrite (count_in_full _ _ (sp_sp p) Hnd). intros Hall. specialize (Hall q Hq). set_solver.
  - rewrite count_in_filter by (clear HF HM Hs; set_solver).
    rewrite count_in_cons, decide_False by (clear HF HM Hs; set_solver).
    apply HF; clear HF HM Hs; rewrite ?E; set_solver.
  - apply HF; clear HF HM Hs; rewrite ?E; set_solver.
Qed.

(** ** Sessions *)

(** May a client that holds the blocks [own] make the request? *)
Definition allowed (own : list (Z * PageSize)) (r : Request) : bool :=
  match r with
  | AllocReq _ => true
  | FreeReq addr size => bool_decide ((addr, size) ∈ own)
  end.

(** A client that frees blocks it owns only: the blocks it holds, and the
    answers to its requests. *)
Fixpoint session (own : list (Z * PageSize)) (rs : list Request) :
    M Machine (list (Z * PageSize) * list Response) :=
  match rs with
  | [] => mret (own, [])
  | r :: rs' =>
      if allowed own r then
        resp ← perform r;
        '(own', resps) ← session (owned_after r resp own) rs';
        mret (own', resp :: resps)
      else session own rs'
  end.

Section session.
Context (o : Z).

Lemma session_spec b t c a own rs :
  Inv c a → owns a own →
  wp (session own rs) (λ '(own', _) s', ∃ ev c' a', s' = idle o b (t ++ ev) c' ∧
    Inv c' a' ∧ owns a' own' ∧ (∀ p, managed a' p ↔ managed a p) ∧
    (fully_merged a → fully_merged a') ∧ a_tr a ⊆ a_tr a' ∧ c_kend c' = c_kend c ∧
    slice_len (c_pages c') = slice_len (c_pages c)) (idle o b t c).
Proof.
  revert t c a own. induction rs as [|r rs IH]; intros t c a own HI Ho; cbn [session].
  - apply wp_ret. exists [], c, a. by rewrite app_nil_r.
  - destruct (allowed own r) eqn:Hleg; [|by apply IH].
    assert (legal a r) as Hl
      by (destruct r; [done|]; apply bool_decide_eq_true_1 in Hleg; by apply Ho).
    apply wp_bind. eapply wp_mono; [by eapply perform_refines|].
    intros resp s' (a1 & Hs & ev & c1 & -> & HI1 & Hk1 & Hlen1 & _).
    pose proof (inv_meta _ _ HI) as HM.
    apply wp_bind. eapply wp_mono; [eapply (IH _ c1 a1); [done|by eapply step_owns]|].
    intros [own' resps] s' (ev' & c' & a' & -> & HI' & Ho' & Hman & Hmrg & Htr & Hk & Hlen).
    apply wp_ret. exists (ev ++ ev'), c', a'. rewrite app_assoc. split_and!; try done.
    + intros p. rewrite Hman. by eapply step_managed.
    + intros HF. apply Hmrg. by eapply step_merged.
    + etrans; [|exact Htr]. by eapply step_tracked.
    + congruence.
    + congruence.
Qed.
End session.

(** ** Allocating and freeing again *)
Lemma Abs_eq (a a' : Abs) :
  a_l4 a = a_l4 a' → a_l2 a = a_l2 a' → a_al4 a = a_al4 a' → a_al2 a = a_al2 a' →
  a_tr a = a_tr a' → a = a'.
Proof. destruct a, a'. simpl. congruence. Qed.

Lemma union_difference_single (p : Z) (X : gset Z) : p ∉ X → ({[p]} ∪ X) ∖ {[p]} = X.
Proof. set_solver. Qed.

(** A 4KB page [p] is next in line, its superpage was never a 2MB page, and all
    the frames of that superpage are free: freeing [p] would merge them. *)
Definition late_merge (a : Abs) (p : Z) : Prop :=
  (∃ l, a_l4 a = p :: l) ∧ sp p ∉ a_tr a ∧ ∀ q, sp q = sp p → q ∈ a_l4 a.

(** Freeing the block that was just handed out gives back the state before
    it, except that the superpage of the page may get merged. *)
Lemma step_roundtrip len st ct a a1 a2 size addr :
  MetaInv len st ct a → fully_merged a →
  alloc_step a (AllocReq size) (Some addr) a1 →
  alloc_step a1 (FreeReq addr size) None a2 →
  a2 = a ∨ ∃ p, size = Size4KB ∧ addr = p * PAGE_SIZE_4KB ∧ late_merge a p ∧ a2 = abs_merge a (sp p).
Proof.
  intros HM HF H1 H2. pose proof (step_fresh _ _ _ _ _ _ _ HM H1) as Hfr.
  inversion H1 as [p l E|s l E4 E2| |s l E| | | |]; subst; rewrite owned_page in Hfr;
    inversion H2 as [| | | | |q Hq Hex Eq|q Hq Hall Eq|q Hq Eq]; subst;
    apply page_addr_inj in Eq; subst q;
    cbn [a_l4 a_l2 a_al4 a_al2 a_tr abs_alloc4 abs_split abs_alloc2 abs_free4] in *.
  - left. apply Abs_eq; simpl; try done. by apply union_difference_single.
  - assert (abs_free4 (abs_alloc4 a p l) p = a) as Ea.
    { apply Abs_eq; simpl; try done. by apply union_difference_single. }
    assert (∀ q, sp q = sp p → q ∈ a_l4 a) as Hin.
    { intros q Hqs. rewrite E. destruct (Hall q Hqs); set_solver. }
    rewrite Ea. right. exists p. split_and!; [done..| |done]. split; [by exists l|]. split; [|done]. intros Htr.
    assert (p ∈ a_l4 a) as Hp by (rewrite E; set_solver).
    destruct (mi_own _ _ _ _ HM p (or_introl Hp)) as [Hn2 Hna].
    specialize (HF _ Htr Hn2 Hna).
    rewrite (proj2 (count_in_full (sp p) (a_l4 a) (sp_sp p) (mi_nodup4 _ _ _ _ HM))) in HF; [lia|done].
  - assert (s ∈ a_l2 a) as Hs by (rewrite E2; apply elem_of_cons; by left).
    destruct (mi_l2 _ _ _ _ HM s Hs) as [_ Hsp].
    assert (sp (s + 511) = s) as Hsp' by (apply sp_eq; [done|plia]). rewrite Hsp' in *.
    destruct (Hex (mi_tracked _ _ _ _ HM s (or_introl Hs))) as (r & Hr & Hne & Hnot).
    apply (elem_of_blk_sp s r Hsp), elem_of_blk in Hr.
    destruct Hnot. apply elem_of_reverse, elem_of_seqZ. plia.
  - assert (s ∈ a_l2 a) as Hs by (rewrite E2; apply elem_of_cons; by left).
    destruct (mi_l2 _ _ _ _ HM s Hs) as [_ Hsp].
    assert (sp (s + 511) = s) as Hsp' by (apply sp_eq; [done|plia]). rewrite Hsp' in *.
    left. apply Abs_eq; cbn [a_l4 a_l2 a_al4 a_al2 a_tr abs_merge abs_free4 abs_alloc4 abs_split].
    + rewrite E4. apply filter_none. intros r Hr Hn. apply Hn.
      apply elem_of_cons in Hr as [->|Hr]; [done|].
      rewrite elem_of_reverse, elem_of_seqZ in Hr. apply sp_eq; [done|plia].
    + done.
    + by apply union_difference_single.
    + done.
    + apply subseteq_union_1_L, singleton_subseteq_l, (mi_tracked _ _ _ _ HM). by left.
  - left. apply Abs_eq; simpl; try done. by apply union_difference_single.
Qed.

(** Merging a superpage whose frames are all free changes no free frame. *)
Lemma merge_free_frames a p q : (∀ r, sp r = sp p → r ∈ a_l4 a) →
  q ∈ a_l4 (abs_merge a (sp p)) ∨ sp q ∈ a_l2 (abs_merge a (sp p)) ↔ q ∈ a_l4 a ∨ sp q ∈ a_l2 a.
Proof.
  intros Hall. cbn [a_l4 a_l2 abs_merge]. rewrite list_elem_of_filter, elem_of_cons. specialize (Hall q).
  destruct (decide (sp q = sp p)); tauto.
Qed.

(** ** Branches that change nothing *)
Section errors.
Context (o : Z).

(** [free_4kb] ignores a page beyond the array. *)
Lemma free_4kb_out_of_range b t c pfn :
  c_ptr c ≠ 0 → slice_len (c_pages c) ≤ pfn →
  wp (free_4kb pfn) (λ _ s', ∃ ev, s' = idle o b (t ++ ev) c ∧ irq_run (b, []) ev = Some (b, []))
    (idle o b t c).
Proof.
  intros Hptr Hr. unfold free_4kb. wp_run. rewrite (proj2 (Z.leb_le _ _)) by done. wp_run.
  destruct b; rewrite <-app_assoc; eexists; (split; [reflexivity|vm_compute; reflexivity]).
Qed.

(** [free_4kb] ignores a page that is marked free. *)
Lemma free_4kb_already_free b t c pfn :
  c_ptr c ≠ 0 → pstate (c_pages c) pfn = Some Free4KB →
  wp (free_4kb pfn) (λ _ s', ∃ ev, s' = idle o b (t ++ ev) c ∧ irq_run (b, []) ev = Some (b, []))
    (idle o b t c).
Proof.
  intros Hptr Hst. unfold free_4kb. wp_run. unfold pstate, meta in Hst.
  destruct (slice_get (c_pages c) pfn) as [m|] eqn:Em; simplify_eq/=.
  apply slice_get_Some_range in Em as Hr. rewrite (proj2 (Z.leb_gt _ _)) by lia. wp_run.
  eapply wp_page; [done|]. rewrite bool_decide_eq_true_2 by done. wp_run.
  destruct b; rewrite <-app_assoc; eexists; (split; [reflexivity|vm_compute; reflexivity]).
Qed.

(** [free_2mb] ignores a 2MB page that is marked free. *)
Lemma free_2mb_already_free b t c pfn :
  c_ptr c ≠ 0 → 0 ≤ pfn < MAX_PAGES → pstate (c_pages c) (sp pfn) = Some Free2MB →
  wp (free_2mb pfn) (λ _ s', ∃ ev, s' = idle o b (t ++ ev) c ∧ irq_run (b, []) ev = Some (b, []))
    (idle o b t c).
Proof.
  intros Hptr Hp Hst. unfold free_2mb. wp_run. apply wp_superpage_head; [done|].
  wp_run. unfold pstate, meta in Hst.
  destruct (slice_get (c_pages c) (sp pfn)) as [m|] eqn:Em; simplify_eq/=.
  eapply wp_page; [done|]. rewrite bool_decide_eq_true_2 by done. wp_run.
  destruct b; rewrite <-app_assoc; eexists; (split; [reflexivity|vm_compute; reflexivity]).
Qed.

(** [free_2mb] has no bounds check: a page beyond the array is a panic. *)
Lemma free_2mb_panics b t c pfn :
  c_ptr c ≠ 0 → 0 ≤ pfn < MAX_PAGES → slice_len (c_pages c) ≤ sp pfn →
  free_2mb pfn (idle o b t c) = Panicked PIndex.
Proof.
  intros Hptr Hp Hr. unfold free_2mb.
  pose proof (wp_superpage_head o pfn b t c no_locks (λ r s', r = sp pfn ∧ s' = idle o b t c) Hp) as
    (? & ? & E & -> & ->); [done|]. rewrite (bind_Done _ _ _ _ _ E).
  pose proof (wp_lock_pa o b t c false false false (λ g s', g = mkGuard b ∧ s' =
    mach (mkLocks true false false false) o false (t ++ [EvCli; EvAcquire "page_array"]) c)) as
    (? & ? & E' & -> & ->); [done|]. rewrite (bind_Done _ _ _ _ _ E').
  unfold mbind at 1, M_bind at 1.
  destruct (wp_as_slice o false (t ++ [EvCli; EvAcquire "page_array"]) c (mkLocks true false false false)
    (λ _ s', s' = mach (mkLocks true false false false) o false (t ++ [EvCli; EvAcquire "page_array"]) c))
    as ([] & ? & -> & ->); [done..|].
  unfold mbind at 1, M_bind at 1, page at 1, deref, get_mutex, gets, mbind, M_bind, mret, M_ret, panic. simpl.
  by rewrite slice_get_None.
Qed.
End errors.
