(* ===== verification/AllocTheorems.v ===== *)
(** * Theorems about the page allocator

    The properties of [PageAllocator] that its clients rely on, each with an
    instance on a concrete machine where it has hypotheses. *)
From S2P Require Import Prelude Mutex Memory Multiboot2 PageAllocator FreeList AllocInv AllocExec AllocOps AllocInit AllocSpec.

(** ** A concrete machine *)

(** A store that fills the records with zeros. *)
Definition zero_store (size : Z) (a n : Z) (mem : memory) : memory :=
  λ x, if (a <=? x) && (x <? a + n * size) then 0 else mem x.

Lemma zero_store_frame size a n mem x :
  x < a ∨ a + n * size ≤ x → zero_store size a n mem x = mem x.
Proof.
  intros Hx. unfold zero_store.
  destruct (Z.leb_spec a x), (Z.ltb_spec x (a + n * size)); simpl; try done; lia.
Qed.

(** A PC: low memory, a hole, and 8 MiB above 1 MiB. *)
Definition pc_areas : list MemoryArea :=
  [mkMemoryArea 0 0x9f000 1 0; mkMemoryArea 0xf0000 0x10000 2 0; mkMemoryArea 0x100000 0x800000 1 0].
Definition pc_mmap : Z := 0x9000.
Definition pc_memory : memory := bytes_at pc_mmap (encode_mmap 0 pc_areas).
Definition pc_image_end : Z := 0x123456.
Definition pc_init : M Machine unit := init 40 pc_image_end (zero_store 40) pc_memory pc_mmap.
Definition boot_machine (b : bool) : Machine := mkMachine (mkCpu 2 b) PageAllocator_new [].

Lemma pc_map_ok : map_ok ADDR_LIMIT pc_areas.
Proof.
  split.
  - intros x. unfold pc_areas. rewrite !elem_of_cons, elem_of_nil. intros [->|[->|[->|[]]]] _; unfold ADDR_LIMIT; simpl; lia.
  - intros i j x y Hi Hj Hne Hx Hy. unfold area_disjoint.
    destruct i as [|[|[|i]]], j as [|[|[|j]]]; simplify_eq/=; lia.
Qed.

Lemma pc_areas_ok : Forall area_ok pc_areas.
Proof. repeat constructor; simpl; unfold U64_MAX, U32_MAX; lia. Qed.

(** The facts about the memory map and the loader that [init] needs. *)
Record boot_ok (size_of_PageMetadata kernel_image_end : Z) (store_metadata : Z → Z → memory → memory)
    (mem : memory) (mmap version : Z) (areas : list MemoryArea) : Prop := {
  (** a record is not empty and fits in a page *)
  boot_size : 0 < size_of_PageMetadata ≤ PAGE_SIZE_4KB;
  (** the kernel's image ends below 4 TiB and not at 0 *)
  boot_image : 0 < kernel_image_end ≤ ADDR_LIMIT;
  (** storing [n] records at [a] changes the bytes of these records only *)
  boot_store a n m x : x < a ∨ a + n * size_of_PageMetadata ≤ x → store_metadata a n m x = m x;
  (** available memory is below 4 TiB and the areas do not overlap *)
  boot_map : map_ok ADDR_LIMIT areas;
  (** the loader wrote the tag *)
  boot_areas : Forall area_ok areas;
  boot_mmap : 0 ≤ mmap ∧ mmap + 16 + 24 * Z.of_nat (length areas) ≤ ADDR_LIMIT;
  boot_version : 0 ≤ version ≤ U32_MAX;
  boot_tag_size : 16 + 24 * Z.of_nat (length areas) ≤ U32_MAX;
  boot_tag : holds mem mmap (encode_mmap version areas);
  (** the metadata array does not overlap the tag *)
  boot_apart : mmap + 16 + 24 * Z.of_nat (length areas) ≤ metadata_base kernel_image_end ∨
    metadata_base kernel_image_end + total_pages areas * size_of_PageMetadata ≤ mmap;
}.

Lemma pc_boot_ok : boot_ok 40 pc_image_end (zero_store 40) pc_memory pc_mmap 0 pc_areas.
Proof.
  split; try (unfold PAGE_SIZE_4KB, ADDR_LIMIT, U32_MAX, pc_image_end, pc_mmap; simpl; lia).
  - intros. by apply zero_store_frame.
  - apply pc_map_ok.
  - apply pc_areas_ok.
  - apply holds_bytes_at.
  - left. vm_compute. done.
Qed.

(** Memory that the [i32] summary of [init] can count: 2 TiB. *)
Definition COUNTED_LIMIT : Z := 2 ^ 41 - 2 ^ 21.

Lemma total_pages_counted areas :
  map_ok ADDR_LIMIT areas → memory_top areas ≤ COUNTED_LIMIT → 4 * total_pages areas ≤ 2147483647.
Proof.
  intros Hok Ht. pose proof (memory_top_bounds ADDR_LIMIT areas ltac:(done) Hok) as [H0 _].
  unfold total_pages, align_up, COUNTED_LIMIT in *.
  change PAGE_SIZE_2MB with (512 * 4096). unfold PAGE_SIZE_4KB.
  rewrite Z.mul_assoc, Z.div_mul by done.
  assert ((memory_top areas + 512 * 4096 - 1) / (512 * 4096) < 2 ^ 20); [|lia].
  apply Z.div_lt_upper_bound; lia.
Qed.

Lemma boot_outcome o b t size image store mem mmap version areas :
  boot_ok size image store mem mmap version areas →
  ∃ ev c a, prepared size image areas c a ∧ quiet b ev ∧
    init size image store mem mmap (mkMachine (mkCpu o b) PageAllocator_new t) =
    if 4 * Z.of_nat (length (free_frames a)) <=? 2147483647
    then Done (tt, idle o b (t ++ ev) c) else Panicked POverflow.
Proof. intros [? ? ? ? ? [? ?] ? ? ? ?]. by eapply init_outcome. Qed.

(** [init] under the bound that its summary can count. *)
Lemma boot_init o b t size image store mem mmap version areas :
  boot_ok size image store mem mmap version areas → memory_top areas ≤ COUNTED_LIMIT →
  wp (init size image store mem mmap) (λ _ s', ∃ ev c a, s' = idle o b (t ++ ev) c ∧
      prepared size image areas c a ∧ quiet b ev)
    (mkMachine (mkCpu o b) PageAllocator_new t).
Proof.
  intros Hb Ht. destruct (boot_outcome o b t _ _ _ _ _ _ _ Hb) as (ev & c & a & HP & Hq & E).
  pose proof (total_pages_counted areas (boot_map _ _ _ _ _ _ _ Hb) Ht) as Hmax.
  pose proof (free_frames_le _ _ _ _ (inv_meta _ _ (pr_inv _ _ _ _ _ HP)) (slice_len_nonneg _)) as Hle.
  rewrite (pr_len _ _ _ _ _ HP) in Hle. rewrite (proj2 (Z.leb_le _ _)) in E by lia.
  exists tt, (idle o b (t ++ ev) c). split; [exact E|]. by exists ev, c, a.
Qed.

(** Frames of a map are whole frames above the kernel. *)
Lemma map_frames_above k len areas p : map_frames k len areas p → k ≤ p < len.
Proof. intros (x & _ & _ & Hx). unfold area_frames in Hx. lia. Qed.


Lemma pc_top : memory_top pc_areas ≤ COUNTED_LIMIT.
Proof. vm_compute. discriminate. Qed.


(** The machine after [pc_init]: 2MB pages and 4KB pages are free. *)
Lemma pc_state b : ∃ t c a, pc_init (boot_machine b) = Done (tt, idle 2 b t c) ∧ Inv c a ∧
  a_al4 a = ∅ ∧ a_al2 a = ∅ ∧ fully_merged a ∧
  ∀ p, managed a p ↔ map_frames (first_free 40 pc_image_end pc_areas / PAGE_SIZE_4KB)
                       (total_pages pc_areas) pc_areas p.
Proof.
  destruct (boot_init 2 b [] _ _ _ _ _ _ _ pc_boot_ok pc_top)
    as ([] & s' & E & ev & c & a & -> & [HI H4 H2 HF _ _ Hm _ _ _] & Hq).
  exists ([] ++ ev), c, a. exact (conj E (conj HI (conj H4 (conj H2 (conj HF Hm))))).
Qed.

Lemma pc_free_frames c a :
  Inv c a → a_al4 a = ∅ → a_al2 a = ∅ →
  (∀ p, managed a p ↔ map_frames (first_free 40 pc_image_end pc_areas / PAGE_SIZE_4KB)
                       (total_pages pc_areas) pc_areas p) → free_frames a ≠ [].
Proof.
  intros HI H4 H2 Hm E.
  assert (managed a 512) as [?|[?|[?|?]]].
  { apply Hm. exists (mkMemoryArea 0x100000 0x800000 1 0). split_and!; [set_solver|done|].
    vm_compute. split; congruence. }
  all: pose proof (elem_of_free_frames _ _ _ _ 512 (inv_meta _ _ HI)) as Hf; rewrite E in Hf; set_solver.
Qed.

(** The allocator's data in a machine. *)
Definition core_of (s : Machine) : Core :=
  let a := m_alloc s in
  mkCore (ptr (data (f_page_array a))) (pages (data (f_page_array a))) (data (f_free_4kb_list a))
    (data (f_free_2mb_list a)) (data (f_kernel_end a)).

Lemma core_of_idle o b t c : core_of (idle o b t c) = c.
Proof. by destruct c. Qed.

(** The first pages of a list, from the array. *)
Lemma dll_first ps h l p : dll ps h l → h = Some p → ∃ l', l = p :: l'.
Proof. intros (-> & _) E. destruct l as [|q l]; simplify_eq/=. by exists l. Qed.
Lemma dll_second ps h l p q : dll ps h l → h = Some p → page_next ps p = Some q → ∃ l', l = p :: q :: l'.
Proof.
  intros Hd E Hn. destruct (dll_first _ _ _ _ Hd E) as [l' ->].
  rewrite (dll_head_next _ _ _ _ Hd) in Hn. destruct l' as [|r l']; simplify_eq/=. by exists l'.
Qed.

(** The lists of the PC after [pc_init]. *)
Lemma pc_lists : ∃ t c a, pc_init (boot_machine true) = Done (tt, idle 2 true t c) ∧ Inv c a ∧ fully_merged a ∧
  slice_len (c_pages c) = 2560 ∧ (∃ l, a_l4 a = 2303 :: l) ∧ (∃ l, a_l2 a = 1536 :: 1024 :: l).
Proof.
  destruct (pc_state true) as (t & c & a & E & HI & _ & _ & HF & _). exists t, c, a.
  assert (match pc_init (boot_machine true) with
    | Done (_, s) => let c := core_of s in
        (c_h4 c, c_h2 c, slice_len (c_pages c), page_next (c_pages c) 1536)
    | _ => (None, None, 0, None) end = (Some 2303, Some 1536, 2560, Some 1024)) as H by (vm_compute; reflexivity).
  rewrite E in H. cbv zeta in H. rewrite core_of_idle in H. injection H as H4 H2 Hl Hn.
  split; [exact E|]. split; [exact HI|]. split; [exact HF|]. split; [exact Hl|]. split.
  - exact (dll_first _ _ _ _ (inv_dll4 _ _ HI) H4).
  - exact (dll_second _ _ _ _ _ (inv_dll2 _ _ HI) H2 Hn).
Qed.

(** C2: refinement. Serving any request that a client may make (allocate, or
    free a block that is handed out) ends without panic, with every lock
    released and the interrupt flag restored, and does what a rule of the
    abstract allocator allows; the invariant holds again. *)
Theorem operations_refine_contract o b t c a r :
  Inv c a → legal a r →
  wp (perform r) (λ resp s', ∃ ev c' a', s' = idle o b (t ++ ev) c' ∧ Inv c' a' ∧
      alloc_step a r resp a') (idle o b t c).
Proof.
  intros HI Hl. eapply wp_mono; [by apply perform_refines|].
  intros resp s' (a' & Hs & ev & c' & -> & HI' & _). eauto 10.
Qed.

Lemma operations_refine_contract_witness : ∃ c a, Inv c a ∧ legal a (AllocReq Size4KB) ∧
  wp (perform (AllocReq Size4KB)) (λ resp s', ∃ ev c' a', s' = idle 2 true ([] ++ ev) c' ∧ Inv c' a' ∧
      alloc_step a (AllocReq Size4KB) resp a') (idle 2 true [] c).
Proof.
  destruct (pc_state true) as (t & c & a & _ & HI & _). exists c, a. split; [exact HI|]. split; [exact I|].
  exact (operations_refine_contract 2 true [] c a (AllocReq Size4KB) HI I).
Defined.

Lemma owns_nil a : a_al4 a = ∅ → a_al2 a = ∅ → owns a [].
Proof. intros H4 H2. split; [constructor|]. intros addr sz. unfold owned. rewrite H4, H2. destruct sz; set_solver. Qed.

Section boot_session.
Context (o : Z) (size image : Z) (store : Z → Z → memory → memory)
        (mem : memory) (mmap version : Z) (areas : list MemoryArea).

Lemma boot_then_session b t rs :
  boot_ok size image store mem mmap version areas → memory_top areas ≤ COUNTED_LIMIT →
  wp (init size image store mem mmap;; session [] rs) (λ '(own, _) s', ∃ ev c a,
    s' = idle o b (t ++ ev) c ∧ Inv c a ∧ owns a own ∧ fully_merged a ∧
    ∀ p, managed a p ↔
      map_frames (first_free size image areas / PAGE_SIZE_4KB) (total_pages areas) areas p)
    (mkMachine (mkCpu o b) PageAllocator_new t).
Proof.
  intros Hb Ht. apply wp_bind. eapply wp_mono; [by eapply boot_init|].
  intros [] s' (ev & c & a & -> & [HI H4 H2 HF _ _ Hm _ _ _] & Hq).
  eapply wp_mono; [eapply (session_spec o b _ c a [] rs HI)|].
  - by apply owns_nil.
  - intros [own resps] s' (ev' & c' & a' & -> & HI' & Ho & Hm' & HF' & _).
    exists (ev ++ ev'), c', a'. rewrite app_assoc. split_and!; try done; [by apply HF'|].
    intros p. by rewrite Hm'.
Qed.
End boot_session.

(** Blocks are aligned to their size. *)
Lemma owned_aligned len st ct a addr size :
  MetaInv len st ct a → owned a addr size → addr mod size_bytes size = 0.
Proof.
  intros HM Ho. pose proof (owned_addr _ _ _ Ho) as Ha. destruct Ho as [Hmod Hal].
  destruct size; simpl; [done|]. destruct (mi_al2 _ _ _ _ HM _ Hal) as [_ Hsp].
  rewrite Ha. by apply aligned_sp.
Qed.



(** The client of this witness holds three blocks at the end. *)
Example pc_session_holds :
  match (pc_init;; session [] [AllocReq Size4KB; AllocReq Size2MB; AllocReq Size4KB]) (boot_machine true) with
  | Done ((own, _), _) => length own
  | _ => 0%nat
  end = 3%nat.
Proof. vm_compute. reflexivity. Qed.

(** The frames of a block. *)
Definition block_frames (x : Z * PageSize) : list Z :=
  seqZ (x.1 / PAGE_SIZE_4KB) (size_bytes x.2 / PAGE_SIZE_4KB).

Lemma elem_of_block_frames len st ct a addr size p :
  MetaInv len st ct a → owned a addr size →
  p ∈ block_frames (addr, size) ↔
    match size with Size4KB => p = addr / PAGE_SIZE_4KB | Size2MB => sp p = addr / PAGE_SIZE_4KB end.
Proof.
  intros HM [_ Ho]. unfold block_frames. rewrite elem_of_seqZ. destruct size; cbn [fst snd size_bytes].
  - change (PAGE_SIZE_4KB / PAGE_SIZE_4KB) with 1. lia.
  - destruct (mi_al2 _ _ _ _ HM _ Ho) as [_ Hsp]. rewrite <-elem_of_blk_sp, elem_of_blk by done. done.
Qed.

(** Every managed frame is free or in one of the blocks, and only once. *)
Lemma frames_partition len st ct a own :
  MetaInv len st ct a → owns a own →
  NoDup (free_frames a ++ (own ≫= block_frames)) ∧
  ∀ p, p ∈ free_frames a ++ (own ≫= block_frames) ↔ managed a p.
Proof.
  intros HM [Hnd Ho].
  assert (∀ p, p ∈ own ≫= block_frames ↔ p ∈ a_al4 a ∨ sp p ∈ a_al2 a) as Hbl.
  { intros p. rewrite list_elem_of_bind. split.
    - intros ([addr sz] & Hp & Hin%Ho). apply (elem_of_block_frames _ _ _ _ _ _ _ HM Hin) in Hp.
      destruct Hin as [_ Hin]. destruct sz; rewrite Hp; auto.
    - intros [Hp|Hp]; [pose proof (proj2 (owned_page a p Size4KB) Hp) as Hin|pose proof (proj2 (owned_page a (sp p) Size2MB) Hp) as Hin];
        eexists; (split; [|by apply Ho]); apply (elem_of_block_frames _ _ _ _ _ _ _ HM Hin); by rewrite page_addr. }
  split.
  - apply NoDup_app. split; [by eapply NoDup_free_frames|]. split.
    + intros p Hf Hp. apply (elem_of_free_frames _ _ _ _ _ HM) in Hf. apply Hbl in Hp.
      destruct Hf as [Hf|Hf], Hp as [Hp|Hp].
      * pose proof (mi_l4 _ _ _ _ HM _ Hf). pose proof (mi_al4 _ _ _ _ HM _ Hp). congruence.
      * by destruct (mi_own _ _ _ _ HM p (or_introl Hf)).
      * by destruct (mi_own _ _ _ _ HM p (or_intror Hp)).
      * destruct (mi_l2 _ _ _ _ HM _ Hf), (mi_al2 _ _ _ _ HM _ Hp). congruence.
    + apply NoDup_bind; [|intros x _; apply NoDup_seqZ|done].
      intros [ax sx] [ay sy] p Hx%Ho Hy%Ho Hpx Hpy.
      apply (elem_of_block_frames _ _ _ _ _ _ _ HM Hx) in Hpx. apply (elem_of_block_frames _ _ _ _ _ _ _ HM Hy) in Hpy.
      pose proof (owned_addr _ _ _ Hx) as Ax. pose proof (owned_addr _ _ _ Hy) as Ay. destruct Hx as [_ Hx], Hy as [_ Hy].
      destruct sx, sy; try (rewrite Ax, Ay; congruence).
      * rewrite <-Hpx in Hx. rewrite <-Hpy in Hy. by destruct (mi_own _ _ _ _ HM p (or_intror Hx)).
      * rewrite <-Hpx in Hx. rewrite <-Hpy in Hy. by destruct (mi_own _ _ _ _ HM p (or_intror Hy)).
  - intros p. rewrite elem_of_app, (elem_of_free_frames _ _ _ _ _ HM), Hbl. unfold managed. tauto.
Qed.

(** A superpage with an exact counter whose frames are all free is a 2MB page. *)
Lemma tracked_whole len st ct a s :
  MetaInv len st ct a → fully_merged a → s ∈ a_tr a → (∀ p, sp p = s → p ∈ free_frames a) → s ∈ a_l2 a.
Proof.
  intros HM HF Hs Hall. destruct (mi_tr_head _ _ _ _ HM s Hs) as [Hsp _].
  destruct (decide (s ∈ a_l2 a)) as [|Hn]; [done|].
  assert (∀ p, sp p = s → p ∈ a_l4 a) as Hl.
  { intros p Hp. specialize (Hall p Hp). apply (elem_of_free_frames _ _ _ _ _ HM) in Hall as [|]; [done|congruence]. }
  destruct (mi_own _ _ _ _ HM s (or_introl (Hl s Hsp))) as [_ Hna]. rewrite Hsp in Hna.
  pose proof (HF s Hs Hn Hna) as Hc. rewrite (proj2 (count_in_full s (a_l4 a) Hsp (mi_nodup4 _ _ _ _ HM)) Hl) in Hc. lia.
Qed.

(** Every frame of a superpage with an exact counter is managed. *)
Lemma tracked_managed len st ct a s p : MetaInv len st ct a → s ∈ a_tr a → sp p = s → managed a p.
Proof.
  intros HM Hs Hp. unfold managed. rewrite Hp.
  destruct (decide (s ∈ a_l2 a)) as [|H2]; [by auto|]. destruct (decide (s ∈ a_al2 a)) as [|Ha]; [by auto|].
  destruct (mi_count _ _ _ _ HM s Hs H2 Ha) as [_ Hall]. destruct (Hall p Hp); auto.
Qed.

(** C4: no leak. At every point of every session after boot the free frames and
    the frames of the blocks that are handed out are, together and each counted
    once, exactly the available frames above the kernel: none is lost, none is
    in two places. A superpage that [init] made a 2MB page is a 2MB page again
    whenever its frames are all free; in particular when the clients have given
    back all they were handed, every available frame is free and every
    superpage whose counter is exact is one 2MB page. *)
Theorem no_leak o b t size image store mem mmap version areas rs :
  boot_ok size image store mem mmap version areas → memory_top areas ≤ COUNTED_LIMIT →
  wp (init size image store mem mmap) (λ _ s0, ∃ ev0 c0 a0, s0 = idle o b (t ++ ev0) c0 ∧ Inv c0 a0 ∧
    wp (session [] rs) (λ '(own, _) s', ∃ ev c a, s' = idle o b (t ++ ev) c ∧ Inv c a ∧
        NoDup (free_frames a ++ (own ≫= block_frames)) ∧
        (∀ p, p ∈ free_frames a ++ (own ≫= block_frames) ↔
          map_frames (first_free size image areas / PAGE_SIZE_4KB) (total_pages areas) areas p) ∧
        (∀ s, s ∈ a_l2 a0 → s ∈ a_tr a) ∧
        (∀ s, s ∈ a_tr a → (∀ p, sp p = s → p ∈ free_frames a) → s ∈ a_l2 a) ∧
        (own = [] → NoDup (free_frames a) ∧
          (∀ p, p ∈ free_frames a ↔
            map_frames (first_free size image areas / PAGE_SIZE_4KB) (total_pages areas) areas p) ∧
          ∀ s, s ∈ a_tr a → s ∈ a_l2 a)) s0)
    (mkMachine (mkCpu o b) PageAllocator_new t).
Proof.
  intros Hb Ht. eapply wp_mono; [by eapply boot_init|].
  intros [] s0 (ev0 & c0 & a0 & -> & [HI0 H4 H2 HF0 _ _ Hm0 _ _ _] & _).
  exists ev0, c0, a0. split; [done|]. split; [done|].
  eapply wp_mono; [apply (session_spec o b (t ++ ev0) c0 a0 [] rs HI0 (owns_nil _ H4 H2))|].
  intros [own resps] s' (ev & c & a & -> & HI & Ho & Hm & HF & Htr & _). specialize (HF HF0).
  pose proof (inv_meta _ _ HI) as HM. destruct (frames_partition _ _ _ _ _ HM Ho) as [Hnd Hin].
  assert (∀ s, s ∈ a_tr a → (∀ p, sp p = s → p ∈ free_frames a) → s ∈ a_l2 a) as Hw
    by (intros s; by eapply tracked_whole).
  assert (∀ p, managed a p ↔ map_frames (first_free size image areas / PAGE_SIZE_4KB) (total_pages areas) areas p) as Hmap
    by (intros p; by rewrite Hm).
  exists (ev0 ++ ev), c, a. rewrite app_assoc. split_and!; [done|done|done| | |done|].
  - intros p. by rewrite Hin, Hmap.
  - intros s Hs. apply Htr, (mi_tracked _ _ _ _ (inv_meta _ _ HI0)). by left.
  - intros ->. cbn in Hnd, Hin. rewrite app_nil_r in Hnd. setoid_rewrite app_nil_r in Hin. split_and!; [done|..].
    + intros p. by rewrite Hin, Hmap.
    + intros s Hs. apply Hw; [done|]. intros p Hp. apply Hin. by eapply tracked_managed.
Qed.

Lemma no_leak_witness :
  wp pc_init (λ _ s0, ∃ ev0 c0 a0, s0 = idle 2 true ([] ++ ev0) c0 ∧ Inv c0 a0 ∧
    wp (session [] [AllocReq Size2MB; AllocReq Size4KB; FreeReq 0x600000 Size2MB]) (λ '(own, _) s', ∃ ev c a,
        s' = idle 2 true ([] ++ ev) c ∧ Inv c a ∧
        NoDup (free_frames a ++ (own ≫= block_frames)) ∧
        (∀ p, p ∈ free_frames a ++ (own ≫= block_frames) ↔
          map_frames (first_free 40 pc_image_end pc_areas / PAGE_SIZE_4KB) (total_pages pc_areas) pc_areas p) ∧
        (∀ s, s ∈ a_l2 a0 → s ∈ a_tr a) ∧
        (∀ s, s ∈ a_tr a → (∀ p, sp p = s → p ∈ free_frames a) → s ∈ a_l2 a) ∧
        (own = [] → NoDup (free_frames a) ∧
          (∀ p, p ∈ free_frames a ↔
            map_frames (first_free 40 pc_image_end pc_areas / PAGE_SIZE_4KB) (total_pages pc_areas) pc_areas p) ∧
          ∀ s, s ∈ a_tr a → s ∈ a_l2 a)) s0)
    (boot_machine true).
Proof. exact (no_leak 2 true [] _ _ _ _ _ _ _ _ pc_boot_ok pc_top). Defined.

(** A client that gives everything back. *)
Example pc_session_returns :
  match (pc_init;; session [] [AllocReq Size2MB; FreeReq 0x600000 Size2MB]) (boot_machine true) with
  | Done ((own, resps), _) => bool_decide (own = []) && bool_decide (resps = [Some 0x600000; None])
  | _ => false
  end = true.
Proof. vm_compute. reflexivity. Qed.

(** Allocate a block and free it again. *)
Definition alloc_then_free (size : PageSize) : M Machine unit :=
  r ← allocate_page size;
  match r with
  | Some addr => free_page addr size
  | None => mret tt
  end.

(** The two steps of the specification that it takes. *)
Lemma alloc_then_free_steps o b t c a size : Inv c a →
  wp (alloc_then_free size) (λ _ s', ∃ ev c' a', s' = idle o b (t ++ ev) c' ∧ Inv c' a' ∧
    (fully_merged a → fully_merged a') ∧
    (alloc_step a (AllocReq size) None a' ∨
     ∃ addr a1, alloc_step a (AllocReq size) (Some addr) a1 ∧ alloc_step a1 (FreeReq addr size) None a')) (idle o b t c).
Proof.
  intros HI. unfold alloc_then_free. apply wp_bind.
  eapply wp_mono; [apply (perform_refines o b t c a (AllocReq size) HI I)|].
  intros [addr|] s' (a1 & Hs & ev & c1 & -> & HI1 & _); 
    [|apply wp_ret; exists ev, c1, a1; split_and!; [done|done| |by left]; intros HF; by eapply step_merged; [apply HI|exact Hs|]].
  assert (legal a1 (FreeReq addr size)) as Hl by (inversion Hs; subst; apply owned_page; simpl; set_solver).
  destruct (perform_refines o b (t ++ ev) c1 a1 (FreeReq addr size) HI1 Hl) as (r & s' & E & Hq).
  cbn [perform] in E. unfold mbind, M_bind in E.
  destruct (free_page addr size (idle o b (t ++ ev) c1)) as [[[] s1]| |] eqn:Ef; try done.
  injection E as <- <-. exists tt, s1. split; [done|].
  destruct Hq as (a2 & Hs2 & ev2 & c2 & -> & HI2 & _).
  exists (ev ++ ev2), c2, a2. rewrite app_assoc. split_and!; [done|done| |by right; eauto].
  intros HF. eapply step_merged; [apply HI1|exact Hs2|]. by eapply step_merged; [apply HI|exact Hs|].
Qed.

(** C14: round trip. Allocating a block and freeing it leaves the same frames
    free and the same blocks handed out, and brings the allocator back to the
    very same lists and sets: a 2MB page that was split for it is merged again.
    The one exception is a 4KB page next in line in a superpage that was never a
    2MB page (its frames were listed one by one at boot) and whose frames are all
    free: its free merges that superpage. *)
Theorem alloc_free_roundtrip o b t c a size :
  Inv c a → fully_merged a →
  wp (alloc_then_free size) (λ _ s', ∃ ev c' a', s' = idle o b (t ++ ev) c' ∧ Inv c' a' ∧
      free_frames a' ≡ₚ free_frames a ∧ a_al4 a' = a_al4 a ∧ a_al2 a' = a_al2 a ∧
      (a' = a ∨ size = Size4KB ∧ ∃ p, late_merge a p ∧ a' = abs_merge a (sp p))) (idle o b t c).
Proof.
  intros HI HF. eapply wp_mono; [by apply (alloc_then_free_steps o b t c a size HI)|].
  intros [] s' (ev & c2 & a2 & -> & HI2 & _ & Hsteps). exists ev, c2, a2. split; [done|]. split; [done|].
  destruct Hsteps as [Hs|(addr & a1 & Hs & Hs2)].
  { assert (a2 = a) as -> by by inversion Hs. by split_and!; [| | |left]. }
  destruct (step_roundtrip _ _ _ _ _ _ _ _ (inv_meta _ _ HI) HF Hs Hs2) as [->|(p & -> & -> & Hp & ->)];
    [by split_and!; [| | |left]|]. split_and!; [|done|done|by eauto].
  apply NoDup_Permutation; [by eapply NoDup_free_frames, HI2|by eapply NoDup_free_frames, HI|].
  intros q. rewrite (elem_of_free_frames _ _ _ _ q (inv_meta _ _ HI2)), (elem_of_free_frames _ _ _ _ q (inv_meta _ _ HI)).
  apply merge_free_frames, Hp.
Qed.

Lemma alloc_free_roundtrip_witness : ∃ c a, Inv c a ∧ fully_merged a ∧
  wp (alloc_then_free Size4KB) (λ _ s', ∃ ev c' a', s' = idle 2 true ([] ++ ev) c' ∧ Inv c' a' ∧
      free_frames a' ≡ₚ free_frames a ∧ a_al4 a' = a_al4 a ∧ a_al2 a' = a_al2 a ∧
      (a' = a ∨ Size4KB = Size4KB ∧ ∃ p, late_merge a p ∧ a' = abs_merge a (sp p))) (idle 2 true [] c).
Proof.
  destruct (pc_state true) as (t & c & a & _ & HI & _ & _ & HF & _).
  exists c, a. split; [exact HI|]. split; [exact HF|].
  exact (alloc_free_roundtrip 2 true [] c a Size4KB HI HF).
Defined.

(** C15: exhaustion. [allocate_page] returns [None] only when it must: for 4KB
    exactly when no frame is free, for 2MB exactly when no 2MB page is free,
    and then every superpage with an exact counter has a frame in use. *)
Theorem alloc_none_iff o b t c a size :
  Inv c a → fully_merged a →
  wp (allocate_page size) (λ r _,
      (r = None ↔ match size with Size4KB => free_frames a = [] | Size2MB => a_l2 a = [] end) ∧
      (size = Size2MB → r = None → ∀ s, s ∈ a_tr a → ∃ p, sp p = s ∧ p ∉ free_frames a))
    (idle o b t c).
Proof.
  intros HI HF. pose proof (inv_meta _ _ HI) as HM.
  eapply wp_mono; [apply (perform_refines o b t c a (AllocReq size) HI I)|].
  intros r s' (a1 & Hs & _). unfold free_frames.
  inversion Hs as [p l E|s l E4 E2|E4 E2|s l E|E| | |]; subst r size a1; rewrite ?E4, ?E2, ?E;
    (split; [split; intros; try done|]); try done.
  intros _ _ s Hs'. destruct (mi_tr_head _ _ _ _ HM s Hs') as [Hsp Hr].
  destruct (decide (s ∈ a_al2 a)) as [Hal|Hal].
  - exists s. split; [done|]. cbn. rewrite app_nil_r.
    intros Hl. destruct (mi_own _ _ _ _ HM s (or_introl Hl)) as [_ Hn]. by rewrite Hsp in Hn.
  - assert (s ∉ a_l2 a) as Hn2 by (rewrite E; set_solver).
    pose proof (HF s Hs' Hn2 Hal) as Hc.
    destruct (decide (Forall (λ q, q ∈ a_l4 a) (blk s))) as [Hall|Hn].
    + rewrite (proj2 (count_in_full s (a_l4 a) Hsp (mi_nodup4 _ _ _ _ HM))) in Hc; [lia|].
      rewrite Forall_forall in Hall. intros p Hp. by apply Hall, elem_of_blk_sp.
    + apply not_Forall_Exists, Exists_exists in Hn as (p & Hp & Hnp); [|apply _].
      exists p. split; [by apply elem_of_blk_sp|]. cbn. by rewrite app_nil_r.
Qed.

Lemma alloc_none_iff_witness : ∃ c a, Inv c a ∧ fully_merged a ∧
  wp (allocate_page Size2MB) (λ r _,
      (r = None ↔ a_l2 a = []) ∧
      (Size2MB = Size2MB → r = None → ∀ s, s ∈ a_tr a → ∃ p, sp p = s ∧ p ∉ free_frames a))
    (idle 2 true [] c).
Proof.
  destruct (pc_state true) as (t & c & a & _ & HI & _ & _ & HF & _).
  exists c, a. split; [exact HI|]. split; [exact HF|].
  exact (alloc_none_iff 2 true [] c a Size2MB HI HF).
Defined.

(** C16: frees that change nothing. Freeing a 4KB page beyond the array, a 4KB
    page that is on the 4KB list, or a 2MB page whose superpage is on the 2MB
    list (a double free that nothing came in between of) leaves the allocator as
    it was, releases the locks and restores the interrupt flag; freeing a 2MB
    page beyond the array panics instead. *)
Theorem free_error_paths o b t c a addr :
  Inv c a → 0 ≤ addr ≤ U64_MAX →
  let pfn := addr / PAGE_SIZE_4KB in
  let unchanged size := wp (free_page addr size) (λ _ s', ∃ ev, s' = idle o b (t ++ ev) c ∧
    irq_run (b, []) ev = Some (b, [])) (idle o b t c) in
  (slice_len (c_pages c) ≤ pfn → unchanged Size4KB) ∧
  (pfn ∈ a_l4 a → unchanged Size4KB) ∧
  (sp pfn ∈ a_l2 a → unchanged Size2MB) ∧
  (slice_len (c_pages c) ≤ sp pfn →
     free_page addr Size2MB (idle o b t c) = Panicked PIndex).
Proof.
  intros HI Ha pfn unchanged. pose proof (inv_ptr _ _ HI) as Hptr. pose proof (inv_meta _ _ HI) as HM.
  assert (0 ≤ pfn < MAX_PAGES) as Hp.
  { unfold pfn, MAX_PAGES, PAGE_SIZE_4KB, U64_MAX in *. split; [apply Z.div_pos; lia|apply Z.div_lt_upper_bound; lia]. }
  split_and!; intros H.
  - by apply free_4kb_out_of_range.
  - apply free_4kb_already_free; [done|]. by eapply mi_l4.
  - apply free_2mb_already_free; [done|done|]. by eapply mi_l2.
  - by apply free_2mb_panics.
Qed.

Lemma free_error_paths_witness : ∃ c a, Inv c a ∧
  let unchanged addr size := wp (free_page addr size) (λ _ s', ∃ ev, s' = idle 2 true ([] ++ ev) c ∧
    irq_run (true, []) ev = Some (true, [])) (idle 2 true [] c) in
  unchanged 0x100000000 Size4KB ∧ unchanged 0x8ff000 Size4KB ∧ unchanged 0x600000 Size2MB ∧ unchanged 0x634567 Size2MB ∧
  free_page 0x100000000 Size2MB (idle 2 true [] c) = Panicked PIndex.
Proof.
  destruct pc_lists as (t & c & a & _ & HI & _ & Hl & [l4 E4] & [l2 E2]). exists c, a. split; [exact HI|].
  assert (∀ addr, 0 ≤ addr → addr ≤ 2 ^ 40 → 0 ≤ addr ≤ U64_MAX) as Hr by (unfold U64_MAX; lia).
  split; [|split; [|split; [|split]]].
  - destruct (free_error_paths 2 true [] c a 0x100000000 HI (Hr 0x100000000 ltac:(lia) ltac:(lia))) as (H & _ & _ & _). apply H. rewrite Hl. vm_compute. discriminate.
  - destruct (free_error_paths 2 true [] c a 0x8ff000 HI (Hr 0x8ff000 ltac:(lia) ltac:(lia))) as (_ & H & _ & _). apply H. rewrite E4. apply list_elem_of_here.
  - destruct (free_error_paths 2 true [] c a 0x600000 HI (Hr 0x600000 ltac:(lia) ltac:(lia))) as (_ & _ & H & _). apply H. rewrite E2. apply list_elem_of_here.
  - destruct (free_error_paths 2 true [] c a 0x634567 HI (Hr 0x634567 ltac:(lia) ltac:(lia))) as (_ & _ & H & _). apply H. rewrite E2. apply list_elem_of_here.
  - destruct (free_error_paths 2 true [] c a 0x100000000 HI (Hr 0x100000000 ltac:(lia) ltac:(lia))) as (_ & _ & _ & H). apply H. rewrite Hl. vm_compute. discriminate.
Defined.

(** C25: interrupt safety. A 2MB allocation, a free of either size, and a 4KB
    allocation that finds no memory never run with interrupts enabled while
    they hold one of the allocator's locks. *)
Theorem requests_keep_interrupts_off o b t c a r :
  Inv c a → legal a r → irq_safe a r = true →
  wp (perform r) (λ _ s', ∃ ev c', s' = idle o b (t ++ ev) c' ∧ irq_run (b, []) ev = Some (b, []))
    (idle o b t c).
Proof.
  intros HI Hl Hs. eapply wp_mono; [by apply perform_refines|].
  intros resp s' (a' & _ & ev & c' & -> & _ & _ & _ & He). rewrite Hs in He. eauto.
Qed.

Lemma requests_keep_interrupts_off_witness : ∃ c a, Inv c a ∧ legal a (AllocReq Size2MB) ∧
  wp (perform (AllocReq Size2MB)) (λ _ s', ∃ ev c', s' = idle 2 true ([] ++ ev) c' ∧
    irq_run (true, []) ev = Some (true, [])) (idle 2 true [] c).
Proof.
  destruct (pc_state true) as (t & c & a & _ & HI & _). exists c, a.
  split; [exact HI|]. split; [exact I|].
  exact (requests_keep_interrupts_off 2 true [] c a (AllocReq Size2MB) HI I eq_refl).
Defined.

(** C26: the window in [alloc_4kb]. A successful 4KB allocation that starts
    with interrupts enabled turns them back on while it holds exactly the lock of
    the page array: the guard of the free list, taken first, is dropped first and
    executes the [sti]. *)
Theorem alloc_4kb_enables_interrupts_under_lock o t c a :
  Inv c a → free_frames a ≠ [] →
  wp (allocate_page Size4KB) (λ r s', r ≠ None ∧
      ∃ ev c', s' = idle o true (t ++ ev) c' ∧ irq_run (true, []) ev = None ∧
        ∃ ev1 ev2, ev = ev1 ++ EvSti :: ev2 ∧ irq_run (true, []) ev1 = Some (false, ["page_array"])) (idle o true t c).
Proof.
  intros HI Hne. unfold allocate_page. destruct (a_l4 a) as [|p l4] eqn:E4.
  - destruct (a_l2 a) as [|s l2] eqn:E2; [by unfold free_frames in Hne; rewrite E4, E2 in Hne|].
    eapply wp_mono; [by apply (alloc_4kb_split_ev o 0 true t c a s l2)|]. intros r s' (-> & c' & -> & _).
    split; [done|]. eexists _, _. split; [reflexivity|]. split; [vm_compute; reflexivity|].
    exists (firstn 13 (ev_alloc_4kb_split true)), (skipn 14 (ev_alloc_4kb_split true)). by split; vm_compute.
  - eapply wp_mono; [by apply (alloc_4kb_hit_ev o 1 true t c a p l4)|]. intros r s' (-> & c' & -> & _).
    split; [done|]. eexists _, _. split; [reflexivity|]. split; [vm_compute; reflexivity|].
    exists (firstn 5 (ev_alloc_4kb true)), (skipn 6 (ev_alloc_4kb true)). by split; vm_compute.
Qed.

Lemma alloc_4kb_enables_interrupts_under_lock_witness : ∃ c a, Inv c a ∧ free_frames a ≠ [] ∧
  wp (allocate_page Size4KB) (λ r s', r ≠ None ∧
      ∃ ev c', s' = idle 2 true ([] ++ ev) c' ∧ irq_run (true, []) ev = None ∧
        ∃ ev1 ev2, ev = ev1 ++ EvSti :: ev2 ∧ irq_run (true, []) ev1 = Some (false, ["page_array"])) (idle 2 true [] c).
Proof.
  destruct (pc_state true) as (t & c & a & _ & HI & H4 & H2 & _ & Hm).
  pose proof (pc_free_frames c a HI H4 H2 Hm) as Hne.
  exists c, a. split; [exact HI|]. split; [exact Hne|].
  exact (alloc_4kb_enables_interrupts_under_lock 2 [] c a HI Hne).
Defined.

(** C29: too much memory. On a well-formed memory map (below the 4 TiB that
    [boot_ok] allows), however many areas it has: when the available frames above
    the kernel and the metadata are 2^29 (2 TiB) or more, the [i32] arithmetic of
    the summary that [init] prints overflows and booting ends in a panic; with
    fewer, it ends with the allocator ready. *)
Theorem init_panics_at_2tib o b t size image store mem mmap version areas frames :
  boot_ok size image store mem mmap version areas →
  NoDup frames →
  (∀ p, p ∈ frames ↔
    map_frames (first_free size image areas / PAGE_SIZE_4KB) (total_pages areas) areas p) →
  let booted := init size image store mem mmap (mkMachine (mkCpu o b) PageAllocator_new t) in
  if 2 ^ 29 <=? Z.of_nat (length frames) then booted = Panicked POverflow
  else ∃ ev c a, booted = Done (tt, idle o b (t ++ ev) c) ∧ Inv c a.
Proof.
  intros Hb Hnd Hfr booted. destruct (boot_outcome o b t _ _ _ _ _ _ _ Hb) as (ev & c & a & HP & _ & E).
  assert (frames ≡ₚ free_frames a) as Hperm.
  { pose proof (inv_meta _ _ (pr_inv _ _ _ _ _ HP)) as HM.
    apply NoDup_Permutation; [done|by eapply NoDup_free_frames|]. intros p.
    rewrite Hfr, <-(pr_managed _ _ _ _ _ HP p), (elem_of_free_frames _ _ _ _ _ HM). unfold managed.
    rewrite (pr_al4 _ _ _ _ _ HP), (pr_al2 _ _ _ _ _ HP), !elem_of_empty. tauto. }
  unfold booted. rewrite E, (Permutation_length Hperm). destruct (Z.leb_spec (2 ^ 29) (Z.of_nat (length (free_frames a)))).
  - by rewrite (proj2 (Z.leb_gt _ _)) by lia.
  - rewrite (proj2 (Z.leb_le _ _)) by lia. exists ev, c, a. split; [done|]. apply HP.
Qed.

(** A machine with 3 TiB. *)
Definition big_areas : list MemoryArea := [mkMemoryArea 0x100000 (3 * 2 ^ 40) 1 0].
Definition big_memory : memory := bytes_at pc_mmap (encode_mmap 0 big_areas).

(** A memory map with one available area. *)
Lemma one_area_boot_ok base len :
  0 ≤ base → 0 ≤ len → base + len ≤ ADDR_LIMIT →
  boot_ok 40 pc_image_end (zero_store 40) (bytes_at pc_mmap (encode_mmap 0 [mkMemoryArea base len 1 0])) pc_mmap 0
    [mkMemoryArea base len 1 0].
Proof.
  intros Hb Hl Hmax. split; try (unfold PAGE_SIZE_4KB, ADDR_LIMIT, U32_MAX, pc_image_end, pc_mmap; simpl; lia).
  - intros. by apply zero_store_frame.
  - split.
    + intros x Hx%list_elem_of_singleton _. by subst x.
    + intros [|i] [|j] x y Hi Hj Hne; simplify_eq/=.
  - unfold ADDR_LIMIT in Hmax. repeat constructor; simpl; unfold U64_MAX, U32_MAX; lia.
  - apply holds_bytes_at.
  - left. vm_compute. done.
Qed.

Lemma big_boot_ok : boot_ok 40 pc_image_end (zero_store 40) big_memory pc_mmap 0 big_areas.
Proof. by apply one_area_boot_ok. Qed.

(** Its frames above the kernel. *)
Definition big_first : Z := first_free 40 pc_image_end big_areas / PAGE_SIZE_4KB.
Definition big_frames : list Z := seqZ big_first (3 * 2 ^ 28 + 256 - big_first).
Lemma elem_of_big_frames p :
  p ∈ big_frames ↔ map_frames big_first (total_pages big_areas) big_areas p.
Proof.
  unfold big_frames. rewrite elem_of_seqZ.
  replace big_first with 7864617 by (by vm_compute). replace (total_pages big_areas) with 805306880 by (by vm_compute).
  unfold map_frames, area_frames, big_areas. split.
  - intros Hp. eexists. split; [apply list_elem_of_here|]. split; [done|].
    cbn [base_addr length_]. unfold PAGE_SIZE_4KB. change (0x100000 / 4096) with 256.
    change ((0x100000 + 3 * 2 ^ 40) / 4096) with (3 * 2 ^ 28 + 256). lia.
  - intros (x & Hx%list_elem_of_singleton & _ & Hp). subst x. cbn [base_addr length_] in Hp. unfold PAGE_SIZE_4KB in Hp.
    change (0x100000 / 4096) with 256 in Hp. change ((0x100000 + 3 * 2 ^ 40) / 4096) with (3 * 2 ^ 28 + 256) in Hp. lia.
Qed.

Lemma init_panics_at_2tib_witness :
  init 40 pc_image_end (zero_store 40) big_memory pc_mmap (boot_machine true) = Panicked POverflow.
Proof.
  assert (2 ^ 29 <=? Z.of_nat (length big_frames) = true) as Hlen.
  { unfold big_frames. rewrite length_seqZ. replace big_first with 7864617 by (by vm_compute).
    rewrite Z2Nat.id by lia. reflexivity. }
  pose proof (init_panics_at_2tib 2 true [] _ _ _ _ _ _ _ big_frames big_boot_ok (NoDup_seqZ _ _) elem_of_big_frames) as H.
  cbv zeta in H. rewrite Hlen in H. exact H.
Defined.

(** A machine with one 2MB page, at 2 MiB. *)
Definition small_areas : list MemoryArea := [mkMemoryArea 0x200000 0x200000 1 0].
Definition small_memory : memory := bytes_at pc_mmap (encode_mmap 0 small_areas).
Definition small_init : M Machine unit := init 40 pc_image_end (zero_store 40) small_memory pc_mmap.
Lemma small_boot_ok : boot_ok 40 pc_image_end (zero_store 40) small_memory pc_mmap 0 small_areas.
Proof. by apply one_area_boot_ok. Qed.

(** A machine with two 2MB pages, at 4 MiB, and no 4KB page. *)
Definition two_areas : list MemoryArea := [mkMemoryArea 0x400000 0x400000 1 0].
Definition two_memory : memory := bytes_at pc_mmap (encode_mmap 0 two_areas).
Definition two_init : M Machine unit := init 40 pc_image_end (zero_store 40) two_memory pc_mmap.

Lemma two_boot_ok : boot_ok 40 pc_image_end (zero_store 40) two_memory pc_mmap 0 two_areas.
Proof. by apply one_area_boot_ok. Qed.

(** The heads of the lists, and the page after the head of the 2MB list. *)
Definition heads (r : outcome (unit * Machine)) : option Z * option Z * option Z :=
  match r with
  | Done (_, s) => let c := core_of s in (c_h4 c, c_h2 c, c_h2 c ≫= page_next (c_pages c))
  | _ => (None, None, None)
  end.
Lemma two_heads : heads (two_init (boot_machine true)) = (None, Some 1536, Some 1024).
Proof. vm_compute. reflexivity. Qed.

Lemma two_lists : ∃ t c a, two_init (boot_machine true) = Done (tt, idle 2 true t c) ∧ Inv c a ∧
  a_l4 a = [] ∧ ∃ l, a_l2 a = 1536 :: 1024 :: l.
Proof.
  assert (memory_top two_areas ≤ COUNTED_LIMIT) as Ht by (vm_compute; discriminate).
  destruct (boot_init 2 true [] _ _ _ _ _ _ _ two_boot_ok Ht)
    as ([] & s0 & E0 & ev0 & c & a & -> & [HI _ _ _ _ _ _ _ _ _] & _).
  assert (two_init (boot_machine true) = Done (tt, idle 2 true ([] ++ ev0) c)) as E by exact E0. clear E0.
  pose proof two_heads as H. rewrite E in H. unfold heads in H. rewrite core_of_idle in H.
  injection H as H4 H2 Hn. rewrite H2 in Hn. cbn in Hn.
  exists ([] ++ ev0), c, a. split; [exact E|]. split; [exact HI|]. clear E. split.
  - destruct (inv_dll4 _ _ HI) as (Hh & _). rewrite H4 in Hh. by destruct (a_l4 a).
  - exact (dll_second _ _ _ _ _ (inv_dll2 _ _ HI) H2 Hn).
Qed.
