(* ===== verification/DoubleFree.v ===== *)
(** * Double frees that the allocator misses

    [free_4kb] recognises a double free by the state [Free4KB]. A merge turns
    the first page of the superpage into [Free2MB], so that a second free of that
    page gets past the check and puts it on the 4KB list while it is still on the
    2MB list. The lists then are not what the invariant says, and the proofs run
    the code on the array itself. *)
From S2P Require Import Prelude Mutex Memory Multiboot2 PageAllocator FreeList AllocInv AllocExec AllocOps AllocInit AllocSpec AllocTheorems.

(** Free a 4KB page twice, then allocate a page of each size. *)
Definition double_free (addr : Z) : M Machine (option Z * option Z) :=
  free_page addr Size4KB;;
  free_page addr Size4KB;;
  x ← allocate_page Size4KB;
  y ← allocate_page Size2MB;
  mret (x, y).

(** ** A page that heads both lists *)
Record both_heads (p : Z) (c : Core) : Prop := {
  bh_ptr : c_ptr c ≠ 0;
  bh_max : slice_len (c_pages c) ≤ MAX_PAGES;
  bh_range : 0 ≤ p < slice_len (c_pages c);
  bh_next n : page_next (c_pages c) p = Some n → 0 ≤ n < slice_len (c_pages c);
  bh_h4 : c_h4 c = Some p;
  bh_h2 : c_h2 c = Some p;
}.

Lemma page_next_link ps p h : 0 ≤ p < slice_len ps → h ≠ Some p → page_next (link_pages ps p h) p = h.
Proof. intros Hp Hh. eapply lnk_next. by apply lnk_link_front. Qed.

Lemma page_next_clear ps p : 0 ≤ p < slice_len ps → page_next (clear_links ps p) p = None.
Proof.
  intros [m Hm]%slice_get_is_Some. unfold page_next, clear_links.
  by rewrite !slice_get_upd, !decide_True, Hm by done.
Qed.

Lemma page_next_take ps p : 0 ≤ p < slice_len ps → page_next (take_pages ps p) p = None.
Proof. intros Hp. apply page_next_clear. by autorewrite with slice. Qed.

Lemma page_next_set_counter ps q x p : page_next (upd ps q (with_counter x)) p = page_next ps p.
Proof. unfold page_next. rewrite slice_get_upd. case_decide; [|done]. by destruct (slice_get ps p). Qed.

Section corrupt.
Context (o : Z).

(** Freeing the first page of a 2MB page that is first in line. *)
Lemma free_4kb_listed b t c a p l :
  Inv c a → a_l2 a = p :: l →
  wp (free_4kb p) (λ _ s', ∃ ev c', s' = idle o b (t ++ ev) c' ∧ both_heads p c') (idle o b t c).
Proof.
  intros HI Hl. pose proof (inv_meta _ _ HI) as HM.
  assert (p ∈ a_l2 a) as Hp by (rewrite Hl; apply list_elem_of_here).
  destruct (mi_l2 _ _ _ _ HM p Hp) as [Hst Hsp]. pose proof (inv_l2_range _ _ HI p Hp) as Hr.
  pose proof (mi_big _ _ _ _ HM p (or_introl Hp)) as Hct.
  pose proof (inv_max _ _ HI) as Hmax. pose proof (inv_ptr _ _ HI) as Hptr.
  pose proof (inv_h2 _ _ HI) as H2. rewrite Hl in H2. cbn [hd_or] in H2.
  destruct (slice_get_is_Some _ _ Hr) as [m Hm].
  rewrite (pstate_get _ _ _ Hm) in Hst. rewrite (pcount_get _ _ _ Hm) in Hct.
  injection Hst as Hst. injection Hct as Hct.
  assert (c_h4 c ≠ Some p) as Hne by (intros [_ ?]%(inv_h4_range _ _ HI); by apply (inv_lists_disjoint _ _ HI p)).
  unfold free_4kb. wp_run. rewrite (proj2 (Z.leb_gt _ _)) by lia. wp_run.
  eapply wp_page; [done|]. rewrite bool_decide_eq_false_2 by congruence.
  wp_run. wp_upd. wp_run. apply wp_superpage_head; [lia|]. rewrite Hsp. wp_run.
  rewrite (proj2 (Z.ltb_lt _ _)) by lia. wp_run.
  eapply wp_page; [cbn; rewrite slice_get_upd, decide_True, Hm by done; reflexivity|].
  wp_run. wp_upd. wp_run.
  eapply wp_page; [cbn; rewrite !slice_get_upd, !decide_True, Hm by done; reflexivity|].
  wp_run. cbn [counter with_counter with_state]. rewrite Hct. change (saturating_add PAGES_PER_2MB 1 =? PAGES_PER_2MB) with false.
  wp_run. wp_upd. wp_run. wp_upd. wp_run.
  set (ps1 := upd (upd (c_pages c) p (with_state Free4KB)) p (with_counter (saturating_add PAGES_PER_2MB 1))).
  assert (slice_len ps1 = slice_len (c_pages c)) as Hps1 by (unfold ps1; by autorewrite with slice).
  assert (∀ h, h = c_h4 c → ∀ n, page_next (link_pages ps1 p h) p = Some n → 0 ≤ n < slice_len (c_pages c)) as Hnext.
  { intros h -> n. rewrite page_next_link by (rewrite ?Hps1; done). intros En. by destruct (inv_h4_range _ _ HI n En). }
  unfold link_pages in Hnext. specialize (Hnext _ eq_refl). destruct (c_h4 c) as [old|] eqn:Eh.
  - destruct (inv_h4_range _ _ HI old Eh) as [Ho _].
    rewrite (proj2 (Z.ltb_lt _ _)) by lia. wp_upd. wp_run. rewrite <-!app_assoc, orb_false_r.
    eexists _, _. split; [reflexivity|]. split; cbn; autorewrite with slice; rewrite ?Hps1; done.
  - wp_run. rewrite <-!app_assoc, orb_false_r.
    eexists _, _. split; [reflexivity|]. split; cbn; autorewrite with slice; rewrite ?Hps1; done.
Qed.

(** Both allocations return the page at the head of both lists. *)
Lemma alloc_4kb_both b t c p :
  both_heads p c →
  wp (alloc_4kb ALLOC_4KB_FUEL) (λ r s', r = Some (p * PAGE_SIZE_4KB) ∧ ∃ ev c', s' = idle o b (t ++ ev) c' ∧
    c_ptr c' ≠ 0 ∧ slice_len (c_pages c') = slice_len (c_pages c) ∧ c_h2 c' = Some p ∧
    page_next (c_pages c') p = None) (idle o b t c).
Proof.
  intros [Hptr Hmax Hr Hn H4 H2]. pose proof (sp_range _ _ Hr) as Hr'.
  destruct (slice_get_is_Some (take_pages (c_pages c) p) (sp p)) as [m Hm]; [by autorewrite with slice|].
  unfold ALLOC_4KB_FUEL. cbn [alloc_4kb]. wp_run. rewrite H4. wp_run.
  apply wp_unlink_front_f4; [done|done|].
  wp_run. wp_upd. wp_run. wp_upd. wp_run. wp_upd. wp_run.
  apply wp_superpage_head; [lia|]. wp_run.
  autorewrite with slice. rewrite (proj2 (Z.ltb_lt _ _)) by lia. wp_run.
  eapply wp_page; [exact Hm|]. wp_upd. wp_run.
  apply wp_checked; [plia|]. wp_run. split; [done|].
  rewrite <-!app_assoc, ?orb_false_r. eexists _, _. split; [reflexivity|]. cbn. autorewrite with slice.
  split_and!; [done..|]. rewrite page_next_set_counter. by apply page_next_take.
Qed.

Lemma alloc_2mb_head b t c p :
  c_ptr c ≠ 0 → slice_len (c_pages c) ≤ MAX_PAGES → 0 ≤ p < slice_len (c_pages c) →
  c_h2 c = Some p → page_next (c_pages c) p = None →
  wp alloc_2mb (λ r _, r = Some (p * PAGE_SIZE_4KB)) (idle o b t c).
Proof.
  intros Hptr Hmax Hr H2 Hn. unfold alloc_2mb. wp_run. rewrite H2. wp_run.
  apply wp_unlink_front_f2; [done|by rewrite Hn|].
  wp_run. wp_upd. wp_run. wp_upd. wp_run. wp_upd. wp_run. apply wp_checked; [plia|]. by wp_run.
Qed.
End corrupt.

(** ** Theorem *)

(** C30: the double free that the check misses. Let [p] be the first page of a
    superpage that has been a 2MB page, handed out while all the other pages of
    the superpage are free. Freeing [p] merges the superpage; freeing [p] once
    more is not recognised as a double free, and then a 4KB and a 2MB allocation
    return the same address. *)
Theorem double_free_after_merge o b t c a p :
  Inv c a → sp p = p → p ∈ a_tr a → p ∈ a_al4 a → (∀ q, sp q = p → q = p ∨ q ∈ a_l4 a) →
  wp (double_free (p * PAGE_SIZE_4KB)) (λ r _, r = (Some (p * PAGE_SIZE_4KB), Some (p * PAGE_SIZE_4KB)))
    (idle o b t c).
Proof.
  intros HI Hsp Htr Hal Hall. unfold double_free, free_page, allocate_page. rewrite page_addr. apply wp_bind.
  destruct (free_4kb_owned o b t c a p HI Hal) as (n & Hn & Hwp). eapply wp_mono; [exact Hwp|].
  intros [] s1 (ev1 & c1 & -> & HI1 & _ & _ & _).
  assert (alloc_step a (FreeReq (p * PAGE_SIZE_4KB) Size4KB) None (free4_result a p n)) as Hs by by apply (free4_result_step c).
  rewrite <-Hsp in Hall, Htr. assert (free4_result a p n = abs_merge (abs_free4 a p) (sp p)) as Er.
  { inversion Hs as [| | | | |q Hq Hex Eq|q Hq _ Eq|]; apply page_addr_inj in Eq; subst q; [|done].
    destruct (Hex Htr) as (r & Hr & Hne & Hnl). rewrite Hsp in Hall, Hr. by destruct (Hall r Hr). }
  rewrite Er, Hsp in HI1. apply wp_bind.
  eapply wp_mono; [eapply (free_4kb_listed o b _ c1 _ p); [exact HI1|reflexivity]|].
  intros [] s2 (ev2 & c2 & -> & Hc2). apply wp_bind. eapply wp_mono; [by apply alloc_4kb_both|].
  intros r s3 (-> & ev3 & c3 & -> & Hptr & Hlen & H2 & Hnx). destruct Hc2 as [_ Hmax Hr _ _ _].
  apply wp_bind. eapply wp_mono; [apply (alloc_2mb_head o b _ c3 p); rewrite ?Hlen; done|].
  intros r s4 ->. by apply wp_ret.
Qed.

(** A history that leads there: a 2MB page is split, its 512 frames are handed
    out, and all but the first are given back. *)
Definition split_history (first : Z) : list Request :=
  repeat (AllocReq Size4KB) 512 ++
  map (λ i, FreeReq (first + i * PAGE_SIZE_4KB) Size4KB) (seqZ 1 511).

Definition head_2mb (r : outcome (unit * Machine)) : option Z :=
  match r with Done (_, s) => c_h2 (core_of s) | _ => None end.
Definition held (r : outcome (list (Z * PageSize) * list Response * Machine)) : list (Z * PageSize) :=
  match r with Done ((own, _), _) => own | _ => [] end.

Lemma small_head : head_2mb (small_init (boot_machine false)) = Some 512.
Proof. vm_compute. reflexivity. Qed.
Lemma small_held : held ((small_init;; session [] (split_history 0x200000)) (boot_machine false)) = [(0x200000, Size4KB)].
Proof. vm_compute. reflexivity. Qed.

Lemma small_session : ∃ c0 a0 c a, Inv c0 a0 ∧ Inv c a ∧ c_h2 c0 = Some 512 ∧ owns a [(0x200000, Size4KB)] ∧
  (∀ p, managed a p ↔ managed a0 p) ∧ a_tr a0 ⊆ a_tr a.
Proof.
  assert (memory_top small_areas ≤ COUNTED_LIMIT) as Ht by (vm_compute; discriminate).
  destruct (boot_init 2 false [] _ _ _ _ _ _ _ small_boot_ok Ht)
    as ([] & s0 & E0 & ev0 & c0 & a0 & -> & [HI0 H40 H20 _ _ _ _ _ _ _] & _).
  destruct (session_spec 2 false ([] ++ ev0) c0 a0 [] (split_history 0x200000) HI0 (owns_nil _ H40 H20))
    as ([own resps] & s & E & ev & c & a & -> & HI & Ho & Hman & _ & Htr & _).
  assert (small_init (boot_machine false) = Done (tt, idle 2 false ([] ++ ev0) c0)) as E0' by exact E0. clear E0.
  pose proof small_head as H2. rewrite E0' in H2. unfold head_2mb in H2. rewrite core_of_idle in H2.
  pose proof small_held as Hown. rewrite (bind_Done small_init (λ _, session [] (split_history 0x200000)) _ _ _ E0') in Hown. rewrite E in Hown. unfold held in Hown.
  clear E E0'. subst own. exists c0, a0, c, a. exact (conj HI0 (conj HI (conj H2 (conj Ho (conj Hman Htr))))).
Qed.

Lemma small_split : ∃ c a, Inv c a ∧ 512 ∈ a_tr a ∧ 512 ∈ a_al4 a ∧ ∀ q, sp q = 512 → q = 512 ∨ q ∈ a_l4 a.
Proof.
  destruct small_session as (c0 & a0 & c & a & HI0 & HI & Hh2 & [_ Ho] & Hman & Htr).
  destruct (dll_first _ _ _ _ (inv_dll2 _ _ HI0) Hh2) as [l2 El2].
  assert (512 ∈ a_l2 a0) as H2 by (rewrite El2; apply list_elem_of_here).
  assert (∀ p sz, owned a (p * PAGE_SIZE_4KB) sz ↔ p = 512 ∧ sz = Size4KB) as Hown.
  { intros p sz. rewrite <-Ho, list_elem_of_singleton. split; [|by intros [-> ->]].
    intros E1. injection E1 as E1 ->. split; [|done]. unfold PAGE_SIZE_4KB in E1. lia. }
  assert (512 ∈ a_al4 a) as Hal by exact (proj1 (owned_page a 512 Size4KB) (proj2 (Hown 512 Size4KB) (conj eq_refl eq_refl))).
  exists c, a. split; [done|]. split; [apply Htr, (mi_tracked _ _ _ _ (inv_meta _ _ HI0)); by left|]. split; [done|].
  intros q Hq. assert (managed a q) as Hmq by (apply Hman; right; right; left; by rewrite Hq).
  destruct (mi_own _ _ _ _ (inv_meta _ _ HI) 512 (or_intror Hal)) as [Hn2 Hna]. 
  assert (sp 512 = 512) as H512 by reflexivity. rewrite H512 in Hn2, Hna.
  unfold managed in Hmq. rewrite Hq in Hmq. destruct Hmq as [H4|[Hq4|[Hb|Hb]]]; [right; exact H4| |contradiction|contradiction].
  left. exact (proj1 (proj1 (Hown q Size4KB) (proj2 (owned_page a q Size4KB) Hq4))).
Qed.

Lemma double_free_after_merge_witness : ∃ c, wp (double_free 0x200000) (λ r _, r = (Some 0x200000, Some 0x200000))
  (idle 2 false [] c).
Proof.
  destruct small_split as (c & a & HI & Htr & Hal & Hall). exists c.
  exact (double_free_after_merge 2 false [] c a 512 HI eq_refl Htr Hal Hall).
Defined.

(** The whole history on the machine with one 2MB page. *)
Example double_free_run :
  match (small_init;; session [] (split_history 0x200000);; double_free 0x200000) (boot_machine false) with
  | Done (r, _) => bool_decide (r = (Some 0x200000, Some 0x200000))
  | _ => false
  end = true.
Proof. vm_compute. reflexivity. Qed.

(** Without the second free the same history is harmless: the merge has
    rebuilt the 2MB page, which the next 2MB allocation returns, and no 4KB
    page is left. *)
Example merge_restores_superpage :
  match (small_init;; session [] (split_history 0x200000 ++ [FreeReq 0x200000 Size4KB; AllocReq Size2MB; AllocReq Size4KB]))
          (boot_machine false) with
  | Done ((own, resps), _) => bool_decide (own = [(0x200000, Size2MB)]) && bool_decide (last resps = Some None)
  | _ => false
  end = true.
Proof. vm_compute. reflexivity. Qed.
