(* ===== verification/GlobalAlloc.v ===== *)
(** * The memory subsystem's interface (src/src/memory/mod.rs)

    [memory::init] and the global allocator [SimpleAllocator]. The client is
    proved against [PageProvider], the promise of a page allocator; the
    theorems about [PageAllocator] discharge it. *)
From S2P Require Import Prelude Mutex Memory Multiboot2 PageAllocator FreeList AllocInv AllocExec AllocOps AllocInit AllocSpec AllocTheorems.

(** ** The promise of a page allocator *)
Class PageProvider (S : Type) : Type := {
  pp_allocate : PageSize → M S (option Z);
  pp_free : Z → PageSize → M S unit;
  (** The blocks handed out. *)
  pp_holds : gset (Z * PageSize) → S → Prop;
}.

Class PageProviderLaws (S : Type) {PP : PageProvider S} : Prop := {
  pp_allocate_ok own size s : pp_holds own s →
    wp (pp_allocate size) (λ r s',
      match r with
      | None => pp_holds own s'
      | Some addr => (addr, size) ∉ own ∧ pp_holds ({[(addr, size)]} ∪ own) s'
      end) s;
  pp_free_ok own addr size s : pp_holds own s → (addr, size) ∈ own →
    wp (pp_free addr size) (λ _ s', pp_holds (own ∖ {[(addr, size)]}) s') s;
  pp_disjoint own s x y : pp_holds own s → x ∈ own → y ∈ own → x ≠ y → blocks_disjoint x y;
  pp_aligned own s x : pp_holds own s → x ∈ own → x.1 mod size_bytes x.2 = 0;
  pp_nonnull own s x : pp_holds own s → x ∈ own → 0 < x.1;
}.

(** ** The global allocator *)

(** [core::alloc::Layout] *)
Record Layout : Set := mkLayout { layout_size : Z; layout_align : Z }.

#[export] Instance Layout_eq_dec : EqDecision Layout.
Proof. solve_decision. Defined.
#[export] Instance Layout_countable : Countable Layout :=
  inj_countable' (λ l, (layout_size l, layout_align l)) (λ p, mkLayout p.1 p.2) ltac:(by intros []).

Definition null : Z := 0.

Section SimpleAllocator.
Context {S : Type} {PP : PageProvider S}.

(** [match PAGE_ALLOCATOR.allocate_page(size) { Some(addr) => addr as *mut u8,
    None => null_mut() }] *)
Definition page_or_null (size : PageSize) : M S Z :=
  r ← pp_allocate size;
  match r with
  | Some addr => mret addr
  | None => mret null
  end.

Definition alloc (layout : Layout) : M S Z :=
  if layout_size layout =? 0 then mret null
  else if layout_size layout <=? 4096 then page_or_null Size4KB
  else if layout_size layout <=? 2 * 1024 * 1024 then page_or_null Size2MB
  else page_or_null Size2MB.

Definition dealloc (ptr : Z) (layout : Layout) : M S unit :=
  if layout_size layout =? 0 then mret tt
  else
    let addr := ptr in
    if layout_size layout <=? 4096 then pp_free addr Size4KB
    else pp_free addr Size2MB.
End SimpleAllocator.

(** [own] is the set of blocks handed out. *)
Definition owns_set (a : Abs) (own : gset (Z * PageSize)) : Prop :=
  ∀ addr size, (addr, size) ∈ own ↔ owned a addr size.

(** [PAGE_ALLOCATOR] *)
#[export] Instance page_allocator_provider : PageProvider Machine := {
  pp_allocate := allocate_page;
  pp_free := free_page;
  pp_holds own s := ∃ o b t c a, s = idle o b t c ∧ Inv c a ∧ owns_set a own ∧ ∀ p, managed a p → 0 < p;
}.

(** ** [memory::init] *)
Section memory_init.
Context (size_of_PageMetadata kernel_image_end : Z)
        (store_metadata : Z → Z → memory → memory).

(** [fuel] bounds the number of tags the loader may have written. *)
Definition memory_init (fuel : nat) (mem : memory) (multiboot_info_addr : Z) : M Machine unit :=
  boot_info ←
    match BootInfo_parse multiboot_info_addr with
    | Some p => mret p
    | None => panic PUnwrap
    end;
  r ← memory_map_tag fuel mem boot_info;
  mmap_tag ←
    match r with
    | Some p => mret p
    | None => panic PUnwrap
    end;
  init size_of_PageMetadata kernel_image_end store_metadata mem mmap_tag.
End memory_init.

(** ** Live objects *)

(** The block that serves a layout. *)
Definition block_size (l : Layout) : PageSize :=
  if layout_size l <=? 4096 then Size4KB else Size2MB.
Definition object_block (x : Z * Layout) : Z * PageSize := (x.1, block_size x.2).

(** The objects [live] are allocated. *)
Definition heap_ok {S} `{PageProvider S} (live : gset (Z * Layout)) (s : S) : Prop :=
  pp_holds (set_map object_block live) s ∧
  (∀ x, x ∈ live → layout_size x.2 ≠ 0) ∧
  (∀ x y, x ∈ live → y ∈ live → object_block x = object_block y → x = y).

(** Layouts that the page of their class can serve. *)
Definition fits (l : Layout) : Prop :=
  0 < layout_size l ≤ PAGE_SIZE_2MB ∧
  (∃ k, 0 ≤ k ∧ layout_align l = 2 ^ k) ∧ layout_align l ≤ size_bytes (block_size l).

Definition objects_disjoint (x y : Z * Layout) : Prop :=
  x.1 + layout_size x.2 ≤ y.1 ∨ y.1 + layout_size y.2 ≤ x.1.

Section client.
Context {S : Type} {PP : PageProvider S} {PL : PageProviderLaws S}.
Implicit Types (live : gset (Z * Layout)) (l : Layout).

Lemma alloc_eq l : layout_size l ≠ 0 → alloc (S := S) l = page_or_null (block_size l).
Proof.
  intros Hl. unfold alloc, block_size. rewrite (proj2 (Z.eqb_neq _ _)) by done.
  destruct (layout_size l <=? 4096), (layout_size l <=? 2 * 1024 * 1024); done.
Qed.

Lemma dealloc_eq ptr l : layout_size l ≠ 0 → dealloc (S := S) ptr l = pp_free ptr (block_size l).
Proof.
  intros Hl. unfold dealloc, block_size. rewrite (proj2 (Z.eqb_neq _ _)) by done.
  by destruct (layout_size l <=? 4096).
Qed.

(** An allocation fails with null or returns a new object. *)
Lemma alloc_ok live l s :
  heap_ok live s → layout_size l ≠ 0 →
  wp (alloc l) (λ p s', (p = null ∧ heap_ok live s') ∨
    (0 < p ∧ (p, l) ∉ live ∧ heap_ok ({[(p, l)]} ∪ live) s')) s.
Proof.
  intros (Hh & Hnz & Hinj) Hl. rewrite alloc_eq by done. unfold page_or_null. apply wp_bind.
  eapply wp_mono; [by apply pp_allocate_ok|]. intros [addr|] s' Hr; apply wp_ret; [right|by left].
  destruct Hr as [Hfresh Hh']. split_and!.
  - by apply (pp_nonnull _ _ (addr, block_size l) Hh'); set_solver.
  - intros Hin. apply Hfresh, elem_of_map. by exists (addr, l).
  - split_and!.
    + by rewrite set_map_union_L, set_map_singleton_L.
    + intros x [->%elem_of_singleton|Hx]%elem_of_union; auto.
    + assert (∀ x, x ∈ live → object_block x ≠ (addr, block_size l)) as Hne.
      { intros x Hx E. apply Hfresh, elem_of_map. eauto. }
      intros x y [->%elem_of_singleton|Hx]%elem_of_union [->%elem_of_singleton|Hy]%elem_of_union E; auto;
        [by destruct (Hne y)|by destruct (Hne x)].
Qed.

(** Deallocating a live object returns its block. *)
Lemma dealloc_ok live p l s :
  heap_ok live s → (p, l) ∈ live →
  wp (dealloc p l) (λ _ s', heap_ok (live ∖ {[(p, l)]}) s') s.
Proof.
  intros (Hh & Hnz & Hinj) Hin. rewrite dealloc_eq by (by apply (Hnz (p, l))).
  eapply wp_mono; [eapply pp_free_ok; [done|apply elem_of_map; by exists (p, l)]|].
  intros [] s' Hh'. split_and!.
  - replace (set_map object_block (live ∖ {[(p, l)]}) : gset (Z * PageSize)) with
      (set_map object_block live ∖ {[(p, block_size l)]} : gset (Z * PageSize)); [done|].
    apply set_eq. intros z. rewrite elem_of_difference, elem_of_singleton, !elem_of_map. split.
    + intros [(x & -> & Hx) Hne]. exists x. split; [done|]. apply elem_of_difference. split; [done|].
      intros ->%elem_of_singleton. done.
    + intros (x & -> & [Hx Hne]%elem_of_difference). split; [by exists x|]. intros E.
      apply Hne, elem_of_singleton. by apply Hinj.
  - intros x [Hx _]%elem_of_difference. auto.
  - intros x y [Hx _]%elem_of_difference [Hy _]%elem_of_difference. auto.
Qed.

Lemma fits_bytes l : fits l → layout_size l ≤ size_bytes (block_size l).
Proof.
  intros [Hs _]. unfold block_size. destruct (Z.leb_spec (layout_size l) 4096); simpl; [done|lia].
Qed.

(** Live objects whose layouts fit share no byte. *)
Lemma live_disjoint live s x y :
  heap_ok live s → x ∈ live → y ∈ live → x ≠ y → fits x.2 → fits y.2 → objects_disjoint x y.
Proof.
  intros (Hh & _ & Hinj) Hx Hy Hne Fx%fits_bytes Fy%fits_bytes.
  assert (blocks_disjoint (object_block x) (object_block y)) as Hd.
  { apply (pp_disjoint _ _ _ _ Hh); [apply elem_of_map; eauto..|].
    intros E. by apply Hne, Hinj. }
  unfold blocks_disjoint, objects_disjoint in *. simpl in *. lia.
Qed.

(** Live objects whose layouts fit are aligned. *)
Lemma live_aligned live s x :
  heap_ok live s → x ∈ live → fits x.2 → x.1 mod layout_align x.2 = 0.
Proof.
  intros (Hh & _) Hx (_ & (k & Hk & Ha) & Hle).
  pose proof (pp_aligned _ _ (object_block x) Hh ltac:(apply elem_of_map; eauto)) as Hm. simpl in Hm.
  assert (∃ n, 0 ≤ n ∧ size_bytes (block_size x.2) = 2 ^ n) as (n & Hn & En).
  { destruct (block_size x.2); [by exists 12|by exists 21]. }
  rewrite En in *. rewrite Ha in *.
  apply Z.mod_divide in Hm; [|apply Z.pow_nonzero; lia]. apply Z.mod_divide; [apply Z.pow_nonzero; lia|].
  etrans; [|exact Hm]. exists (2 ^ (n - k)).
  apply Z.pow_le_mono_r_iff in Hle; [|lia..]. rewrite <-Z.pow_add_r by lia. f_equal. lia.
Qed.
End client.

(** ** [PageAllocator] keeps the promise *)
#[export] Instance page_allocator_laws : PageProviderLaws Machine.
Proof.
  split; cbn [pp_allocate pp_free pp_holds page_allocator_provider].
  - intros own size s (o & b & t & c & a & -> & HI & Ho & Hm).
    eapply wp_mono; [apply (perform_refines o b t c a (AllocReq size) HI I)|].
    intros r s' (a' & Hs & ev & c' & -> & HI' & _). pose proof (λ x sz, step_owned _ _ _ _ x sz Hs) as Ho'.
    assert (∀ p, managed a' p → 0 < p) as Hm'.
    { intros p Hp. apply Hm. by eapply (step_managed _ _ _ _ _ _ _ (inv_meta _ _ HI) Hs). }
    destruct r as [addr|]; [split; [intros Hin%Ho; by eapply (step_fresh _ _ _ _ _ _ _ (inv_meta _ _ HI) Hs)|]|];
      (do 5 eexists; split_and!; [done|exact HI'| |exact Hm']); intros x sz; rewrite Ho', <-(Ho x sz); [|done].
    by rewrite elem_of_union, elem_of_singleton.
  - intros own addr size s (o & b & t & c & a & -> & HI & Ho & Hm) Hin.
    assert (legal a (FreeReq addr size)) as Hl by by apply Ho.
    destruct (perform_refines o b t c a (FreeReq addr size) HI Hl) as (r & s' & E & a' & Hs & ev & c' & -> & HI' & _).
    cbn [perform] in E. unfold mbind, M_bind in E.
    destruct (free_page addr size (idle o b t c)) as [[[] s1]| |] eqn:Ef; try done.
    unfold mret, M_ret in E. simplify_eq. eexists tt, _. split; [done|].
    do 5 eexists. split_and!; [done|done| |].
    { intros x sz. by rewrite (step_owned _ _ _ _ x sz Hs), <-(Ho x sz), elem_of_difference, elem_of_singleton. }
    intros p Hp. apply Hm. by eapply (step_managed _ _ _ _ _ _ _ (inv_meta _ _ HI) Hs).
  - intros own s [] [] (o & b & t & c & a & -> & HI & Ho & Hm) ?%Ho ?%Ho ?.
    eapply owned_disjoint; [apply HI|done..].
  - intros own s [] (o & b & t & c & a & -> & HI & Ho & Hm) ?%Ho. eapply owned_aligned; [apply HI|done].
  - intros own s [addr size] (o & b & t & c & a & -> & HI & Ho & Hm) Hx%Ho.
    assert (managed a (addr / PAGE_SIZE_4KB)) as Hp%Hm.
    { eapply owned_managed; [apply HI|done|]. destruct size; simpl; unfold PAGE_SIZE_4KB, PAGE_SIZE_2MB; lia. }
    pose proof (owned_addr _ _ _ Hx) as Ha. unfold PAGE_SIZE_4KB in *. simpl. lia.
Qed.

(** A booted machine has an empty heap. *)
Lemma boot_heap o b t size image store mem mmap version areas :
  boot_ok size image store mem mmap version areas → memory_top areas ≤ COUNTED_LIMIT →
  wp (init size image store mem mmap) (λ _ s', heap_ok (∅ : gset (Z * Layout)) s')
    (mkMachine (mkCpu o b) PageAllocator_new t).
Proof.
  intros Hb Ht. eapply wp_mono; [by eapply boot_init|].
  intros [] s' (ev & c & a & -> & [HI H4 H2 HF _ _ Hm _ _ _] & _). split_and!; [|set_solver..].
  exists o, b, (t ++ ev), c, a. split_and!; [done|done| |].
  - intros addr sz. rewrite set_map_empty. unfold owned. rewrite H4, H2. destruct sz; set_solver.
  - intros p Hp%Hm. apply map_frames_above in Hp as [Hp _].
    assert (1 ≤ first_free size image areas / PAGE_SIZE_4KB); [|lia].
    apply Z.div_le_lower_bound; [done|]. destruct Hb as [Hsz Him _ Hok _ _ _ _ _ _].
    destruct (total_pages_bounds areas Hok) as [Htp _].
    unfold first_free. etrans; [|by apply align_up_bounds].
    assert (PAGE_SIZE_4KB ≤ metadata_base image); [|nia].
    unfold metadata_base, align_up. unfold PAGE_SIZE_4KB in *.
    assert (1 ≤ (image + 4096 - 1) / 4096); [apply Z.div_le_lower_bound; lia|lia].
Qed.

(** ** Heap sessions *)
Inductive HeapRequest : Set :=
  | HeapAlloc (l : Layout)
  | HeapFree (p : Z) (l : Layout).

(** Rust code that uses the heap: it never allocates a zero-sized object
    through the allocator, frees live objects only, and keeps what it got. *)
Fixpoint heap_session (live : gset (Z * Layout)) (rs : list HeapRequest) :
    M Machine (gset (Z * Layout)) :=
  match rs with
  | [] => mret live
  | HeapAlloc l :: rs' =>
      if layout_size l =? 0 then heap_session live rs'
      else
        p ← alloc l;
        heap_session (if p =? null then live else {[(p, l)]} ∪ live) rs'
  | HeapFree p l :: rs' =>
      if bool_decide ((p, l) ∈ live)
      then dealloc p l;; heap_session (live ∖ {[(p, l)]}) rs'
      else heap_session live rs'
  end.

Lemma heap_session_ok live rs s :
  heap_ok live s → wp (heap_session live rs) (λ live' s', heap_ok live' s') s.
Proof.
  revert live s. induction rs as [|[l|p l] rs IH]; intros live s Hh; cbn [heap_session].
  - by apply wp_ret.
  - destruct (Z.eqb_spec (layout_size l) 0) as [|Hl]; [by apply IH|]. apply wp_bind.
    eapply wp_mono; [by apply alloc_ok|]. intros p s' [[-> Hh']|(Hp & _ & Hh')]; [by apply IH|].
    unfold null. rewrite (proj2 (Z.eqb_neq _ _)) by lia. by apply IH.
  - case_bool_decide as Hin; [|by apply IH]. apply wp_bind.
    eapply wp_mono; [by apply dealloc_ok|]. intros [] s' Hh'. by apply IH.
Qed.

(** C20: the heap. After booting, no sequence of heap operations of Rust code
    makes the kernel panic or hang, and the objects that are live at the end
    and whose layout fits a page of their class (size up to 2 MiB, alignment up
    to the page size of the class) do not overlap, are aligned as their layout
    asks, and are not null. *)
Theorem heap_objects_disjoint o b t size image store mem mmap version areas rs :
  boot_ok size image store mem mmap version areas → memory_top areas ≤ COUNTED_LIMIT →
  wp (init size image store mem mmap;; heap_session ∅ rs) (λ live _,
      ∀ x, x ∈ live → fits x.2 →
        x.1 ≠ null ∧ x.1 mod layout_align x.2 = 0 ∧
        ∀ y, y ∈ live → fits y.2 → x ≠ y → objects_disjoint x y)
    (mkMachine (mkCpu o b) PageAllocator_new t).
Proof.
  intros Hb Ht. apply wp_bind. eapply wp_mono; [by eapply boot_heap|]. intros [] s Hh.
  eapply wp_mono; [by apply heap_session_ok|]. intros live s' Hh' x Hx Fx. split_and!.
  - assert (0 < x.1); [|unfold null; lia].
    apply (pp_nonnull _ _ (object_block x) (proj1 Hh')). apply elem_of_map. eauto.
  - by eapply live_aligned.
  - intros y Hy Fy Hne. by eapply live_disjoint.
Qed.

Lemma heap_objects_disjoint_witness :
  wp (pc_init;; heap_session ∅ [HeapAlloc (mkLayout 24 8); HeapAlloc (mkLayout 8192 16); HeapAlloc (mkLayout 24 8)])
    (λ live _,
      ∀ x, x ∈ live → fits x.2 →
        x.1 ≠ null ∧ x.1 mod layout_align x.2 = 0 ∧
        ∀ y, y ∈ live → fits y.2 → x ≠ y → objects_disjoint x y)
    (boot_machine true).
Proof. exact (heap_objects_disjoint 2 true [] _ _ _ _ _ _ _ _ pc_boot_ok pc_top). Defined.

(** C31: layouts that do not fit. [alloc] looks at the size only, and at no size
    above 2 MiB. A layout of more than 2 MiB gets one 2MB page: two objects of
    such a layout overlap whenever the next two pages of the 2MB list are closer
    than the size. And a layout that asks for more alignment than its page has is
    not aligned whenever the next page of the 4KB list is not. *)
Theorem alloc_breaks_large_layouts o b t c a l :
  Inv c a →
  (∀ s s' rest, a_l2 a = s :: s' :: rest → 0 < s → 0 < s' → PAGE_SIZE_2MB < layout_size l →
     Z.abs (s - s') * PAGE_SIZE_4KB < layout_size l →
     wp (x ← alloc l; y ← alloc l; mret (x, y))
       (λ '(x, y) _, x ≠ null ∧ y ≠ null ∧ ¬ objects_disjoint (x, l) (y, l)) (idle o b t c)) ∧
  (∀ p rest, a_l4 a = p :: rest → 0 < p → 0 < layout_size l ≤ PAGE_SIZE_4KB →
     (p * PAGE_SIZE_4KB) mod layout_align l ≠ 0 →
     wp (alloc l) (λ x _, x ≠ null ∧ x mod layout_align l ≠ 0) (idle o b t c)).
Proof.
  intros HI. assert (∀ p, 0 < p → p * PAGE_SIZE_4KB ≠ null) as Hnn by (unfold null, PAGE_SIZE_4KB; lia). split.
  - intros s s' rest E Hs Hs' Hl Hd.
    assert (block_size l = Size2MB) as Hb.
    { unfold block_size, PAGE_SIZE_2MB in *. by rewrite (proj2 (Z.leb_gt _ _)) by lia. }
    assert (layout_size l ≠ 0) as Hl0 by (unfold PAGE_SIZE_2MB in Hl; lia).
    rewrite (alloc_eq l Hl0), Hb. unfold page_or_null. do 2 apply wp_bind.
    eapply wp_mono; [by apply (alloc_2mb_some o b t c a s (s' :: rest))|]. intros r s1 (-> & ev & c1 & -> & HI1 & _).
    apply wp_ret. do 2 apply wp_bind.
    eapply wp_mono; [by apply (alloc_2mb_some o b _ c1 _ s' rest HI1)|]. intros r s2 (-> & _).
    apply wp_ret, wp_ret. split; [by apply Hnn|]. split; [by apply Hnn|].
    unfold objects_disjoint. cbn [fst snd]. unfold PAGE_SIZE_4KB in *. lia.
  - intros p rest E Hp Hl Hmod.
    assert (block_size l = Size4KB) as Hb.
    { unfold block_size, PAGE_SIZE_4KB in *. by rewrite (proj2 (Z.leb_le _ _)) by lia. }
    rewrite alloc_eq, Hb by lia. unfold page_or_null. apply wp_bind. unfold pp_allocate, page_allocator_provider, allocate_page.
    eapply wp_mono; [by apply (alloc_4kb_hit o 1 b t c a p rest)|]. intros r s1 (-> & _).
    apply wp_ret. split; [by apply Hnn|done].
Qed.

Lemma alloc_breaks_large_layouts_witness : ∃ c,
  wp (x ← alloc (mkLayout (3 * 1024 * 1024) 8); y ← alloc (mkLayout (3 * 1024 * 1024) 8); mret (x, y))
    (λ '(x, y) _, x ≠ null ∧ y ≠ null ∧
       ¬ objects_disjoint (x, mkLayout (3 * 1024 * 1024) 8) (y, mkLayout (3 * 1024 * 1024) 8)) (idle 2 true [] c) ∧
  wp (alloc (mkLayout 64 8192)) (λ x _, x ≠ null ∧ x mod 8192 ≠ 0) (idle 2 true [] c).
Proof.
  destruct pc_lists as (t & c & a & _ & HI & _ & _ & [l4 E4] & [l2 E2]). exists c. split.
  - apply (proj1 (alloc_breaks_large_layouts 2 true [] c a (mkLayout (3 * 1024 * 1024) 8) HI) 1536 1024 l2 E2);
      vm_compute; reflexivity.
  - apply (proj2 (alloc_breaks_large_layouts 2 true [] c a (mkLayout 64 8192) HI) 2303 l4 E4);
      vm_compute; repeat split; discriminate.
Defined.

(** The outcome of [memory::init] on a well-formed chain of tags. *)
Lemma memory_init_eq size image store fuel mem info tags s :
  0 ≤ info → info + 8 ≤ U64_MAX → (length tags < fuel)%nat →
  Forall (λ t, 0 ≤ t.2) tags → tags_at mem (info + 8) tags →
  memory_init size image store fuel mem info s =
    if info =? 0 then Panicked PUnwrap
    else match first_tag (info + 8) MULTIBOOT2_TAG_TYPE_MMAP tags with
         | None => Panicked PUnwrap
         | Some mmap => init size image store mem mmap s
         end.
Proof.
  intros Hi Hmax Hf Hsz Ht. unfold memory_init, BootInfo_parse, mbind, M_bind.
  destruct (Z.eqb_spec info 0) as [->|Hnz]; [done|]. unfold mret, M_ret, memory_map_tag.
  assert (find_tag fuel mem info MULTIBOOT2_TAG_TYPE_MMAP s =
    Done (first_tag (info + 8) MULTIBOOT2_TAG_TYPE_MMAP tags, s)) as ->.
  { unfold find_tag, mbind, M_bind, uadd. rewrite checked_ok by lia. apply find_tag_loop_at; try done. lia. }
  by destruct (first_tag _ _ _).
Qed.

(** C21: from the loader's pointer to the allocator. [memory::init] panics on a
    null pointer and when the boot information has no memory map tag before
    its end tag; otherwise it is [PAGE_ALLOCATOR.init] of the first memory map
    tag. *)
Theorem memory_init_dispatch size image store fuel mem info tags s :
  0 ≤ info → info + 8 ≤ U64_MAX → (length tags < fuel)%nat →
  Forall (λ t, 0 ≤ t.2) tags → tags_at mem (info + 8) tags →
  memory_init size image store fuel mem info s =
    if info =? 0 then Panicked PUnwrap
    else match first_tag (info + 8) MULTIBOOT2_TAG_TYPE_MMAP tags with
         | None => Panicked PUnwrap
         | Some mmap => init size image store mem mmap s
         end.
Proof. apply memory_init_eq. Qed.

Lemma memory_init_dispatch_witness :
  memory_init 40 pc_image_end (zero_store 40) 3 (bytes_at 64 sample_info) 64 (boot_machine true) =
    if 64 =? 0 then Panicked PUnwrap
    else match first_tag (64 + 8) MULTIBOOT2_TAG_TYPE_MMAP [(1, 12); (6, 40)] with
         | None => Panicked PUnwrap
         | Some mmap => init 40 pc_image_end (zero_store 40) (bytes_at 64 sample_info) mmap (boot_machine true)
         end.
Proof.
  apply (memory_init_dispatch 40 pc_image_end (zero_store 40) 3 (bytes_at 64 sample_info) 64
           [(1, 12); (6, 40)] (boot_machine true)).
  - lia.
  - vm_compute. discriminate.
  - simpl. lia.
  - repeat constructor; simpl; lia.
  - repeat split; vm_compute; discriminate || reflexivity.
Defined.
