(* ===== verification/Smp.v ===== *)
(** * The mutex on many CPUs (src/src/memory/mutex.rs)

    [Mutex] as a transition system: any number of CPUs, each with a stack of
    interrupted activities, run code that locks and unlocks mutexes. One step
    is one action of [lock] or of the guard's [drop] (reading the flags, [cli],
    one [compare_exchange], the releasing store, [sti]), the arrival of an
    interrupt or the return from one. The step function is executable; the
    step relation and reachability are defined from it. *)
From S2P Require Import Prelude Mutex.

(** What the code of an activity does with mutexes. *)
Inductive Op : Set :=
  | OLock (n : string)
  | OUnlock (n : string).

#[export] Instance Op_eq_dec : EqDecision Op.
Proof. solve_decision. Defined.

(** Where an activity is in [lock] or [drop]. *)
Inductive Phase : Set :=
  | PRun                          (** outside both *)
  | PRead (n : string) (b : bool) (** in [lock]: flags read, interrupts were [b] *)
  | PSpin (n : string) (b : bool) (** in [lock]: interrupts off, before a [compare_exchange] *)
  | PRestore (b : bool)           (** in [drop]: released, [b] decides about [sti] *).

(** An activity: the code left, its guards (last one first), its phase. *)
Record Frame : Set := mkFrame {
  fr_code : list Op;
  fr_guards : list (string * bool);
  fr_phase : Phase;
}.

(** A CPU: its interrupt flag and its activities, the running one first. *)
Record CpuState : Set := mkCpuState { cs_if : bool; cs_frames : list Frame }.

(** The machine: the mutexes that are locked, and the CPUs. *)
Record System : Type := mkSystem { sys_locked : gset string; sys_cpus : list CpuState }.

(** The interrupt flag that a guard of [n] found, and the other guards. *)
Fixpoint take_guard (n : string) (gs : list (string * bool)) : option (bool * list (string * bool)) :=
  match gs with
  | [] => None
  | (m, b) :: gs' =>
      if decide (m = n) then Some (b, gs')
      else match take_guard n gs' with
           | Some (b', gs'') => Some (b', (m, b) :: gs'')
           | None => None
           end
  end.

(** One action of the running activity of a CPU. *)
Definition frame_step (locked : gset string) (iflag : bool) (f : Frame) :
    option (gset string * bool * Frame) :=
  match fr_phase f, fr_code f with
  | PRun, OLock n :: code => Some (locked, iflag, mkFrame code (fr_guards f) (PRead n iflag))
  | PRead n b, code => Some (locked, false, mkFrame code (fr_guards f) (PSpin n b))
  | PSpin n b, code =>
      if decide (n ∈ locked) then Some (locked, iflag, f)
      else Some ({[n]} ∪ locked, iflag, mkFrame code ((n, b) :: fr_guards f) PRun)
  | PRun, OUnlock n :: code =>
      match take_guard n (fr_guards f) with
      | Some (b, gs) => Some (locked ∖ {[n]}, iflag, mkFrame code gs (PRestore b))
      | None => None
      end
  | PRestore b, code => Some (locked, b || iflag, mkFrame code (fr_guards f) PRun)
  | PRun, [] => None
  end.

(** What happens next on a CPU: its activity goes on, an interrupt arrives
    whose handler runs [code], or the handler returns. A handler may return while
    it still holds guards, as Rust code that forgets them would: the mutexes stay
    locked for ever. The safety theorems hold with such handlers; the schedules of
    the deadlock theorems of SmpAlloc.v have none. *)
Inductive Choice : Set :=
  | CRun
  | CInterrupt (code : list Op)
  | CReturn.

Definition cpu_step (locked : gset string) (c : CpuState) (ch : Choice) :
    option (gset string * CpuState) :=
  match ch, cs_frames c with
  | CRun, f :: fs =>
      match frame_step locked (cs_if c) f with
      | Some (locked', iflag', f') => Some (locked', mkCpuState iflag' (f' :: fs))
      | None => None
      end
  | CInterrupt code, fs =>
      (* an interrupt gate: the flag is cleared on entry *)
      if cs_if c then Some (locked, mkCpuState false (mkFrame code [] PRun :: fs)) else None
  | CReturn, f :: g :: fs =>
      (* [iretq] restores the flag, which was set when the interrupt came *)
      match fr_phase f, fr_code f with
      | PRun, [] => Some (locked, mkCpuState true (g :: fs))
      | _, _ => None
      end
  | CReturn, _ => None
  | CRun, [] => None
  end.

Definition sys_step (s : System) (i : nat) (ch : Choice) : option System :=
  match sys_cpus s !! i with
  | Some c =>
      match cpu_step (sys_locked s) c ch with
      | Some (locked', c') => Some (mkSystem locked' (<[i := c']> (sys_cpus s)))
      | None => None
      end
  | None => None
  end.

(** A run along a schedule. *)
Fixpoint sys_run (s : System) (sched : list (nat * Choice)) : option System :=
  match sched with
  | [] => Some s
  | (i, ch) :: sched' =>
      match sys_step s i ch with Some s' => sys_run s' sched' | None => None end
  end.

(** ** Well-behaved code *)

(** [bracketed rank held code]: the code releases its locks in the reverse
    order of acquisition, never locks what it holds, locks in the order of
    [rank], and holds nothing at the end. *)
Fixpoint bracketed (rank : string → nat) (held : list string) (code : list Op) : bool :=
  match code with
  | [] => bool_decide (held = [])
  | OLock n :: code' =>
      forallb (λ m, rank m <? rank n)%nat held && bracketed rank (n :: held) code'
  | OUnlock n :: code' =>
      match held with
      | m :: held' => bool_decide (m = n) && bracketed rank held' code'
      | [] => false
      end
  end.

(** Interrupt handlers run well-behaved code. *)
Definition choice_ok (rank : string → nat) (ch : Choice) : bool :=
  match ch with CInterrupt code => bracketed rank [] code | _ => true end.

(** The machine at the start: nothing locked, interrupts on or off, one
    activity per CPU. *)
Definition sys_init (cpus : list (bool * list Op)) : System :=
  mkSystem ∅ ((λ x, mkCpuState x.1 [mkFrame x.2 [] PRun]) <$> cpus).

(** States reached with well-behaved interrupt handlers. *)
Inductive reachable (rank : string → nat) (s0 : System) : System → Prop :=
  | reach_init : reachable rank s0 s0
  | reach_step s i ch s' :
      reachable rank s0 s → choice_ok rank ch = true → sys_step s i ch = Some s' →
      reachable rank s0 s'.

(** ** Invariants *)

(** Locks an activity holds, and the ones its code will see as held. *)
Definition frame_held (f : Frame) : list string := (fr_guards f).*1.
Definition frame_expects (f : Frame) : list string :=
  match fr_phase f with
  | PRead n _ | PSpin n _ => n :: frame_held f
  | _ => frame_held f
  end.

(** Only the first guard taken may have found interrupts on. *)
Fixpoint guards_ok (gs : list (string * bool)) : Prop :=
  match gs with
  | [] => True
  | (_, b) :: gs' => (gs' ≠ [] → b = false) ∧ guards_ok gs'
  end.

Record frame_ok (rank : string → nat) (iflag : bool) (f : Frame) : Prop := {
  fo_code : bracketed rank (frame_expects f) (fr_code f) = true;
  fo_order : match fr_phase f with
             | PRead n _ | PSpin n _ => Forall (λ m, rank m < rank n)%nat (frame_held f)
             | _ => True
             end;
  fo_guards : guards_ok (fr_guards f);
  fo_off : fr_guards f ≠ [] → iflag = false;
  fo_phase : match fr_phase f with
             | PRun => True
             | PRead _ b => b = iflag
             | PSpin _ b => iflag = false ∧ (fr_guards f ≠ [] → b = false)
             | PRestore b => iflag = false ∧ (fr_guards f ≠ [] → b = false)
             end;
}.

(** The running activity sees the CPU's flag; an interrupted one was running
    with interrupts on. *)
Definition cpu_ok (rank : string → nat) (c : CpuState) : Prop :=
  match cs_frames c with
  | [] => True
  | f :: fs => frame_ok rank (cs_if c) f ∧ Forall (frame_ok rank true) fs
  end.

Definition cpu_held (c : CpuState) : list string := cs_frames c ≫= frame_held.

Record sys_ok (rank : string → nat) (s : System) : Prop := {
  so_cpus : Forall (cpu_ok rank) (sys_cpus s);
  so_nodup : NoDup (sys_cpus s ≫= cpu_held);
  so_locked n : n ∈ sys_locked s ↔ n ∈ sys_cpus s ≫= cpu_held;
}.

(** Locks are held at most once, and only locked mutexes are held. *)
Record excl_ok (s : System) : Prop := {
  ex_nodup : NoDup (sys_cpus s ≫= cpu_held);
  ex_locked n : n ∈ sys_cpus s ≫= cpu_held → n ∈ sys_locked s;
}.

(** ** Mutual exclusion *)
Lemma take_guard_perm n gs b gs' : take_guard n gs = Some (b, gs') → gs ≡ₚ (n, b) :: gs'.
Proof.
  revert gs'. induction gs as [|[m b'] gs IH]; intros gs' H; simpl in H; [done|].
  case_decide as E; [by simplify_eq|].
  destruct (take_guard n gs) as [[b'' gs'']|]; simplify_eq. rewrite (IH gs'') by done. apply perm_swap.
Qed.

Lemma take_guard_head n b gs : take_guard n ((n, b) :: gs) = Some (b, gs).
Proof. simpl. by rewrite decide_True. Qed.

(** What an action does to the locks of its CPU. *)
Lemma cpu_step_held locked c ch locked' c' :
  cpu_step locked c ch = Some (locked', c') →
  (locked' = locked ∧ cpu_held c' = cpu_held c) ∨
  (∃ n, n ∉ locked ∧ locked' = {[n]} ∪ locked ∧ cpu_held c' = n :: cpu_held c) ∨
  (∃ n, locked' = locked ∖ {[n]} ∧ cpu_held c ≡ₚ n :: cpu_held c') ∨
  (ch = CReturn ∧ locked' = locked ∧ ∃ f, fr_phase f = PRun ∧ fr_code f = [] ∧
     cs_frames c = f :: cs_frames c' ∧ cpu_held c = frame_held f ++ cpu_held c').
Proof.
  unfold cpu_step, frame_step, cpu_held, frame_held. intros H.
  destruct ch as [|code|], c as [iflag fs]; simpl in *.
  - destruct fs as [|[code gs ph] fs]; [done|]. simpl in H.
    destruct ph as [|n b|n b|b]; [destruct code as [|[n|n] code]|..]; simplify_eq/=; auto.
    + destruct (take_guard n gs) as [[b gs']|] eqn:E; simplify_eq/=.
      right; right; left. exists n. split; [done|]. by rewrite (take_guard_perm _ _ _ _ E).
    + case_decide; simplify_eq/=; [auto|]. right; left. eauto.
  - destruct iflag; simplify_eq/=. auto.
  - destruct fs as [|[code gs ph] [|g fs]]; try done. simpl in H.
    destruct ph, code; simplify_eq/=. right; right; right. split; [done|]. split; [done|].
    exists (mkFrame [] gs PRun). done.
Qed.

(** The locks of one CPU and of the others. *)
Lemma held_split cpus i c c' :
  cpus !! i = Some c →
  <[i := c']> cpus ≫= cpu_held ≡ₚ cpu_held c' ++ (delete i cpus ≫= cpu_held).
Proof.
  intros Hi. apply lookup_lt_Some in Hi as Hlt.
  rewrite insert_take_drop, delete_take_drop, !bind_app by done. simpl.
  rewrite !app_assoc. apply Permutation_app; [apply Permutation_app_comm|done].
Qed.

Lemma held_split_same cpus i c :
  cpus !! i = Some c → cpus ≫= cpu_held ≡ₚ cpu_held c ++ (delete i cpus ≫= cpu_held).
Proof. intros Hi. rewrite <-(held_split cpus i c c Hi). by rewrite list_insert_id. Qed.

Lemma sys_step_inv s i ch s' :
  sys_step s i ch = Some s' → ∃ c c' locked', sys_cpus s !! i = Some c ∧
    cpu_step (sys_locked s) c ch = Some (locked', c') ∧
    s' = mkSystem locked' (<[i := c']> (sys_cpus s)).
Proof.
  unfold sys_step. destruct (sys_cpus s !! i) as [c|] eqn:Ei; [|done].
  destruct (cpu_step _ _ _) as [[locked' c']|] eqn:Es; [|done]. intros [= <-]. eauto 10.
Qed.

Lemma excl_step s i ch s' : excl_ok s → sys_step s i ch = Some s' → excl_ok s'.
Proof.
  intros [Hnd Hlk] (c & c' & locked' & Hi & Hstep & ->)%sys_step_inv.
  pose proof (held_split_same _ _ _ Hi) as Hs. pose proof (held_split _ _ _ c' Hi) as Hs'.
  revert Hs Hs'. generalize (delete i (sys_cpus s) ≫= cpu_held) as rest. intros rest Hs Hs'.
  rewrite Hs in Hnd. setoid_rewrite Hs in Hlk.
  split; cbn [sys_cpus sys_locked]; [rewrite Hs'|intros n; rewrite Hs'];
    destruct (cpu_step_held _ _ _ _ _ Hstep) as [[-> E]|[(m & Hm & -> & E)|[(m & -> & E)|(_ & -> & f & _ & _ & _ & E)]]].
  - by rewrite E.
  - rewrite E. apply NoDup_cons. split; [|done]. intros ?%Hlk. done.
  - rewrite E in Hnd. by apply NoDup_cons in Hnd as [_ ?].
  - rewrite E, <-app_assoc in Hnd. by apply NoDup_app in Hnd as (_ & _ & ?).
  - rewrite E. apply Hlk.
  - rewrite E. intros [->|Hn%Hlk]%elem_of_cons; set_solver.
  - rewrite E in Hnd. apply NoDup_cons in Hnd as [Hm _]. intros Hn.
    assert (n ∈ sys_locked s) by (apply Hlk; rewrite E; by right).
    assert (n ≠ m) by (intros ->; done). set_solver.
  - intros Hn. apply Hlk. rewrite E, <-app_assoc. set_solver.
Qed.

(** ** Well-behaved code keeps interrupts off while it holds a lock *)
Section discipline.
Context (rank : string → nat).

Lemma frame_step_ok locked i f locked' i' f' :
  frame_ok rank i f → frame_step locked i f = Some (locked', i', f') → frame_ok rank i' f'.
Proof.
  destruct f as [code gs ph]. intros [Hc Ho Hg Hoff Hp]. unfold frame_step, frame_expects, frame_held in *.
  cbn [fr_code fr_guards fr_phase] in *.
  destruct ph as [|n b|n b|b]; [destruct code as [|[n|n] code]|..]; intros H; simplify_eq/=.
  - apply andb_true_iff in Hc as [Hr Hc]. split; cbn; try done.
    apply Forall_forall. intros m Hm. rewrite forallb_forall in Hr.
    by apply Nat.ltb_lt, Hr, list_elem_of_In.
  - destruct gs as [|[m b] gs]; simpl in Hc; [done|].
    apply andb_true_iff in Hc as [->%bool_decide_eq_true Hc].
    rewrite take_guard_head in H. simplify_eq. destruct Hg as [Hb Hg].
    split; cbn; try done; [|split; [|done]]; intros; by apply Hoff.
  - split; done.
  - destruct Hp as [-> Hb]. case_decide; simplify_eq/=; split; done.
  - destruct Hp as [-> Hb]. split; cbn; try done. intros Hgs. by rewrite Hb.
Qed.

Lemma cpu_step_ok locked c ch locked' c' :
  cpu_ok rank c → choice_ok rank ch = true → cpu_step locked c ch = Some (locked', c') → cpu_ok rank c'.
Proof.
  destruct c as [iflag fs]. unfold cpu_ok, cpu_step. cbn [cs_frames cs_if].
  intros Hok Hch H. destruct ch as [|code|].
  - destruct fs as [|f fs]; [done|].
    destruct (frame_step locked iflag f) as [[[l1 i1] f1]|] eqn:E; simplify_eq/=.
    destruct Hok as [Hf Hfs]. split; [by eapply frame_step_ok|done].
  - destruct iflag; simplify_eq/=. split; [by split|]. destruct fs; [done|]. by apply Forall_cons.
  - destruct fs as [|[code gs ph] [|g fs]]; try done. cbn in H. destruct ph, code; simplify_eq/=.
    destruct Hok as [_ [Hg Hfs]%Forall_cons]. done.
Qed.

Lemma sys_step_ok s i ch s' :
  sys_ok rank s → choice_ok rank ch = true → sys_step s i ch = Some s' → sys_ok rank s'.
Proof.
  intros [Hc Hnd Hlk] Hch Hs. pose proof Hs as (c & c' & locked' & Hi & Hstep & ->)%sys_step_inv.
  assert (excl_ok s) as Hex by (split; [done|]; intros n; apply Hlk).
  assert (cpu_ok rank c) as Hcok by (rewrite Forall_lookup in Hc; by eapply Hc).
  split; [|by apply (excl_step _ _ _ _ Hex Hs)|].
  { cbn. apply Forall_insert; [done|]. by eapply cpu_step_ok. }
  clear Hs. intros n. cbn [sys_cpus sys_locked]. specialize (Hlk n).
  rewrite (held_split_same _ _ _ Hi) in Hnd, Hlk. rewrite (held_split _ _ _ c' Hi).
  revert Hnd Hlk. generalize (delete i (sys_cpus s) ≫= cpu_held) as rest. intros rest Hnd Hlk.
  destruct (cpu_step_held _ _ _ _ _ Hstep) as [[-> E]|[(m & Hm & -> & E)|[(m & -> & E)|(-> & -> & f & Hph & Hcode & Hfs & E)]]].
  - by rewrite E.
  - rewrite E, elem_of_union, Hlk. set_solver.
  - rewrite E in Hnd, Hlk. apply NoDup_cons in Hnd as [Hm _].
    rewrite elem_of_difference, Hlk. set_solver.
  - assert (frame_held f = []) as Ef; [|by rewrite E, Ef in Hlk].
    unfold cpu_ok in Hcok. rewrite Hfs in Hcok. destruct Hcok as [[Hf _ _ _ _] _].
    unfold frame_expects in Hf. rewrite Hph, Hcode in Hf. by apply bool_decide_eq_true in Hf.
Qed.

Lemma sys_init_ok cpus :
  Forall (λ x, bracketed rank [] x.2 = true) cpus → sys_ok rank (sys_init cpus).
Proof.
  intros Hc.
  assert ((sys_cpus (sys_init cpus)) ≫= cpu_held = []) as E.
  { unfold sys_init. cbn. clear. by induction cpus as [|x cpus IH]. }
  split; [|rewrite E; apply NoDup_nil_2|intros n; rewrite E; set_solver].
  apply Forall_fmap. eapply Forall_impl; [exact Hc|]. intros [b code] Hx. split; [|done]. by split.
Qed.

Lemma reachable_ok s0 s : sys_ok rank s0 → reachable rank s0 s → sys_ok rank s.
Proof. intros H0 Hr. induction Hr; [done|]. by eapply sys_step_ok. Qed.
End discipline.

(** ** Deadlock *)

(** The CPU waits for a mutex that is locked. *)
Definition waits_for (s : System) (c : CpuState) (n : string) : Prop :=
  ∃ f fs b, cs_frames c = f :: fs ∧ fr_phase f = PSpin n b ∧ n ∈ sys_locked s.

(** The CPU can act: its activity makes progress, or its handler returns. *)
Definition can_act (s : System) (i : nat) : Prop :=
  ∃ c, sys_cpus s !! i = Some c ∧ ¬ (∃ n, waits_for s c n) ∧
  ∃ ch s', (ch = CRun ∨ ch = CReturn) ∧ sys_step s i ch = Some s'.

Section progress.
Context (rank : string → nat) (s : System) (Hok : sys_ok rank s).

(** The holder of a lock is the running activity of its CPU. *)
Lemma holder_runs n :
  n ∈ sys_locked s → ∃ i c f fs, sys_cpus s !! i = Some c ∧ cs_frames c = f :: fs ∧
    cs_if c = false ∧ frame_ok rank false f ∧ n ∈ frame_held f.
Proof.
  intros (c & Hn & [i Hi]%list_elem_of_lookup)%(so_locked _ _ Hok)%list_elem_of_bind.
  pose proof (so_cpus _ _ Hok) as Hc. rewrite Forall_lookup in Hc. specialize (Hc i c Hi).
  unfold cpu_held in Hn. apply list_elem_of_bind in Hn as (f & Hn & Hf).
  unfold cpu_ok in Hc. destruct (cs_frames c) as [|g fs] eqn:Ec; [by apply elem_of_nil in Hf|].
  destruct Hc as [Hg Hfs]. apply elem_of_cons in Hf as [->|Hf].
  - assert (cs_if c = false) as Ei.
    { apply (fo_off _ _ _ Hg). intros E. unfold frame_held in Hn. rewrite E in Hn. by apply elem_of_nil in Hn. }
    rewrite Ei in Hg. exists i, c, g, fs. done.
  - rewrite Forall_forall in Hfs. specialize (Hfs f Hf).
    exfalso. assert (fr_guards f ≠ []) as Hne.
    { intros E. unfold frame_held in Hn. rewrite E in Hn. by apply elem_of_nil in Hn. }
    by apply (fo_off _ _ _ Hfs) in Hne.
Qed.

(** An activity that holds a lock and does not wait can act. *)
Lemma holder_acts i c f fs n :
  sys_cpus s !! i = Some c → cs_frames c = f :: fs → frame_ok rank false f → n ∈ frame_held f →
  (∀ m b, fr_phase f = PSpin m b → m ∉ sys_locked s) → can_act s i.
Proof.
  intros Hi Hc Hf Hn Hw. exists c. split; [done|]. split.
  { intros (m & f' & fs' & b & Ec & Ep & Hm). rewrite Hc in Ec. simplify_eq. by eapply Hw. }
  exists CRun. unfold sys_step. rewrite Hi. unfold cpu_step. rewrite Hc.
  destruct f as [code gs ph], Hf as [Hbr _ _ _ _]. unfold frame_step, frame_expects, frame_held in *.
  cbn [fr_code fr_guards fr_phase] in *.
  destruct ph as [|m b|m b|b]; [destruct code as [|[m|m] code]|..]; try (eexists; split; [by left|done]).
  - apply bool_decide_eq_true in Hbr. rewrite Hbr in Hn. by apply elem_of_nil in Hn.
  - destruct gs as [|[k b] gs]; [by apply elem_of_nil in Hn|]. simpl in Hbr.
    apply andb_true_iff in Hbr as [->%bool_decide_eq_true _].
    rewrite take_guard_head. eexists. split; [by left|done].
  - rewrite decide_False by (by eapply Hw). eexists. split; [by left|done].
Qed.

(** Following the chain of waits upwards ends at a CPU that can act. *)
Lemma chain_acts (k : nat) n :
  (∀ m, m ∈ sys_locked s → rank m ≤ k + rank n)%nat → n ∈ sys_locked s → ∃ i, can_act s i.
Proof.
  revert n. induction k as [|k IH]; intros n Hmax Hn;
    destruct (holder_runs n Hn) as (i & c & f & fs & Hi & Hc & _ & Hf & Hh).
  all: destruct (fr_phase f) as [|m b|m b|b] eqn:Ep;
    try (exists i; eapply holder_acts; [done..|congruence]).
  all: destruct (decide (m ∈ sys_locked s)) as [Hm|Hm];
    [|exists i; eapply holder_acts; [done..|congruence]].
  all: pose proof (fo_order _ _ _ Hf) as Hord; rewrite Ep in Hord;
    rewrite Forall_forall in Hord; specialize (Hord n Hh).
  - specialize (Hmax m Hm). lia.
  - apply (IH m); [|done]. intros m' Hm'. specialize (Hmax m' Hm'). lia.
Qed.

(** Every wait has an end: some CPU can act. *)
Lemma waits_end c n : waits_for s c n → ∃ i, can_act s i.
Proof.
  intros (f & fs & b & _ & _ & Hn).
  set (top := max_list (rank <$> elements (sys_locked s))).
  apply (chain_acts top n); [|done]. intros m Hm.
  assert (rank m ≤ top)%nat; [|lia]. apply max_list_elem_of_le, list_elem_of_fmap_2, elem_of_elements, Hm.
Qed.
End progress.

(** ** Theorems *)

Lemma excl_init cpus : excl_ok (sys_init cpus).
Proof.
  assert ((sys_cpus (sys_init cpus)) ≫= cpu_held = []) as E.
  { unfold sys_init. cbn. by induction cpus as [|x cpus IH]. }
  split; [rewrite E; apply NoDup_nil_2|intros n; rewrite E; by intros ?%elem_of_nil].
Qed.

Lemma excl_run s sched s' : excl_ok s → sys_run s sched = Some s' → excl_ok s'.
Proof.
  revert s. induction sched as [|[i ch] sched IH]; intros s Hs H; simpl in H; [by simplify_eq|].
  destruct (sys_step s i ch) as [s1|] eqn:E; [|done]. eapply IH; [by eapply excl_step|done].
Qed.

(** C10: mutual exclusion. Whatever code runs on however many CPUs, whatever
    interrupts arrive and however the CPUs interleave, a mutex is held by at
    most one activity, and a mutex that is held is locked. *)
Theorem mutual_exclusion cpus sched s :
  sys_run (sys_init cpus) sched = Some s →
  NoDup (sys_cpus s ≫= cpu_held) ∧ (∀ n, n ∈ sys_cpus s ≫= cpu_held → n ∈ sys_locked s).
Proof. intros [H1 H2]%excl_run; [done|apply excl_init]. Qed.

Lemma mutual_exclusion_witness :
  ∃ s, sys_run (sys_init [(true, [OLock "m"; OUnlock "m"]); (true, [OLock "m"])])
         [(0%nat, CRun); (1%nat, CRun); (1%nat, CRun); (0%nat, CRun); (1%nat, CRun); (0%nat, CRun)] = Some s ∧
  NoDup (sys_cpus s ≫= cpu_held) ∧ (∀ n, n ∈ sys_cpus s ≫= cpu_held → n ∈ sys_locked s).
Proof.
  eexists. split; [vm_compute; reflexivity|].
  apply (mutual_exclusion [(true, [OLock "m"; OUnlock "m"]); (true, [OLock "m"])]
    [(0%nat, CRun); (1%nat, CRun); (1%nat, CRun); (0%nat, CRun); (1%nat, CRun); (0%nat, CRun)]).
  vm_compute. reflexivity.
Defined.

(** Two CPUs that want the same mutex: CPU 1 has it, CPU 0 waits. *)
Definition contended : System :=
  mkSystem {["m"]} [mkCpuState false [mkFrame [OUnlock "m"] [] (PSpin "m" true)];
                    mkCpuState false [mkFrame [OUnlock "m"] [("m", true)] PRun]].
Definition contended_code : list (bool * list Op) :=
  [(true, [OLock "m"; OUnlock "m"]); (true, [OLock "m"; OUnlock "m"])].

Lemma contended_reachable : reachable (λ _, 0%nat) (sys_init contended_code) contended.
Proof.
  apply (reach_step _ _ (mkSystem {["m"]} [mkCpuState false [mkFrame [OUnlock "m"] [] (PSpin "m" true)];
                  mkCpuState false [mkFrame [OUnlock "m"] [("m", true)] PRun]]) 0 CRun); [|reflexivity|reflexivity].
  apply (reach_step _ _ (mkSystem {["m"]} [mkCpuState true [mkFrame [OUnlock "m"] [] (PRead "m" true)];
                  mkCpuState false [mkFrame [OUnlock "m"] [("m", true)] PRun]]) 0 CRun); [|reflexivity|reflexivity].
  apply (reach_step _ _ (mkSystem {["m"]} [mkCpuState true [mkFrame [OLock "m"; OUnlock "m"] [] PRun];
                  mkCpuState false [mkFrame [OUnlock "m"] [("m", true)] PRun]]) 0 CRun); [|reflexivity|reflexivity].
  apply (reach_step _ _ (mkSystem ∅ [mkCpuState true [mkFrame [OLock "m"; OUnlock "m"] [] PRun];
                  mkCpuState false [mkFrame [OUnlock "m"] [] (PSpin "m" true)]]) 1 CRun); [|reflexivity|reflexivity].
  apply (reach_step _ _ (mkSystem ∅ [mkCpuState true [mkFrame [OLock "m"; OUnlock "m"] [] PRun];
                  mkCpuState true [mkFrame [OUnlock "m"] [] (PRead "m" true)]]) 1 CRun); [|reflexivity|reflexivity].
  apply (reach_step _ _ (sys_init [(true, [OLock "m"; OUnlock "m"]); (true, [OLock "m"; OUnlock "m"])]) 1 CRun);
    [constructor|reflexivity|reflexivity].
Qed.

(** C17: no deadlock with interrupt handlers. When all code, the handlers
    included, takes its locks in one order and releases them in the reverse
    order of acquisition, an activity that holds a lock is the running one of
    its CPU and runs with interrupts off, and no CPU ever waits for a mutex that
    one of its own activities, running or interrupted, holds. *)
Theorem no_self_deadlock rank cpus s :
  Forall (λ x, bracketed rank [] x.2 = true) cpus → reachable rank (sys_init cpus) s →
  ∀ i c, sys_cpus s !! i = Some c →
    (∀ n, n ∈ cpu_held c → cs_if c = false ∧ ∃ f fs, cs_frames c = f :: fs ∧ n ∈ frame_held f) ∧
    (∀ n, waits_for s c n → n ∉ cpu_held c).
Proof.
  intros Hc Hr i c Hi. pose proof (reachable_ok _ _ _ (sys_init_ok _ _ Hc) Hr) as Hok.
  pose proof (so_cpus _ _ Hok) as Hcpu. rewrite Forall_lookup in Hcpu. specialize (Hcpu i c Hi).
  unfold cpu_ok, cpu_held in *. destruct (cs_frames c) as [|f fs] eqn:Ec.
  { split; [by intros n ?%elem_of_nil|]. by intros n (f & fs & b & E & _); rewrite Ec in E. }
  destruct Hcpu as [Hf Hfs].
  assert (fs ≫= frame_held = []) as Erest.
  { clear -Hfs. induction Hfs as [|g fs Hg Hfs IH]; [done|]. rewrite bind_cons, IH, app_nil_r.
    unfold frame_held. destruct (fr_guards g) as [|x gs] eqn:E; [done|].
    assert (true = false) by (apply (fo_off _ _ _ Hg); by rewrite E). done. }
  rewrite bind_cons, Erest, app_nil_r. split.
  - intros n Hn. split; [|by eauto]. apply (fo_off _ _ _ Hf). intros E.
    unfold frame_held in Hn. rewrite E in Hn. by apply elem_of_nil in Hn.
  - intros n (f' & fs' & b & E & Ep & _) Hn. rewrite Ec in E. simplify_eq.
    pose proof (fo_order _ _ _ Hf) as Ho. rewrite Ep in Ho. rewrite Forall_forall in Ho.
    specialize (Ho n Hn). lia.
Qed.

Lemma no_self_deadlock_witness :
  cs_if (mkCpuState false [mkFrame [OUnlock "m"] [("m", true)] PRun]) = false ∧
  "m" ∉ cpu_held (mkCpuState false [mkFrame [OUnlock "m"] [] (PSpin "m" true)]).
Proof.
  pose proof (no_self_deadlock (λ _, 0%nat) contended_code contended ltac:(repeat constructor) contended_reachable) as H.
  split.
  - destruct (H 1%nat _ eq_refl) as [H1 _]. apply (H1 "m"). apply elem_of_cons. left. reflexivity.
  - destruct (H 0%nat _ eq_refl) as [_ H2]. apply (H2 "m").
    exists (mkFrame [OUnlock "m"] [] (PSpin "m" true)), [], true. split; [reflexivity|]. split; [reflexivity|].
    vm_compute. reflexivity.
Defined.

(** C18: deadlock freedom. When all code is disciplined in this way, a CPU that
    waits for a mutex is never the end of the story: some CPU of the system is
    not waiting and can act. *)
Theorem lock_order_progress rank cpus s :
  Forall (λ x, bracketed rank [] x.2 = true) cpus → reachable rank (sys_init cpus) s →
  ∀ c n, c ∈ sys_cpus s → waits_for s c n → ∃ i, can_act s i.
Proof.
  intros Hc Hr c n _ Hw. eapply waits_end; [|done].
  eapply reachable_ok; [by apply sys_init_ok|done].
Qed.

Lemma lock_order_progress_witness : ∃ i, can_act contended i.
Proof.
  apply (lock_order_progress (λ _, 0%nat)
    [(true, [OLock "m"; OUnlock "m"]); (true, [OLock "m"; OUnlock "m"])] contended) with
    (c := mkCpuState false [mkFrame [OUnlock "m"] [] (PSpin "m" true)]) (n := "m").
  - repeat constructor.
  - apply contended_reachable.
  - apply elem_of_cons. left. reflexivity.
  - exists (mkFrame [OUnlock "m"] [] (PSpin "m" true)), [], true. split; [reflexivity|]. split; [reflexivity|].
    vm_compute. reflexivity.
Defined.
