(* ===== verification/LockTypes.v ===== *)
(** * The allocator's locks, whatever its data

    The invariant of AllocInv.v says what the allocator does as long as its
    data is right. Its locks need less: the code takes and drops them in the same
    way on every state, after a double free as well. [typed H m H'] says that [m],
    started with the locks [H] held, ends with [H'] held, releases only what is
    held, and never waits for itself. The rules follow the code; the tactic
    [lock_typed] applies them. *)
From S2P Require Import Prelude Mutex Memory Multiboot2 PageAllocator AllocInv AllocExec AllocSpec Smp.

(** The lock operations of a trace. *)
Definition trace_ops (t : list LockEvent) : list Op :=
  omap (λ e, match e with
             | EvAcquire n => Some (OLock n)
             | EvRelease n => Some (OUnlock n)
             | _ => None
             end) t.

(** Give back [n], the first time it occurs. *)
Fixpoint release (n : string) (H : list string) : option (list string) :=
  match H with
  | [] => None
  | m :: H' =>
      if decide (m = n) then Some H'
      else match release n H' with Some H'' => Some (m :: H'') | None => None end
  end.

(** The locks held after [code], unless it takes a lock that it holds or
    releases one that it does not hold. *)
Fixpoint ops_run (H : list string) (code : list Op) : option (list string) :=
  match code with
  | [] => Some H
  | OLock n :: code' => if decide (n ∈ H) then None else ops_run (n :: H) code'
  | OUnlock n :: code' => match release n H with Some H' => ops_run H' code' | None => None end
  end.

Lemma trace_ops_app t1 t2 : trace_ops (t1 ++ t2) = trace_ops t1 ++ trace_ops t2.
Proof. apply omap_app. Qed.

Lemma ops_run_app H c1 c2 :
  ops_run H (c1 ++ c2) = match ops_run H c1 with Some H' => ops_run H' c2 | None => None end.
Proof.
  revert H. induction c1 as [|[n|n] c1 IH]; intros H; simpl; [done|..].
  - by case_decide.
  - by destruct (release n H).
Qed.

Lemma release_elem n H H' x : release n H = Some H' → x ≠ n → x ∈ H' ↔ x ∈ H.
Proof.
  revert H'. induction H as [|m H IH]; intros H' E Hx; simpl in E; [done|].
  case_decide as Em; simplify_eq; [set_solver|].
  destruct (release n H) as [H1|]; simplify_eq. specialize (IH _ eq_refl Hx). set_solver.
Qed.

(** ** The judgement *)

(** Partial correctness up to panics; [may_hang] says whether [m] may also run
    for ever. *)
Definition wlp {S A} (may_hang : Prop) (m : M S A) (Q : A → S → Prop) (s : S) : Prop :=
  match m s with
  | Done (a, s') => Q a s'
  | Panicked _ => True
  | Hang => may_hang
  end.

Lemma wlp_bind {S A B} (h : Prop) (m : M S A) (k : A → M S B) (Q : B → S → Prop) s :
  wlp h m (λ a s', wlp h (k a) Q s') s → wlp h (m ≫= k) Q s.
Proof. unfold wlp, mbind, M_bind. by destruct (m s) as [[a s']| |]. Qed.

Lemma wlp_mono {S A} (h : Prop) (m : M S A) (Q R : A → S → Prop) s :
  wlp h m Q s → (∀ a s', Q a s' → R a s') → wlp h m R s.
Proof. unfold wlp. destruct (m s) as [[a s']| |]; auto. Qed.

Lemma wlp_wp {S A} (h : Prop) (m : M S A) (Q : A → S → Prop) s : wp m Q s → wlp h m Q s.
Proof. intros (a & s' & E & HQ). unfold wlp. by rewrite E. Qed.

(** The locks of the machine when exactly those in [H] are taken. *)
Definition locks_of (H : list string) : Locks :=
  mkLocks (bool_decide ("page_array" ∈ H)) (bool_decide ("free_4kb_list" ∈ H))
    (bool_decide ("free_2mb_list" ∈ H)) (bool_decide ("kernel_end" ∈ H)).

(** [Q] relates the result and the allocator's data before and after. *)
Definition typed (h : Prop) {A} (H : list string) (m : M Machine A) (H' : list string) (Q : A → Core → Core → Prop) : Prop :=
  ∀ o b t c, wlp h m (λ a s', ∃ b' ev c', s' = mach (locks_of H') o b' (t ++ ev) c' ∧
      ops_run H (trace_ops ev) = Some H' ∧ Q a c c') (mach (locks_of H) o b t c).
Definition any {A} : A → Core → Core → Prop := λ _ _ _, True.

Section rules.
Context (h : Prop).
Implicit Types (H : list string).

Lemma typed_bind_post {A B} H H1 H2 (m : M Machine A) (k : A → M Machine B) Q1 (Q2 : A → B → Core → Core → Prop) Q :
  typed h H m H1 Q1 → (∀ a, typed h H1 (k a) H2 (Q2 a)) →
  (∀ a b c c1 c2, Q1 a c c1 → Q2 a b c1 c2 → Q b c c2) → typed h H (m ≫= k) H2 Q.
Proof.
  intros Hm Hk HQ o b t c. apply wlp_bind. eapply wlp_mono; [apply Hm|].
  intros a s1 (b1 & ev1 & c1 & -> & E1 & HQ1). eapply wlp_mono; [apply Hk|].
  intros x s2 (b2 & ev2 & c2 & -> & E2 & HQ2). exists b2, (ev1 ++ ev2), c2.
  split; [by rewrite <-app_assoc|]. split; [by rewrite trace_ops_app, ops_run_app, E1|by eapply HQ].
Qed.
Lemma typed_bind {A B} H H1 H2 (m : M Machine A) (k : A → M Machine B) :
  typed h H m H1 any → (∀ a, typed h H1 (k a) H2 any) → typed h H (m ≫= k) H2 any.
Proof. intros Hm Hk. by apply (typed_bind_post H H1 H2 m k any (λ _, any)). Qed.

(** A postcondition on the end, through code that does not matter to it, code
    that establishes what it needs, and code that leaves the data alone. *)
Lemma typed_bind_end {A B} H H1 H2 (m : M Machine A) (k : A → M Machine B) (P : B → Core → Prop) :
  typed h H m H1 any → (∀ a, typed h H1 (k a) H2 (λ b _ c', P b c')) → typed h H (m ≫= k) H2 (λ b _ c', P b c').
Proof. intros Hm Hk. by apply (typed_bind_post H H1 H2 m k any (λ _ b _ c', P b c')). Qed.
Lemma typed_bind_keep {A B} H H1 H2 (m : M Machine A) (k : A → M Machine B) (P : Core → Prop) (R : B → Core → Prop) :
  typed h H m H1 (λ _ _ c', P c') → (∀ a, typed h H1 (k a) H2 (λ b c c', P c → R b c')) → typed h H (m ≫= k) H2 (λ b _ c', R b c').
Proof. intros Hm Hk. apply (typed_bind_post H H1 H2 m k (λ _ _ c', P c') (λ _ b c c', P c → R b c')); eauto. Qed.
Lemma typed_bind_same {A B} H H1 H2 (m : M Machine A) (k : A → M Machine B) (Q : B → Core → Core → Prop) :
  typed h H m H1 (λ _ c c', c' = c) → (∀ a, typed h H1 (k a) H2 Q) → typed h H (m ≫= k) H2 Q.
Proof. intros Hm Hk. eapply (typed_bind_post H H1 H2 m k _ (λ _, Q)); [done..|]. by intros ? ? ? ? ? ->. Qed.

Lemma typed_weaken {A} H (m : M Machine A) H' (Q R : A → Core → Core → Prop) :
  typed h H m H' Q → (∀ a c c', Q a c c' → R a c c') → typed h H m H' R.
Proof.
  intros Hm HR o b t c. eapply wlp_mono; [apply Hm|].
  intros a s' (b' & ev & c' & Hs & Ho & HQ). exists b', ev, c'. auto.
Qed.

(** Code that leaves locks, flags and trace alone. *)
Lemma typed_quiet {A} H (m : M Machine A) (Q : A → Core → Core → Prop) :
  (∀ k o b t c, wlp h m (λ a s', ∃ c', s' = mach k o b t c' ∧ Q a c c') (mach k o b t c)) → typed h H m H Q.
Proof.
  intros Hm o b t c. eapply wlp_mono; [apply Hm|]. intros a s' (c' & -> & HQ).
  exists b, [], c'. by rewrite app_nil_r.
Qed.

(** Code that is run after [m] has established what it needs. *)
Definition typed_from {A} (P : Core → Prop) H (m : M Machine A) H' : Prop :=
  ∀ o b t c, P c → wlp h m (λ _ s', ∃ b' ev c', s' = mach (locks_of H') o b' (t ++ ev) c' ∧
      ops_run H (trace_ops ev) = Some H' ∧ True) (mach (locks_of H) o b t c).
Lemma typed_from_any {A} P H (m : M Machine A) H' : typed h H m H' any → typed_from P H m H'.
Proof. intros Hm o b t c _. apply Hm. Qed.
Lemma typed_bind_from {A B} H H1 H2 (m : M Machine A) (k : A → M Machine B) (P : A → Core → Prop) :
  typed h H m H1 (λ a _ c', P a c') → (∀ a, typed_from (P a) H1 (k a) H2) → typed h H (m ≫= k) H2 any.
Proof.
  intros Hm Hk o b t c. apply wlp_bind. eapply wlp_mono; [apply Hm|].
  intros a s1 (b1 & ev1 & c1 & -> & E1 & HQ1). eapply wlp_mono; [by apply Hk|].
  intros x s2 (b2 & ev2 & c2 & -> & E2 & _). exists b2, (ev1 ++ ev2), c2.
  split; [by rewrite <-app_assoc|]. by rewrite trace_ops_app, ops_run_app, E1.
Qed.

Lemma typed_ret {A} H (a : A) (Q : A → Core → Core → Prop) : (∀ c, Q a c c) → typed h H (mret a) H Q.
Proof. intros HQ. apply typed_quiet. intros k o b t c. exists c. auto. Qed.
Lemma typed_panic {A} H H' r (Q : A → Core → Core → Prop) : typed h H (panic r) H' Q.
Proof. by intros o b t c. Qed.
Lemma typed_checked H x : typed h H (checked x) H (λ a c c', a = x ∧ c' = c).
Proof. apply typed_quiet. intros k o b t c. unfold wlp, checked. destruct (_ && _); [|done]. by exists c. Qed.

Lemma locks_of_cons n H : locks_of (n :: H) =
  mkLocks (bool_decide ("page_array" = n) || l_pa (locks_of H)) (bool_decide ("free_4kb_list" = n) || l_f4 (locks_of H))
    (bool_decide ("free_2mb_list" = n) || l_f2 (locks_of H)) (bool_decide ("kernel_end" = n) || l_ke (locks_of H)).
Proof.
  unfold locks_of. cbn [l_pa l_f4 l_f2 l_ke].
  f_equal; rewrite <-bool_decide_or; apply bool_decide_ext, elem_of_cons.
Qed.

Lemma locks_of_release n H H' : release n H = Some H' → n ∉ H' → locks_of H' =
  mkLocks (negb (bool_decide ("page_array" = n)) && l_pa (locks_of H)) (negb (bool_decide ("free_4kb_list" = n)) && l_f4 (locks_of H))
    (negb (bool_decide ("free_2mb_list" = n)) && l_f2 (locks_of H)) (negb (bool_decide ("kernel_end" = n)) && l_ke (locks_of H)).
Proof.
  intros Hr Hn. unfold locks_of. cbn [l_pa l_f4 l_f2 l_ke].
  f_equal; match goal with |- context [bool_decide (?x = n)] => destruct (decide (x = n)) as [<-|Hne] end.
  all: try (rewrite (bool_decide_eq_true_2 (_ = _)) by done; by apply bool_decide_eq_false).
  all: rewrite (bool_decide_eq_false_2 (_ = n)) by done; apply bool_decide_ext; by eapply release_elem.
Qed.

Lemma trace_ops_lock n H : n ∉ H → ops_run H (trace_ops [EvCli; EvAcquire n]) = Some (n :: H).
Proof. intros Hn. simpl. by rewrite decide_False. Qed.
Lemma trace_ops_drop n g H H' : release n H = Some H' → ops_run H (trace_ops (drop_events n g)) = Some H'.
Proof. intros Hr. unfold drop_events. destruct g; simpl; by rewrite Hr. Qed.

(** Taking a lock that is not held, and dropping one that is: the data stays. *)
Definition same {A} : A → Core → Core → Prop := λ _ c c', c' = c.

Lemma wlp_locks_eta {A} (m : M Machine A) Q k o b t c :
  wlp h m Q (mach (mkLocks (l_pa k) (l_f4 k) (l_f2 k) (l_ke k)) o b t c) → wlp h m Q (mach k o b t c).
Proof. by destruct k. Qed.

Lemma l_pa_of H : "page_array" ∉ H → l_pa (locks_of H) = false.
Proof. by apply bool_decide_eq_false_2. Qed.
Lemma l_f4_of H : "free_4kb_list" ∉ H → l_f4 (locks_of H) = false.
Proof. by apply bool_decide_eq_false_2. Qed.
Lemma l_f2_of H : "free_2mb_list" ∉ H → l_f2 (locks_of H) = false.
Proof. by apply bool_decide_eq_false_2. Qed.
Lemma l_ke_of H : "kernel_end" ∉ H → l_ke (locks_of H) = false.
Proof. by apply bool_decide_eq_false_2. Qed.

Local Ltac names := repeat match goal with |- context [bool_decide (?a = ?b :> string)] =>
    let r := eval vm_compute in (bool_decide (a = b)) in change (bool_decide (a = b)) with r end;
  cbn [orb andb negb].
Local Ltac lock_prim rule :=
  intros Hn o b t c; rewrite locks_of_cons; names;
  apply wlp_locks_eta; first [rewrite (l_pa_of _ Hn)|rewrite (l_f4_of _ Hn)|rewrite (l_f2_of _ Hn)|rewrite (l_ke_of _ Hn)];
  apply wlp_wp, rule; eexists _, _, c; (split; [reflexivity|]); (split; [by apply trace_ops_lock|done]).
Lemma typed_lock_pa H : "page_array" ∉ H → typed h H (lock page_array) ("page_array" :: H) same.
Proof. lock_prim wp_lock_pa. Qed.
Lemma typed_lock_f4 H : "free_4kb_list" ∉ H → typed h H (lock free_4kb_list) ("free_4kb_list" :: H) same.
Proof. lock_prim wp_lock_f4. Qed.
Lemma typed_lock_f2 H : "free_2mb_list" ∉ H → typed h H (lock free_2mb_list) ("free_2mb_list" :: H) same.
Proof. lock_prim wp_lock_f2. Qed.
Lemma typed_lock_ke H : "kernel_end" ∉ H → typed h H (lock kernel_end) ("kernel_end" :: H) same.
Proof. lock_prim wp_lock_ke. Qed.

Local Ltac drop_prim rule :=
  intros Hr Hn o b t c; rewrite (locks_of_release _ _ _ Hr Hn); names;
  match goal with |- wlp _ (drop_guard _ ?g) _ _ => destruct g as [g] end;
  apply wlp_wp, rule; eexists _, _, c; (split; [reflexivity|]); (split; [by apply trace_ops_drop|done]).
Lemma typed_drop_pa g H H' : release "page_array" H = Some H' → "page_array" ∉ H' →
  typed h H (drop_guard page_array g) H' same.
Proof. drop_prim wp_drop_pa. Qed.
Lemma typed_drop_f4 g H H' : release "free_4kb_list" H = Some H' → "free_4kb_list" ∉ H' →
  typed h H (drop_guard free_4kb_list g) H' same.
Proof. drop_prim wp_drop_f4. Qed.
Lemma typed_drop_f2 g H H' : release "free_2mb_list" H = Some H' → "free_2mb_list" ∉ H' →
  typed h H (drop_guard free_2mb_list g) H' same.
Proof. drop_prim wp_drop_f2. Qed.
Lemma typed_drop_ke g H H' : release "kernel_end" H = Some H' → "kernel_end" ∉ H' →
  typed h H (drop_guard kernel_end g) H' same.
Proof. drop_prim wp_drop_ke. Qed.

(** Reads and writes of the data behind the locks. *)
Lemma typed_deref_pa H : typed h H (deref page_array) H (λ a c c', a = mkWrapper (c_ptr c) (c_pages c) ∧ c' = c).
Proof. apply typed_quiet. intros k o b t c. by exists c. Qed.
Lemma typed_deref_f4 H : typed h H (deref free_4kb_list) H (λ a c c', a = c_h4 c ∧ c' = c).
Proof. apply typed_quiet. intros k o b t c. by exists c. Qed.
Lemma typed_deref_f2 H : typed h H (deref free_2mb_list) H (λ a c c', a = c_h2 c ∧ c' = c).
Proof. apply typed_quiet. intros k o b t c. by exists c. Qed.
Lemma typed_deref_ke H : typed h H (deref kernel_end) H same.
Proof. apply typed_quiet. intros k o b t c. by exists c. Qed.
Lemma typed_assign_pa H x : typed h H (assign page_array x) H (λ _ c c', c_h4 c' = c_h4 c).
Proof.
  apply typed_quiet. intros k o b t c. destruct x as [p ps].
  by exists (mkCore p ps (c_h4 c) (c_h2 c) (c_kend c)).
Qed.
Lemma typed_assign_f4 H x : typed h H (assign free_4kb_list x) H (λ _ _ c', c_h4 c' = x).
Proof. apply typed_quiet. intros k o b t c. by exists (with_h4 x c). Qed.
Lemma typed_assign_f2 H x : typed h H (assign free_2mb_list x) H (λ _ c c', c_h4 c' = c_h4 c).
Proof. apply typed_quiet. intros k o b t c. by exists (with_h2 x c). Qed.
Lemma typed_assign_ke H x : typed h H (assign kernel_end x) H (λ _ c c', c_h4 c' = c_h4 c).
Proof. apply typed_quiet. intros k o b t c. by exists (with_kend x c). Qed.

Lemma typed_any {A} H (m : M Machine A) H' Q : typed h H m H' Q → typed h H m H' any.
Proof. intros Hm. by eapply typed_weaken. Qed.

(** Loops: each round gives the locks back. *)
Lemma typed_fold_each {A B} H (l : list A) (body : B → A → M Machine B) x :
  (∀ b a, typed h H (body b a) H any) → typed h H (fold_each l body x) H any.
Proof.
  intros Hb. revert x. induction l as [|a l IH]; intros x; simpl; [by apply typed_ret|].
  by eapply typed_bind; [|intros].
Qed.
Lemma typed_check_each {A} H (l : list A) (test : A → M Machine bool) :
  (∀ a, typed h H (test a) H any) → typed h H (check_each l test) H any.
Proof.
  intros Hb. induction l as [|a l IH]; simpl; [by apply typed_ret|].
  eapply typed_bind; [done|]. intros []; [done|by apply typed_ret].
Qed.

(** The last round decides, when there is one. *)
Lemma typed_for_last {A} H (l : list A) (body : A → M Machine unit) (P : Core → Prop) :
  l ≠ [] → (∀ a, typed h H (body a) H (λ _ _ c', P c')) → typed h H (for_each l body) H (λ _ _ c', P c').
Proof.
  intros Hl Hb. induction l as [|a l IH]; [done|]. unfold for_each in *. simpl.
  destruct l as [|a' l].
  - eapply (typed_bind_post _ _ _ _ _ (λ _ _ c', P c') (λ _ _ c c', c' = c)); [done|intros ?; by apply typed_ret|].
    by intros ? ? ? ? ? ? ->.
  - eapply (typed_bind_post _ _ _ _ _ any (λ _ _ _ c', P c')); [by eapply typed_any|intros []; by apply IH|done].
Qed.
End rules.

#[export] Hint Resolve typed_any : locks_weaken.
Create HintDb locks.
#[export] Hint Resolve typed_deref_pa typed_deref_f4 typed_deref_f2 typed_deref_ke
  typed_assign_pa typed_assign_f4 typed_assign_f2 typed_assign_ke typed_checked : locks.

(** Follow the code: conditions and matches are split, the locks are taken and
    dropped, everything else has a lemma in [locks]. *)
Ltac lock_step :=
  lazymatch goal with
  | |- typed _ _ (mbind _ _) _ any => eapply typed_bind; [|intros ?; cbv beta]
  | |- typed _ _ (mret _) _ any => by apply typed_ret
  | |- typed _ _ (panic _) _ any => first [by apply (typed_panic _ _ _)|apply typed_panic]
  | |- typed _ _ (lock page_array) _ any => eapply typed_any, typed_lock_pa; by apply (bool_decide_eq_false _)
  | |- typed _ _ (lock free_4kb_list) _ any => eapply typed_any, typed_lock_f4; by apply (bool_decide_eq_false _)
  | |- typed _ _ (lock free_2mb_list) _ any => eapply typed_any, typed_lock_f2; by apply (bool_decide_eq_false _)
  | |- typed _ _ (lock kernel_end) _ any => eapply typed_any, typed_lock_ke; by apply (bool_decide_eq_false _)
  | |- typed _ _ (drop_guard page_array _) _ any => eapply typed_any, typed_drop_pa; [reflexivity|by apply (bool_decide_eq_false _)]
  | |- typed _ _ (drop_guard free_4kb_list _) _ any => eapply typed_any, typed_drop_f4; [reflexivity|by apply (bool_decide_eq_false _)]
  | |- typed _ _ (drop_guard free_2mb_list _) _ any => eapply typed_any, typed_drop_f2; [reflexivity|by apply (bool_decide_eq_false _)]
  | |- typed _ _ (drop_guard kernel_end _) _ any => eapply typed_any, typed_drop_ke; [reflexivity|by apply (bool_decide_eq_false _)]
  | |- typed _ _ (fold_each _ _ _) _ any => apply typed_fold_each; intros ? ?; cbv beta
  | |- typed _ _ (fold_range _ _ _ _) _ any => apply typed_fold_each; intros ? ?; cbv beta
  | |- typed _ _ (for_each _ _) _ any => apply typed_fold_each; intros ? ?; cbv beta
  | |- typed _ _ (for_range _ _ _) _ any => apply typed_fold_each; intros ? ?; cbv beta
  | |- typed _ _ (check_each _ _) _ any => apply typed_check_each; intros ?; cbv beta
  | |- typed _ _ (if ?b then _ else _) _ any => destruct b
  | |- typed _ _ (match ?x with _ => _ end) _ any => destruct x
  | |- typed _ _ ((match ?x with _ => _ end) _) _ any => destruct x; cbv beta
  | |- typed _ _ _ _ any => first [solve [eauto with locks]|eapply typed_any; solve [eauto with locks]]
  end.
Ltac lock_typed := repeat lock_step.

(** ** The code *)
Section code.
Context (h : Prop).
Implicit Types (H : list string).

Lemma typed_as_slice H : typed h H as_slice H any.
Proof. unfold as_slice. lock_typed. Qed.
Lemma typed_pages_len H : typed h H pages_len H any.
Proof. unfold pages_len. lock_typed. Qed.
Lemma typed_page H i : typed h H (page i) H same.
Proof.
  apply typed_quiet. intros k o b t c. unfold wlp, page, deref, get_mutex, gets, mach, mbind, M_bind, mret, M_ret.
  simpl. destruct (slice_get _ _); [|done]. by exists c.
Qed.
Lemma typed_modify_page H i f : typed h H (modify_page i f) H (λ _ c c', c_h4 c' = c_h4 c).
Proof.
  unfold modify_page. eapply typed_bind_post; [apply typed_page|intros m; cbv beta|].
  - eapply typed_bind_post; [apply typed_deref_pa|intros w; cbv beta; apply typed_assign_pa|].
    intros ? ? c c1 c2 [_ ->]. exact id.
  - intros ? ? c c1 c2 ->. exact id.
Qed.
End code.

#[export] Hint Resolve typed_as_slice typed_pages_len typed_page typed_modify_page : locks.
#[export] Hint Unfold set_state set_next set_prev set_counter uadd usub umul : locks.

Lemma typed_link_front h H p head : typed h H (link_front p head) H any.
Proof. unfold link_front. lock_typed. Qed.
Lemma typed_unlink_f4 h H p : typed h H (unlink_front free_4kb_list p) H any.
Proof. unfold unlink_front. lock_typed. Qed.
Lemma typed_unlink_f2 h H p : typed h H (unlink_front free_2mb_list p) H any.
Proof. unfold unlink_front. lock_typed. Qed.
Lemma typed_superpage_head h H p : typed h H (superpage_head p) H any.
Proof. unfold superpage_head. lock_typed. Qed.
#[export] Hint Resolve typed_link_front typed_unlink_f4 typed_unlink_f2 typed_superpage_head : locks.

Lemma typed_alloc_2mb h : typed h [] alloc_2mb [] any.
Proof. unfold alloc_2mb. lock_typed. Qed.
Lemma typed_free_2mb h pfn : typed h [] (free_2mb pfn) [] any.
Proof. unfold free_2mb. lock_typed. Qed.
Lemma typed_unlink_page h p : typed h ["page_array"] (unlink_page p) ["page_array"] any.
Proof. unfold unlink_page. lock_typed. Qed.
#[export] Hint Resolve typed_unlink_page : locks.
Lemma typed_try_merge h pfn : typed h [] (try_merge pfn) [] any.
Proof. unfold try_merge. lock_typed. Qed.
#[export] Hint Resolve typed_try_merge : locks.
Lemma typed_free_4kb h pfn : typed h [] (free_4kb pfn) [] any.
Proof. unfold free_4kb. lock_typed. Qed.

(** One round of the loop of [split_2mb] leaves its page at the front. *)
Lemma typed_split_round h pfn i : typed h ["free_4kb_list"; "page_array"]
  (p ← uadd pfn i; set_state p Free4KB;; h4 ← deref free_4kb_list; link_front p h4;; assign free_4kb_list (Some p))
  ["free_4kb_list"; "page_array"] (λ _ _ c', c_h4 c' ≠ None).
Proof.
  do 4 (eapply typed_bind_end; [lock_typed|intros ?; cbv beta]).
  eapply typed_weaken; [apply typed_assign_f4|]. by intros ? ? ? ->.
Qed.

(** A split that succeeds leaves 4KB pages. *)
Lemma typed_split_2mb h : typed h [] split_2mb [] (λ r _ c', r ≠ None → c_h4 c' ≠ None).
Proof.
  unfold split_2mb. do 2 (eapply typed_bind_end; [lock_typed|intros ?; cbv beta]).
  match goal with |- typed _ _ (match ?x with _ => _ end) _ _ => destruct x as [pfn|] end.
  - do 6 (eapply typed_bind_end; [lock_typed|intros ?; cbv beta]).
    eapply typed_bind_keep; [apply (typed_for_last _ _ _ _ (λ c, c_h4 c ≠ None)); [done|intros i; apply typed_split_round]|].
    intros []. eapply typed_bind_same; [apply typed_drop_f4; [reflexivity|by apply (bool_decide_eq_false _)]|intros []].
    eapply typed_bind_same; [apply typed_drop_pa; [reflexivity|by apply (bool_decide_eq_false _)]|intros []].
    by apply typed_ret.
  - eapply typed_bind_end; [lock_typed|intros []]. by apply typed_ret.
Qed.

(** [alloc_4kb] up to the look at the head of its list. *)
Definition alloc_front (miss : MutexGuard → M Machine (option Z)) : M Machine (option Z) :=
  head ← lock free_4kb_list;
  h ← deref free_4kb_list;
  match h with
  | Some pfn =>
      page_guard ← lock page_array;
      as_slice;;
      unlink_front free_4kb_list pfn;;
      set_state pfn Allocated;;
      set_next pfn None;;
      set_prev pfn None;;
      drop_guard free_4kb_list head;;
      sp_head ← superpage_head pfn;
      len ← pages_len;
      (if sp_head <? len
       then p ← page sp_head; set_counter sp_head (saturating_sub (counter p) 1)
       else mret tt);;
      addr ← umul pfn PAGE_SIZE_4KB;
      drop_guard page_array page_guard;;
      mret (Some addr)
  | None => miss head
  end.
Definition alloc_miss (next : M Machine (option Z)) (head : MutexGuard) : M Machine (option Z) :=
  drop_guard free_4kb_list head;;
  g ← lock free_2mb_list;
  l ← deref free_2mb_list;
  drop_guard free_2mb_list g;;
  match l with
  | None => mret None
  | Some _ => r ← split_2mb; match r with None => mret None | Some _ => next end
  end.

Lemma alloc_4kb_front fuel : alloc_4kb (S fuel) = alloc_front (alloc_miss (alloc_4kb fuel)).
Proof. done. Qed.

Lemma typed_alloc_front h miss : (∀ g, typed h ["free_4kb_list"] (miss g) [] any) → typed h [] (alloc_front miss) [] any.
Proof. intros Hm. unfold alloc_front. lock_typed. Qed.

Lemma alloc_front_hit miss miss' o b t c : c_h4 c ≠ None →
  alloc_front miss (mach (locks_of []) o b t c) = alloc_front miss' (mach (locks_of []) o b t c).
Proof. destruct c as [p ps [h4|] h2 e]; [done|by intros []]. Qed.

(** After a split, the second call finds a page: two calls are enough on
    every state. *)
Lemma typed_alloc_4kb h : typed h [] (alloc_4kb ALLOC_4KB_FUEL) [] any.
Proof.
  unfold ALLOC_4KB_FUEL. rewrite alloc_4kb_front. apply typed_alloc_front. intros g. unfold alloc_miss at 1.
  do 4 (eapply typed_bind; [lock_step|intros ?; cbv beta]).
  match goal with |- typed _ _ (match ?x with _ => _ end) _ _ => destruct x end; [|lock_typed].
  eapply (typed_bind_from _ _ _ _ _ _ _ (typed_split_2mb h)). intros [u|]; [|by apply typed_from_any; lock_typed].
  intros o b t c Hc. unfold wlp. rewrite alloc_4kb_front, (alloc_front_hit _ (λ g, drop_guard free_4kb_list g;; mret None)) by (by apply Hc).
  apply typed_alloc_front. intros g'. lock_typed.
Qed.
#[export] Hint Resolve typed_alloc_2mb typed_free_2mb typed_free_4kb typed_alloc_4kb : locks.

Lemma typed_perform h r : typed h [] (perform r) [] any.
Proof. unfold perform, allocate_page, free_page. lock_typed. Qed.
#[export] Hint Resolve typed_perform : locks.

Lemma typed_session h own rs : typed h [] (session own rs) [] any.
Proof.
  revert own. induction rs as [|r rs IH]; intros own; simpl; [by apply typed_ret|].
  destruct (allowed own r); [|done]. eapply typed_bind; [lock_step|intros a]. eapply typed_bind; [apply IH|intros []]. lock_typed.
Qed.

(** The loop of [mark_available] ends: each round is one page or more. *)
Lemma typed_bind_checked {B} h H H' x (k : Z → M Machine B) : typed h H (k x) H' any → typed h H (checked x ≫= k) H' any.
Proof. intros Hk o b t c. apply wlp_bind. unfold wlp at 1, checked. destruct (_ && _); [apply Hk|done]. Qed.

Lemma typed_mark_loop h fuel len e pfn : e - pfn ≤ Z.of_nat fuel → typed h ["page_array"] (mark_loop fuel len e pfn) ["page_array"] any.
Proof.
  revert pfn. induction fuel as [|fuel IH]; intros pfn Hf; cbn [mark_loop].
  - rewrite (proj2 (Z.ltb_ge pfn e)) by lia. by apply typed_ret.
  - destruct (_ && _); [|lock_typed]. eapply typed_bind; [lock_typed|intros addr]. eapply typed_bind; [lock_typed|intros []].
    + do 3 (eapply typed_bind; [lock_typed|intros []]). apply typed_bind_checked, IH. unfold PAGES_PER_2MB. lia.
    + eapply typed_bind; [lock_typed|intros []]. apply typed_bind_checked, IH. lia.
Qed.

Lemma typed_mark_available h base length : typed h [] (mark_available base length) [] any.
Proof.
  unfold mark_available. do 7 (eapply typed_bind; [lock_typed|intros ?; cbv beta]).
  eapply typed_bind; [apply typed_mark_loop; lia|intros []]. lock_typed.
Qed.
#[export] Hint Resolve typed_mark_available : locks.
Lemma typed_build_lists h : typed h [] build_lists [] any.
Proof. unfold build_lists. lock_typed. Qed.
Lemma typed_checked_i32 h H x : typed h H (checked_i32 x) H any.
Proof. unfold checked_i32. lock_typed. Qed.
#[export] Hint Resolve typed_build_lists typed_checked_i32 : locks.
Lemma typed_report_free h : typed h [] report_free [] any.
Proof. unfold report_free. lock_typed. Qed.
#[export] Hint Resolve typed_report_free : locks.

(** The memory map may have an entry size of 0, whose iteration never ends. *)
Lemma typed_fold_iter {B} H fuel mem it (body : B → MemoryArea → M Machine B) x :
  (∀ y area, typed True H (body y area) H any) → typed True H (fold_iter fuel mem it body x) H any.
Proof.
  intros Hb. revert it x. induction fuel as [|fuel IH]; intros it x; [by intros o b t c|]. cbn [fold_iter].
  eapply typed_bind; [unfold MemoryAreaIter_next; lock_typed|intros [[area|] it']]; [|lock_typed].
  eapply typed_bind; [apply Hb|intros y; apply IH].
Qed.
Lemma typed_fold_areas {B} H mem a (body : B → MemoryArea → M Machine B) x :
  (∀ y area, typed True H (body y area) H any) → typed True H (fold_areas mem a body x) H any.
Proof.
  intros Hb. unfold fold_areas, memory_areas. eapply typed_bind; [lock_typed|intros it]. by apply typed_fold_iter.
Qed.
Lemma typed_highest_end H mem a : typed True H (highest_end mem a) H any.
Proof. apply typed_fold_areas. intros y area. unfold higher_end. lock_typed. Qed.
Lemma typed_mark_areas mem a : typed True [] (mark_areas mem a) [] any.
Proof. apply typed_fold_areas. intros y area. unfold mark_area. lock_typed. Qed.
#[export] Hint Resolve typed_highest_end typed_mark_areas : locks.

Lemma typed_init size image store mem mmap : typed True [] (init size image store mem mmap) [] any.
Proof. unfold init, round_up. lock_typed. Qed.

Lemma typed_init_session size image store mem mmap rs :
  typed True [] (init size image store mem mmap;; session [] rs) [] any.
Proof. eapply typed_bind; [apply typed_init|intros _; apply typed_session]. Qed.

(** ** Theorem *)

(** C13: locks are balanced on every state. Whatever is in the page array and
    in the lists, after a double free as well as after a bad address: a request
    that starts with the allocator's locks free either panics, or returns with
    all of them free, and on the way it takes no lock that it holds and releases
    none that it does not hold. It never waits for itself. *)
Theorem requests_balance_locks r o b t c :
  match perform r (idle o b t c) with
  | Done (_, s') => ∃ b' ev c', s' = idle o b' (t ++ ev) c' ∧ ops_run [] (trace_ops ev) = Some []
  | Panicked _ => True
  | Hang => False
  end.
Proof.
  pose proof (typed_perform False r o b t c) as H. unfold wlp in H. change (locks_of []) with no_locks in H.
  destruct (perform r _) as [[a s']| |]; [|done..]. destruct H as (b' & ev & c' & Hs & He & _). by exists b', ev, c'.
Qed.
