(* ===== verification/OneCpu.v ===== *)
(** * Interrupts on one CPU

    The counterpart of SmpAlloc.v: an allocation can be interrupted while it
    holds a lock, and hangs when the handler wants one too. Handlers that take no
    lock, as those of the kernel that return do ([run_handler] of Interrupt.v:
    the timer, the breakpoint, the faults that are ignored), do no harm: on one
    CPU, code that balances its locks always gets to its end. *)
From S2P Require Import Prelude Mutex Memory Multiboot2 PageAllocator AllocInv AllocExec AllocInit AllocSpec AllocTheorems Smp LockTypes.

(** Steps of a CPU whose interrupt handlers take no lock. *)
Definition lock_free (ch : Choice) : bool :=
  match ch with CInterrupt code => bool_decide (code = []) | _ => true end.

(** The CPU's own steps. *)
Definition own (x : nat * Choice) : Prop := x.1 = 0%nat ∧ (x.2 = CRun ∨ x.2 = CReturn).

(** ** The interrupted code *)

(** Actions left. *)
Definition actions (f : Frame) : nat :=
  3 * length (fr_code f) + match fr_phase f with PRun => 0 | PRead _ _ => 2 | PSpin _ _ => 1 | PRestore _ => 1 end.

(** The interrupt flag that the phase will restore. *)
Definition phase_flag (p : Phase) : bool :=
  match p with PRun => false | PRead _ b | PSpin _ b | PRestore b => b end.

(** The code at hand holds what it should; [b0] is the interrupt flag that it
    began with, which is kept in the CPU, in a guard or in the phase. *)
Record balanced (b0 : bool) (locked : gset string) (iflag : bool) (f : Frame) : Prop := {
  ba_nodup : NoDup (frame_held f);
  ba_locked n : n ∈ locked ↔ n ∈ frame_held f;
  ba_code : ops_run (frame_expects f) (fr_code f) = Some [];
  ba_phase : match fr_phase f with
             | PRead n b => n ∉ frame_held f ∧ b = iflag
             | PSpin n _ => n ∉ frame_held f
             | _ => True
             end;
  ba_flag : iflag || existsb snd (fr_guards f) || phase_flag (fr_phase f) = b0;
}.

Lemma release_take_guard n gs H : release n (gs.*1) = Some H → ∃ b gs', take_guard n gs = Some (b, gs') ∧ H = gs'.*1.
Proof.
  revert H. induction gs as [|[m b] gs IH]; intros H E; [done|]. rewrite fmap_cons in E. cbn [release take_guard fst] in *.
  destruct (decide (m = n)); simplify_eq; [by eauto|].
  destruct (release n gs.*1) as [H1|]; simplify_eq. destruct (IH _ eq_refl) as (b' & gs' & E1 & ->).
  rewrite E1. by exists b', ((m, b) :: gs').
Qed.

Lemma existsb_perm {A} (p : A → bool) l k : l ≡ₚ k → existsb p l = existsb p k.
Proof. induction 1; simpl; [done|by f_equal| |by etrans]. destruct (p x), (p y); done. Qed.

(** Balanced code that is not finished acts, and stays balanced. *)
Lemma balanced_step b0 locked iflag f : balanced b0 locked iflag f → actions f ≠ 0%nat →
  ∃ locked' iflag' f', frame_step locked iflag f = Some (locked', iflag', f') ∧
    balanced b0 locked' iflag' f' ∧ (actions f' < actions f)%nat.
Proof.
  destruct f as [code gs ph]. intros [Hnd Hlk Hc Hp Hf] Ha. unfold frame_step, frame_expects, frame_held, actions in *.
  cbn [fr_code fr_guards fr_phase] in *. destruct ph as [|n b|n b|b]; [destruct code as [|[n|n] code]|..]; simpl in Hc; [done|..].
  - case_decide as Hn; [done|]. eexists _, _, _. split; [done|]. split; [|simpl; lia].
    split; cbn; try done. by destruct iflag, (existsb _ _).
  - destruct (release n gs.*1) as [H|] eqn:Er; [|done].
    apply release_take_guard in Er as (b & gs' & Eg & ->). rewrite Eg. pose proof (take_guard_perm _ _ _ _ Eg) as Hperm.
    eexists _, _, _. split; [done|]. split; [|simpl; lia].
    assert (n ∉ gs'.*1 ∧ NoDup gs'.*1) as [Hn Hnd'] by (rewrite Hperm, fmap_cons in Hnd; by apply NoDup_cons in Hnd).
    split; cbn; try done.
    + intros x. rewrite elem_of_difference, Hlk, Hperm. unfold frame_held. simpl. set_solver.
    + rewrite <-Hf, (existsb_perm _ _ _ Hperm). simpl. by rewrite orb_false_r, (orb_comm b), orb_assoc.
  - destruct Hp as [Hn ->]. eexists _, _, _. split; [done|]. split; [|simpl; lia].
    split; cbn; try done. by destruct iflag, (existsb _ _).
  - rewrite decide_False by (by rewrite Hlk). eexists _, _, _. split; [done|]. split; [|simpl; lia].
    split; cbn; try done.
    + by apply NoDup_cons.
    + intros x. unfold frame_held. simpl. rewrite elem_of_union, Hlk. set_solver.
    + rewrite <-Hf. by destruct iflag, b, (existsb _ _).
  - eexists _, _, _. split; [done|]. split; [|simpl; lia].
    split; cbn; try done. rewrite <-Hf. by destruct iflag, b, (existsb _ _).
Qed.

(** At its end it holds nothing, and the flag is as it was. *)
Lemma balanced_end b0 locked iflag f : balanced b0 locked iflag f → actions f = 0%nat →
  locked = ∅ ∧ iflag = b0 ∧ f = mkFrame [] [] PRun.
Proof.
  destruct f as [code gs ph]. intros [_ Hlk Hc _ Hf] Ha. unfold actions, frame_held, frame_expects in *. cbn in *.
  destruct code, ph; try (simpl in Ha; lia). simpl in Hc. injection Hc as Hg. apply fmap_nil_inv in Hg as ->.
  simpl in Hf. rewrite !orb_false_r in Hf. split; [|done]. apply set_eq. intros x. rewrite Hlk. set_solver.
Qed.

(** ** The CPU *)

(** The code runs, or an interrupt handler that is about to return does; at
    most [n] actions are left. *)
Definition one_cpu (b0 : bool) (n : nat) (s : System) : Prop :=
  ∃ iflag f, balanced b0 (sys_locked s) iflag f ∧ (actions f ≤ n)%nat ∧
    (sys_cpus s = [mkCpuState iflag [f]] ∨
     (iflag = true ∧ sys_cpus s = [mkCpuState false [mkFrame [] [] PRun; f]])).

#[export] Instance Choice_eq_dec : EqDecision Choice.
Proof. solve_decision. Defined.

(** The actions of a schedule. *)
Definition run_count (sched : list (nat * Choice)) : nat :=
  length (filter (λ x, x.2 = CRun) sched).

Lemma one_cpu_init b code : ops_run [] code = Some [] → one_cpu b (3 * length code) (sys_init [(b, code)]).
Proof.
  intros Hc. exists b, (mkFrame code [] PRun). split; [|split; [unfold actions; simpl; lia|by left]].
  split; cbn; try done; [constructor|set_solver|by rewrite !orb_false_r].
Qed.

Lemma one_cpu_step b0 n s i ch s' : one_cpu b0 n s → lock_free ch = true → sys_step s i ch = Some s' →
  ∃ n', one_cpu b0 n' s' ∧ ((if decide (ch = CRun) then 1 else 0) + n' ≤ n)%nat.
Proof.
  intros (iflag & f & Hb & Hn & Hs) Hch (c & c' & locked' & Hi & Hstep & ->)%sys_step_inv.
  destruct Hs as [Hs|[-> Hs]]; rewrite Hs in Hi |- *; apply list_lookup_singleton_Some in Hi as [-> <-];
    destruct ch as [|code|]; cbn in Hch, Hstep; simplify_eq.
  - destruct (decide (actions f = 0%nat)) as [Ha|Ha].
    { destruct (balanced_end _ _ _ _ Hb Ha) as (_ & _ & ->). done. }
    destruct (balanced_step _ _ _ _ Hb Ha) as (l1 & i1 & f1 & E & Hb1 & Hlt). rewrite E in Hstep. simplify_eq.
    exists (actions f1). split; [|rewrite decide_True by done; lia]. exists i1, f1. split; [done|]. split; [lia|by left].
  - destruct iflag; simplify_eq. apply bool_decide_eq_true in Hch as ->.
    exists n. split; [|by rewrite decide_False]. exists true, f. split; [done|]. split; [lia|by right].
  - exists n. split; [|by rewrite decide_False]. exists true, f. split; [done|]. split; [lia|by left].
Qed.

Lemma one_cpu_run b0 n s sched s' : one_cpu b0 n s → Forall (λ x, lock_free x.2 = true) sched → sys_run s sched = Some s' →
  ∃ n', one_cpu b0 n' s' ∧ (run_count sched + n' ≤ n)%nat.
Proof.
  revert n s. induction sched as [|[i ch] sched IH]; intros n s H0 Hs H; simpl in H.
  - simplify_eq. by exists n.
  - apply Forall_cons in Hs as [Hch Hs]. destruct (sys_step s i ch) as [s1|] eqn:E; [|done].
    destruct (one_cpu_step _ _ _ _ _ _ H0 Hch E) as (n1 & H1 & Hn1).
    destruct (IH _ _ H1 Hs H) as (n2 & H2 & Hn2). exists n2. split; [done|].
    unfold run_count in *. cbn [snd] in Hn1. revert Hn1. destruct (decide (ch = CRun)) as [->|Hne]; intros Hn1.
    + rewrite filter_cons_True by done. cbn [length]. lia.
    + rewrite filter_cons_False by done. lia.
Qed.

(** Left alone, the CPU finishes. *)
Lemma one_cpu_finish b0 n s : one_cpu b0 n s → ∃ rest, Forall own rest ∧ (length rest ≤ n + 1)%nat ∧
  sys_run s rest = Some (mkSystem ∅ [mkCpuState b0 [mkFrame [] [] PRun]]).
Proof.
  assert (∀ n locked iflag f, balanced b0 locked iflag f → (actions f ≤ n)%nat → ∃ rest, Forall own rest ∧ (length rest ≤ n)%nat ∧
    sys_run (mkSystem locked [mkCpuState iflag [f]]) rest = Some (mkSystem ∅ [mkCpuState b0 [mkFrame [] [] PRun]])) as Hrun.
  { clear. intros n. induction n as [|n IH]; intros locked iflag f Hb Hn; (destruct (decide (actions f = 0%nat)) as [Ha|Ha];
      [destruct (balanced_end _ _ _ _ Hb Ha) as (-> & -> & ->); exists []; split; [constructor|]; split; [simpl; lia|done]|]); [lia|].
    destruct (balanced_step _ _ _ _ Hb Ha) as (l1 & i1 & f1 & E & Hb1 & Hlt).
    destruct (IH l1 i1 f1 Hb1 ltac:(lia)) as (rest & Ho & Hl & Hr). exists ((0%nat, CRun) :: rest).
    split; [constructor; [split; [done|by left]|done]|]. split; [simpl; lia|].
    cbn [sys_run]. unfold sys_step. cbn [sys_cpus sys_locked lookup list_lookup cpu_step cs_frames cs_if].
    by rewrite E. }
  intros (iflag & f & Hb & Hn & Hs). destruct s as [locked cpus]. cbn [sys_cpus sys_locked] in *.
  destruct (Hrun n locked iflag f Hb Hn) as (rest & Ho & Hl & Hr). destruct Hs as [-> |[-> ->]].
  - exists rest. split; [done|]. split; [lia|done].
  - exists ((0%nat, CReturn) :: rest). split; [constructor; [split; [done|by right]|done]|]. split; [simpl; lia|exact Hr].
Qed.

(** It never waits. *)
Lemma one_cpu_no_wait b0 n s : one_cpu b0 n s → ∀ c m, c ∈ sys_cpus s → ¬ waits_for s c m.
Proof.
  intros (iflag & f & Hb & Hn & Hs) c m Hc (g & fs & b & Ef & Ep & Hm).
  destruct Hs as [Hs|[_ Hs]]; rewrite Hs in Hc; apply list_elem_of_singleton in Hc as ->; cbn in Ef; simplify_eq.
  pose proof (ba_phase _ _ _ _ Hb) as Hp. rewrite Ep in Hp. by apply (ba_locked _ _ _ _ Hb) in Hm.
Qed.

(** Interrupts do [code] no harm on one CPU that starts with the flag [b]. *)
Definition survives (b : bool) (code : list Op) : Prop := ∀ sched s,
  Forall (λ x, lock_free x.2 = true) sched → sys_run (sys_init [(b, code)]) sched = Some s →
  (run_count sched ≤ 3 * length code)%nat ∧ (∀ c m, c ∈ sys_cpus s → ¬ waits_for s c m) ∧
  ∃ rest, Forall own rest ∧ (length rest ≤ 3 * length code + 1)%nat ∧
    sys_run s rest = Some (mkSystem ∅ [mkCpuState b [mkFrame [] [] PRun]]).

Lemma balanced_survives b code : ops_run [] code = Some [] → survives b code.
Proof.
  intros Hc sched s Hs Hr. destruct (one_cpu_run _ _ _ _ _ (one_cpu_init b code Hc) Hs Hr) as (n & Hn & Hle).
  split; [lia|]. split; [by eapply one_cpu_no_wait|].
  destruct (one_cpu_finish _ _ _ Hn) as (rest & Ho & Hl & Hrest). exists rest. split; [done|]. split; [lia|done].
Qed.

(** ** Theorem *)

(** C12: interrupts during allocation. On one CPU, the lock operations of
    [init] and of any session of requests after it, interrupted at any points by
    handlers that take no lock: the CPU never waits for a lock, performs each
    action of the code once, and from wherever it is it gets to the end of the
    code in a bounded number of its own steps, with every lock free and the
    interrupt flag as at the start. *)
Theorem sessions_survive_interrupts o b t size image store mem mmap version areas rs :
  boot_ok size image store mem mmap version areas → memory_top areas ≤ COUNTED_LIMIT →
  wp (init size image store mem mmap;; session [] rs) (λ _ s',
      ∃ ev, m_trace s' = t ++ ev ∧ survives b (trace_ops ev)) (mkMachine (mkCpu o b) PageAllocator_new t).
Proof.
  intros Hb Ht. destruct (boot_then_session o size image store mem mmap version areas b t rs Hb Ht) as (a & s' & E & _).
  exists a, s'. split; [exact E|].
  pose proof (typed_init_session size image store mem mmap rs o b t (mkCore 0 [] None None 0)) as H.
  unfold wlp in H. change (mach (locks_of []) o b t (mkCore 0 [] None None 0)) with (mkMachine (mkCpu o b) PageAllocator_new t) in H. rewrite E in H.
  destruct H as (b' & ev & c' & -> & He & _). exists ev. split; [done|]. by apply balanced_survives.
Qed.

(** An interrupt in the window in which [alloc_4kb] runs with interrupts on. *)
Definition window : list (nat * Choice) := replicate 8 (0%nat, CRun) ++ [(0%nat, CInterrupt [])].

Lemma sessions_survive_interrupts_witness :
  wp (pc_init;; session [] [AllocReq Size4KB; FreeReq 0x8ff000 Size4KB]) (λ _ s',
      ∃ ev, m_trace s' = [] ++ ev ∧ survives true (trace_ops ev)) (boot_machine true).
Proof.
  apply (sessions_survive_interrupts 2 true [] 40 pc_image_end (zero_store 40) pc_memory pc_mmap 0 pc_areas).
  - apply pc_boot_ok.
  - apply pc_top.
Defined.

(** The window exists: the schedule can be run on the operations of [alloc_4kb],
    and the lock is held while the handler runs. *)
Example window_open :
  match sys_run (sys_init [(true, [OLock "free_4kb_list"; OLock "page_array"; OUnlock "free_4kb_list"; OUnlock "page_array"])]) window with
  | Some s => bool_decide ("page_array" ∈ sys_locked s) && bool_decide (length (sys_cpus s ≫= cs_frames) = 2%nat)
  | None => false
  end = true.
Proof. vm_compute. reflexivity. Qed.
