(* ===== verification/SmpAlloc.v ===== *)
(** * The allocator's locks on many CPUs

    The lock operations of [allocate_page] and [free_page], taken from the
    traces of their code on any state that satisfies the invariant, run in the
    transition system of [Smp]. *)
From S2P Require Import Prelude Mutex Memory Multiboot2 PageAllocator FreeList AllocInv AllocExec AllocOps AllocInit AllocSpec AllocTheorems Smp LockTypes.

(** The lock operations of [m], started in [s]. *)
Definition lock_ops {A} (m : M Machine A) (s : Machine) : list Op :=
  match m s with
  | Done (_, s') => trace_ops (drop (length (m_trace s)) (m_trace s'))
  | _ => []
  end.

Lemma lock_ops_ev {A} (m : M Machine A) o b t c a b' ev c' :
  m (idle o b t c) = Done (a, idle o b' (t ++ ev) c') → lock_ops m (idle o b t c) = trace_ops ev.
Proof. intros E. unfold lock_ops. rewrite E. cbn [m_trace mach]. by rewrite drop_app_length. Qed.

(** ** The operations on every state that satisfies the invariant *)
Lemma alloc_4kb_lock_ops o b t c a p l : Inv c a → a_l4 a = p :: l →
  lock_ops (allocate_page Size4KB) (idle o b t c) =
  [OLock "free_4kb_list"; OLock "page_array"; OUnlock "free_4kb_list"; OUnlock "page_array"].
Proof.
  intros HI Hl. destruct (alloc_4kb_hit_ev o 1 b t c a p l HI Hl) as (r & s & E & _ & c' & -> & _).
  erewrite lock_ops_ev by exact E. by destruct b.
Qed.
Lemma alloc_2mb_lock_ops o b t c a s l : Inv c a → a_l2 a = s :: l →
  lock_ops (allocate_page Size2MB) (idle o b t c) =
  [OLock "free_2mb_list"; OLock "page_array"; OUnlock "page_array"; OUnlock "free_2mb_list"].
Proof.
  intros HI Hl. destruct (alloc_2mb_some_ev o b t c a s l HI Hl) as (r & s1 & E & _ & c' & -> & _).
  erewrite lock_ops_ev by exact E. by destruct b.
Qed.
Lemma free_2mb_lock_ops o b t c a s : Inv c a → s ∈ a_al2 a →
  lock_ops (free_page (s * PAGE_SIZE_4KB) Size2MB) (idle o b t c) =
  [OLock "page_array"; OLock "free_2mb_list"; OUnlock "free_2mb_list"; OUnlock "page_array"].
Proof.
  intros HI Hs. destruct (free_2mb_owned_ev o b t c a s HI Hs) as (r & s1 & E & c' & -> & _).
  unfold free_page. rewrite page_addr. erewrite lock_ops_ev by exact E. by destruct b.
Qed.
(** ... which splits a superpage first. *)
Lemma alloc_split_lock_ops o b t c a s l : Inv c a → a_l4 a = [] → a_l2 a = s :: l →
  lock_ops (allocate_page Size4KB) (idle o b t c) =
  [OLock "free_4kb_list"; OUnlock "free_4kb_list"; OLock "free_2mb_list"; OUnlock "free_2mb_list";
   OLock "free_2mb_list"; OLock "page_array"; OUnlock "free_2mb_list"; OLock "free_4kb_list"; OUnlock "free_4kb_list";
   OUnlock "page_array"; OLock "free_4kb_list"; OLock "page_array"; OUnlock "free_4kb_list"; OUnlock "page_array"].
Proof.
  intros HI H4 H2. destruct (alloc_4kb_split_ev o 0 b t c a s l HI H4 H2) as (r & s1 & E & _ & c' & -> & _).
  erewrite lock_ops_ev by exact E. by destruct b.
Qed.

(** On any state, a free of a 4KB page that returns has first locked the page
    array. *)
Lemma free_4kb_first_lock o b t c addr u s : free_page addr Size4KB (idle o b t c) = Done (u, s) →
  ∃ rest, lock_ops (free_page addr Size4KB) (idle o b t c) = OLock "page_array" :: rest.
Proof.
  intros E. unfold lock_ops. rewrite E. unfold free_page, free_4kb in E.
  set (pfn := addr / PAGE_SIZE_4KB) in *. clearbody pfn. unfold mbind at 1, M_bind at 1 in E.
  pose proof (wp_lock_pa o b t c false false false (λ g s', g = mkGuard b ∧ s' =
    mach (mkLocks true false false false) o false (t ++ [EvCli; EvAcquire "page_array"]) c)) as (g & s1 & E1 & -> & ->); [done|].
  change (mach (mkLocks false false false false) o b t c) with (idle o b t c) in E1. rewrite E1 in E.
  lazymatch type of E with ?k _ = _ => assert (typed True ["page_array"] k [] any) as Hk by lock_typed end.
  specialize (Hk o false (t ++ [EvCli; EvAcquire "page_array"]) c). unfold wlp in Hk.
  change (locks_of ["page_array"]) with (mkLocks true false false false) in Hk. rewrite E in Hk.
  destruct Hk as (b' & ev & c' & -> & _). exists (trace_ops ev). cbn [m_trace mach].
  by rewrite <-app_assoc, drop_app_length.
Qed.

(** ** The operations on a booted PC *)

(** The state after [m]. *)
Definition state_after {A} (m : M Machine A) (s : Machine) : Machine :=
  match m s with Done (_, s') => s' | _ => s end.

Definition booted : Machine := state_after pc_init (boot_machine true).

(** What the four operations do with the locks on a booted machine. *)
Definition alloc_4kb_ops : list Op := lock_ops (allocate_page Size4KB) booted.
Definition alloc_2mb_ops : list Op := lock_ops (allocate_page Size2MB) booted.
Definition free_2mb_ops : list Op :=
  lock_ops (free_page 0x600000 Size2MB) (state_after (allocate_page Size2MB) booted).

(** [free_4kb] of the page that [alloc_4kb] returned. *)
Definition free_4kb_ops_of (r : outcome (option Z * Machine)) : list Op :=
  match r with
  | Done (Some addr, s) => lock_ops (free_page addr Size4KB) s
  | _ => []
  end.
Definition free_4kb_ops : list Op := free_4kb_ops_of (allocate_page Size4KB booted).

(** [alloc_4kb] when every 4KB page is taken and superpages are left. *)
Definition exhausted : Machine := Nat.iter 451 (state_after (allocate_page Size4KB)) booted.
Definition alloc_split_ops : list Op := lock_ops (allocate_page Size4KB) exhausted.

Lemma alloc_4kb_ops_eq : alloc_4kb_ops =
  [OLock "free_4kb_list"; OLock "page_array"; OUnlock "free_4kb_list"; OUnlock "page_array"].
Proof. vm_compute. reflexivity. Qed.
Lemma alloc_2mb_ops_eq : alloc_2mb_ops =
  [OLock "free_2mb_list"; OLock "page_array"; OUnlock "page_array"; OUnlock "free_2mb_list"].
Proof. vm_compute. reflexivity. Qed.
Lemma free_2mb_ops_eq : free_2mb_ops =
  [OLock "page_array"; OLock "free_2mb_list"; OUnlock "free_2mb_list"; OUnlock "page_array"].
Proof. vm_compute. reflexivity. Qed.
Lemma free_4kb_ops_eq : free_4kb_ops =
  [OLock "page_array"; OLock "free_4kb_list"; OUnlock "free_4kb_list"; OUnlock "page_array"].
Proof. vm_compute. reflexivity. Qed.
Lemma alloc_split_ops_eq : alloc_split_ops =
  [OLock "free_4kb_list"; OUnlock "free_4kb_list"; OLock "free_2mb_list"; OUnlock "free_2mb_list";
   OLock "free_2mb_list"; OLock "page_array"; OUnlock "free_2mb_list"; OLock "free_4kb_list"; OUnlock "free_4kb_list";
   OUnlock "page_array"; OLock "free_4kb_list"; OLock "page_array"; OUnlock "free_4kb_list"; OUnlock "page_array"].
Proof. vm_compute. reflexivity. Qed.

(** No action changes the system any more. *)
Definition stuck (s : System) : Prop := ∀ i ch s', sys_step s i ch = Some s' → s' = s.

(** C27: the interrupt that deadlocks. Whatever the state of the allocator, as
    long as a 4KB page is free: one CPU allocates a 4KB page with interrupts on,
    and an interrupt arrives right after [alloc_4kb] has dropped the guard of the
    free list. If its handler frees a 4KB page (whichever, and from whatever state
    its lock operations are taken), it waits for ever for the page array, which
    the interrupted allocation holds. The schedule is the plain one: eight
    actions of the allocation, the interrupt, two actions of the handler. *)
Theorem alloc_interrupt_deadlock o t c a o' b' t' c' addr u s' :
  Inv c a → a_l4 a ≠ [] →
  free_page addr Size4KB (idle o' b' t' c') = Done (u, s') →
  ∃ s f g,
    sys_run (sys_init [(true, lock_ops (allocate_page Size4KB) (idle o true t c))])
      (replicate 8 (0%nat, CRun) ++
       [(0%nat, CInterrupt (lock_ops (free_page addr Size4KB) (idle o' b' t' c')))] ++
       replicate 2 (0%nat, CRun)) = Some s ∧
    sys_cpus s = [mkCpuState false [f; g]] ∧
    fr_phase f = PSpin "page_array" false ∧ "page_array" ∈ frame_held g ∧ stuck s.
Proof.
  intros HI Hne Hf. destruct (a_l4 a) as [|p l] eqn:El; [done|].
  rewrite (alloc_4kb_lock_ops o true t c a p l HI El).
  destruct (free_4kb_first_lock _ _ _ _ _ _ _ Hf) as [rest ->]. clear Hf.
  eexists _, _, _. split; [vm_compute; reflexivity|]. split; [reflexivity|]. split; [reflexivity|].
  split; [by apply list_elem_of_here|].
  intros [|i] ch s H; [|done]. destruct ch; vm_compute in H; by simplify_eq.
Qed.

Lemma alloc_interrupt_deadlock_witness : ∃ t c t' c' s f g,
  sys_run (sys_init [(true, lock_ops (allocate_page Size4KB) (idle 2 true t c))])
    (replicate 8 (0%nat, CRun) ++
     [(0%nat, CInterrupt (lock_ops (free_page (2303 * PAGE_SIZE_4KB) Size4KB) (idle 2 true t' c')))] ++
     replicate 2 (0%nat, CRun)) = Some s ∧
  sys_cpus s = [mkCpuState false [f; g]] ∧
  fr_phase f = PSpin "page_array" false ∧ "page_array" ∈ frame_held g ∧ stuck s.
Proof.
  destruct pc_lists as (t & c & a & _ & HI & _ & _ & [l4 E4] & _).
  destruct (alloc_4kb_hit_ev 2 1 true t c a 2303 l4 HI E4) as (_ & _ & _ & _ & c' & _ & HI' & _).
  destruct (free_4kb_owned 2 true t c' _ 2303 HI') as (n & _ & [] & s' & Ef & _).
  - apply elem_of_union. left. apply elem_of_singleton. reflexivity.
  - exists t, c, t, c'.
    apply (alloc_interrupt_deadlock 2 t c a 2 true t c' (2303 * PAGE_SIZE_4KB) tt s' HI).
    + rewrite E4. discriminate.
    + unfold free_page. rewrite page_addr. exact Ef.
Defined.

(** The lock order inversion. An allocation takes the lock of its free
    list and then that of the page array; a free of the same size takes them
    the other way round. No order of the locks suits both, for either size. *)
Lemma no_common_lock_order rank :
  (bracketed rank [] alloc_2mb_ops && bracketed rank [] free_2mb_ops = false) ∧
  (forallb (bracketed rank []) [alloc_4kb_ops; free_4kb_ops] = false) ∧
  bracketed (λ n, if decide (n = "page_array") then 1 else 0)%nat [] alloc_2mb_ops = true ∧
  bracketed (λ n, if decide (n = "page_array") then 0 else 1)%nat [] free_2mb_ops = true ∧
  bracketed (λ n, if decide (n = "page_array") then 0 else 1)%nat [] free_4kb_ops = true.
Proof.
  rewrite alloc_2mb_ops_eq, free_2mb_ops_eq, alloc_4kb_ops_eq, free_4kb_ops_eq.
  split; [|split; [|by vm_compute]].
  - cbn [bracketed forallb].
    destruct (Nat.ltb_spec (rank "free_2mb_list") (rank "page_array")); [|done].
    rewrite (proj2 (Nat.ltb_ge (rank "page_array") (rank "free_2mb_list"))) by lia.
    by rewrite !andb_false_r.
  - cbn [bracketed forallb]. by destruct (rank "free_4kb_list" <? rank "page_array")%nat.
Qed.

(** The end of a run in which two CPUs wait for each other. *)
Ltac deadlocked :=
  eexists; split; [vm_compute; reflexivity|]; split;
  [eexists _, _; split; [reflexivity|];
   split; eexists _, _, _; (split; [reflexivity|]; split; [reflexivity|]; vm_compute; reflexivity)
  |intros [|[|i]] ch s' H; [| |done]; destruct ch; vm_compute in H; by simplify_eq].

(** C28: deadlocks of two CPUs, on every state of the allocator and without any
    interrupt. While a 2MB page is free and another one is handed out: one CPU
    in [alloc_2mb] and one in [free_2mb], interleaved as written, each wait for
    ever for the lock that the other holds. And two CPUs that both ask for a 4KB
    page when none is free and two 2MB pages are left deadlock as well: one splits
    a superpage and wants the 4KB list, which the other, back from its own split,
    has locked to take a page. *)
Theorem alloc_free_deadlock o t c a :
  Inv c a →
  (∀ s l p, a_l2 a = s :: l → p ∈ a_al2 a → ∃ s',
    sys_run (sys_init [(true, lock_ops (allocate_page Size2MB) (idle o true t c));
                       (true, lock_ops (free_page (p * PAGE_SIZE_4KB) Size2MB) (idle o true t c))])
      (replicate 3 (0%nat, CRun) ++ replicate 3 (1%nat, CRun) ++
       replicate 2 (0%nat, CRun) ++ replicate 2 (1%nat, CRun)) = Some s' ∧
    (∃ c0 c1, sys_cpus s' = [c0; c1] ∧ waits_for s' c0 "page_array" ∧ waits_for s' c1 "free_2mb_list") ∧
    stuck s') ∧
  (∀ s1 s2 l, a_l4 a = [] → a_l2 a = s1 :: s2 :: l → ∃ s',
    sys_run (sys_init [(true, lock_ops (allocate_page Size4KB) (idle o true t c));
                       (true, lock_ops (allocate_page Size4KB) (idle o true t c))])
      (replicate 10 (0%nat, CRun) ++ replicate 28 (1%nat, CRun) ++
       replicate 10 (0%nat, CRun) ++ replicate 2 (1%nat, CRun)) = Some s' ∧
    (∃ c0 c1, sys_cpus s' = [c0; c1] ∧ waits_for s' c0 "free_4kb_list" ∧ waits_for s' c1 "page_array") ∧
    stuck s').
Proof.
  intros HI. split.
  - intros s l p H2 Hp. rewrite (alloc_2mb_lock_ops o true t c a s l HI H2), (free_2mb_lock_ops o true t c a p HI Hp).
    deadlocked.
  - intros s1 s2 l H4 H2. rewrite (alloc_split_lock_ops o true t c a s1 (s2 :: l) HI H4 H2). deadlocked.
Qed.

Lemma alloc_free_deadlock_witness : ∃ t c t' c',
  (∃ s', sys_run (sys_init [(true, lock_ops (allocate_page Size2MB) (idle 2 true t c));
                            (true, lock_ops (free_page (1536 * PAGE_SIZE_4KB) Size2MB) (idle 2 true t c))])
      (replicate 3 (0%nat, CRun) ++ replicate 3 (1%nat, CRun) ++
       replicate 2 (0%nat, CRun) ++ replicate 2 (1%nat, CRun)) = Some s' ∧
    (∃ c0 c1, sys_cpus s' = [c0; c1] ∧ waits_for s' c0 "page_array" ∧ waits_for s' c1 "free_2mb_list") ∧
    stuck s') ∧
  (∃ s', sys_run (sys_init [(true, lock_ops (allocate_page Size4KB) (idle 2 true t' c'));
                            (true, lock_ops (allocate_page Size4KB) (idle 2 true t' c'))])
      (replicate 10 (0%nat, CRun) ++ replicate 28 (1%nat, CRun) ++
       replicate 10 (0%nat, CRun) ++ replicate 2 (1%nat, CRun)) = Some s' ∧
    (∃ c0 c1, sys_cpus s' = [c0; c1] ∧ waits_for s' c0 "free_4kb_list" ∧ waits_for s' c1 "page_array") ∧
    stuck s').
Proof.
  destruct two_lists as (t & c & a & _ & HI & E4 & l2 & E2).
  destruct (alloc_2mb_some_ev 2 true t c a 1536 (1024 :: l2) HI E2) as (_ & _ & _ & _ & c1 & _ & HI1 & _).
  exists t, c1, t, c. split.
  - apply (proj1 (alloc_free_deadlock 2 t c1 _ HI1) 1024 l2 1536).
    + reflexivity.
    + apply elem_of_union. left. apply elem_of_singleton. reflexivity.
  - apply (proj2 (alloc_free_deadlock 2 t c a HI) 1536 1024 l2 E4 E2).
Defined.
