(* ===== verification/Bits.v ===== *)
(** * Bits and third-party crates

    What the descriptor-table and APIC code uses of the crates bit_field,
    bitfield and x86, which are not part of the sources: their operations are
    parameters (type classes) with the documented laws, and one instance shows
    that the laws can hold. Also shared lemmas on machine words. *)
From S2P Require Import Prelude.

(** [BitField::set_bit] and [set_bits] of bit_field, and the setters that
    [bitfield!] generates: a bit or the range of bits [lo..=hi] of a word. *)
Class BitCrates : Type := {
  set_bit : Z → Z → bool → Z;
  set_range : Z → Z → Z → Z → Z; (** word, highest bit, lowest bit, value *)
}.

Class BitCratesLaws {BC : BitCrates} : Prop := {
  set_bit_nonneg x i b : 0 ≤ x → 0 ≤ i → 0 ≤ set_bit x i b;
  set_bit_spec x i b j : 0 ≤ x → 0 ≤ i → 0 ≤ j →
    Z.testbit (set_bit x i b) j = if j =? i then b else Z.testbit x j;
  set_range_nonneg x hi lo v : 0 ≤ x → 0 ≤ lo ≤ hi → 0 ≤ set_range x hi lo v;
  set_range_spec x hi lo v j : 0 ≤ x → 0 ≤ lo ≤ hi → 0 ≤ v → 0 ≤ j →
    Z.testbit (set_range x hi lo v) j =
      if (lo <=? j) && (j <=? hi) then Z.testbit v (j - lo) else Z.testbit x j;
}.

(** [x86::segmentation::SegmentSelector::new(index, rpl).bits()] *)
Class X86Selectors : Type := { selector_bits : Z → Z → Z }.
Class X86SelectorsLaws {X : X86Selectors} : Prop := {
  selector_bits_spec index rpl : 0 ≤ index < 2 ^ 13 → 0 ≤ rpl < 4 →
    selector_bits index rpl = index * 8 + rpl;
}.

(** ** An instance *)
#[export] Instance bit_crates : BitCrates := {
  set_bit x i b := if b then Z.setbit x i else Z.clearbit x i;
  set_range x hi lo v :=
    Z.lor (Z.ldiff x (Z.shiftl (Z.ones (hi - lo + 1)) lo))
          (Z.shiftl (Z.land v (Z.ones (hi - lo + 1))) lo);
}.

#[export] Instance x86_selectors : X86Selectors := {
  selector_bits index rpl := Z.lor (Z.shiftl index 3) rpl;
}.

Lemma testbit_ones_Z n i : 0 ≤ n → 0 ≤ i → Z.testbit (Z.ones n) i = (i <? n).
Proof.
  intros. destruct (Z.ltb_spec i n); [by apply Z.ones_spec_low|by apply Z.ones_spec_high].
Qed.

#[export] Instance bit_crates_laws : @BitCratesLaws bit_crates.
Proof.
  split; cbn [set_bit set_range bit_crates].
  - intros x i [] Hx Hi.
    + unfold Z.setbit. rewrite Z.lor_nonneg. split; [done|]. apply Z.shiftl_nonneg. lia.
    + unfold Z.clearbit. rewrite Z.ldiff_nonneg. by left.
  - intros x i b j Hx Hi Hj. destruct b.
    + rewrite Z.setbit_eqb by done. rewrite Z.eqb_sym. destruct (j =? i); done.
    + rewrite Z.clearbit_eqb by done. rewrite Z.eqb_sym. destruct (j =? i); simpl; [by rewrite andb_false_r|].
      by rewrite andb_true_r.
  - intros x hi lo v Hx Hl. rewrite Z.lor_nonneg, Z.ldiff_nonneg, Z.shiftl_nonneg, Z.land_nonneg.
    split; [by left|]. right. unfold Z.ones. rewrite Z.shiftl_1_l. pose proof (Z.pow_pos_nonneg 2 (hi - lo + 1)). lia.
  - intros x hi lo v j Hx Hl Hv Hj. rewrite Z.lor_spec, Z.ldiff_spec, !Z.shiftl_spec by done.
    destruct (Z.leb_spec lo j) as [Hlo|Hlo].
    + rewrite Z.land_spec, testbit_ones_Z by lia.
      destruct (Z.ltb_spec (j - lo) (hi - lo + 1)), (Z.leb_spec j hi); simpl; try lia.
      * by rewrite andb_false_r, andb_true_r.
      * by rewrite andb_true_r, andb_false_r, orb_false_r.
    + rewrite !(Z.testbit_neg_r _ (j - lo)) by lia. simpl. by rewrite andb_true_r, orb_false_r.
Qed.

(** ** Words put together from parts *)
Lemma land_shiftl_low k a b : 0 ≤ k → 0 ≤ b < 2 ^ k → Z.land (Z.shiftl a k) b = 0.
Proof.
  intros Hk Hb. apply Z.bits_inj'. intros n Hn. rewrite Z.land_spec, Z.bits_0, Z.shiftl_spec by done.
  rewrite <-(Z.mod_small b (2 ^ k)) by done. rewrite Z.testbit_mod_pow2 by done.
  destruct (Z.ltb_spec n k); [by rewrite Z.testbit_neg_r by lia|]. by rewrite andb_false_r.
Qed.

Lemma lor_shiftl_low k a b : 0 ≤ k → 0 ≤ b < 2 ^ k → Z.lor (Z.shiftl a k) b = a * 2 ^ k + b.
Proof.
  intros Hk Hb. pose proof (Z.add_lor_land (Z.shiftl a k) b) as H.
  rewrite land_shiftl_low, Z.add_0_r in H by done. by rewrite H, Z.shiftl_mul_pow2.
Qed.

(** A word is its low [i] bits and the rest. *)
Lemma split_low x i : 0 ≤ i → x = x mod 2 ^ i + 2 ^ i * (x / 2 ^ i).
Proof. intros Hi. pose proof (Z.div_mod x (2 ^ i)). pose proof (Z.pow_pos_nonneg 2 i). lia. Qed.

(** The [n] bits of [x] from bit [i] up. *)
Definition bits_of (x i n : Z) : Z := Z.shiftr x i mod 2 ^ n.

Lemma bits_of_testbit x i n j :
  0 ≤ i → 0 ≤ n → 0 ≤ j → Z.testbit (bits_of x i n) j = (j <? n) && Z.testbit x (i + j).
Proof.
  intros. unfold bits_of. rewrite Z.testbit_mod_pow2, Z.shiftr_spec by done. by rewrite Z.add_comm.
Qed.

#[export] Instance x86_selectors_laws : @X86SelectorsLaws x86_selectors.
Proof.
  split. cbn. intros index rpl Hi Hr. by rewrite (lor_shiftl_low 3) by lia.
Qed.

(** ** The laws determine the operations *)
Section determined.
Context {BC : BitCrates} {BL : BitCratesLaws}.

Lemma set_bit_std x i b : 0 ≤ x → 0 ≤ i → set_bit x i b = @set_bit bit_crates x i b.
Proof.
  intros Hx Hi. apply Z.bits_inj'. intros j Hj. rewrite set_bit_spec by done.
  by rewrite (@set_bit_spec bit_crates) by (exact _ || done).
Qed.

Lemma set_range_std x hi lo v :
  0 ≤ x → 0 ≤ lo ≤ hi → 0 ≤ v → set_range x hi lo v = @set_range bit_crates x hi lo v.
Proof.
  intros Hx Hl Hv. apply Z.bits_inj'. intros j Hj. rewrite set_range_spec by done.
  by rewrite (@set_range_spec bit_crates) by (exact _ || done).
Qed.
End determined.

(** Replace the crates' operations on closed words by their values. *)
Ltac eval_bits :=
  repeat match goal with
  | |- context [@set_bit ?BC ?x ?i ?b] =>
      lazymatch BC with bit_crates => fail | _ => idtac end;
      rewrite (@set_bit_std BC _ x i b) by lia;
      let v := eval vm_compute in (@set_bit bit_crates x i b) in
      change (@set_bit bit_crates x i b) with v
  | |- context [@set_range ?BC ?x ?hi ?lo ?v] =>
      lazymatch BC with bit_crates => fail | _ => idtac end;
      rewrite (@set_range_std BC _ x hi lo v) by lia;
      let w := eval vm_compute in (@set_range bit_crates x hi lo v) in
      change (@set_range bit_crates x hi lo v) with w
  end.

(** A field of a word. *)
Lemma bits_of_field a i n b c :
  0 ≤ i → 0 ≤ n → 0 ≤ a < 2 ^ i → 0 ≤ b < 2 ^ n → bits_of (a + 2 ^ i * (b + 2 ^ n * c)) i n = b.
Proof.
  intros Hi Hn Ha Hb. unfold bits_of. rewrite Z.shiftr_div_pow2 by done.
  rewrite (Z.mul_comm (2 ^ i)), Z.div_add, (Z.div_small a), Z.add_0_l by lia.
  rewrite (Z.mul_comm (2 ^ n)), Z.mod_add by lia. by apply Z.mod_small.
Qed.
