(* ===== verification/Gdt.v ===== *)
(** * The Global Descriptor Table (src/src/gdt/, src/src/cpu.rs)

    The access bytes, the 8-byte and 16-byte descriptors as the code packs
    them, and [init_cpu], which fills the table and the TSS of the boot CPU
    and loads them. What the processor makes of the bytes ([decode8],
    [decode16], [fetch]) is the reference. *)
From S2P Require Import Prelude Memory Bits.

(** ** Access bytes (types.rs) *)
Section access.
Context {BC : BitCrates}.

Definition set_present (x : Z) (b : bool) : Z := set_bit x 7 b.
Definition set_privilege (x v : Z) : Z := set_range x 6 5 v.
Definition set_code_data (x : Z) (b : bool) : Z := set_bit x 4 b.
Definition set_executable (x : Z) (b : bool) : Z := set_bit x 3 b.
Definition set_direction (x : Z) (b : bool) : Z := set_bit x 2 b.
Definition set_read_write (x : Z) (b : bool) : Z := set_bit x 1 b.
Definition set_accessed (x : Z) (b : bool) : Z := set_bit x 0 b.
Definition set_real_descriptor_type (x v : Z) : Z := set_range x 3 0 v.

Definition AccessByte_new : Z := set_code_data (set_present 0 true) true.
Definition AccessByte_not_present : Z := 0.

Inductive SystemDescriptorType : Set := AvailableTss | BusyTss.
Inductive Error : Set := NoSuchScript | InvalidDescriptorType (x : Z) | Other (msg : string).

(** [impl From<SystemDescriptorType> for u8] and [TryFrom<u8>] *)
Definition descriptor_type_to_u8 (t : SystemDescriptorType) : Z :=
  match t with AvailableTss => 9 | BusyTss => 11 end.
Definition descriptor_type_try_from (x : Z) : SystemDescriptorType + Error :=
  if x =? 9 then inl AvailableTss
  else if x =? 11 then inl BusyTss
  else inr (InvalidDescriptorType x).

Definition set_descriptor_type (x : Z) (t : SystemDescriptorType) : Z :=
  set_real_descriptor_type x (descriptor_type_to_u8 t).
Definition SystemAccessByte_new (t : SystemDescriptorType) : Z :=
  set_descriptor_type (set_code_data (set_present 0 true) false) t.
Definition SystemAccessByte_not_present : Z := 0.
End access.

(** ** Descriptors *)
Definition GDT_F_LONG_MODE : Z := Z.shiftl 1 5.

Record GdtEntry : Set := mkGdtEntry {
  limitl : Z; offsetl : Z; offsetm : Z; access : Z; flags_limith : Z; offseth : Z;
}.

Definition GdtEntry_new (offset limit access flags : Z) : GdtEntry :=
  mkGdtEntry (as_u16 limit) (as_u16 offset) (as_u8 (Z.shiftr offset 16)) access
    (Z.lor (Z.land flags 0xF0) (Z.land (as_u8 (Z.shiftr limit 16)) 0x0F))
    (as_u8 (Z.shiftr offset 24)).

Definition GdtEntry_empty : GdtEntry := GdtEntry_new 0 0 AccessByte_not_present 0.

Definition GdtEntry_access_bytes (e : GdtEntry) : Z :=
  let flags := Z.land (flags_limith e) 240 in
  Z.lor (access e) (Z.shiftl flags 8).

Record BigGdtEntry : Set := mkBigGdtEntry {
  big_limitl : Z; big_offsetl : Z; big_offsetm : Z; access_type : Z; big_flags_limith : Z;
  big_offseth : Z; offsetx : Z; big_reserved : Z;
}.

Definition BigGdtEntry_new (offset limit access_type flags : Z) : BigGdtEntry :=
  mkBigGdtEntry (as_u16 limit) (as_u16 offset) (as_u8 (Z.shiftr offset 16)) access_type
    (Z.lor (Z.land flags 0xF0) (Z.land (as_u8 (Z.shiftr limit 16)) 0x0F))
    (as_u8 (Z.shiftr offset 24)) (as_u32 (Z.shiftr offset 32)) 0.

Definition BigGdtEntry_empty : BigGdtEntry := BigGdtEntry_new 0 0 SystemAccessByte_not_present 0.

Definition BigGdtEntry_access_bytes (e : BigGdtEntry) : Z :=
  let flags := Z.land (big_flags_limith e) 0xF0 in
  Z.lor (access_type e) (Z.shiftl flags 8).

(** [repr(packed)]: the fields in order. *)
Definition GdtEntry_bytes (e : GdtEntry) : list Z :=
  le_bytes 2 (limitl e) ++ le_bytes 2 (offsetl e) ++ le_bytes 1 (offsetm e) ++
  le_bytes 1 (access e) ++ le_bytes 1 (flags_limith e) ++ le_bytes 1 (offseth e).
Definition BigGdtEntry_bytes (e : BigGdtEntry) : list Z :=
  le_bytes 2 (big_limitl e) ++ le_bytes 2 (big_offsetl e) ++ le_bytes 1 (big_offsetm e) ++
  le_bytes 1 (access_type e) ++ le_bytes 1 (big_flags_limith e) ++ le_bytes 1 (big_offseth e) ++
  le_bytes 4 (offsetx e) ++ le_bytes 4 (big_reserved e).

(** ** The table *)
Record GlobalDescriptorTable : Set := mkGdt {
  null_entry : GdtEntry;
  kernel_data : GdtEntry;
  kernel_code : GdtEntry;
  user_data : GdtEntry;
  user_code : GdtEntry;
  tss_entry : BigGdtEntry;
}.

Definition GDT_empty : GlobalDescriptorTable :=
  mkGdt GdtEntry_empty GdtEntry_empty GdtEntry_empty GdtEntry_empty GdtEntry_empty BigGdtEntry_empty.

Definition KERNEL_DATA_INDEX : Z := 1.
Definition KERNEL_CODE_INDEX : Z := 2.
Definition USER_DATA_INDEX : Z := 3.
Definition USER_CODE_INDEX : Z := 4.
Definition TSS_INDEX : Z := 5.

Definition USER_CS {XS : X86Selectors} : Z := selector_bits USER_CODE_INDEX 3.
Definition USER_SS {XS : X86Selectors} : Z := selector_bits USER_DATA_INDEX 3.
Definition KERNEL_CS {XS : X86Selectors} : Z := selector_bits KERNEL_CODE_INDEX 0.
Definition KERNEL_SS {XS : X86Selectors} : Z := selector_bits KERNEL_DATA_INDEX 0.

Definition GDT_bytes (g : GlobalDescriptorTable) : list Z :=
  GdtEntry_bytes (null_entry g) ++ GdtEntry_bytes (kernel_data g) ++ GdtEntry_bytes (kernel_code g) ++
  GdtEntry_bytes (user_data g) ++ GdtEntry_bytes (user_code g) ++ BigGdtEntry_bytes (tss_entry g).

(** [mem::size_of::<GlobalDescriptorTable>()] *)
Definition size_of_GDT : Z := 5 * 8 + 16.

(** ** What the processor reads *)

(** Base, limit, access byte and flag nibble of a descriptor. *)
Record Descriptor : Set := mkDescriptor { d_base : Z; d_limit : Z; d_access : Z; d_flags : Z }.

Definition decode8 (q : Z) : Descriptor :=
  mkDescriptor (bits_of q 16 24 + 2 ^ 24 * bits_of q 56 8)
    (bits_of q 0 16 + 2 ^ 16 * bits_of q 48 4) (bits_of q 40 8) (bits_of q 52 4).

(** A system descriptor has bits 32 to 63 of the base in its second half. *)
Definition decode16 (q r : Z) : Descriptor :=
  let d := decode8 q in
  mkDescriptor (d_base d + 2 ^ 32 * bits_of r 0 32) (d_limit d) (d_access d) (d_flags d).

(** The descriptor that a selector names, when it lies within the limit. *)
Definition fetch (mem : memory) (base limit selector : Z) : option Descriptor :=
  let i := selector / 8 * 8 in
  if i + 7 <=? limit then Some (decode8 (read_u64 mem (base + i))) else None.
Definition fetch_system (mem : memory) (base limit selector : Z) : option Descriptor :=
  let i := selector / 8 * 8 in
  if i + 15 <=? limit
  then Some (decode16 (read_u64 mem (base + i)) (read_u64 mem (base + i + 8))) else None.

(** ** Lemmas *)

(** [(flags & 0xF0) | (x & 0x0F)]: two nibbles. *)
Lemma nibbles flags x :
  Z.lor (Z.land flags 0xF0) (Z.land x 0x0F) = x mod 2 ^ 4 + 2 ^ 4 * bits_of flags 4 4.
Proof.
  change 0x0F with (Z.ones 4). rewrite (Z.land_ones x) by lia.
  replace (Z.land flags 0xF0) with (Z.shiftl (bits_of flags 4 4) 4).
  { rewrite lor_shiftl_low by (try apply Z.mod_pos_bound; lia). lia. }
  apply Z.bits_inj'. intros n Hn. rewrite Z.shiftl_spec, Z.land_spec by done.
  change 0xF0 with (Z.shiftl (Z.ones 4) 4). rewrite Z.shiftl_spec by done.
  destruct (Z.leb_spec 4 n).
  - rewrite bits_of_testbit, testbit_ones_Z by lia. rewrite Zplus_minus. apply andb_comm.
  - rewrite !(Z.testbit_neg_r _ (n - 4)) by lia. by rewrite andb_false_r.
Qed.

(** The eight bytes of a descriptor as a number. *)
Definition pack (l o m a fl h : Z) : Z :=
  l mod 2 ^ 16 + 2 ^ 16 * (o mod 2 ^ 16 + 2 ^ 16 * (m mod 2 ^ 8 + 2 ^ 8 * (a mod 2 ^ 8 +
    2 ^ 8 * (fl mod 2 ^ 8 + 2 ^ 8 * (h mod 2 ^ 8))))).

Lemma pack_fields l o m a fl h :
  decode8 (pack l o m a fl h) =
    mkDescriptor (o mod 2 ^ 16 + 2 ^ 16 * (m mod 2 ^ 8) + 2 ^ 24 * (h mod 2 ^ 8))
      (l mod 2 ^ 16 + 2 ^ 16 * (fl mod 2 ^ 4)) (a mod 2 ^ 8) (bits_of fl 4 4).
Proof.
  pose proof (Z.mod_pos_bound l (2 ^ 16) ltac:(lia)). pose proof (Z.mod_pos_bound o (2 ^ 16) ltac:(lia)).
  pose proof (Z.mod_pos_bound m (2 ^ 8) ltac:(lia)). pose proof (Z.mod_pos_bound a (2 ^ 8) ltac:(lia)).
  pose proof (Z.mod_pos_bound fl (2 ^ 8) ltac:(lia)). pose proof (Z.mod_pos_bound h (2 ^ 8) ltac:(lia)).
  unfold decode8, pack.
  set (l' := l mod 2 ^ 16) in *. set (o' := o mod 2 ^ 16) in *. set (m' := m mod 2 ^ 8) in *.
  set (a' := a mod 2 ^ 8) in *. set (h' := h mod 2 ^ 8) in *.
  assert (fl mod 2 ^ 8 = fl mod 2 ^ 4 + 2 ^ 4 * bits_of fl 4 4) as Ef.
  { unfold bits_of. rewrite Z.shiftr_div_pow2 by lia. change (2 ^ 8) with (2 ^ 4 * 2 ^ 4).
    by rewrite Z.rem_mul_r by lia. }
  rewrite Ef in *. set (f1 := fl mod 2 ^ 4) in *. set (f2 := bits_of fl 4 4) in *.
  assert (0 ≤ f1 < 2 ^ 4) by (apply Z.mod_pos_bound; lia).
  assert (0 ≤ f2 < 2 ^ 4) by (apply Z.mod_pos_bound; lia).
  set (q := l' + _).
  f_equal; [f_equal; [|f_equal]|f_equal; [|f_equal]|..].
  - replace q with (l' + 2 ^ 16 * ((o' + 2 ^ 16 * m') + 2 ^ 24 * (a' + 2 ^ 8 * (f1 + 2 ^ 4 * f2 + 2 ^ 8 * h'))))
      by (unfold q; lia). apply bits_of_field; lia.
  - replace q with ((l' + 2 ^ 16 * o' + 2 ^ 32 * m' + 2 ^ 40 * a' + 2 ^ 48 * (f1 + 2 ^ 4 * f2)) + 2 ^ 56 * (h' + 2 ^ 8 * 0))
      by (unfold q; lia). apply bits_of_field; lia.
  - replace q with (0 + 2 ^ 0 * (l' + 2 ^ 16 * (o' + 2 ^ 16 * (m' + 2 ^ 8 * (a' + 2 ^ 8 * (f1 + 2 ^ 4 * f2 + 2 ^ 8 * h'))))))
      by (unfold q; lia). apply bits_of_field; lia.
  - replace q with ((l' + 2 ^ 16 * o' + 2 ^ 32 * m' + 2 ^ 40 * a') + 2 ^ 48 * (f1 + 2 ^ 4 * (f2 + 2 ^ 4 * h')))
      by (unfold q; lia). apply bits_of_field; lia.
  - replace q with ((l' + 2 ^ 16 * o' + 2 ^ 32 * m') + 2 ^ 40 * (a' + 2 ^ 8 * (f1 + 2 ^ 4 * f2 + 2 ^ 8 * h')))
      by (unfold q; lia). apply bits_of_field; lia.
  - replace q with ((l' + 2 ^ 16 * o' + 2 ^ 32 * m' + 2 ^ 40 * a' + 2 ^ 48 * f1) + 2 ^ 52 * (f2 + 2 ^ 4 * h'))
      by (unfold q; lia). apply bits_of_field; lia.
Qed.

(** A base address put together from its four parts. *)
Lemma base_parts offset :
  0 ≤ offset → as_u16 offset + 2 ^ 16 * as_u8 (Z.shiftr offset 16) + 2 ^ 24 * as_u8 (Z.shiftr offset 24)
    = offset mod 2 ^ 32.
Proof.
  intros Ho. unfold as_u16, as_u8. rewrite !Z.shiftr_div_pow2 by lia.
  change (2 ^ 32) with (2 ^ 16 * (2 ^ 8 * 2 ^ 8)).
  rewrite Z.rem_mul_r, (Z.rem_mul_r (offset / 2 ^ 16)), Z.div_div by lia. change (2 ^ 16 * 2 ^ 8) with (2 ^ 24).
  generalize (offset mod 2 ^ 16), ((offset / 2 ^ 16) mod 2 ^ 8), ((offset / 2 ^ 24) mod 2 ^ 8). lia.
Qed.

Lemma limit_parts limit : 0 ≤ limit →
  as_u16 limit + 2 ^ 16 * (as_u8 (Z.shiftr limit 16) mod 2 ^ 4) = limit mod 2 ^ 20.
Proof.
  intros Hl. unfold as_u16, as_u8. rewrite Z.shiftr_div_pow2 by lia.
  change (2 ^ 20) with (2 ^ 16 * 2 ^ 4). rewrite Z.rem_mul_r by lia. do 2 f_equal.
  change (2 ^ 8) with (2 ^ 4 * 2 ^ 4). rewrite Z.rem_mul_r by lia.
  rewrite Z.mul_comm, Z.mod_add by lia. apply Z.mod_mod. lia.
Qed.

Lemma mod_mod_same x k : 0 < k → (x mod k) mod k = x mod k.
Proof. intros. apply Z.mod_mod. lia. Qed.

(** What the processor sees of an entry made with [new]. *)
Lemma decode_new offset limit acc flags :
  0 ≤ offset → 0 ≤ limit → 0 ≤ acc < 2 ^ 8 →
  let e := GdtEntry_new offset limit acc flags in
  decode8 (pack (limitl e) (offsetl e) (offsetm e) (access e) (flags_limith e) (offseth e)) =
    mkDescriptor (offset mod 2 ^ 32) (limit mod 2 ^ 20) acc (bits_of flags 4 4).
Proof.
  intros Ho Hl Ha. cbn [limitl offsetl offsetm access flags_limith offseth GdtEntry_new].
  rewrite pack_fields, nibbles. unfold as_u16, as_u8 at 1 2 4.
  rewrite !mod_mod_same by lia. f_equal.
  - apply (base_parts offset Ho).
  - rewrite <-(limit_parts limit Hl). unfold as_u16. do 2 f_equal.
    rewrite (Z.mul_comm (2 ^ 4)), Z.mod_add by lia. apply mod_mod_same. lia.
  - by apply Z.mod_small.
  - unfold bits_of at 1. rewrite Z.shiftr_div_pow2, (Z.mul_comm (2 ^ 4)), Z.div_add by lia.
    rewrite Z.div_small, Z.add_0_l by (apply Z.mod_pos_bound; lia).
    unfold bits_of. apply mod_mod_same. lia.
Qed.

Lemma GdtEntry_bytes_val e bs :
  le_val (GdtEntry_bytes e ++ bs) =
    pack (limitl e) (offsetl e) (offsetm e) (access e) (flags_limith e) (offseth e) + 2 ^ 64 * le_val bs.
Proof.
  unfold GdtEntry_bytes, pack. rewrite <-!app_assoc, !le_val_le_bytes.
  change (256 ^ Z.of_nat 2) with (2 ^ 16). change (256 ^ Z.of_nat 1) with (2 ^ 8). lia.
Qed.

Lemma decode_big_new offset limit acc flags :
  0 ≤ offset < 2 ^ 64 → 0 ≤ limit → 0 ≤ acc < 2 ^ 8 →
  let e := BigGdtEntry_new offset limit acc flags in
  decode16 (pack (big_limitl e) (big_offsetl e) (big_offsetm e) (access_type e) (big_flags_limith e)
              (big_offseth e)) (offsetx e mod 2 ^ 32 + 2 ^ 32 * (big_reserved e mod 2 ^ 32)) =
    mkDescriptor offset (limit mod 2 ^ 20) acc (bits_of flags 4 4).
Proof.
  intros Ho Hl Ha. cbn [big_limitl big_offsetl big_offsetm access_type big_flags_limith big_offseth
    offsetx big_reserved BigGdtEntry_new]. unfold decode16.
  pose proof (decode_new offset limit acc flags ltac:(lia) Hl Ha) as E.
  cbn [limitl offsetl offsetm access flags_limith offseth GdtEntry_new] in E. rewrite E.
  cbn [d_base d_limit d_access d_flags]. f_equal.
  unfold as_u32, bits_of. rewrite !Z.shiftr_div_pow2 by lia. rewrite Z.mod_0_l by lia.
  rewrite Z.mul_0_r, Z.add_0_r, Z.div_1_r, !mod_mod_same by lia.
  rewrite (Z.mod_small (offset / 2 ^ 32)); [|split; [apply Z.div_pos; lia|apply Z.div_lt_upper_bound; lia]].
  symmetry. apply split_low. lia.
Qed.

Lemma BigGdtEntry_bytes_val e bs :
  le_val (BigGdtEntry_bytes e ++ bs) =
    pack (big_limitl e) (big_offsetl e) (big_offsetm e) (access_type e) (big_flags_limith e) (big_offseth e)
    + 2 ^ 64 * (offsetx e mod 2 ^ 32 + 2 ^ 32 * (big_reserved e mod 2 ^ 32) + 2 ^ 64 * le_val bs).
Proof.
  unfold BigGdtEntry_bytes, pack. rewrite <-!app_assoc, !le_val_le_bytes.
  change (256 ^ Z.of_nat 2) with (2 ^ 16). change (256 ^ Z.of_nat 1) with (2 ^ 8).
  change (256 ^ Z.of_nat 4) with (2 ^ 32). lia.
Qed.

Lemma length_GdtEntry_bytes e : length (GdtEntry_bytes e) = 8%nat.
Proof. unfold GdtEntry_bytes. by rewrite !length_app, !length_le_bytes. Qed.
Lemma length_BigGdtEntry_bytes e : length (BigGdtEntry_bytes e) = 16%nat.
Proof. unfold BigGdtEntry_bytes. by rewrite !length_app, !length_le_bytes. Qed.

(** Eight bytes of memory. *)
Lemma read_u64_entry mem a e : holds mem a (GdtEntry_bytes e) →
  read_u64 mem a = pack (limitl e) (offsetl e) (offsetm e) (access e) (flags_limith e) (offseth e).
Proof.
  intros H. unfold read_u64. pose proof (read_le_val _ _ _ H) as E. rewrite length_GdtEntry_bytes in E.
  rewrite E. rewrite <-(app_nil_r (GdtEntry_bytes e)), GdtEntry_bytes_val. cbn [le_val]. lia.
Qed.

Lemma read_u64_big mem a e : holds mem a (BigGdtEntry_bytes e) →
  read_u64 mem a =
    pack (big_limitl e) (big_offsetl e) (big_offsetm e) (access_type e) (big_flags_limith e) (big_offseth e) ∧
  read_u64 mem (a + 8) = offsetx e mod 2 ^ 32 + 2 ^ 32 * (big_reserved e mod 2 ^ 32).
Proof.
  unfold BigGdtEntry_bytes. rewrite !app_assoc, <-(app_assoc _ (le_bytes 4 (offsetx e))).
  intros [H1 H2]%holds_app.
  assert (a + 8 = a + Z.of_nat (length (((((le_bytes 2 (big_limitl e) ++ le_bytes 2 (big_offsetl e)) ++
    le_bytes 1 (big_offsetm e)) ++ le_bytes 1 (access_type e)) ++ le_bytes 1 (big_flags_limith e)) ++
    le_bytes 1 (big_offseth e)))) as -> by (by rewrite !length_app, !length_le_bytes).
  split; unfold read_u64.
  - pose proof (read_le_val _ _ _ H1) as E. rewrite !length_app, !length_le_bytes in E.
    unfold pack. refine (eq_trans E _). rewrite <-!app_assoc, !le_val_le_bytes.
    rewrite <-(app_nil_r (le_bytes 1 (big_offseth e))), le_val_le_bytes. cbn [le_val].
    change (256 ^ Z.of_nat 2) with (2 ^ 16). change (256 ^ Z.of_nat 1) with (2 ^ 8). lia.
  - pose proof (read_le_val _ _ _ H2) as E. rewrite !length_app, !length_le_bytes in E.
    refine (eq_trans E _). rewrite le_val_le_bytes, <-(app_nil_r (le_bytes 4 (big_reserved e))), le_val_le_bytes.
    cbn [le_val]. change (256 ^ Z.of_nat 4) with (2 ^ 32). lia.
Qed.

(** ** The per-CPU data and [init_cpu] *)

(** The TSS of the x86 crate: its stack slots. *)
Class X86Tss (TSS : Type) : Type := {
  tss_new : TSS;
  tss_set_ist : Z → Z → TSS → TSS;
  tss_set_rsp0 : Z → TSS → TSS;
  tss_ist : Z → TSS → Z;
  tss_rsp0 : TSS → Z;
  size_of_TSS : Z;
}.
Class X86TssLaws (TSS : Type) {X : X86Tss TSS} : Prop := {
  tss_ist_set i j v t : 0 ≤ i < 7 → tss_ist j (tss_set_ist i v t) = if j =? i then v else tss_ist j t;
  tss_ist_rsp0 j v t : tss_ist j (tss_set_rsp0 v t) = tss_ist j t;
  tss_rsp0_set v t : tss_rsp0 (tss_set_rsp0 v t) = v;
  size_of_TSS_ok : 0 ≤ size_of_TSS < 2 ^ 20;
}.

(** The registers that [init_cpu] loads. *)
Record SegRegs : Set := mkSegRegs {
  gdtr_base : Z; gdtr_limit : Z;
  reg_cs : Z; reg_ds : Z; reg_es : Z; reg_ss : Z; reg_tr : Z;
}.

Definition IST_STACK_SIZE : Z := 1 * 1024 * 1024.
Definition IST_COUNT : Z := 7.

Section init_cpu.
Context {BC : BitCrates} {XS : X86Selectors} {TSS : Type} {XT : X86Tss TSS}.
(** The addresses of [NEW_CPU]'s fields. *)
Context (gdt_addr tss_addr ist_addr : Z).

(** [cpu.gdt], [cpu.tss] and the registers. *)
Record GdtState : Type := mkGdtState { st_gdt : GlobalDescriptorTable; st_tss : TSS; st_regs : SegRegs }.

Definition with_gdt (f : GlobalDescriptorTable → GlobalDescriptorTable) : M GdtState unit :=
  modify (λ s, mkGdtState (f (st_gdt s)) (st_tss s) (st_regs s)).
Definition with_tss (f : TSS → TSS) : M GdtState unit :=
  modify (λ s, mkGdtState (st_gdt s) (f (st_tss s)) (st_regs s)).
Definition with_regs (f : SegRegs → SegRegs) : M GdtState unit :=
  modify (λ s, mkGdtState (st_gdt s) (st_tss s) (f (st_regs s))).

(** [cpu.ist[i].bottom()]: the end of the stack. *)
Definition Stack_bottom (i : Z) : Z := ist_addr + i * IST_STACK_SIZE + IST_STACK_SIZE.

(** [Cpu::new()] before [init_cpu] *)
Definition Cpu_new (regs : SegRegs) : GdtState := mkGdtState GDT_empty tss_new regs.

(** The limit does not fit in 16 bits: [expect] panics. *)
Definition get_pointer : M GdtState (Z * Z) :=
  if size_of_GDT <=? U16_MAX then mret (gdt_addr, size_of_GDT) else panic PUnwrap.

Definition lgdt (p : Z * Z) : M GdtState unit :=
  with_regs (λ r, mkSegRegs p.1 p.2 (reg_cs r) (reg_ds r) (reg_es r) (reg_ss r) (reg_tr r)).
Definition load_cs (v : Z) : M GdtState unit :=
  with_regs (λ r, mkSegRegs (gdtr_base r) (gdtr_limit r) v (reg_ds r) (reg_es r) (reg_ss r) (reg_tr r)).
Definition load_ds (v : Z) : M GdtState unit :=
  with_regs (λ r, mkSegRegs (gdtr_base r) (gdtr_limit r) (reg_cs r) v (reg_es r) (reg_ss r) (reg_tr r)).
Definition load_es (v : Z) : M GdtState unit :=
  with_regs (λ r, mkSegRegs (gdtr_base r) (gdtr_limit r) (reg_cs r) (reg_ds r) v (reg_ss r) (reg_tr r)).
Definition load_ss (v : Z) : M GdtState unit :=
  with_regs (λ r, mkSegRegs (gdtr_base r) (gdtr_limit r) (reg_cs r) (reg_ds r) (reg_es r) v (reg_tr r)).
Definition load_tr (v : Z) : M GdtState unit :=
  with_regs (λ r, mkSegRegs (gdtr_base r) (gdtr_limit r) (reg_cs r) (reg_ds r) (reg_es r) (reg_ss r) v).

(** A code or data segment with privilege [dpl]. *)
Definition segment (dpl : Z) (executable : bool) : GdtEntry :=
  let access := AccessByte_new in
  let access := set_privilege access dpl in
  let access := set_executable access executable in
  let access := set_read_write access true in
  GdtEntry_new 0 0 access GDT_F_LONG_MODE.

Definition tss_segment : BigGdtEntry :=
  let access := SystemAccessByte_new AvailableTss in
  let access := set_privilege access 3 in
  BigGdtEntry_new tss_addr (as_u32 size_of_TSS) access 0.

Definition init_cpu : M GdtState unit :=
  for_range 0 (Z.min IST_COUNT 7) (λ i, with_tss (tss_set_ist i (Stack_bottom i)));;
  with_tss (tss_set_rsp0 (Stack_bottom 0));;
  with_gdt (λ g, mkGdt (null_entry g) (segment 0 false) (kernel_code g) (user_data g) (user_code g) (tss_entry g));;
  with_gdt (λ g, mkGdt (null_entry g) (kernel_data g) (segment 0 true) (user_data g) (user_code g) (tss_entry g));;
  with_gdt (λ g, mkGdt (null_entry g) (kernel_data g) (kernel_code g) (segment 3 false) (user_code g) (tss_entry g));;
  with_gdt (λ g, mkGdt (null_entry g) (kernel_data g) (kernel_code g) (user_data g) (segment 3 true) (tss_entry g));;
  with_gdt (λ g, mkGdt (null_entry g) (kernel_data g) (kernel_code g) (user_data g) (user_code g) tss_segment);;
  p ← get_pointer;
  lgdt p;;
  load_cs (selector_bits KERNEL_CODE_INDEX 0);;
  load_ds (selector_bits KERNEL_DATA_INDEX 0);;
  load_es (selector_bits KERNEL_DATA_INDEX 0);;
  load_ss (selector_bits KERNEL_DATA_INDEX 0);;
  load_tr (selector_bits TSS_INDEX 0).
End init_cpu.

(** ** Theorems *)

(** The fields of an access byte. *)
Definition is_present (d : Descriptor) : bool := Z.testbit (d_access d) 7.
Definition dpl_of (d : Descriptor) : Z := bits_of (d_access d) 5 2.
Definition is_code_data (d : Descriptor) : bool := Z.testbit (d_access d) 4.
Definition is_executable (d : Descriptor) : bool := Z.testbit (d_access d) 3.
Definition is_read_write (d : Descriptor) : bool := Z.testbit (d_access d) 1.
Definition system_type (d : Descriptor) : Z := bits_of (d_access d) 0 4.
Definition is_long_mode (d : Descriptor) : bool := Z.testbit (d_flags d) 1.

(** A 64-bit code or data segment of privilege [dpl], as long mode wants it. *)
Definition segment_ok (d : Descriptor) (dpl : Z) (executable : bool) : Prop :=
  is_present d = true ∧ is_code_data d = true ∧ dpl_of d = dpl ∧ is_executable d = executable ∧
  is_read_write d = true ∧ is_long_mode d = true ∧ d_base d = 0.

Section init_cpu_lemmas.
Context {BC : BitCrates} {BL : BitCratesLaws} {XS : X86Selectors} {XL : X86SelectorsLaws}
        {TSS : Type} {XT : X86Tss TSS} {TL : X86TssLaws TSS}.

Lemma segment_eq : segment 0 false = GdtEntry_new 0 0 0x92 GDT_F_LONG_MODE ∧
  segment 0 true = GdtEntry_new 0 0 0x9a GDT_F_LONG_MODE ∧
  segment 3 false = GdtEntry_new 0 0 0xf2 GDT_F_LONG_MODE ∧
  segment 3 true = GdtEntry_new 0 0 0xfa GDT_F_LONG_MODE.
Proof.
  unfold segment, AccessByte_new, set_privilege, set_executable, set_read_write, set_code_data, set_present.
  split_and!; eval_bits; reflexivity.
Qed.

Lemma tss_segment_eq tss_addr : tss_segment tss_addr = BigGdtEntry_new tss_addr (as_u32 size_of_TSS) 0xe9 0.
Proof.
  unfold tss_segment, SystemAccessByte_new, set_privilege, set_descriptor_type, set_real_descriptor_type,
    set_code_data, set_present, descriptor_type_to_u8. eval_bits. reflexivity.
Qed.

Context (gdt_addr tss_addr ist_addr : Z).

(** The table that [init_cpu] builds. *)
Definition final_gdt (g : GlobalDescriptorTable) : GlobalDescriptorTable :=
  mkGdt (null_entry g) (segment 0 false) (segment 0 true) (segment 3 false) (segment 3 true)
    (tss_segment tss_addr).

Lemma init_cpu_run s :
  wp (init_cpu gdt_addr tss_addr ist_addr) (λ _ s',
    st_gdt s' = final_gdt (st_gdt s) ∧
    st_regs s' = mkSegRegs gdt_addr size_of_GDT 0x10 0x08 0x08 0x08 0x28 ∧
    (∀ i, 0 ≤ i < 7 → tss_ist i (st_tss s') = Stack_bottom ist_addr i) ∧
    tss_rsp0 (st_tss s') = Stack_bottom ist_addr 0) s.
Proof.
  unfold init_cpu. apply wp_bind.
  eapply wp_mono; [apply (wp_for_range 0 (Z.min IST_COUNT 7) _ (λ k s', st_gdt s' = st_gdt s ∧
    st_regs s' = st_regs s ∧ ∀ i, 0 ≤ i < k → tss_ist i (st_tss s') = Stack_bottom ist_addr i))|].
  - done.
  - intros i s' Hi (Hg & Hr & Ht). apply wp_modify. cbn. split_and!; [done..|]. change (Z.min IST_COUNT 7) with 7 in Hi.
    intros j Hj. rewrite tss_ist_set by lia. destruct (Z.eqb_spec j i) as [->|]; [done|]. apply Ht. lia.
  - split_and!; [done..|]. intros; lia.
  - intros [] [g t []] (Hg & Hr & Ht). change (Z.min IST_COUNT 7) with 7 in Ht.
    unfold with_tss, with_gdt, get_pointer, lgdt, load_cs, load_ds, load_es, load_ss, load_tr, with_regs.
    rewrite !selector_bits_spec by (unfold KERNEL_CODE_INDEX, KERNEL_DATA_INDEX, TSS_INDEX; lia).
    change (size_of_GDT <=? U16_MAX) with true. cbv iota.
    repeat (wp_seq_step; cbn [st_gdt st_tss st_regs gdtr_base gdtr_limit reg_cs reg_ds reg_es reg_ss reg_tr
      null_entry kernel_data kernel_code user_data user_code tss_entry fst snd]).
    simpl in Hg, Ht. rewrite Hg. split_and!; [done|done| |apply tss_rsp0_set].
    intros i Hi. rewrite tss_ist_rsp0. by apply Ht.
Qed.

(** The processor's view of the table. *)
Lemma fetch_segments g mem :
  holds mem gdt_addr (GDT_bytes (final_gdt g)) → 0 ≤ tss_addr < 2 ^ 64 →
  let get := fetch mem gdt_addr size_of_GDT in
  get 0x08 = Some (mkDescriptor 0 0 0x92 2) ∧ get 0x10 = Some (mkDescriptor 0 0 0x9a 2) ∧
  get 0x1b = Some (mkDescriptor 0 0 0xf2 2) ∧ get 0x23 = Some (mkDescriptor 0 0 0xfa 2) ∧
  fetch_system mem gdt_addr size_of_GDT 0x28 = Some (mkDescriptor tss_addr size_of_TSS 0xe9 0).
Proof.
  intros H Ht get. unfold GDT_bytes, final_gdt in H.
  cbn [null_entry kernel_data kernel_code user_data user_code tss_entry] in H.
  apply holds_app in H as [_ H]. apply holds_app in H as [H1 H]. apply holds_app in H as [H2 H].
  apply holds_app in H as [H3 H]. apply holds_app in H as [H4 H5].
  rewrite !length_GdtEntry_bytes in *. rewrite <-!Z.add_assoc in *.
  destruct segment_eq as (E1 & E2 & E3 & E4). rewrite E1 in H1. rewrite E2 in H2. rewrite E3 in H3. rewrite E4 in H4.
  rewrite tss_segment_eq in H5.
  assert (∀ sel i acc, sel / 8 * 8 = i → i + 7 ≤ size_of_GDT → 0 ≤ acc < 2 ^ 8 →
    holds mem (gdt_addr + i) (GdtEntry_bytes (GdtEntry_new 0 0 acc GDT_F_LONG_MODE)) →
    get sel = Some (mkDescriptor 0 0 acc 2)) as Hget.
  { intros sel i acc Hsel Hi Ha Hh. unfold get, fetch. rewrite Hsel, (proj2 (Z.leb_le _ _)) by done.
    rewrite (read_u64_entry _ _ _ Hh), decode_new by lia. reflexivity. }
  split_and!.
  - by apply (Hget _ 8).
  - by apply (Hget _ 16).
  - by apply (Hget _ 24).
  - by apply (Hget _ 32).
  - change (holds mem (gdt_addr + 40) (BigGdtEntry_bytes
      (BigGdtEntry_new tss_addr (as_u32 size_of_TSS) 0xe9 0))) in H5.
    apply read_u64_big in H5 as [R1 R2]. unfold fetch_system.
    change (0x28 / 8 * 8) with 40. change (40 + 15 <=? size_of_GDT) with true. cbv iota.
    pose proof size_of_TSS_ok as Hs. assert (as_u32 size_of_TSS = size_of_TSS) as Es by (apply Z.mod_small; lia).
    rewrite R1, R2, decode_big_new by (rewrite ?Es; lia). rewrite Es, Z.mod_small by done. reflexivity.
Qed.
End init_cpu_lemmas.

(** C33: descriptors. Whatever base, limit, access byte and flags it is given,
    [GdtEntry::new] packs eight bytes that the processor decodes to the same
    base, the low 20 bits of the limit, the same access byte and the upper
    nibble of the flags; [BigGdtEntry::new] does so for a 64-bit base. *)
Theorem descriptor_roundtrip mem a offset limit acc flags :
  0 ≤ limit → 0 ≤ acc < 2 ^ 8 →
  (0 ≤ offset < 2 ^ 32 → holds mem a (GdtEntry_bytes (GdtEntry_new offset limit acc flags)) →
   decode8 (read_u64 mem a) = mkDescriptor offset (limit mod 2 ^ 20) acc (bits_of flags 4 4)) ∧
  (0 ≤ offset < 2 ^ 64 → holds mem a (BigGdtEntry_bytes (BigGdtEntry_new offset limit acc flags)) →
   decode16 (read_u64 mem a) (read_u64 mem (a + 8)) =
     mkDescriptor offset (limit mod 2 ^ 20) acc (bits_of flags 4 4)).
Proof.
  intros Hl Ha. split.
  - intros Ho H. rewrite (read_u64_entry _ _ _ H), decode_new, (Z.mod_small offset) by lia. done.
  - intros Ho [R1 R2]%read_u64_big. rewrite R1, R2. by apply decode_big_new.
Qed.

Lemma descriptor_roundtrip_witness :
  let e := BigGdtEntry_new 0xffff800000123456 103 0x89 0 in
  decode16 (read_u64 (bytes_at 64 (BigGdtEntry_bytes e)) 64) (read_u64 (bytes_at 64 (BigGdtEntry_bytes e)) (64 + 8)) =
    mkDescriptor 0xffff800000123456 (103 mod 2 ^ 20) 0x89 (bits_of 0 4 4).
Proof.
  apply (descriptor_roundtrip (bytes_at 64 (BigGdtEntry_bytes (BigGdtEntry_new 0xffff800000123456 103 0x89 0)))
    64 0xffff800000123456 103 0x89 0).
  - lia.
  - lia.
  - lia.
  - apply holds_bytes_at.
Defined.

(** C32: the boot CPU's segments. [init_cpu] ends with the registers pointing
    into the table it built: CS names a present 64-bit kernel code segment,
    DS, ES and SS a kernel data segment, the user selectors name ring 3
    segments, TR names the TSS descriptor with the address of the TSS, and the
    TSS has the seven interrupt stacks and the ring 0 stack. The limit it
    loads is the size of the table, one more than the offset of its last byte. *)
Theorem init_cpu_segments {BC : BitCrates} {BL : BitCratesLaws} {XS : X86Selectors} {XL : X86SelectorsLaws}
    {TSS : Type} {XT : X86Tss TSS} {TL : X86TssLaws TSS} gdt_addr tss_addr ist_addr s :
  0 ≤ tss_addr < 2 ^ 64 →
  wp (init_cpu gdt_addr tss_addr ist_addr) (λ _ s', ∀ mem,
      holds mem gdt_addr (GDT_bytes (st_gdt s')) →
      let r := st_regs s' in
      let get := fetch mem (gdtr_base r) (gdtr_limit r) in
      gdtr_limit r = Z.of_nat (length (GDT_bytes (st_gdt s'))) ∧
      (∃ d, get (reg_cs r) = Some d ∧ segment_ok d 0 true) ∧
      (∃ d, get (reg_ds r) = Some d ∧ get (reg_es r) = Some d ∧ get (reg_ss r) = Some d ∧ segment_ok d 0 false) ∧
      (∃ d, get USER_CS = Some d ∧ segment_ok d 3 true) ∧
      (∃ d, get USER_SS = Some d ∧ segment_ok d 3 false) ∧
      (∃ d, fetch_system mem (gdtr_base r) (gdtr_limit r) (reg_tr r) = Some d ∧
         is_present d = true ∧ is_code_data d = false ∧ system_type d = 9 ∧
         d_base d = tss_addr ∧ d_limit d = size_of_TSS) ∧
      (∀ i, 0 ≤ i < 7 → tss_ist i (st_tss s') = Stack_bottom ist_addr i) ∧
      tss_rsp0 (st_tss s') = Stack_bottom ist_addr 0) s.
Proof.
  intros Ht. eapply wp_mono; [apply init_cpu_run|].
  intros [] s' (Hg & Hr & Hist & Hrsp) mem Hh. rewrite Hg in Hh. rewrite Hr, Hg.
  destruct (fetch_segments _ _ _ _ Hh Ht) as (F1 & F2 & F3 & F4 & F5).
  unfold USER_CS, USER_SS. rewrite !selector_bits_spec by (unfold USER_CODE_INDEX, USER_DATA_INDEX; lia).
  cbn [gdtr_base gdtr_limit reg_cs reg_ds reg_es reg_ss reg_tr].
  change (USER_CODE_INDEX * 8 + 3) with 0x23. change (USER_DATA_INDEX * 8 + 3) with 0x1b.
  rewrite F1, F2, F3, F4, F5.
  split_and!; [|eexists; (split_and!; [reflexivity..|by vm_compute])|..].
  - unfold GDT_bytes. by rewrite !length_app, !length_GdtEntry_bytes, length_BigGdtEntry_bytes.
  - eexists. split_and!; [reflexivity..|by vm_compute].
  - eexists. split_and!; [reflexivity..|by vm_compute].
  - eexists. split_and!; [reflexivity..|by vm_compute].
  - eexists. split_and!; reflexivity.
  - done.
  - done.
Qed.

(** A TSS with its stack slots as a function, of the size of the real one. *)
Record FunTss : Type := mkFunTss { ft_ist : Z → Z; ft_rsp0 : Z }.
#[export] Instance fun_tss : X86Tss FunTss := {
  tss_new := mkFunTss (λ _, 0) 0;
  tss_set_ist i v t := mkFunTss (λ j, if j =? i then v else ft_ist t j) (ft_rsp0 t);
  tss_set_rsp0 v t := mkFunTss (ft_ist t) v;
  tss_ist i t := ft_ist t i;
  tss_rsp0 := ft_rsp0;
  size_of_TSS := 104;
}.
#[export] Instance fun_tss_laws : X86TssLaws FunTss.
Proof. split; cbn; intros; done || lia. Qed.

Lemma init_cpu_segments_witness :
  wp (init_cpu (TSS := FunTss) 0x200000 0x200100 0x201000) (λ _ s', ∀ mem,
      holds mem 0x200000 (GDT_bytes (st_gdt s')) →
      let r := st_regs s' in
      let get := fetch mem (gdtr_base r) (gdtr_limit r) in
      gdtr_limit r = Z.of_nat (length (GDT_bytes (st_gdt s'))) ∧
      (∃ d, get (reg_cs r) = Some d ∧ segment_ok d 0 true) ∧
      (∃ d, get (reg_ds r) = Some d ∧ get (reg_es r) = Some d ∧ get (reg_ss r) = Some d ∧ segment_ok d 0 false) ∧
      (∃ d, get USER_CS = Some d ∧ segment_ok d 3 true) ∧
      (∃ d, get USER_SS = Some d ∧ segment_ok d 3 false) ∧
      (∃ d, fetch_system mem (gdtr_base r) (gdtr_limit r) (reg_tr r) = Some d ∧
         is_present d = true ∧ is_code_data d = false ∧ system_type d = 9 ∧
         d_base d = 0x200100 ∧ d_limit d = 104) ∧
      (∀ i, 0 ≤ i < 7 → tss_ist i (st_tss s') = Stack_bottom 0x201000 i) ∧
      tss_rsp0 (st_tss s') = Stack_bottom 0x201000 0) (Cpu_new (mkSegRegs 0 0 0 0 0 0 0)).
Proof.
  exact (init_cpu_segments (BC := bit_crates) (XS := x86_selectors) (XT := fun_tss)
    0x200000 0x200100 0x201000 (Cpu_new (mkSegRegs 0 0 0 0 0 0 0)) ltac:(lia)).
Defined.

(** Descriptor types. Turning a descriptor type into a byte and back is
    the identity, and every other byte is rejected with the error that names it. *)
Lemma descriptor_type_roundtrip :
  (∀ t, descriptor_type_try_from (descriptor_type_to_u8 t) = inl t) ∧
  (∀ x, (∀ t, x ≠ descriptor_type_to_u8 t) → descriptor_type_try_from x = inr (InvalidDescriptorType x)).
Proof.
  split; [by intros []|]. intros x Hx. pose proof (Hx AvailableTss). pose proof (Hx BusyTss).
  unfold descriptor_type_try_from, descriptor_type_to_u8 in *.
  by rewrite !(proj2 (Z.eqb_neq _ _)).
Qed.
