(* ===== verification/AccessByte.v ===== *)
(** * Access bytes and their fields (src/src/gdt/types.rs)

    [bitfield!] makes a byte behave like a record. The record that counts is the
    one the processor sees in a descriptor that has the byte: this file shows that
    the getters read that record, that each setter of Gdt.v updates in it the
    field that it is named after, and that the record determines the byte. *)
From S2P Require Import Prelude Memory Bits Gdt.

(** The getters that [bitfield!] generates: a bit, or the bits [hi..=lo]. *)
Class BitGetters : Type := {
  get_bit : Z → Z → bool;
  get_range : Z → Z → Z → Z;
}.
Class BitGettersLaws {BG : BitGetters} : Prop := {
  get_bit_spec x i : get_bit x i = Z.testbit x i;
  get_range_spec x hi lo : 0 ≤ lo ≤ hi → get_range x hi lo = bits_of x lo (hi - lo + 1);
}.
#[export] Instance bit_getters : BitGetters := {
  get_bit x i := Z.testbit x i;
  get_range x hi lo := Z.land (Z.shiftr x lo) (Z.ones (hi - lo + 1));
}.
#[export] Instance bit_getters_laws : BitGettersLaws.
Proof. split; [done|]. intros x hi lo H. cbn. unfold bits_of. by rewrite Z.land_ones by lia. Qed.

(** [AccessByte] as a record. *)
Record AccessFields : Set := mkAccess {
  present : bool; privilege : Z; code_data : bool; executable : bool; direction : bool; read_write : bool; accessed : bool;
}.
(** [SystemAccessByte] as a record. *)
Record SystemFields : Set := mkSystem {
  sys_present : bool; sys_privilege : Z; sys_code_data : bool; real_descriptor_type : Z;
}.

Definition AccessByte_fields {BG : BitGetters} (x : Z) : AccessFields :=
  mkAccess (get_bit x 7) (get_range x 6 5) (get_bit x 4) (get_bit x 3) (get_bit x 2) (get_bit x 1) (get_bit x 0).
Definition SystemAccessByte_fields {BG : BitGetters} (x : Z) : SystemFields :=
  mkSystem (get_bit x 7) (get_range x 6 5) (get_bit x 4) (get_range x 3 0).

(** ** Lemmas *)
Definition is_byte (x : Z) : Prop := 0 ≤ x < 2 ^ 8.

Lemma is_byte_bits x : 0 ≤ x → (∀ j, 8 ≤ j → Z.testbit x j = false) → is_byte x.
Proof.
  intros H0 Hb. split; [done|]. assert (x mod 2 ^ 8 = x) as <-; [|by apply Z.mod_pos_bound].
  apply Z.bits_inj'. intros j Hj. rewrite Z.testbit_mod_pow2 by lia.
  destruct (Z.ltb_spec j 8); [done|]. by rewrite Hb by lia.
Qed.
Lemma byte_high x j : is_byte x → 8 ≤ j → Z.testbit x j = false.
Proof.
  intros [H0 H8] Hj. rewrite <-(Z.mod_small x (2 ^ 8)) by done. rewrite Z.testbit_mod_pow2 by lia.
  by rewrite (proj2 (Z.ltb_ge _ _)) by lia.
Qed.

(** Equality of fields of several bits is equality of bits. *)
Lemma bits_of_ext x y lo n : 0 ≤ lo → 0 ≤ n →
  bits_of x lo n = bits_of y lo n ↔ ∀ j, lo ≤ j < lo + n → Z.testbit x j = Z.testbit y j.
Proof.
  intros Hlo Hn. split.
  - intros E j Hj. pose proof (f_equal (λ z, Z.testbit z (j - lo)) E) as Ej. cbv beta in Ej.
    rewrite !bits_of_testbit, (proj2 (Z.ltb_lt _ _)) in Ej by lia. cbn [andb] in Ej.
    by replace (lo + (j - lo)) with j in Ej by lia.
  - intros E. apply Z.bits_inj'. intros j Hj. rewrite !bits_of_testbit by done.
    destruct (Z.ltb_spec j n); [|done]. cbn [andb]. apply E. lia.
Qed.

Lemma bits_of_inj x y lo n : bits_of x lo n = bits_of y lo n → 0 ≤ lo → 0 ≤ n →
  ∀ j, lo ≤ j < lo + n → Z.testbit x j = Z.testbit y j.
Proof. intros E Hlo Hn. by apply bits_of_ext. Qed.

Section setters.
Context {BC : BitCrates} {BL : BitCratesLaws} {BG : BitGetters} {GL : BitGettersLaws}.

Lemma set_bit_byte x i b : is_byte x → 0 ≤ i < 8 → is_byte (set_bit x i b).
Proof.
  intros Hx Hi. apply is_byte_bits; [apply set_bit_nonneg; [apply Hx|lia]|]. intros j Hj.
  rewrite set_bit_spec by (try apply Hx; lia). rewrite (proj2 (Z.eqb_neq _ _)) by lia. by apply byte_high.
Qed.
Lemma set_range_byte x hi lo v : is_byte x → 0 ≤ lo ≤ hi → hi < 8 → 0 ≤ v → is_byte (set_range x hi lo v).
Proof.
  intros Hx Hl Hh Hv. apply is_byte_bits; [by apply set_range_nonneg; [apply Hx|]|]. intros j Hj.
  rewrite set_range_spec by (try apply Hx; lia). rewrite (proj2 (Z.leb_gt j hi)), andb_false_r by lia. by apply byte_high.
Qed.

(** What a getter sees after a setter. *)
Lemma get_bit_set_bit x i j b : is_byte x → 0 ≤ i → 0 ≤ j → get_bit (set_bit x i b) j = if j =? i then b else get_bit x j.
Proof. intros [Hx _] Hi Hj. by rewrite !get_bit_spec, set_bit_spec. Qed.
Lemma get_range_set_bit x i b hi lo : is_byte x → 0 ≤ i → 0 ≤ lo ≤ hi → i < lo ∨ hi < i →
  get_range (set_bit x i b) hi lo = get_range x hi lo.
Proof.
  intros [Hx _] Hi Hl Hd. rewrite !get_range_spec by done. apply bits_of_ext; [lia..|]. intros j Hj.
  rewrite set_bit_spec by lia. by rewrite (proj2 (Z.eqb_neq _ _)) by lia.
Qed.
Lemma get_bit_set_range x hi lo v j : is_byte x → 0 ≤ lo ≤ hi → 0 ≤ v → 0 ≤ j → j < lo ∨ hi < j →
  get_bit (set_range x hi lo v) j = get_bit x j.
Proof.
  intros [Hx _] Hl Hv Hj Hd. rewrite !get_bit_spec, set_range_spec by lia.
  destruct (Z.leb_spec lo j), (Z.leb_spec j hi); done || lia.
Qed.
Lemma get_range_set_range x hi lo v : is_byte x → 0 ≤ lo ≤ hi → 0 ≤ v →
  get_range (set_range x hi lo v) hi lo = v mod 2 ^ (hi - lo + 1).
Proof.
  intros [Hx _] Hl Hv. rewrite get_range_spec by done. apply Z.bits_inj'. intros j Hj.
  rewrite bits_of_testbit, Z.testbit_mod_pow2 by lia. destruct (Z.ltb_spec j (hi - lo + 1)); [|done]. cbn [andb].
  rewrite set_range_spec by lia. rewrite (proj2 (Z.leb_le lo _)), (proj2 (Z.leb_le _ hi)) by lia. cbn [andb].
  f_equal. lia.
Qed.
Lemma get_range_set_range_ne x hi lo v hi' lo' : is_byte x → 0 ≤ lo ≤ hi → 0 ≤ v → 0 ≤ lo' ≤ hi' → hi' < lo ∨ hi < lo' →
  get_range (set_range x hi lo v) hi' lo' = get_range x hi' lo'.
Proof.
  intros [Hx _] Hl Hv Hl' Hd. rewrite !get_range_spec by done. apply bits_of_ext; [lia..|]. intros j Hj.
  rewrite set_range_spec by lia. destruct (Z.leb_spec lo j), (Z.leb_spec j hi); done || lia.
Qed.
End setters.

(** Evaluate the fields of a byte after a setter. *)
Ltac fields Hx := unfold AccessByte_fields, SystemAccessByte_fields;
  rewrite ?(get_bit_set_bit _ _ _ _ Hx), ?(get_bit_set_range _ _ _ _ _ Hx),
    ?(get_range_set_bit _ _ _ _ _ Hx), ?(get_range_set_range _ _ _ _ Hx), ?(get_range_set_range_ne _ _ _ _ _ _ Hx) by lia;
  reflexivity.

(** What the getters see after the setters; the fields determine the byte. *)
Lemma access_fields_setters {BC : BitCrates} {BL : BitCratesLaws} {BG : BitGetters} {GL : BitGettersLaws} x b v :
  is_byte x → 0 ≤ v →
  let f := AccessByte_fields x in let g := SystemAccessByte_fields x in
  (is_byte (set_present x b) ∧ AccessByte_fields (set_present x b) =
     mkAccess b (privilege f) (code_data f) (executable f) (direction f) (read_write f) (accessed f)) ∧
  (is_byte (set_privilege x v) ∧ AccessByte_fields (set_privilege x v) =
     mkAccess (present f) (v mod 4) (code_data f) (executable f) (direction f) (read_write f) (accessed f)) ∧
  (is_byte (set_code_data x b) ∧ AccessByte_fields (set_code_data x b) =
     mkAccess (present f) (privilege f) b (executable f) (direction f) (read_write f) (accessed f)) ∧
  (is_byte (set_executable x b) ∧ AccessByte_fields (set_executable x b) =
     mkAccess (present f) (privilege f) (code_data f) b (direction f) (read_write f) (accessed f)) ∧
  (is_byte (set_direction x b) ∧ AccessByte_fields (set_direction x b) =
     mkAccess (present f) (privilege f) (code_data f) (executable f) b (read_write f) (accessed f)) ∧
  (is_byte (set_read_write x b) ∧ AccessByte_fields (set_read_write x b) =
     mkAccess (present f) (privilege f) (code_data f) (executable f) (direction f) b (accessed f)) ∧
  (is_byte (set_accessed x b) ∧ AccessByte_fields (set_accessed x b) =
     mkAccess (present f) (privilege f) (code_data f) (executable f) (direction f) (read_write f) b) ∧
  (is_byte (set_real_descriptor_type x v) ∧ SystemAccessByte_fields (set_real_descriptor_type x v) =
     mkSystem (sys_present g) (sys_privilege g) (sys_code_data g) (v mod 16)) ∧
  (∀ y, is_byte y → AccessByte_fields x = AccessByte_fields y ∨ SystemAccessByte_fields x = SystemAccessByte_fields y → x = y).
Proof.
  intros Hx Hv f g. unfold set_present, set_privilege, set_code_data, set_executable, set_direction, set_read_write,
    set_accessed, set_real_descriptor_type.
  do 8 (split; [split; [apply set_bit_byte || apply set_range_byte; done || lia|fields Hx]|]).
  intros y Hy Hf. assert (∀ j, 0 ≤ j < 8 → Z.testbit x j = Z.testbit y j) as Hj.
  { destruct Hf as [Hf|Hf]; injection Hf; rewrite ?get_bit_spec, ?get_range_spec by lia.
    - change (6 - 5 + 1) with 2. intros E0 E1 E2 E3 E4 E5 E7 j Hj.
      pose proof (bits_of_inj _ _ _ _ E5 ltac:(lia) ltac:(lia)). assert (j = 0 ∨ j = 1 ∨ j = 2 ∨ j = 3 ∨ j = 4 ∨ 5 ≤ j < 5 + 2 ∨ j = 7) as Hc by lia.
      repeat destruct Hc as [->|Hc]; auto. destruct Hc as [Hc| ->]; auto.
    - change (3 - 0 + 1) with 4. change (6 - 5 + 1) with 2. intros E0 E4 E5 E7 j Hj.
      pose proof (bits_of_inj _ _ _ _ E5 ltac:(lia) ltac:(lia)). pose proof (bits_of_inj _ _ _ _ E0 ltac:(lia) ltac:(lia)).
      assert (j = 4 ∨ 0 ≤ j < 0 + 4 ∨ 5 ≤ j < 5 + 2 ∨ j = 7) as Hc by lia.
      destruct Hc as [->|[Hc|[Hc| ->]]]; auto. }
  apply Z.bits_inj'. intros j H0. destruct (Z.ltb_spec j 8); [by apply Hj|]. by rewrite !byte_high.
Qed.

(** A system access byte has the same setters for its first three fields. *)
Lemma system_fields_setters {BC : BitCrates} {BL : BitCratesLaws} {BG : BitGetters} {GL : BitGettersLaws} x b v :
  is_byte x → 0 ≤ v → let g := SystemAccessByte_fields x in
  SystemAccessByte_fields (set_present x b) = mkSystem b (sys_privilege g) (sys_code_data g) (real_descriptor_type g) ∧
  SystemAccessByte_fields (set_privilege x v) = mkSystem (sys_present g) (v mod 4) (sys_code_data g) (real_descriptor_type g) ∧
  SystemAccessByte_fields (set_code_data x b) = mkSystem (sys_present g) (sys_privilege g) b (real_descriptor_type g).
Proof.
  intros Hx Hv g. unfold set_present, set_privilege, set_code_data. split; [|split]; fields Hx.
Qed.

(** ** What the processor sees *)

(** The Direction or Conforming bit, and the Accessed bit; the other fields are
    in Gdt.v. *)
Definition is_direction (d : Descriptor) : bool := Z.testbit (d_access d) 2.
Definition is_accessed (d : Descriptor) : bool := Z.testbit (d_access d) 0.
Definition hw_access (d : Descriptor) : AccessFields :=
  mkAccess (is_present d) (dpl_of d) (is_code_data d) (is_executable d) (is_direction d) (is_read_write d) (is_accessed d).
Definition hw_system (d : Descriptor) : SystemFields :=
  mkSystem (is_present d) (dpl_of d) (is_code_data d) (system_type d).

(** The fields of the descriptor that [GdtEntry::new] and [BigGdtEntry::new] make
    with the access byte [x], decoded from its bytes. *)
Definition seen (offset limit flags x : Z) : AccessFields :=
  hw_access (decode8 (le_val (GdtEntry_bytes (GdtEntry_new offset limit x flags)))).
Definition sys_seen (offset limit flags x : Z) : SystemFields :=
  let bytes := BigGdtEntry_bytes (BigGdtEntry_new offset limit x flags) in
  hw_system (decode16 (le_val (take 8 bytes)) (le_val (drop 8 bytes))).

(** The getters read what the processor sees. *)
Lemma seen_fields {BG : BitGetters} {GL : BitGettersLaws} offset limit flags x :
  0 ≤ offset → 0 ≤ limit → is_byte x → seen offset limit flags x = AccessByte_fields x.
Proof.
  intros Ho Hl Hx. unfold seen. rewrite <-(app_nil_r (GdtEntry_bytes _)), GdtEntry_bytes_val. cbn [le_val].
  rewrite Z.mul_0_r, Z.add_0_r, decode_new by done.
  unfold AccessByte_fields. by rewrite !get_bit_spec, get_range_spec by lia.
Qed.

Lemma big_bytes_halves e :
  le_val (take 8 (BigGdtEntry_bytes e)) =
    pack (big_limitl e) (big_offsetl e) (big_offsetm e) (access_type e) (big_flags_limith e) (big_offseth e) ∧
  le_val (drop 8 (BigGdtEntry_bytes e)) = offsetx e mod 2 ^ 32 + 2 ^ 32 * (big_reserved e mod 2 ^ 32).
Proof.
  set (lo := GdtEntry_bytes (mkGdtEntry (big_limitl e) (big_offsetl e) (big_offsetm e) (access_type e) (big_flags_limith e) (big_offseth e))).
  set (hi := le_bytes 4 (offsetx e) ++ le_bytes 4 (big_reserved e)).
  assert (BigGdtEntry_bytes e = lo ++ hi) as -> by (unfold lo, hi, BigGdtEntry_bytes, GdtEntry_bytes; by rewrite <-!app_assoc).
  assert (length lo = 8%nat) as Hlo by apply length_GdtEntry_bytes.
  rewrite take_app_length', drop_app_length' by done. split.
  - unfold lo. rewrite <-(app_nil_r (GdtEntry_bytes _)), GdtEntry_bytes_val. cbn. lia.
  - unfold hi. rewrite le_val_le_bytes, <-(app_nil_r (le_bytes 4 (big_reserved e))), le_val_le_bytes.
    cbn [le_val]. change (256 ^ Z.of_nat 4) with (2 ^ 32). lia.
Qed.

Lemma sys_seen_fields {BG : BitGetters} {GL : BitGettersLaws} offset limit flags x :
  0 ≤ offset < 2 ^ 64 → 0 ≤ limit → is_byte x → sys_seen offset limit flags x = SystemAccessByte_fields x.
Proof.
  intros Ho Hl Hx. unfold sys_seen. destruct (big_bytes_halves (BigGdtEntry_new offset limit x flags)) as [-> ->].
  rewrite decode_big_new by done. unfold SystemAccessByte_fields. by rewrite !get_bit_spec, !get_range_spec by lia.
Qed.

(** The bytes of the constructors. *)
Lemma AccessByte_new_eq {BC : BitCrates} {BL : BitCratesLaws} : AccessByte_new = 0x90.
Proof. unfold AccessByte_new, set_code_data, set_present. eval_bits. reflexivity. Qed.
Lemma SystemAccessByte_new_eq {BC : BitCrates} {BL : BitCratesLaws} t :
  SystemAccessByte_new t = match t with AvailableTss => 0x89 | BusyTss => 0x8b end.
Proof.
  unfold SystemAccessByte_new, set_descriptor_type, set_real_descriptor_type, set_code_data, set_present.
  destruct t; unfold descriptor_type_to_u8; eval_bits; reflexivity.
Qed.

(** ** Theorem *)

(** C39: the access bytes mean what their fields are called. In the descriptor
    that [GdtEntry::new] (for [SystemAccessByte], [BigGdtEntry::new]) makes with
    an access byte, the processor finds the fields that the getters return; after
    a setter it finds the new value (a multi-bit one truncated to the field) in
    the field of that name, at the place the architecture gives it, and the
    others as they were; the constructors give a present segment, and a present
    system descriptor of the type asked for; and no two bytes look the same. *)
Theorem access_byte_fields {BC : BitCrates} {BL : BitCratesLaws} {BG : BitGetters} {GL : BitGettersLaws} offset limit flags x b v :
  0 ≤ offset < 2 ^ 64 → 0 ≤ limit → is_byte x → 0 ≤ v →
  let see := seen offset limit flags in let f := see x in
  let sys_see := sys_seen offset limit flags in let g := sys_see x in
  (AccessByte_fields x = f ∧ SystemAccessByte_fields x = g) ∧
  (see (set_present x b) = mkAccess b (privilege f) (code_data f) (executable f) (direction f) (read_write f) (accessed f) ∧
   see (set_privilege x v) = mkAccess (present f) (v mod 4) (code_data f) (executable f) (direction f) (read_write f) (accessed f) ∧
   see (set_code_data x b) = mkAccess (present f) (privilege f) b (executable f) (direction f) (read_write f) (accessed f) ∧
   see (set_executable x b) = mkAccess (present f) (privilege f) (code_data f) b (direction f) (read_write f) (accessed f) ∧
   see (set_direction x b) = mkAccess (present f) (privilege f) (code_data f) (executable f) b (read_write f) (accessed f) ∧
   see (set_read_write x b) = mkAccess (present f) (privilege f) (code_data f) (executable f) (direction f) b (accessed f) ∧
   see (set_accessed x b) = mkAccess (present f) (privilege f) (code_data f) (executable f) (direction f) (read_write f) b) ∧
  (sys_see (set_present x b) = mkSystem b (sys_privilege g) (sys_code_data g) (real_descriptor_type g) ∧
   sys_see (set_privilege x v) = mkSystem (sys_present g) (v mod 4) (sys_code_data g) (real_descriptor_type g) ∧
   sys_see (set_code_data x b) = mkSystem (sys_present g) (sys_privilege g) b (real_descriptor_type g) ∧
   sys_see (set_real_descriptor_type x v) = mkSystem (sys_present g) (sys_privilege g) (sys_code_data g) (v mod 16)) ∧
  see AccessByte_new = mkAccess true 0 true false false false false ∧
  (∀ t, sys_see (SystemAccessByte_new t) = mkSystem true 0 false (match t with AvailableTss => 9 | BusyTss => 11 end)) ∧
  (∀ y, is_byte y → see x = see y ∨ sys_see x = sys_see y → x = y).
Proof.
  intros Ho Hl Hx Hv see f sys_see g.
  assert (∀ y, is_byte y → see y = AccessByte_fields y) as Hs by (intros; apply seen_fields; done || lia).
  assert (∀ y, is_byte y → sys_see y = SystemAccessByte_fields y) as Hss by (intros; by apply sys_seen_fields).
  assert (is_byte 0) as H0 by done.
  destruct (access_fields_setters x b v Hx Hv) as ([B1 E1] & [B2 E2] & [B3 E3] & [B4 E4] & [B5 E5] & [B6 E6] & [B7 E7] & [B8 E8] & Hd).
  destruct (system_fields_setters x b v Hx Hv) as (S1 & S2 & S3).
  unfold f, g. rewrite !Hs, !Hss, E1, E2, E3, E4, E5, E6, E7, E8, S1, S2, S3 by done.
  split; [done|]. split; [by split_and!|]. split; [by split_and!|]. split; [|split].
  - rewrite AccessByte_new_eq, Hs by done. unfold AccessByte_fields. by rewrite !get_bit_spec, get_range_spec by lia.
  - intros t. rewrite SystemAccessByte_new_eq, Hss by by destruct t. unfold SystemAccessByte_fields.
    rewrite !get_bit_spec, !get_range_spec by lia. by destruct t.
  - intros y Hy Hf. rewrite Hs, Hss in Hf by done. by apply Hd.
Qed.

Lemma access_byte_fields_witness :
  seen 0 0 GDT_F_LONG_MODE (set_privilege AccessByte_new 3) = mkAccess true 3 true false false false false.
Proof.
  destruct (access_byte_fields 0 0 GDT_F_LONG_MODE AccessByte_new true 3) as (_ & (_ & H & _) & _).
  - lia.
  - lia.
  - split; vm_compute; congruence.
  - lia.
  - rewrite H. vm_compute. reflexivity.
Defined.
