(* ===== verification/Cpu.v ===== *)
(** * The layout of the per-CPU data (src/src/cpu.rs)

    [Cpu] is [repr(C, align(4096))]: its fields are laid out in the order of
    their declaration, each at the next multiple of its alignment. The models of
    the fields use the addresses of [NEW_CPU]'s parts as parameters; here they are
    computed, and the parts shown to lie apart. *)
From S2P Require Import Prelude Memory Bits Gdt.

(** ** [repr(C)] *)
Definition next_multiple (x a : Z) : Z := (x + a - 1) / a * a.

(** The offsets of fields given by size and alignment, from the offset [off]
    on; and the offset after the last one. *)
Fixpoint field_offsets (off : Z) (fields : list (Z * Z)) : list Z :=
  match fields with
  | [] => []
  | (sz, al) :: fields' => let o := next_multiple off al in o :: field_offsets (o + sz) fields'
  end.
Fixpoint fields_end (off : Z) (fields : list (Z * Z)) : Z :=
  match fields with
  | [] => off
  | (sz, al) :: fields' => fields_end (next_multiple off al + sz) fields'
  end.
(** The size of a struct is a multiple of its alignment. *)
Definition struct_size (fields : list (Z * Z)) (align : Z) : Z := next_multiple (fields_end 0 fields) align.

(** ** [Cpu] *)
Section cpu.
(** Size and alignment of [XAPIC] and of the x86 crate's [TaskStateSegment]. *)
Context (xapic_size xapic_align tss_size tss_align : Z).

Definition Cpu_fields : list (Z * Z) :=
  [(8, 8);                        (* id: usize *)
   (xapic_size, xapic_align);     (* xapic: MaybeUninit<XAPIC> *)
   (size_of_GDT, 1);              (* gdt: packed *)
   (tss_size, tss_align);         (* tss *)
   (IST_COUNT * IST_STACK_SIZE, 1)].  (* ist: arrays of bytes *)

Definition Cpu_align : Z := 4096.
Definition size_of_Cpu : Z := struct_size Cpu_fields Cpu_align.

(** The address of field [i] of the [Cpu] at [base]. *)
Definition field_addr (base : Z) (i : nat) : Z := base + default 0 (field_offsets 0 Cpu_fields !! i).

(** [get_current()] returns [NEW_CPU], whoever asks. *)
Definition get_current (new_cpu : Z) : Z := new_cpu.
Definition cpu_gdt (cpu : Z) : Z := field_addr cpu 2.
Definition cpu_tss (cpu : Z) : Z := field_addr cpu 3.
Definition cpu_ist (cpu : Z) : Z := field_addr cpu 4.

(** [gdt::init_cpu] on the current CPU. *)
Definition init_current {BC : BitCrates} {XS : X86Selectors} {TSS} {XT : X86Tss TSS} (new_cpu : Z) :
    M (GdtState (TSS := TSS)) unit :=
  let cpu := get_current new_cpu in
  init_cpu (cpu_gdt cpu) (cpu_tss cpu) (cpu_ist cpu).
End cpu.

(** ** Lemmas *)
Lemma next_multiple_bounds x a : 0 < a → x ≤ next_multiple x a < x + a ∧ next_multiple x a mod a = 0.
Proof.
  intros Ha. unfold next_multiple. pose proof (Z.div_mod (x + a - 1) a ltac:(lia)).
  pose proof (Z.mod_pos_bound (x + a - 1) a Ha). split; [lia|]. apply Z.mod_mul. lia.
Qed.

Definition sized (f : Z * Z) : Prop := 0 ≤ f.1 ∧ 0 < f.2.

Lemma fields_end_ge off fields : Forall sized fields → off ≤ fields_end off fields.
Proof.
  revert off. induction fields as [|[sz al] fields IH]; intros off Hf; simpl; [lia|].
  apply Forall_cons in Hf as [[H1 H2] Hf]. simpl in *. specialize (IH (next_multiple off al + sz) Hf).
  pose proof (next_multiple_bounds off al H2). lia.
Qed.

Lemma length_field_offsets off fields : length (field_offsets off fields) = length fields.
Proof. revert off. induction fields as [|[] fields IH]; intros off; simpl; [done|]. by rewrite IH. Qed.

(** A field is aligned and lies in the struct, after all fields before it. *)
Lemma field_inside off fields i o f : Forall sized fields →
  field_offsets off fields !! i = Some o → fields !! i = Some f →
  off ≤ o ∧ o + f.1 ≤ fields_end off fields ∧ o mod f.2 = 0.
Proof.
  revert off i. induction fields as [|[sz al] fields IH]; intros off [|i] Hf Ho Hi; simplify_eq/=;
    apply Forall_cons in Hf as [[H1 H2] Hf]; simpl in *; pose proof (next_multiple_bounds off al H2) as [Hb Hm].
  - pose proof (fields_end_ge (next_multiple off al + sz) fields Hf). done || (split_and!; [lia|lia|done]).
  - destruct (IH _ _ Hf Ho Hi) as (? & ? & ?). split_and!; [lia|done|done].
Qed.

Lemma fields_in_order off fields i j oi oj fi : Forall sized fields → (i < j)%nat →
  field_offsets off fields !! i = Some oi → field_offsets off fields !! j = Some oj → fields !! i = Some fi → oi + fi.1 ≤ oj.
Proof.
  revert off i j. induction fields as [|[sz al] fields IH]; intros off i [|j] Hf Hlt Hi Hj Hfi; try done; [lia|].
  pose proof Hf as Hf'. apply Forall_cons in Hf' as [[H1 H2] Hf']. destruct i as [|i]; simplify_eq/=.
  - assert (∃ f, fields !! j = Some f) as [f Hfj].
    { apply lookup_lt_is_Some_2. apply lookup_lt_Some in Hj. by rewrite length_field_offsets in Hj. }
    by destruct (field_inside _ _ _ _ _ Hf' Hj Hfj).
  - eapply IH; [done| |done|done|done]. lia.
Qed.

Section layout.
Context (xs xa ts ta : Z) (Hx : sized (xs, xa)) (Ht : sized (ts, ta)).
Local Abbreviation fields_ := (Cpu_fields xs xa ts ta).

Lemma Cpu_fields_sized : Forall sized fields_.
Proof. unfold Cpu_fields. repeat constructor; try apply Hx; try apply Ht; simpl; unfold size_of_GDT; vm_compute; congruence. Qed.

(** [gdt], [tss] and [ist] in this order inside of the struct. *)
Lemma cpu_parts base :
  base + 8 + xs ≤ cpu_gdt xs xa ts ta base ∧
  cpu_gdt xs xa ts ta base + size_of_GDT ≤ cpu_tss xs xa ts ta base ∧
  cpu_tss xs xa ts ta base + ts ≤ cpu_ist xs xa ts ta base ∧
  cpu_ist xs xa ts ta base + IST_COUNT * IST_STACK_SIZE ≤ base + size_of_Cpu xs xa ts ta ∧
  (cpu_tss xs xa ts ta base - base) mod ta = 0.
Proof.
  pose proof Cpu_fields_sized as Hs. unfold cpu_gdt, cpu_tss, cpu_ist, field_addr, size_of_Cpu, struct_size.
  pose proof (fields_in_order 0 fields_ 1 2 _ _ _ Hs ltac:(lia) eq_refl eq_refl eq_refl) as H12.
  pose proof (fields_in_order 0 fields_ 0 1 _ _ _ Hs ltac:(lia) eq_refl eq_refl eq_refl) as H01.
  pose proof (fields_in_order 0 fields_ 2 3 _ _ _ Hs ltac:(lia) eq_refl eq_refl eq_refl) as H23.
  pose proof (fields_in_order 0 fields_ 3 4 _ _ _ Hs ltac:(lia) eq_refl eq_refl eq_refl) as H34.
  pose proof (field_inside 0 fields_ 4 _ _ Hs eq_refl eq_refl) as (_ & H4 & _).
  pose proof (field_inside 0 fields_ 3 _ _ Hs eq_refl eq_refl) as (_ & _ & H3).
  pose proof (field_inside 0 fields_ 0 _ _ Hs eq_refl eq_refl) as (H0 & _ & _).
  pose proof (next_multiple_bounds (fields_end 0 fields_) Cpu_align eq_refl) as [Hn _].
  clear Hs Hx Ht. change (fields_ !! 4%nat) with (Some (IST_COUNT * IST_STACK_SIZE, 1)) in *.
  cbn [field_offsets Cpu_fields lookup list_lookup default fst snd option_map from_option] in *.
  change (next_multiple 0 8) with 0 in *. unfold id. split_and!; try lia.
  match goal with |- (base + ?o - base) mod _ = _ => by replace (base + o - base) with o by lia end.
Qed.
End layout.

(** The bytes of the interrupt stack [i]. *)
Definition in_stack (ist_addr i x : Z) : Prop := Stack_bottom ist_addr i - IST_STACK_SIZE ≤ x < Stack_bottom ist_addr i.

(** ** Theorem *)

(** C40: the boot CPU's data. [init_cpu], run on the [Cpu] that [get_current]
    returns, leaves the GDTR at that [Cpu]'s table and a TSS whose seven
    interrupt stacks (the first also serves as the ring 0 stack) each have
    1 MiB, lie inside of the [Cpu], and overlap neither each other nor the
    [Cpu]'s GDT and TSS; the TSS is aligned as its type asks, and GDT and TSS do
    not overlap either. *)
Theorem cpu_stacks_apart {BC : BitCrates} {BL : BitCratesLaws} {XS : X86Selectors} {XL : X86SelectorsLaws}
    {TSS : Type} {XT : X86Tss TSS} {TL : X86TssLaws TSS} xs xa ts ta new_cpu (s : GdtState (TSS := TSS)) :
  sized (xs, xa) → sized (ts, ta) → new_cpu mod ta = 0 →
  let gdt := cpu_gdt xs xa ts ta new_cpu in let tss := cpu_tss xs xa ts ta new_cpu in
  wp (init_current xs xa ts ta new_cpu) (λ _ s',
      gdtr_base (st_regs s') = gdt ∧ gdt + size_of_GDT ≤ tss ∧ tss mod ta = 0 ∧
      ∃ ist, (∀ i, 0 ≤ i < 7 → tss_ist i (st_tss s') = Stack_bottom ist i) ∧ tss_rsp0 (st_tss s') = tss_ist 0 (st_tss s') ∧
        (∀ i j x, 0 ≤ i < 7 → 0 ≤ j < 7 → in_stack ist i x → in_stack ist j x → i = j) ∧
        (∀ i x, 0 ≤ i < 7 → in_stack ist i x →
           tss + ts ≤ x ∧ gdt + size_of_GDT ≤ x ∧ new_cpu ≤ x < new_cpu + size_of_Cpu xs xa ts ta)) s.
Proof.
  intros Hx Ht Hal gdt tss. pose proof (cpu_parts xs xa ts ta Hx Ht new_cpu) as (H1 & H2 & H3 & H4 & H5).
  fold gdt tss in H1, H2, H3, H5. unfold init_current, get_current.
  eapply wp_mono; [apply init_cpu_run|]. intros [] s' (_ & Hr & Hist & Hrsp). rewrite Hr.
  split_and!; [done|done| |].
  - destruct Ht as [_ Ht]. simpl in Ht. replace tss with (new_cpu + (tss - new_cpu)) by lia.
    rewrite Z.add_mod, Hal, H5 by lia. by rewrite Z.mod_0_l by lia.
  - exists (cpu_ist xs xa ts ta new_cpu). split_and!; [done|by rewrite Hrsp, Hist| |].
    + intros i j x Hi Hj. unfold in_stack, Stack_bottom, IST_STACK_SIZE. lia.
    + destruct Hx as [Hx _], Ht as [Ht _]. simpl in Hx, Ht.
      assert (0 < size_of_GDT) as Hg by done.
      intros i x Hi. unfold in_stack, Stack_bottom, IST_STACK_SIZE, IST_COUNT in *. lia.
Qed.

Lemma cpu_stacks_apart_witness :
  wp (init_current (BC := bit_crates) (XS := x86_selectors) (XT := fun_tss) 24 8 104 4 0x200000) (λ _ s',
      gdtr_base (st_regs s') = 0x200020 ∧ 0x200020 + size_of_GDT ≤ 0x200058)
    (Cpu_new (TSS := FunTss) (mkSegRegs 0 0 0 0 0 0 0)).
Proof.
  eapply wp_mono; [apply (cpu_stacks_apart (BC := bit_crates) (XS := x86_selectors) (XT := fun_tss) 24 8 104 4 0x200000)|].
  - split; simpl; lia.
  - split; simpl; lia.
  - reflexivity.
  - intros [] s' (H1 & H2 & _). split; [exact H1|exact H2].
Defined.
