(* ===== verification/Boot.v ===== *)
(** * From the loader to [rust_main] (src/src/boot.asm)

    The 32-bit code that the loader enters: the magic number, the page tables,
    the switch to long mode, and the 64-bit entry that calls [rust_main]. The
    instructions are an inductive type with an executable semantics; [call],
    [ret], the two loops and the error exit are functions on top of it. The
    stack holds the return addresses, so that code which destroys them is
    seen to lose control. What the page tables mean is the processor's 4-level
    translation. *)
From stdpp Require Import functions.
From S2P Require Import Prelude Memory Bits Gdt.

(** ** The machine *)
Inductive reg32 : Set := EAX | EBX | ECX | EDX | EDI | ESP.
#[export] Instance reg32_eq_dec : EqDecision reg32.
Proof. solve_decision. Defined.

Inductive creg : Set := CR0 | CR3 | CR4.
#[export] Instance creg_eq_dec : EqDecision creg.
Proof. solve_decision. Defined.

(** The registers, control registers and model-specific registers, the GDTR
    (base and limit), CS, the data segments (SS, DS, ES, FS, GS), the
    instruction pointer after a transfer of control, the direction flag, and
    memory. ESP is RSP in long mode. *)
Record Boot : Type := mkBoot {
  b_regs : reg32 → Z;
  b_crs : creg → Z;
  b_msr : Z → Z;
  b_gdtr : Z * Z;
  b_cs : Z;
  b_segs : list Z;
  b_ip : Z;
  b_df : bool;
  b_mem : memory;
}.

Definition upd_regs (f : (reg32 → Z) → reg32 → Z) (m : Boot) : Boot :=
  mkBoot (f (b_regs m)) (b_crs m) (b_msr m) (b_gdtr m) (b_cs m) (b_segs m) (b_ip m) (b_df m) (b_mem m).
Definition upd_crs (f : (creg → Z) → creg → Z) (m : Boot) : Boot :=
  mkBoot (b_regs m) (f (b_crs m)) (b_msr m) (b_gdtr m) (b_cs m) (b_segs m) (b_ip m) (b_df m) (b_mem m).
Definition upd_msr (f : (Z → Z) → Z → Z) (m : Boot) : Boot :=
  mkBoot (b_regs m) (b_crs m) (f (b_msr m)) (b_gdtr m) (b_cs m) (b_segs m) (b_ip m) (b_df m) (b_mem m).
Definition upd_mem (f : memory → memory) (m : Boot) : Boot :=
  mkBoot (b_regs m) (b_crs m) (b_msr m) (b_gdtr m) (b_cs m) (b_segs m) (b_ip m) (b_df m) (f (b_mem m)).
Definition set_ip (ip : Z) (m : Boot) : Boot :=
  mkBoot (b_regs m) (b_crs m) (b_msr m) (b_gdtr m) (b_cs m) (b_segs m) ip (b_df m) (b_mem m).

Definition set32 (r : reg32) (v : Z) : Boot → Boot := upd_regs <[r := as_u32 v]>.

(** ** Instructions *)
Inductive instr32 : Set :=
  | MovI (r : reg32) (v : Z)        (** [mov r, v] *)
  | MovAl (v : Z)                   (** [mov al, v] *)
  | OrI (r : reg32) (v : Z)         (** [or r, v] *)
  | XorR (r : reg32)                (** [xor r, r] *)
  | AddI (r : reg32) (v : Z)        (** [add r, v] *)
  | StoreR (a : Z) (r : reg32)      (** [mov [a], r] *)
  | StoreI (a v : Z)                (** [mov dword [a], v] *)
  | StoreAl (a : Z)                 (** [mov byte [a], al] *)
  | StoreAt (r s : reg32)           (** [mov [r], s] *)
  | RepStosd                        (** [rep stosd] *)
  | FromCr (r : reg32) (c : creg)   (** [mov r, c] *)
  | ToCr (c : creg) (r : reg32)     (** [mov c, r] *)
  | Rdmsr
  | Wrmsr
  | Lgdt (a : Z).                   (** [lgdt [a]] *)

Definition store32 (a v : Z) : Boot → Boot := upd_mem (write_le 4 (as_u32 a) v).

(** One round of [rep stosd]. *)
Definition stosd (m : Boot) : Boot :=
  let m := store32 (b_regs m EDI) (b_regs m EAX) m in
  let m := set32 EDI (if b_df m then b_regs m EDI - 4 else b_regs m EDI + 4) m in
  set32 ECX (b_regs m ECX - 1) m.

Definition exec32 (i : instr32) (m : Boot) : Boot :=
  match i with
  | MovI r v => set32 r v m
  | MovAl v => set32 EAX (b_regs m EAX - b_regs m EAX mod 2 ^ 8 + v) m
  | OrI r v => set32 r (Z.lor (b_regs m r) v) m
  | XorR r => set32 r (Z.lxor (b_regs m r) (b_regs m r)) m
  | AddI r v => set32 r (b_regs m r + v) m
  | StoreR a r => store32 a (b_regs m r) m
  | StoreI a v => store32 a v m
  | StoreAl a => upd_mem (write_le 1 a (b_regs m EAX mod 2 ^ 8)) m
  | StoreAt r s => store32 (b_regs m r) (b_regs m s) m
  | RepStosd => Nat.iter (Z.to_nat (b_regs m ECX)) stosd m
  | FromCr r c => set32 r (b_crs m c) m
  | ToCr c r => upd_crs <[c := b_regs m r]> m
  | Rdmsr =>
      let v := b_msr m (b_regs m ECX) in set32 EDX (v / 2 ^ 32) (set32 EAX v m)
  | Wrmsr => upd_msr <[b_regs m ECX := 2 ^ 32 * b_regs m EDX + b_regs m EAX]> m
  | Lgdt a =>
      mkBoot (b_regs m) (b_crs m) (b_msr m) (read_le 4 (b_mem m) (a + 2), read_le 2 (b_mem m) a)
        (b_cs m) (b_segs m) (b_ip m) (b_df m) (b_mem m)
  end.

Definition code (l : list instr32) (m : Boot) : Boot := foldl (λ m i, exec32 i m) m l.

(** [loop]: the body runs until ECX, which it does not touch, is 0. *)
Definition loop_round (body : list instr32) (m : Boot) : Boot :=
  let m := code body m in set32 ECX (b_regs m ECX - 1) m.
Definition loop (body : list instr32) (m : Boot) : Boot :=
  Nat.iter (Z.to_nat (if b_regs m ECX =? 0 then 2 ^ 32 else b_regs m ECX))
    (loop_round body) m.

(** ** Control: going on, halted for ever, or at an address that is not the
    one after the [call] *)
Inductive flow : Type :=
  | Next (m : Boot)
  | Halted (m : Boot)
  | Lost (m : Boot).

Definition and_then (f : flow) (k : Boot → flow) : flow :=
  match f with Next m => k m | _ => f end.

Definition push32 (v : Z) (m : Boot) : Boot :=
  let m := set32 ESP (b_regs m ESP - 4) m in store32 (b_regs m ESP) v m.
Definition ret32 (m : Boot) : Boot :=
  set32 ESP (b_regs m ESP + 4) (set_ip (read_le 4 (b_mem m) (b_regs m ESP)) m).

(** A [call] whose next instruction is at [next], of a routine that ends in [ret]. *)
Definition call32 (next : Z) (routine : Boot → flow) (m : Boot) : flow :=
  and_then (routine (push32 next m)) (λ m,
    let m := ret32 m in if b_ip m =? next then Next m else Lost m).

(** ** boot.asm *)

(** The header that the loader looks for (multiboot_header.asm): magic number,
    architecture, length, checksum and the end tag. *)
Definition multiboot_header : list Z :=
  le_bytes 4 0xe85250d6 ++ le_bytes 4 0 ++ le_bytes 4 24 ++ le_bytes 4 (0x100000000 - (0xe85250d6 + 0 + 24)) ++
  le_bytes 2 0 ++ le_bytes 2 0 ++ le_bytes 4 8.

Section boot_asm.
(** The addresses of the symbols: [p4_table], [_bootinfo], [gdt64],
    [long_mode_start] and [rust_main], and the addresses after the calls. *)
Context (p4_table bootinfo gdt64 long_mode_start_ rust_main_ : Z) (after : nat → Z).

(** The sections: two tables and a stack of four pages in [.bss]. *)
Definition p3_table : Z := p4_table + 4096.
Definition stack_bottom : Z := p3_table + 4096.
Definition stack_top : Z := stack_bottom + 4096 * 4.

(** [gdt64] and [gdt64.pointer] in [.rodata]. *)
Definition gdt64_code : Z := 8.
Definition gdt64_bytes : list Z :=
  le_bytes 8 0 ++
  le_bytes 8 (Z.lor (Z.lor (Z.lor (Z.shiftl 1 43) (Z.shiftl 1 44)) (Z.shiftl 1 47)) (Z.shiftl 1 53)) ++
  le_bytes 2 (16 - 1) ++ le_bytes 8 gdt64.
Definition gdt64_pointer : Z := gdt64 + 16.

Definition error (m : Boot) : flow :=
  Halted (code [StoreI 0xb8000 0x4f524f45; StoreI 0xb8004 0x4f3a4f52; StoreI 0xb8008 0x4f204f20;
                StoreAl 0xb800a] m).

Definition check_multiboot (m : Boot) : flow :=
  if b_regs m EAX =? 0x36d76289
  then Next (code [StoreR bootinfo EBX; StoreI (bootinfo + 4) 0] m)
  else error (code [MovAl 77] m).

Definition set_up_page_tables (m : Boot) : flow :=
  let m := code [MovI EDI p4_table; MovI ECX 4096; XorR EAX; RepStosd] m in
  let m := code [MovI EAX p3_table; OrI EAX 3; StoreR p4_table EAX] m in
  let m := code [MovI EDI p3_table; MovI EAX 0x83; MovI ECX 4] m in
  Next (loop [StoreAt EDI EAX; AddI EAX 0x40000000; AddI EDI 8] m).

Definition enable_paging (m : Boot) : flow :=
  let m := code [MovI EAX p4_table; ToCr CR3 EAX] m in
  let m := code [FromCr EAX CR4; OrI EAX (Z.shiftl 1 5); ToCr CR4 EAX] m in
  let m := code [MovI ECX 0xC0000080; Rdmsr; OrI EAX (Z.shiftl 1 8); Wrmsr] m in
  Next (code [FromCr EAX CR0; OrI EAX (Z.shiftl 1 31); ToCr CR0 EAX] m).

(** [jmp gdt64.code:long_mode_start] *)
Definition far_jump (m : Boot) : flow :=
  Next (mkBoot (b_regs m) (b_crs m) (b_msr m) (b_gdtr m) gdt64_code (b_segs m) long_mode_start_ (b_df m) (b_mem m)).

Definition start (m : Boot) : flow :=
  and_then (call32 (after 1) check_multiboot m) (λ m,
  let m := code [MovI ESP stack_top] m in
  and_then (call32 (after 2) set_up_page_tables m) (λ m,
  and_then (call32 (after 3) enable_paging m) (λ m,
  far_jump (code [Lgdt gdt64_pointer] m)))).

(** The 64-bit entry, up to the first instruction of [rust_main], which never
    returns. *)
Definition long_mode_start (m : Boot) : flow :=
  let m := upd_regs <[EAX := b_regs m EAX - b_regs m EAX mod 2 ^ 16]> m in
  let ax := b_regs m EAX mod 2 ^ 16 in
  let m := mkBoot (b_regs m) (b_crs m) (b_msr m) (b_gdtr m) (b_cs m) [ax; ax; ax; ax; ax] (b_ip m) (b_df m) (b_mem m) in
  let m := upd_regs <[ESP := stack_top]> m in
  let m := upd_regs <[ESP := as_u64 (b_regs m ESP - 8)]> m in
  Next (set_ip rust_main_ (upd_mem (write_le 8 (b_regs m ESP) (after 4)) m)).

Definition boot_asm (m : Boot) : flow := and_then (start m) long_mode_start.
End boot_asm.

(** ** What the processor makes of the page tables *)

(** Long mode with paging: PG, PAE and LME. *)
Definition IA32_EFER : Z := 0xC0000080.
Definition long_mode (m : Boot) : bool :=
  Z.testbit (b_crs m CR0) 31 && Z.testbit (b_crs m CR4) 5 && Z.testbit (b_msr m IA32_EFER) 8.

(** An entry of a table: present, writable, page size, and the address. *)
Definition pte_present (e : Z) : bool := Z.testbit e 0.
Definition pte_writable (e : Z) : bool := Z.testbit e 1.
Definition pte_ps (e : Z) : bool := Z.testbit e 7.
Definition pte_addr (e : Z) : Z := bits_of e 12 40 * 2 ^ 12.

(** One level of the walk: the entry of [v] in the table at [t], whose index
    is the 9 bits of [v] from bit [sh] up. *)
Definition pt_entry (mem : memory) (t v sh : Z) : option Z :=
  let e := read_u64 mem (t + 8 * bits_of v sh 9) in
  if pte_present e then Some e else None.

Definition canonical (v : Z) : bool :=
  ((0 <=? v) && (v <? 2 ^ 47)) || ((2 ^ 64 - 2 ^ 47 <=? v) && (v <? 2 ^ 64)).

(** The physical address of [v] and whether it can be written; [None] is a
    fault (a page that is not present, a reserved bit, an address that is not
    canonical). *)
Definition translate (mem : memory) (cr3 v : Z) : option (Z * bool) :=
  if canonical v then
    e4 ← pt_entry mem (pte_addr cr3) v 39;
    if pte_ps e4 then None else
    e3 ← pt_entry mem (pte_addr e4) v 30;
    let w3 := pte_writable e4 && pte_writable e3 in
    if pte_ps e3 then
      if bits_of e3 13 17 =? 0 then Some (bits_of e3 30 22 * 2 ^ 30 + bits_of v 0 30, w3) else None
    else
    e2 ← pt_entry mem (pte_addr e3) v 21;
    let w2 := w3 && pte_writable e2 in
    if pte_ps e2 then
      if bits_of e2 13 8 =? 0 then Some (bits_of e2 21 31 * 2 ^ 21 + bits_of v 0 21, w2) else None
    else
    e1 ← pt_entry mem (pte_addr e2) v 12;
    Some (pte_addr e1 + bits_of v 0 12, w2 && pte_writable e1)
  else None.

(** ** Running the routines *)

(** The state [m] with other registers and memory. *)
Definition with_rm (regs : reg32 → Z) (mem : memory) (m : Boot) : Boot :=
  mkBoot regs (b_crs m) (b_msr m) (b_gdtr m) (b_cs m) (b_segs m) (b_ip m) (b_df m) mem.

Lemma as_u32_small x : 0 ≤ x < 2 ^ 32 → as_u32 x = x.
Proof. apply Z.mod_small. Qed.

(** Instructions on a state in this form. *)
Lemma with_rm_id m : m = with_rm (b_regs m) (b_mem m) m.
Proof. by destruct m. Qed.
Lemma code_start l m : code l m = code l (with_rm (b_regs m) (b_mem m) m).
Proof. by rewrite <-with_rm_id. Qed.
Lemma code_nil m : code [] m = m.
Proof. done. Qed.
Lemma code_cons i l m : code (i :: l) m = code l (exec32 i m).
Proof. done. Qed.

Section instructions.
Context (g : reg32 → Z) (mem : memory) (m : Boot).
Lemma exec_MovI r v : exec32 (MovI r v) (with_rm g mem m) = with_rm (<[r := as_u32 v]> g) mem m.
Proof. done. Qed.
Lemma exec_MovAl v : exec32 (MovAl v) (with_rm g mem m) = with_rm (<[EAX := as_u32 (g EAX - g EAX mod 2 ^ 8 + v)]> g) mem m.
Proof. done. Qed.
Lemma exec_OrI r v : exec32 (OrI r v) (with_rm g mem m) = with_rm (<[r := as_u32 (Z.lor (g r) v)]> g) mem m.
Proof. done. Qed.
Lemma exec_XorR r : exec32 (XorR r) (with_rm g mem m) = with_rm (<[r := 0]> g) mem m.
Proof. cbn [exec32 b_regs with_rm]. by rewrite Z.lxor_nilpotent. Qed.
Lemma exec_AddI r v : exec32 (AddI r v) (with_rm g mem m) = with_rm (<[r := as_u32 (g r + v)]> g) mem m.
Proof. done. Qed.
Lemma exec_StoreR a r : exec32 (StoreR a r) (with_rm g mem m) = with_rm g (write_le 4 (as_u32 a) (g r) mem) m.
Proof. done. Qed.
Lemma exec_StoreI a v : exec32 (StoreI a v) (with_rm g mem m) = with_rm g (write_le 4 (as_u32 a) v mem) m.
Proof. done. Qed.
Lemma exec_StoreAl a : exec32 (StoreAl a) (with_rm g mem m) = with_rm g (write_le 1 a (g EAX mod 2 ^ 8) mem) m.
Proof. done. Qed.
Lemma exec_StoreAt r s : exec32 (StoreAt r s) (with_rm g mem m) = with_rm g (write_le 4 (as_u32 (g r)) (g s) mem) m.
Proof. done. Qed.
Lemma exec_RepStosd : exec32 RepStosd (with_rm g mem m) = Nat.iter (Z.to_nat (g ECX)) stosd (with_rm g mem m).
Proof. done. Qed.
Lemma exec_FromCr r c : exec32 (FromCr r c) (with_rm g mem m) = with_rm (<[r := as_u32 (b_crs m c)]> g) mem m.
Proof. done. Qed.
Lemma exec_ToCr r c : exec32 (ToCr c r) (with_rm g mem m) = with_rm g mem (upd_crs <[c := g r]> m).
Proof. done. Qed.
Lemma exec_Rdmsr : exec32 Rdmsr (with_rm g mem m) =
  with_rm (<[EDX := as_u32 (b_msr m (g ECX) / 2 ^ 32)]> (<[EAX := as_u32 (b_msr m (g ECX))]> g)) mem m.
Proof. done. Qed.
Lemma exec_Wrmsr : exec32 Wrmsr (with_rm g mem m) = with_rm g mem (upd_msr <[g ECX := 2 ^ 32 * g EDX + g EAX]> m).
Proof. done. Qed.
Lemma set32_rm r v : set32 r v (with_rm g mem m) = with_rm (<[r := as_u32 v]> g) mem m.
Proof. done. Qed.
Lemma store32_rm a v : store32 a v (with_rm g mem m) = with_rm g (write_le 4 (as_u32 a) v mem) m.
Proof. done. Qed.
Lemma regs_rm : b_regs (with_rm g mem m) = g.
Proof. done. Qed.
Lemma mem_rm : b_mem (with_rm g mem m) = mem.
Proof. done. Qed.
Lemma df_rm : b_df (with_rm g mem m) = b_df m.
Proof. done. Qed.
Lemma rm_rm g' mem' : with_rm g mem (with_rm g' mem' m) = with_rm g mem m.
Proof. done. Qed.
Lemma crs_upd_crs f : b_crs (upd_crs f m) = f (b_crs m).
Proof. done. Qed.
Lemma crs_upd_msr f : b_crs (upd_msr f m) = b_crs m.
Proof. done. Qed.
Lemma msr_upd_crs f : b_msr (upd_crs f m) = b_msr m.
Proof. done. Qed.
Lemma msr_upd_msr f : b_msr (upd_msr f m) = f (b_msr m).
Proof. done. Qed.
End instructions.

Create Rewrite HintDb boot32.
#[export] Hint Rewrite code_nil code_cons exec_MovI exec_MovAl exec_OrI exec_XorR exec_AddI exec_StoreR exec_StoreI
  exec_StoreAl exec_StoreAt exec_RepStosd exec_FromCr exec_ToCr exec_Rdmsr exec_Wrmsr set32_rm store32_rm regs_rm mem_rm
  df_rm rm_rm crs_upd_crs crs_upd_msr msr_upd_crs msr_upd_msr : boot32.

(** Evaluate straight-line code and the reads of the registers it wrote. *)
Ltac regs32 := repeat (rewrite fn_lookup_insert || rewrite fn_lookup_insert_ne by done).
Ltac run32 := repeat (progress autorewrite with boot32 || (progress regs32)).

(** [rep stosd] with EAX = 0 and the direction flag clear clears memory. *)
Lemma stosd_clears n m :
  b_df m = false → b_regs m EAX = 0 → 0 ≤ b_regs m EDI → b_regs m EDI + 4 * Z.of_nat n ≤ 2 ^ 32 - 4 →
  ∃ regs mem, Nat.iter n stosd m = with_rm regs mem m ∧ regs EAX = 0 ∧ regs EDI = b_regs m EDI + 4 * Z.of_nat n ∧
    (∀ r, r ≠ EDI → r ≠ ECX → regs r = b_regs m r) ∧
    ∀ x, mem x = if decide (b_regs m EDI ≤ x < b_regs m EDI + 4 * Z.of_nat n) then 0 else b_mem m x.
Proof.
  intros Hdf Ha Hd. induction n as [|n IH]; intros Hmax.
  - exists (b_regs m), (b_mem m). split; [by destruct m|]. split_and!; [done|lia|done|]. intros x.
    by rewrite decide_False by lia.
  - destruct IH as (regs & mem & E & Ea & Ed & Er & Em); [lia|]. change (Nat.iter (S n) stosd m) with (stosd (Nat.iter n stosd m)). rewrite E.
    unfold stosd. cbv zeta. run32. rewrite Hdf, Ea, Ed, !(as_u32_small (_ + _)) by lia.
    eexists _, _. split; [reflexivity|]. regs32.
    split_and!; [done|lia|by intros; regs32; apply Er|]. intros x.
    destruct (decide (b_regs m EDI + 4 * Z.of_nat n ≤ x < b_regs m EDI + 4 * Z.of_nat n + 4)) as [Hx|Hx].
    + rewrite decide_True by lia. unfold write_le.
      change (le_bytes 4 0) with (replicate 4 0). rewrite slice_get_replicate by lia. done.
    + rewrite write_le_other, Em by lia. repeat case_decide; done || lia.
Qed.

(** One round of the loop of [set_up_page_tables]. *)
Lemma map_round d a c regs mem m :
  0 ≤ d ≤ 2 ^ 32 - 8 → regs EDI = d → regs EAX = a → regs ECX = c →
  ∃ regs', loop_round [StoreAt EDI EAX; AddI EAX 0x40000000; AddI EDI 8] (with_rm regs mem m) =
      with_rm regs' (write_le 4 d a mem) m ∧
    regs' EDI = as_u32 (d + 8) ∧ regs' EAX = as_u32 (a + 0x40000000) ∧ regs' ECX = as_u32 (c - 1) ∧
    ∀ r, r = ESP ∨ r = EBX → regs' r = regs r.
Proof.
  intros Hd Ed Ea Ec.
  exists (<[ECX := as_u32 (c - 1)]> (<[EDI := as_u32 (d + 8)]> (<[EAX := as_u32 (a + 0x40000000)]> regs))).
  unfold loop_round. cbv zeta. run32. rewrite Ed, Ea, Ec, (as_u32_small d) by lia.
  split_and!; [done..|]. by intros r [-> | ->]; regs32.
Qed.

(** ** The page tables *)

(** The tables as [set_up_page_tables] leaves them. *)
Definition boot_tables (p4 : Z) (mem : memory) : Prop :=
  ∀ i, 0 ≤ i < 512 →
    read_u64 mem (p4 + 8 * i) = (if i =? 0 then p4 + 4096 + 3 else 0) ∧
    read_u64 mem (p4 + 4096 + 8 * i) = (if i <? 4 then i * 2 ^ 30 + 0x83 else 0).

(** Memory with the tables cleared and filled. *)
Definition map4 (p3 : Z) (mem : memory) : memory :=
  write_le 4 (p3 + 24) (3 * 2 ^ 30 + 0x83) (write_le 4 (p3 + 16) (2 * 2 ^ 30 + 0x83)
    (write_le 4 (p3 + 8) (2 ^ 30 + 0x83) (write_le 4 p3 0x83 mem))).

Lemma read_u64_low32 mem a : (∀ x, a + 4 ≤ x < a + 8 → mem x = 0) → read_u64 mem a = read_le 4 mem a.
Proof.
  intros H. unfold read_u64. rewrite (read_le_split 4 4), (read_le_zero 4 mem (a + Z.of_nat 4)).
  - lia.
  - intros x Hx. apply H. lia.
Qed.

Lemma map4_other p3 mem x :
  (∀ i, 0 ≤ i < 4 → x < p3 + 8 * i ∨ p3 + 8 * i + 4 ≤ x) → map4 p3 mem x = mem x.
Proof.
  intros H. unfold map4. pose proof (H 0). pose proof (H 1). pose proof (H 2). pose proof (H 3).
  by rewrite !write_le_other by lia.
Qed.

Lemma map4_tables p4 mem :
  (∀ x, p4 ≤ x < p4 + 8192 → mem x = 0) → 0 ≤ p4 < 2 ^ 32 - 8192 →
  boot_tables p4 (map4 (p4 + 4096) (write_le 4 p4 (p4 + 4096 + 3) mem)).
Proof.
  intros Hz Hp i Hi. set (mem1 := write_le 4 p4 _ mem).
  assert (∀ x, p4 + 4 ≤ x < p4 + 8192 → mem1 x = 0) as Hz1.
  { intros x Hx. unfold mem1. rewrite write_le_other by lia. apply Hz. lia. }
  split.
  - transitivity (read_u64 mem1 (p4 + 8 * i)).
    { apply read_le_agree. intros x Hx. apply map4_other. intros; lia. }
    destruct (Z.eqb_spec i 0) as [->|Hne].
    + rewrite read_u64_low32 by (intros; apply Hz1; lia). rewrite Z.add_0_r. unfold mem1.
      rewrite read_write_le; [lia|]. change (256 ^ Z.of_nat 4) with (2 ^ 32). lia.
    + apply read_le_zero. intros x Hx. apply Hz1. lia.
  - destruct (Z.ltb_spec i 4) as [Hlt|Hge].
    + rewrite read_u64_low32 by (intros; rewrite map4_other by (intros; lia); apply Hz1; lia).
      assert (i = 0 ∨ i = 1 ∨ i = 2 ∨ i = 3) as [-> | [-> | [-> | ->]]] by lia; unfold map4;
        rewrite ?Z.add_0_r, ?read_le_write_other by lia; by apply read_write_le.
    + apply read_le_zero. intros x Hx. rewrite map4_other by (intros; lia). apply Hz1. lia.
Qed.

(** Low bits and the field above them. *)
Lemma testbit_low a n b k : 0 ≤ k < n → 0 ≤ b < 2 ^ n → Z.testbit (a * 2 ^ n + b) k = Z.testbit b k.
Proof.
  intros Hk Hb. rewrite <-(Z.mod_pow2_bits_low (a * 2 ^ n + b) n) by lia. f_equal.
  rewrite Z.add_comm, Z.mod_add by lia. by apply Z.mod_small.
Qed.
Lemma bits_of_high a n b k : 0 ≤ n → 0 ≤ k → 0 ≤ b < 2 ^ n → 0 ≤ a < 2 ^ k → bits_of (a * 2 ^ n + b) n k = a.
Proof.
  intros Hn Hk Hb Ha. replace (a * 2 ^ n + b) with (b + 2 ^ n * (a + 2 ^ k * 0)) by lia. by apply bits_of_field.
Qed.
Lemma bits_of_div v n k : 0 ≤ n → bits_of v n k = v / 2 ^ n mod 2 ^ k.
Proof. intros Hn. unfold bits_of. by rewrite Z.shiftr_div_pow2. Qed.

Lemma pte_addr_table p flags : p mod 4096 = 0 → 0 ≤ p < 2 ^ 32 → 0 ≤ flags < 4096 → pte_addr (p + flags) = p.
Proof.
  intros Hm Hp Hf. unfold pte_addr. rewrite (Z.div_mod p 4096) by lia. rewrite Hm, Z.add_0_r.
  rewrite (Z.mul_comm 4096). change 4096 with (2 ^ 12) in *. rewrite bits_of_high; try lia.
  split; [apply Z.div_pos; lia|apply Z.div_lt_upper_bound; lia].
Qed.

(** The first table has one entry, for the low 512 GiB. *)
Lemma canonical_index v : canonical v = true → (bits_of v 39 9 =? 0) = bool_decide (0 ≤ v < 2 ^ 39).
Proof.
  unfold canonical. rewrite bits_of_div by lia. intros [[H1 H2]%andb_true_iff|[H1 H2]%andb_true_iff]%orb_true_iff.
  - apply Z.leb_le in H1. apply Z.ltb_lt in H2.
    rewrite Z.mod_small by (split; [apply Z.div_pos; lia|apply Z.div_lt_upper_bound; lia]).
    case_bool_decide as H; [apply Z.eqb_eq, Z.div_small; lia|]. apply Z.eqb_neq.
    assert (1 ≤ v / 2 ^ 39) by (apply Z.div_le_lower_bound; lia). lia.
  - apply Z.leb_le in H1. apply Z.ltb_lt in H2. rewrite bool_decide_eq_false_2 by lia. apply Z.eqb_neq.
    assert (2 ^ 25 - 2 ^ 8 ≤ v / 2 ^ 39 < 2 ^ 25).
    { split; [apply Z.div_le_lower_bound; lia|apply Z.div_lt_upper_bound; lia]. }
    replace (v / 2 ^ 39) with (v / 2 ^ 39 - (2 ^ 16 - 1) * 2 ^ 9 + (2 ^ 16 - 1) * 2 ^ 9) by lia.
    rewrite Z.mod_add, Z.mod_small by lia. lia.
Qed.

Lemma entry3 i : 0 ≤ i < 4 →
  let e := i * 2 ^ 30 + 0x83 in
  pte_present e = true ∧ pte_writable e = true ∧ pte_ps e = true ∧ bits_of e 13 17 = 0 ∧ bits_of e 30 22 = i.
Proof.
  intros Hi. assert (i = 0 ∨ i = 1 ∨ i = 2 ∨ i = 3) as [-> | [-> | [-> | ->]]] by lia; by vm_compute.
Qed.

(** The two levels of the walk. *)
Lemma table_bits p k : p mod 4096 = 0 → 0 ≤ k < 12 → Z.testbit (p + 3) k = Z.testbit 3 k.
Proof.
  intros Hm Hk. rewrite (Z.div_mod p 4096), Hm, Z.add_0_r, (Z.mul_comm 4096) by lia. by apply (testbit_low _ 12).
Qed.

Lemma pt_entry4 p4 mem v : boot_tables p4 mem → (p4 + 4096) mod 4096 = 0 →
  pt_entry mem p4 v 39 = if bits_of v 39 9 =? 0 then Some (p4 + 4096 + 3) else None.
Proof.
  intros HT Hm. unfold pt_entry. destruct (HT (bits_of v 39 9)) as [-> _]; [by apply Z.mod_pos_bound|].
  destruct (_ =? 0); [|done]. unfold pte_present. by rewrite table_bits by (done || lia).
Qed.
Lemma pt_entry3 p4 mem v : boot_tables p4 mem →
  pt_entry mem (p4 + 4096) v 30 = if bits_of v 30 9 <? 4 then Some (bits_of v 30 9 * 2 ^ 30 + 0x83) else None.
Proof.
  intros HT. assert (0 ≤ bits_of v 30 9 < 512) as Hr by by apply Z.mod_pos_bound.
  unfold pt_entry. destruct (HT _ Hr) as [_ ->].
  destruct (Z.ltb_spec (bits_of v 30 9) 4); [|done]. by destruct (entry3 (bits_of v 30 9)) as [-> _]; [lia|].
Qed.

(** The tables map the first 4 GiB to themselves, writable, and nothing else. *)
Lemma translate_boot_tables p4 mem v :
  boot_tables p4 mem → p4 mod 4096 = 0 → 0 ≤ p4 → p4 + 8192 < 2 ^ 32 →
  translate mem p4 v = if bool_decide (0 ≤ v < 2 ^ 32) then Some (v, true) else None.
Proof.
  intros HT Hm H0 Hp. unfold translate. destruct (canonical v) eqn:Hc; last first.
  { rewrite bool_decide_eq_false_2; [done|]. intros Hv. unfold canonical in Hc.
    rewrite (proj2 (Z.leb_le 0 v)), (proj2 (Z.ltb_lt v _)) in Hc by lia. done. }
  assert ((p4 + 4096) mod 4096 = 0) as Hm3 by (rewrite <-Hm; apply (Z.mod_add p4 1 4096); lia).
  assert (pte_addr p4 = p4) as -> by (rewrite <-(Z.add_0_r p4) at 1; apply pte_addr_table; lia).
  rewrite (pt_entry4 _ _ _ HT Hm3), (canonical_index v Hc). case_bool_decide as Hv; last first.
  { by rewrite bool_decide_eq_false_2 by lia. }
  cbn [mbind option_bind]. rewrite pte_addr_table, (pt_entry3 _ _ _ HT) by lia.
  assert (pte_ps (p4 + 4096 + 3) = false) as -> by (by apply table_bits).
  assert (pte_writable (p4 + 4096 + 3) = true) as -> by (by apply table_bits).
  assert (bits_of v 30 9 = v / 2 ^ 30) as ->.
  { rewrite bits_of_div by lia. apply Z.mod_small.
    split; [apply Z.div_pos; lia|apply Z.div_lt_upper_bound; lia]. }
  pose proof (Z.div_mod v (2 ^ 30) ltac:(lia)). pose proof (Z.mod_pos_bound v (2 ^ 30) ltac:(lia)).
  assert (0 ≤ v / 2 ^ 30) by (apply Z.div_pos; lia).
  destruct (Z.ltb_spec (v / 2 ^ 30) 4) as [Hlt|Hge].
  - cbn [mbind option_bind]. destruct (entry3 (v / 2 ^ 30)) as (_ & -> & -> & -> & ->); [lia|].
    rewrite bool_decide_eq_true_2, bits_of_div, Z.div_1_r by lia. cbn [andb Z.eqb]. do 2 f_equal. lia.
  - by rewrite bool_decide_eq_false_2 by lia.
Qed.

(** ** The routines *)

(** Where the linker puts things: the tables and the stack on pages of their
    own below 4 GiB, the other data elsewhere. *)
Record layout_ok (p4 bootinfo gdt64 : Z) (after : nat → Z) : Prop := {
  lay_align : p4 mod 4096 = 0;
  lay_p4 : 0 < p4;
  lay_top : stack_top p4 < 2 ^ 32;
  lay_info : 0 ≤ bootinfo ∧ bootinfo + 8 ≤ 2 ^ 32;
  lay_info_bss : bootinfo + 8 ≤ p4 ∨ stack_top p4 ≤ bootinfo;
  lay_gdt : 0 ≤ gdt64 ∧ gdt64 + 26 ≤ 2 ^ 32;
  lay_gdt_bss : gdt64 + 26 ≤ p4 ∨ stack_top p4 ≤ gdt64;
  lay_gdt_info : gdt64 + 26 ≤ bootinfo ∨ bootinfo + 8 ≤ gdt64;
  lay_after i : 0 ≤ after i < 2 ^ 32;
}.

(** What the loader leaves (Multiboot2, I386 machine state): the magic number,
    the boot information, the image in memory; and what this code asks for on
    top of that: a stack whose next word is not part of the image's data, and a
    clear direction flag. *)
Record loader_ok (bootinfo gdt64 : Z) (m : Boot) : Prop := {
  ld_magic : b_regs m EAX = 0x36d76289;
  ld_info : 0 ≤ b_regs m EBX < 2 ^ 32;
  ld_gdt : holds (b_mem m) gdt64 (gdt64_bytes gdt64);
  ld_esp : 4 ≤ b_regs m ESP < 2 ^ 32;
  ld_esp_info : b_regs m ESP ≤ bootinfo ∨ bootinfo + 8 ≤ b_regs m ESP - 4;
  ld_esp_gdt : b_regs m ESP ≤ gdt64 ∨ gdt64 + 26 ≤ b_regs m ESP - 4;
  ld_df : b_df m = false;
}.

(** A word with one bit set and the others as they were. *)
Definition sets_bit (width bit old new : Z) : Prop :=
  ∀ k, 0 ≤ k < width → Z.testbit new k = (k =? bit) || Z.testbit old k.

Lemma or_sets_bit x n : 0 ≤ n < 32 → sets_bit 32 n x (as_u32 (Z.lor (as_u32 x) (Z.shiftl 1 n))).
Proof.
  intros Hn k Hk. unfold as_u32. rewrite !Z.mod_pow2_bits_low, Z.lor_spec, Z.mod_pow2_bits_low by lia.
  rewrite Z.shiftl_1_l, Z.pow2_bits_eqb, (Z.eqb_sym n k), orb_comm by lia. done.
Qed.

Lemma halves_set_bit x n : 0 ≤ n < 32 →
  sets_bit 64 n x (2 ^ 32 * as_u32 (x / 2 ^ 32) + as_u32 (Z.lor (as_u32 x) (Z.shiftl 1 n))).
Proof.
  intros Hn k Hk. rewrite Z.mul_comm. destruct (Z.ltb_spec k 32) as [Hlt|Hge].
  - rewrite testbit_low by (try apply Z.mod_pos_bound; lia). apply or_sets_bit; lia.
  - rewrite (proj2 (Z.eqb_neq k n)) by lia. cbn [orb].
    replace k with (k - 32 + 32) at 1 by lia. rewrite <-Z.div_pow2_bits by lia.
    rewrite Z.div_add_l, (Z.div_small (as_u32 (Z.lor _ _))), Z.add_0_r by (try apply Z.mod_pos_bound; lia).
    unfold as_u32. rewrite Z.mod_pow2_bits_low, Z.div_pow2_bits by lia. f_equal. lia.
Qed.

Section routines.
Context (p4 bootinfo gdt64 : Z) (after : nat → Z) (HL : layout_ok p4 bootinfo gdt64 after).

(** A call returns when the routine keeps the stack pointer and the word that
    holds the return address. *)
Lemma call32_returns next routine m m1 :
  4 ≤ b_regs m ESP < 2 ^ 32 → routine (push32 next m) = Next m1 → b_regs m1 ESP = b_regs m ESP - 4 →
  read_le 4 (b_mem m1) (b_regs m ESP - 4) = next →
  call32 next routine m = Next (with_rm (<[ESP := b_regs m ESP]> (b_regs m1)) (b_mem m1) (set_ip next m1)).
Proof.
  intros He Hr Hsp Hra. unfold call32. rewrite Hr. cbn [and_then]. unfold ret32. cbv zeta.
  rewrite (with_rm_id (set_ip _ m1)). run32. cbn [set_ip b_regs b_mem]. rewrite Hsp, Hra.
  rewrite Z.eqb_refl. replace (b_regs m ESP - 4 + 4) with (b_regs m ESP) by lia.
  by rewrite as_u32_small by lia.
Qed.

(** The four rounds of the loop. *)
Lemma map_loop p3 g mem m :
  0 ≤ p3 ≤ 2 ^ 32 - 4096 → g EDI = p3 → g EAX = 0x83 → g ECX = 4 →
  ∃ g', loop [StoreAt EDI EAX; AddI EAX 0x40000000; AddI EDI 8] (with_rm g mem m) = with_rm g' (map4 p3 mem) m ∧
    ∀ r, r = ESP ∨ r = EBX → g' r = g r.
Proof.
  intros Hp Hd Ha Hc. unfold loop. rewrite regs_rm, Hc.
  change (Z.to_nat (if 4 =? 0 then 2 ^ 32 else 4)) with 4%nat. cbn [Nat.iter nat_rect].
  destruct (map_round p3 0x83 4 g mem m) as (g1 & -> & D1 & A1 & C1 & S1); [lia|done..|].
  rewrite as_u32_small in D1 by lia. rewrite as_u32_small in A1, C1 by lia.
  destruct (map_round (p3 + 8) _ _ g1 (write_le 4 p3 0x83 mem) m ltac:(lia) D1 A1 C1) as (g2 & -> & D2 & A2 & C2 & S2).
  rewrite as_u32_small in D2 by lia. rewrite as_u32_small in A2, C2 by lia.
  destruct (map_round (p3 + 8 + 8) _ _ g2 (write_le 4 (p3 + 8) (131 + 0x40000000) (write_le 4 p3 131 mem)) m ltac:(lia) D2 A2 C2)
    as (g3 & -> & D3 & A3 & C3 & S3).
  rewrite as_u32_small in D3 by lia. rewrite as_u32_small in A3, C3 by lia.
  destruct (map_round (p3 + 8 + 8 + 8) _ _ g3 (write_le 4 (p3 + 8 + 8) (131 + 0x40000000 + 0x40000000)
    (write_le 4 (p3 + 8) (131 + 0x40000000) (write_le 4 p3 131 mem))) m ltac:(lia) D3 A3 C3)
    as (g4 & -> & _ & _ & _ & S4).
  exists g4. split; [|intros r Hr; by rewrite S4, S3, S2, S1].
  unfold map4. by rewrite <-!(Z.add_assoc p3).
Qed.

(** The first block: 16 KiB are cleared, the two tables and half of the stack. *)
Lemma clear_run m : b_df m = false →
  ∃ g mem, code [MovI EDI p4; MovI ECX 4096; XorR EAX; RepStosd] m = with_rm g mem m ∧
    g ESP = b_regs m ESP ∧ g EBX = b_regs m EBX ∧
    ∀ x, mem x = if decide (p4 ≤ x < p4 + 16384) then 0 else b_mem m x.
Proof.
  intros Hdf. destruct HL as [Hal H0 Htop _ _ _ _ _ _]. unfold stack_top, stack_bottom, p3_table in Htop.
  rewrite (code_start _ m). run32. rewrite !as_u32_small by lia.
  match goal with |- context [Nat.iter _ stosd (with_rm ?g ?mm m)] =>
    destruct (stosd_clears (Z.to_nat 4096) (with_rm g mm m)) as (r1 & m1 & E & _ & _ & Hr & Hm) end; run32; try lia; try exact Hdf.
  exists r1, m1. split; [exact E|]. rewrite !Hr by done. run32. split_and!; [done..|].
  intros x. by rewrite Hm, regs_rm, fn_lookup_insert_ne, fn_lookup_insert_ne, fn_lookup_insert by done.
Qed.

Lemma set_up_page_tables_run m :
  b_df m = false →
  ∃ regs mem, set_up_page_tables p4 m = Next (with_rm regs mem m) ∧
    regs ESP = b_regs m ESP ∧ regs EBX = b_regs m EBX ∧ boot_tables p4 mem ∧
    ∀ x, x < p4 ∨ p4 + 16384 ≤ x → mem x = b_mem m x.
Proof.
  intros Hdf. destruct (clear_run m Hdf) as (g & mem & E & Hs & Hb & Hm).
  destruct HL as [Hal H0 Htop _ _ _ _ _ _]. unfold stack_top, stack_bottom, p3_table in Htop.
  unfold set_up_page_tables. rewrite E. cbv zeta. unfold p3_table. run32.
  assert (Z.lor (p4 + 4096) 3 = p4 + 4096 + 3) as Hor.
  { rewrite (Z.div_mod p4 4096), Hal by lia.
    replace (4096 * (p4 / 4096) + 0 + 4096) with (Z.shiftl (p4 / 4096 + 1) 12) by (rewrite Z.shiftl_mul_pow2; lia).
    rewrite lor_shiftl_low, Z.shiftl_mul_pow2 by lia. lia. }
  rewrite (as_u32_small (p4 + 4096)), (as_u32_small p4), Hor, (as_u32_small (p4 + 4096 + 3)) by lia.
  rewrite (as_u32_small 4), (as_u32_small 131) by lia.
  match goal with |- context [loop _ (with_rm ?g ?mm m)] =>
    destruct (map_loop (p4 + 4096) g mm m) as (g' & -> & Hg'); regs32; try lia end.
  eexists g', _. split; [reflexivity|]. rewrite !Hg' by auto. regs32. split_and!; [done..| |].
  - apply map4_tables; [|lia]. intros x Hx. rewrite Hm, decide_True by lia. done.
  - intros x Hx. rewrite map4_other, write_le_other, Hm, decide_False by (intros; lia). done.
Qed.

Lemma enable_paging_run m :
  ∃ g crs msr, enable_paging p4 m = Next (with_rm g (b_mem m) (upd_msr (λ _, msr) (upd_crs (λ _, crs) m))) ∧
    g ESP = b_regs m ESP ∧ g EBX = b_regs m EBX ∧ crs CR3 = p4 ∧
    sets_bit 32 31 (b_crs m CR0) (crs CR0) ∧ sets_bit 32 5 (b_crs m CR4) (crs CR4) ∧
    sets_bit 64 8 (b_msr m IA32_EFER) (msr IA32_EFER) ∧ ∀ i, i ≠ IA32_EFER → msr i = b_msr m i.
Proof.
  destruct HL as [Hal H0 Htop _ _ _ _ _ _]. unfold stack_top, stack_bottom, p3_table in Htop.
  unfold enable_paging. cbv zeta. rewrite (code_start _ m). run32.
  eexists _, _, _. split; [reflexivity|]. run32. rewrite (as_u32_small p4), (as_u32_small 0xC0000080) by lia.
  split_and!; try done.
  - by apply or_sets_bit.
  - by apply or_sets_bit.
  - unfold IA32_EFER. regs32. by apply halves_set_bit.
  - intros i Hi. by rewrite fn_lookup_insert_ne.
Qed.

(** [push], and calls of routines with a known result. *)
Lemma push32_run v m : 4 ≤ b_regs m ESP < 2 ^ 32 →
  push32 v m = with_rm (<[ESP := b_regs m ESP - 4]> (b_regs m)) (write_le 4 (b_regs m ESP - 4) v (b_mem m)) m.
Proof.
  intros H. rewrite (with_rm_id m) at 1. unfold push32. run32. by rewrite !as_u32_small by (rewrite ?as_u32_small; lia).
Qed.

Lemma call32_run next routine m g mem m' :
  4 ≤ b_regs m ESP < 2 ^ 32 →
  routine (with_rm (<[ESP := b_regs m ESP - 4]> (b_regs m)) (write_le 4 (b_regs m ESP - 4) next (b_mem m)) m) =
    Next (with_rm g mem m') →
  g ESP = b_regs m ESP - 4 → read_le 4 mem (b_regs m ESP - 4) = next →
  call32 next routine m = Next (with_rm (<[ESP := b_regs m ESP]> g) mem (set_ip next m')).
Proof. intros He Hr Hg Hra. rewrite <-push32_run in Hr by done. by rewrite (call32_returns _ _ _ _ He Hr). Qed.

(** The magic number is right: the pointer is saved. *)
Lemma check_multiboot_run m : loader_ok bootinfo gdt64 m →
  ∃ g mem, call32 (after 1) (check_multiboot bootinfo) m = Next (with_rm g mem (set_ip (after 1) m)) ∧
    read_u64 mem bootinfo = b_regs m EBX ∧
    ∀ x, x < b_regs m ESP - 4 ∨ b_regs m ESP ≤ x → x < bootinfo ∨ bootinfo + 8 ≤ x → mem x = b_mem m x.
Proof.
  intros [Hmag Hebx Hgdt Hesp Hei Heg Hdf]. destruct HL as [_ _ _ [Hi0 Hi8] _ _ _ _ Haf].
  set (mem1 := write_le 4 (b_regs m ESP - 4) (after 1) (b_mem m)).
  eexists _, (write_le 4 (bootinfo + 4) 0 (write_le 4 bootinfo (b_regs m EBX) mem1)). split_and!.
  - eapply call32_run; [done| | |].
    + unfold check_multiboot. run32. rewrite Hmag. cbn [Z.eqb Pos.eqb]. run32. by rewrite !as_u32_small by lia.
    + by regs32.
    + rewrite !read_le_write_other by lia. apply read_write_le, Haf.
  - unfold read_u64. rewrite (read_le_split 4 4). change (Z.of_nat 4) with 4.
    rewrite (read_write_le 4 (bootinfo + 4)) by lia. rewrite read_le_write_other, read_write_le by (simpl; lia). lia.
  - intros x H1 H2. unfold mem1. by rewrite !write_le_other by lia.
Qed.

(** The second call: the tables. The return address lies above what is cleared. *)
Lemma tables_call_run m :
  b_regs m ESP = stack_top p4 → b_df m = false →
  ∃ g mem, call32 (after 2) (set_up_page_tables p4) m = Next (with_rm g mem (set_ip (after 2) m)) ∧
    g ESP = stack_top p4 ∧ boot_tables p4 mem ∧ ∀ x, x < p4 ∨ stack_top p4 ≤ x → mem x = b_mem m x.
Proof.
  intros Hsp Hdf. pose proof HL as [Hal H0 Htop _ _ _ _ _ Haf].
  unfold stack_top, stack_bottom, p3_table in *.
  match goal with |- context [call32 (after 2) _ m] =>
    destruct (set_up_page_tables_run (with_rm (<[ESP := b_regs m ESP - 4]> (b_regs m))
      (write_le 4 (b_regs m ESP - 4) (after 2) (b_mem m)) m)) as (g & mem & E & Hg & _ & HT & Hf); [done|] end.
  revert E Hg Hf. run32. rewrite Hsp. intros E Hg Hf. eexists _, mem. split_and!.
  - eapply call32_run; [rewrite Hsp; lia|rewrite Hsp; exact E|by rewrite Hsp|].
    rewrite Hsp. rewrite (read_le_agree 4 (write_le 4 (p4 + 4096 + 4096 + 4096 * 4 - 4) (after 2) (b_mem m))).
    + apply read_write_le, Haf.
    + intros x Hx. apply Hf. lia.
  - by regs32.
  - done.
  - intros x Hx. rewrite Hf, write_le_other by lia. done.
Qed.

(** The third call: paging. *)
Lemma paging_call_run m :
  b_regs m ESP = stack_top p4 → boot_tables p4 (b_mem m) →
  ∃ g mem crs msr, call32 (after 3) (enable_paging p4) m =
      Next (with_rm g mem (set_ip (after 3) (upd_msr (λ _, msr) (upd_crs (λ _, crs) m)))) ∧
    g ESP = stack_top p4 ∧ boot_tables p4 mem ∧ (∀ x, x < p4 ∨ stack_top p4 ≤ x → mem x = b_mem m x) ∧
    crs CR3 = p4 ∧ sets_bit 32 31 (b_crs m CR0) (crs CR0) ∧ sets_bit 32 5 (b_crs m CR4) (crs CR4) ∧
    sets_bit 64 8 (b_msr m IA32_EFER) (msr IA32_EFER).
Proof.
  intros Hsp HT. pose proof HL as [Hal H0 Htop _ _ _ _ _ Haf]. unfold stack_top, stack_bottom, p3_table in *.
  destruct (enable_paging_run (with_rm (<[ESP := b_regs m ESP - 4]> (b_regs m))
      (write_le 4 (b_regs m ESP - 4) (after 3) (b_mem m)) m)) as (g & crs & msr & E & Hg & _ & H3 & Hc0 & Hc4 & Hmsr & _).
  revert E Hg Hc0 Hc4 Hmsr. run32. rewrite Hsp. intros E Hg Hc0 Hc4 Hmsr. eexists _, _, crs, msr. split.
  { eapply call32_run; [rewrite Hsp; lia|rewrite Hsp; exact E|by rewrite Hsp|]. rewrite Hsp. apply read_write_le, Haf. }
  regs32. split_and!; try done.
  - intros i Hi. destruct (HT i Hi) as [H4 H3']. unfold read_u64 in *. by rewrite !read_le_write_other by lia.
  - intros x Hx. by rewrite write_le_other by lia.
Qed.

(** [lgdt] loads the table of [.rodata]. *)
Lemma lgdt_run mem : holds mem gdt64 (gdt64_bytes gdt64) →
  (read_le 4 mem (gdt64_pointer gdt64 + 2), read_le 2 mem (gdt64_pointer gdt64)) = (gdt64, 15) ∧
  read_u64 mem (gdt64 + 8) = 0x20980000000000.
Proof.
  destruct HL as [_ _ _ _ _ Hg _ _ _]. unfold gdt64_bytes, gdt64_pointer.
  intros [_ [Hc [Hl Hb]%holds_app]%holds_app]%holds_app. rewrite !length_le_bytes in *. split.
  - f_equal.
    + apply read_le_holds; [simpl; lia|]. replace (gdt64 + 16 + 2) with (gdt64 + Z.of_nat 8 + Z.of_nat 8 + Z.of_nat 2) by lia.
      change (le_bytes 8 gdt64) with (le_bytes 4 gdt64 ++ le_bytes 4 (gdt64 / 256 / 256 / 256 / 256)) in Hb.
      by apply holds_app in Hb as [Hb _].
    + apply read_le_holds; [simpl; lia|]. by replace (gdt64 + 16) with (gdt64 + Z.of_nat 8 + Z.of_nat 8) by lia.
  - apply (read_le_holds 8); [simpl; lia|exact Hc].
Qed.

Lemma start_run long_mode_start_ m : loader_ok bootinfo gdt64 m →
  ∃ g mem crs msr,
    start p4 bootinfo gdt64 long_mode_start_ after m =
      Next (mkBoot g crs msr (gdt64, 15) gdt64_code (b_segs m) long_mode_start_ false mem) ∧
    boot_tables p4 mem ∧ crs CR3 = p4 ∧ sets_bit 32 31 (b_crs m CR0) (crs CR0) ∧
    sets_bit 32 5 (b_crs m CR4) (crs CR4) ∧ sets_bit 64 8 (b_msr m IA32_EFER) (msr IA32_EFER) ∧
    read_u64 mem bootinfo = b_regs m EBX ∧ read_u64 mem (gdt64 + 8) = 0x20980000000000 ∧
    ∀ x, x < b_regs m ESP - 4 ∨ b_regs m ESP ≤ x → x < bootinfo ∨ bootinfo + 8 ≤ x →
      x < p4 ∨ stack_top p4 ≤ x → mem x = b_mem m x.
Proof.
  intros Hld. destruct (check_multiboot_run m Hld) as (g1 & mem1 & E1 & Hi1 & Hf1).
  destruct Hld as [_ _ Hgdt _ _ Heg Hdf].
  pose proof HL as [_ _ Htop [Hi0 _] Hib [Hg0 _] Hgb Hgi _]. unfold start. rewrite E1. cbn [and_then]. cbv zeta. run32.
  assert (p4 < stack_top p4) as Hlt by (unfold stack_top, stack_bottom, p3_table; lia).
  rewrite as_u32_small by (destruct HL; unfold stack_top, stack_bottom, p3_table in *; lia).
  match goal with |- context [call32 (after 2) _ ?x] =>
    destruct (tables_call_run x) as (g2 & mem2 & E2 & Hg2 & HT2 & Hf2); [by run32; regs32|exact Hdf|] end.
  rewrite E2. cbn [and_then].
  match goal with |- context [call32 (after 3) _ ?x] =>
    destruct (paging_call_run x) as (g3 & mem3 & crs & msr & E3 & Hg3 & HT3 & Hf3 & H3 & Hc0 & Hc4 & Hmsr); [done|done|] end.
  rewrite E3. cbn [and_then]. rewrite mem_rm in Hf2, Hf3.
  assert (∀ x, x < p4 ∨ stack_top p4 ≤ x → mem3 x = mem1 x) as Hf31 by (intros x Hx; by rewrite Hf3, Hf2).
  destruct (lgdt_run mem3) as [El Eg].
  { eapply holds_agree, Hgdt. intros x Hx.
    change (Z.of_nat (length (gdt64_bytes gdt64))) with 26 in Hx. rewrite Hf31, Hf1 by lia. done. }
  exists g3, mem3, crs, msr. split_and!; try assumption.
  - unfold far_jump. cbn [code foldl exec32 b_mem with_rm]. by rewrite El, <-Hdf.
  - unfold read_u64. rewrite (read_le_agree 8 mem1); [exact Hi1|]. intros x Hx. apply Hf31. lia.
  - intros x Hx1 Hx2 Hx3. by rewrite Hf31, Hf1.
Qed.
End routines.

(** The machine at the entry of [rust_main]. *)
Record entered (p4 bootinfo rust_main_ : Z) (m m' : Boot) : Prop := {
  en_ip : b_ip m' = rust_main_;
  en_long : long_mode m' = true;
  en_map v : translate (b_mem m') (b_crs m' CR3) v = if bool_decide (0 ≤ v < 2 ^ 32) then Some (v, true) else None;
  en_cr0 : sets_bit 32 31 (b_crs m CR0) (b_crs m' CR0);
  en_cr4 : sets_bit 32 5 (b_crs m CR4) (b_crs m' CR4);
  en_efer : sets_bit 64 8 (b_msr m IA32_EFER) (b_msr m' IA32_EFER);
  en_cs : ∃ d, fetch (b_mem m') (b_gdtr m').1 (b_gdtr m').2 (b_cs m') = Some d ∧ is_present d = true ∧
    is_code_data d = true ∧ is_executable d = true ∧ is_long_mode d = true ∧ dpl_of d = 0;
  en_segs : b_segs m' = [0; 0; 0; 0; 0];
  en_info : read_u64 (b_mem m') bootinfo = b_regs m EBX;
  en_stack : stack_bottom p4 ≤ b_regs m' ESP < stack_top p4;
  en_align : b_regs m' ESP mod 16 = 8;
  en_frame x : x < b_regs m ESP - 4 ∨ b_regs m ESP ≤ x → x < bootinfo ∨ bootinfo + 8 ≤ x →
    x < p4 ∨ stack_top p4 ≤ x → b_mem m' x = b_mem m x;
}.

Lemma boot_asm_run p4 bootinfo gdt64 lms rust_main_ after m :
  layout_ok p4 bootinfo gdt64 after → loader_ok bootinfo gdt64 m →
  ∃ m', boot_asm p4 bootinfo gdt64 lms rust_main_ after m = Next m' ∧ entered p4 bootinfo rust_main_ m m'.
Proof.
  intros HL Hld. destruct (start_run _ _ _ _ HL lms m Hld) as (g & mem & crs & msr & E & HT & H3 & Hc0 & Hc4 & Hmsr & Hi & Hg & Hf).
  destruct HL as [Hal H0 Htop [Hi0 _] Hib _ Hgb _ _]. unfold boot_asm. rewrite E. cbn [and_then]. clear E.
  assert (stack_top p4 = p4 + 24576) as Hst by (unfold stack_top, stack_bottom, p3_table; lia).
  assert (as_u64 (stack_top p4 - 8) = stack_top p4 - 8) as Hsp by (apply Z.mod_small; lia).
  set (mem' := write_le 8 (stack_top p4 - 8) (after 4%nat) mem).
  eexists. split.
  { unfold long_mode_start. cbv zeta. cbn [upd_regs b_regs b_crs b_msr b_gdtr b_cs b_segs b_ip b_df b_mem].
    rewrite !fn_lookup_insert, Hsp. reflexivity. }
  unfold set_ip, upd_mem, upd_regs. cbn [b_regs b_crs b_msr b_gdtr b_cs b_segs b_ip b_df b_mem]. fold mem'.
  assert (boot_tables p4 mem') as HT'.
  { intros i Hi'. destruct (HT i Hi') as [E4 E3]. unfold read_u64, mem' in *. by rewrite !read_le_write_other by lia. }
  split; cbn [b_regs b_crs b_msr b_gdtr b_cs b_segs b_ip b_df b_mem]; rewrite ?fn_lookup_insert, ?H3; try done.
  - unfold long_mode. cbn [b_crs b_msr]. rewrite (Hc0 31), (Hc4 5), (Hmsr 8) by lia. done.
  - intros v. by apply translate_boot_tables; [| |lia|lia].
  - eexists. split; [reflexivity|]. cbn [fst snd]. change (gdt64_code / 8 * 8) with 8.
    unfold read_u64, mem'. rewrite read_le_write_other by lia. unfold read_u64 in Hg. rewrite Hg. by vm_compute.
  - assert ((g EAX - g EAX mod 2 ^ 16) mod 2 ^ 16 = 0) as ->; [|done].
    pose proof (Z.div_mod (g EAX) (2 ^ 16) ltac:(lia)).
    replace (g EAX - g EAX mod 2 ^ 16) with (g EAX / 2 ^ 16 * 2 ^ 16) by lia. by apply Z.mod_mul.
  - unfold read_u64, mem'. rewrite read_le_write_other by lia. exact Hi.
  - unfold stack_top, stack_bottom, p3_table. lia.
  - rewrite Hst, (Z.div_mod p4 4096), Hal by lia.
    replace (4096 * (p4 / 4096) + 0 + 24576 - 8) with (8 + (256 * (p4 / 4096) + 1535) * 16) by lia. by rewrite Z.mod_add.
  - intros x Hx1 Hx2 Hx3. unfold mem'. rewrite write_le_other by lia. by apply Hf.
Qed.

(** ** Theorems *)

(** C6: from the loader to [rust_main]. On a machine in the state that the
    loader leaves, the assembly reaches the first instruction of [rust_main] in
    long mode with paging on: the page tables map each of the first 4 GiB to
    itself, writable, and every other address faults; the other bits of CR0,
    CR4 and EFER are as they were; CS names a present 64-bit code segment of
    privilege 0 in the loaded GDT; [_bootinfo] holds the loader's pointer; the
    stack pointer is in the kernel's stack, and 8 modulo 16 as the calling
    convention asks at a function's entry; and memory is unchanged but for the
    tables and the stack, [_bootinfo], and one word of the loader's stack. *)
Theorem boot_enters_rust_main p4 bootinfo gdt64 lms rust_main_ after m :
  layout_ok p4 bootinfo gdt64 after → loader_ok bootinfo gdt64 m →
  ∃ m', boot_asm p4 bootinfo gdt64 lms rust_main_ after m = Next m' ∧ b_ip m' = rust_main_ ∧
    long_mode m' = true ∧
    (∀ v, translate (b_mem m') (b_crs m' CR3) v = if bool_decide (0 ≤ v < 2 ^ 32) then Some (v, true) else None) ∧
    sets_bit 32 31 (b_crs m CR0) (b_crs m' CR0) ∧ sets_bit 32 5 (b_crs m CR4) (b_crs m' CR4) ∧
    sets_bit 64 8 (b_msr m IA32_EFER) (b_msr m' IA32_EFER) ∧
    (∃ d, fetch (b_mem m') (b_gdtr m').1 (b_gdtr m').2 (b_cs m') = Some d ∧ is_present d = true ∧
       is_code_data d = true ∧ is_executable d = true ∧ is_long_mode d = true ∧ dpl_of d = 0) ∧
    b_segs m' = [0; 0; 0; 0; 0] ∧ read_u64 (b_mem m') bootinfo = b_regs m EBX ∧
    stack_bottom p4 ≤ b_regs m' ESP < stack_top p4 ∧ b_regs m' ESP mod 16 = 8 ∧
    ∀ x, x < b_regs m ESP - 4 ∨ b_regs m ESP ≤ x → x < bootinfo ∨ bootinfo + 8 ≤ x →
      x < p4 ∨ stack_top p4 ≤ x → b_mem m' x = b_mem m x.
Proof.
  intros HL Hld. destruct (boot_asm_run _ _ _ lms rust_main_ _ _ HL Hld) as (m' & E & []).
  exists m'. do 12 (split; [assumption|]). assumption.
Qed.

(** The four words of the header add up to 0, and its length is right. *)
Lemma multiboot_header_ok :
  let w i := read_u32 (bytes_at 0 multiboot_header) (4 * i) in
  w 0 = 0xe85250d6 ∧ as_u32 (w 0 + w 1 + w 2 + w 3) = 0 ∧ w 2 = slice_len multiboot_header.
Proof. by vm_compute. Qed.

(** A kernel image and what a loader leaves. *)
Definition pc_after (i : nat) : Z := 0x102000 + Z.of_nat i mod 8 * 16.
Definition pc_loader : Boot :=
  mkBoot (λ r, match r with EAX => 0x36d76289 | EBX => 0x90000 | ESP => 0x7ff00 | _ => 0 end)
    (λ c, match c with CR0 => 0x11 | _ => 0 end) (λ _, 0) (0, 0) 8 [16; 16; 16; 16; 16] 0x102000 false
    (bytes_at 0x101000 (gdt64_bytes 0x101000)).

Lemma pc_layout_ok : layout_ok 0x104000 0x103000 0x101000 pc_after.
Proof. split; unfold stack_top, stack_bottom, p3_table; try lia; [done|].
  intros i. unfold pc_after. pose proof (Z.mod_pos_bound (Z.of_nat i) 8). lia.
Qed.

Lemma pc_loader_ok : loader_ok 0x103000 0x101000 pc_loader.
Proof. split; cbn [b_regs b_df pc_loader]; try lia; try done. apply holds_bytes_at. Qed.

Lemma boot_enters_rust_main_witness :
  ∃ m', boot_asm 0x104000 0x103000 0x101000 0x102100 0x102200 pc_after pc_loader = Next m' ∧ b_ip m' = 0x102200 ∧
    long_mode m' = true ∧ translate (b_mem m') (b_crs m' CR3) 0xfee00000 = Some (0xfee00000, true) ∧
    translate (b_mem m') (b_crs m' CR3) 0x100000000 = None ∧ read_u64 (b_mem m') 0x103000 = 0x90000.
Proof.
  destruct (boot_enters_rust_main 0x104000 0x103000 0x101000 0x102100 0x102200 pc_after pc_loader pc_layout_ok pc_loader_ok)
    as (m' & E & Hip & Hl & Ht & _ & _ & _ & _ & _ & Hi & _).
  exists m'. split; [exact E|]. split; [exact Hip|]. split; [exact Hl|]. split; [|split].
  - exact (Ht 0xfee00000).
  - exact (Ht 0x100000000).
  - exact Hi.
Defined.

(** The characters on the screen. *)
Definition screen_text (mem : memory) (n : nat) : list Z := (λ i, mem (0xb8000 + 2 * Z.of_nat i)) <$> seq 0 n.

(** A loader that is not Multiboot2. Without the magic number the code
    writes the text [ERR: M] to the screen and halts: it does not go on to
    [rust_main], and it changes no memory but the screen and the word of the
    loader's stack that the first call writes. *)
Lemma boot_rejects_other_loaders p4 bootinfo gdt64 lms rust_main_ after m :
  b_regs m EAX ≠ 0x36d76289 →
  ∃ m', boot_asm p4 bootinfo gdt64 lms rust_main_ after m = Halted m' ∧
    screen_text (b_mem m') 6 = [69; 82; 82; 58; 32; 77] ∧
    ∀ x, x < as_u32 (b_regs m ESP - 4) ∨ as_u32 (b_regs m ESP - 4) + 4 ≤ x → x < 0xb8000 ∨ 0xb800c ≤ x →
      b_mem m' x = b_mem m x.
Proof.
  intros Hmag. unfold boot_asm, start, call32, push32. rewrite (with_rm_id m). run32. unfold check_multiboot. run32.
  rewrite (proj2 (Z.eqb_neq _ _)) by done. unfold error. cbn [and_then]. run32. eexists. split; [reflexivity|]. run32.
  rewrite !(as_u32_small 753664), !(as_u32_small 753668), !(as_u32_small 753672) by lia.
  rewrite (as_u32_small (as_u32 (_ - 4))) by (apply Z.mod_pos_bound; lia).
  assert (as_u32 (b_regs m EAX - b_regs m EAX mod 2 ^ 8 + 77) mod 2 ^ 8 = 77) as ->.
  { unfold as_u32. pose proof (Z.div_mod (b_regs m EAX) (2 ^ 8) ltac:(lia)).
    replace (b_regs m EAX - b_regs m EAX mod 2 ^ 8 + 77) with (77 + b_regs m EAX / 2 ^ 8 * 2 ^ 8) by lia.
    change (2 ^ 32) with (2 ^ 8 * 2 ^ 24). rewrite Z.rem_mul_r by lia.
    rewrite (Z.mul_comm (2 ^ 8) (_ mod 2 ^ 24)), Z.mod_add, Z.mod_mod, Z.mod_add by lia. done. }
  split.
  - by generalize (write_le 4 (as_u32 (b_regs m ESP - 4)) (after 1%nat) (b_mem m)).
  - intros x Hx1 Hx2. by rewrite !write_le_other by lia.
Qed.

(** The first call is made on the loader's stack, which Multiboot2 leaves
    undefined: where that stack is in the way, the return address is lost. *)
Lemma start_trusts_loader_stack p4 bootinfo gdt64 lms after m :
  b_regs m EAX = 0x36d76289 → 0 ≤ b_regs m EBX < 2 ^ 32 → 0 ≤ bootinfo ≤ 2 ^ 32 - 8 →
  b_regs m ESP = bootinfo + 4 → after 1%nat ≠ b_regs m EBX →
  ∃ m', start p4 bootinfo gdt64 lms after m = Lost m' ∧ b_ip m' = b_regs m EBX.
Proof.
  intros Hmag Hb Hi Hesp Hne. unfold start, call32. rewrite push32_run by lia. unfold check_multiboot. run32.
  rewrite Hmag. cbn [Z.eqb Pos.eqb]. run32. cbn [and_then]. unfold ret32. cbv zeta. run32. rewrite Hesp.
  replace (bootinfo + 4 - 4) with bootinfo by lia. rewrite !(as_u32_small bootinfo), (as_u32_small (bootinfo + 4)) by lia.
  rewrite (read_le_write_other 4 4 (bootinfo + 4)), read_write_le by (simpl; lia).
  cbn [set32 upd_regs set_ip b_ip with_rm]. rewrite (proj2 (Z.eqb_neq (b_regs m EBX) _)) by done.
  cbn [and_then]. by eexists.
Qed.
