(* ===== verification/BootAlloc.v ===== *)
(** * The allocator under the page tables of boot.asm

    [boot.asm] maps the first 4 GiB; [PageAllocator] manages all the memory that
    the loader reports. What a block of memory is good for depends on both. *)
From Stdlib Require Import Sorted.
From S2P Require Import Prelude Mutex Memory Multiboot2 PageAllocator AllocInv AllocExec AllocInit AllocSpec AllocTheorems Boot.

(** The head of a descending list is its largest element. *)
Lemma desc_head (l : list Z) p : StronglySorted Z.gt l → p ∈ l → ∃ q l', l = q :: l' ∧ p ≤ q.
Proof.
  intros Hs Hp. destruct Hs as [|q l' Hs Hq]; [set_solver|]. exists q, l'. split; [done|].
  apply elem_of_cons in Hp as [->|Hp]; [done|]. rewrite Forall_forall in Hq. specialize (Hq p Hp). lia.
Qed.

Section under_tables.
Context (p4 bootinfo rust_main_ : Z) (l l' : Boot) (HE : entered p4 bootinfo rust_main_ l l').
Context (size image : Z) (store : Z → Z → memory → memory) (mem : memory) (mmap version : Z) (areas : list MemoryArea).
Hypothesis Hboot : boot_ok size image store mem mmap version areas.
Hypothesis Hcount : memory_top areas ≤ COUNTED_LIMIT.

(** A block that lies below 4 GiB is mapped, and one at or above is not. *)
Lemma block_mapped x : 0 ≤ x < 2 ^ 32 → translate (b_mem l') (b_crs l' CR3) x = Some (x, true).
Proof. intros Hx. by rewrite (en_map _ _ _ _ _ HE), bool_decide_eq_true_2. Qed.
Lemma block_unmapped x : 2 ^ 32 ≤ x → translate (b_mem l') (b_crs l' CR3) x = None.
Proof. intros Hx. by rewrite (en_map _ _ _ _ _ HE), bool_decide_eq_false_2 by lia. Qed.

Lemma total_pages_below : memory_top areas ≤ 2 ^ 32 → total_pages areas * PAGE_SIZE_4KB ≤ 2 ^ 32.
Proof.
  intros Ht. unfold total_pages, align_up. change PAGE_SIZE_2MB with (512 * 4096). unfold PAGE_SIZE_4KB.
  rewrite Z.mul_assoc, Z.div_mul by done.
  assert ((memory_top areas + 512 * 4096 - 1) / (512 * 4096) < 2 ^ 11 + 1); [|lia].
  apply Z.div_lt_upper_bound; lia.
Qed.

Lemma image_below_first_free : image ≤ first_free size image areas.
Proof.
  destruct Hboot as [Hsz Him _ Hok _ _ _ _ _ _]. destruct (total_pages_bounds areas Hok) as [Htp _].
  pose proof (align_up_bounds image PAGE_SIZE_4KB ltac:(done)). fold (metadata_base image) in *.
  pose proof (align_up_bounds (metadata_base image + total_pages areas * size) PAGE_SIZE_4KB ltac:(done)).
  fold (first_free size image areas) in *. nia.
Qed.

(** What a session holds lies below the end of memory and above the image. *)
Lemma session_blocks_mapped o b t rs :
  memory_top areas ≤ 2 ^ 32 → stack_top p4 ≤ image →
  wp (init size image store mem mmap;; session [] rs) (λ '(own, _) _, ∀ addr sz x,
      (addr, sz) ∈ own → addr ≤ x < addr + size_bytes sz →
      translate (b_mem l') (b_crs l' CR3) x = Some (x, true) ∧ stack_top p4 ≤ x)
    (mkMachine (mkCpu o b) PageAllocator_new t).
Proof.
  intros Ht Him. eapply wp_mono; [by eapply boot_then_session|].
  intros [own resps] s' (ev & c & a & -> & HI & [_ Ho] & _ & Hm) addr sz x Hin Hx.
  apply Ho in Hin. pose proof (owned_managed _ _ _ _ _ _ _ (inv_meta _ _ HI) Hin Hx) as Hp%Hm%map_frames_above.
  pose proof (total_pages_below Ht) as Htp. pose proof image_below_first_free as Hff.
  destruct Hboot as [_ Him0 _ _ _ _ _ _ _ _].
  unfold PAGE_SIZE_4KB in *. pose proof (Z.div_mod x 4096 ltac:(lia)). pose proof (Z.mod_pos_bound x 4096 ltac:(lia)).
  assert (first_free size image areas = first_free size image areas / 4096 * 4096) as Hal.
  { pose proof (align_up_mod (metadata_base image + total_pages areas * size) 4096 ltac:(done)) as H2.
    change (align_up _ 4096) with (first_free size image areas) in H2.
    pose proof (Z.div_mod (first_free size image areas) 4096 ltac:(lia)). lia. }
  split; [apply block_mapped; lia|lia].
Qed.

(** The lists are descending, so that the first block of some size is at least
    as high as any free frame. *)
Lemma first_block_high o b t p :
  2 ^ 20 ≤ p → map_frames (first_free size image areas / PAGE_SIZE_4KB) (total_pages areas) areas p →
  ∃ sz, wp (init size image store mem mmap;; allocate_page sz) (λ r _, ∃ addr, r = Some addr ∧ 2 ^ 32 ≤ addr)
    (mkMachine (mkCpu o b) PageAllocator_new t).
Proof.
  intros Hp Hmap. destruct (boot_init o b t _ _ _ _ _ _ _ Hboot Hcount) as ([] & s1 & E & ev & c & a & -> & HP & _).
  destruct HP as [HI H4 H2 _ _ _ Hm Hd4 Hd2 _]. apply Hm in Hmap as [Hin|[Hin|[Hin|Hin]]].
  - destruct (desc_head _ _ Hd4 Hin) as (q & l4 & El & Hq). exists Size4KB.
    apply wp_bind. eapply wp_run_eq; [exact E|].
    eapply wp_mono; [apply (perform_refines o b _ c a (AllocReq Size4KB) HI I)|].
    intros r s' (a' & Hs & _). inversion Hs as [? ? E'|? ? E'|E'| | | | |]; simplify_eq/=; try congruence.
    rewrite El in E'. simplify_eq. eexists. split; [done|]. unfold PAGE_SIZE_4KB. lia.
  - by rewrite H4 in Hin.
  - destruct (desc_head _ _ Hd2 Hin) as (q & l2 & El & Hq). exists Size2MB.
    assert (2 ^ 20 ≤ sp p) as Hsp.
    { unfold sp, PAGES_PER_2MB. assert (2 ^ 11 ≤ p / 512) by (apply Z.div_le_lower_bound; lia). lia. }
    apply wp_bind. eapply wp_run_eq; [exact E|].
    eapply wp_mono; [apply (perform_refines o b _ c a (AllocReq Size2MB) HI I)|].
    intros r s' (a' & Hs & _). inversion Hs as [| | |? ? E'|E'| | |]; simplify_eq/=; try congruence.
    rewrite El in E'. simplify_eq. eexists. split; [done|]. unfold PAGE_SIZE_4KB. lia.
  - by rewrite H2 in Hin.
Qed.
End under_tables.

(** ** Theorems *)

(** C11: memory below 4 GiB. On a machine whose available memory ends below
    4 GiB, with the page tables that the boot assembly has set up, every byte of
    every block that any session of requests holds is mapped to itself and
    writable, and no block overlaps the page tables or the boot stack. *)
Theorem blocks_mapped p4 bootinfo gdt64 lms rust_main_ after l o b t size image store mem mmap version areas rs :
  layout_ok p4 bootinfo gdt64 after → loader_ok bootinfo gdt64 l →
  boot_ok size image store mem mmap version areas → memory_top areas ≤ 2 ^ 32 → stack_top p4 ≤ image →
  ∃ l', boot_asm p4 bootinfo gdt64 lms rust_main_ after l = Next l' ∧
    wp (init size image store mem mmap;; session [] rs) (λ '(own, _) _, ∀ addr sz x,
        (addr, sz) ∈ own → addr ≤ x < addr + size_bytes sz →
        translate (b_mem l') (b_crs l' CR3) x = Some (x, true) ∧ stack_top p4 ≤ x)
      (mkMachine (mkCpu o b) PageAllocator_new t).
Proof.
  intros HL Hl Hb Ht Him. destruct (boot_asm_run _ _ _ lms rust_main_ _ _ HL Hl) as (l' & E & HE).
  exists l'. split; [exact E|]. eapply session_blocks_mapped; try done. unfold COUNTED_LIMIT. lia.
Qed.

Lemma blocks_mapped_witness :
  ∃ l', boot_asm 0x104000 0x103000 0x101000 0x102100 0x102200 pc_after pc_loader = Next l' ∧
    wp (small_init;; session [] [AllocReq Size2MB]) (λ '(own, _) _, ∀ addr sz x,
        (addr, sz) ∈ own → addr ≤ x < addr + size_bytes sz →
        translate (b_mem l') (b_crs l' CR3) x = Some (x, true) ∧ stack_top 0x104000 ≤ x) (boot_machine false).
Proof.
  apply (blocks_mapped 0x104000 0x103000 0x101000 0x102100 0x102200 pc_after pc_loader 2 false [] 40 pc_image_end
    (zero_store 40) small_memory pc_mmap 0 small_areas [AllocReq Size2MB] pc_layout_ok pc_loader_ok small_boot_ok).
  - vm_compute. discriminate.
  - vm_compute. discriminate.
Defined.

(** C36: memory at or above 4 GiB. When the memory map has an available frame
    there, some request for a single page (4KB or 2MB), made right after [init],
    returns an address that the page tables of the boot assembly do not map:
    the first access to the new page faults. *)
Theorem high_memory_unmapped p4 bootinfo gdt64 lms rust_main_ after l o b t size image store mem mmap version areas p :
  layout_ok p4 bootinfo gdt64 after → loader_ok bootinfo gdt64 l →
  boot_ok size image store mem mmap version areas → memory_top areas ≤ COUNTED_LIMIT →
  2 ^ 20 ≤ p → map_frames (first_free size image areas / PAGE_SIZE_4KB) (total_pages areas) areas p →
  ∃ l', boot_asm p4 bootinfo gdt64 lms rust_main_ after l = Next l' ∧
    ∃ sz, wp (init size image store mem mmap;; allocate_page sz) (λ r _, ∃ addr, r = Some addr ∧
        translate (b_mem l') (b_crs l' CR3) addr = None)
      (mkMachine (mkCpu o b) PageAllocator_new t).
Proof.
  intros HL Hl Hb Ht Hp Hmap. destruct (boot_asm_run _ _ _ lms rust_main_ _ _ HL Hl) as (l' & E & HE).
  exists l'. split; [exact E|]. destruct (first_block_high _ _ _ _ _ _ _ Hb Ht o b t p Hp Hmap) as [sz Hw].
  exists sz. eapply wp_mono; [exact Hw|]. intros r s' (addr & -> & Ha). exists addr. split; [done|].
  by eapply block_unmapped.
Qed.

(** A machine with 6 GiB. *)
Definition high_areas : list MemoryArea := [mkMemoryArea 0x100000 0x17ff00000 1 0].
Lemma high_boot_ok :
  boot_ok 40 pc_image_end (zero_store 40) (bytes_at pc_mmap (encode_mmap 0 high_areas)) pc_mmap 0 high_areas.
Proof. by apply one_area_boot_ok. Qed.

Lemma high_memory_unmapped_witness :
  ∃ l', boot_asm 0x104000 0x103000 0x101000 0x102100 0x102200 pc_after pc_loader = Next l' ∧
    ∃ sz, wp (init 40 pc_image_end (zero_store 40) (bytes_at pc_mmap (encode_mmap 0 high_areas)) pc_mmap;;
        allocate_page sz) (λ r _, ∃ addr, r = Some addr ∧ translate (b_mem l') (b_crs l' CR3) addr = None)
      (boot_machine false).
Proof.
  apply (high_memory_unmapped 0x104000 0x103000 0x101000 0x102100 0x102200 pc_after pc_loader 2 false [] 40 pc_image_end
    (zero_store 40) _ pc_mmap 0 high_areas (2 ^ 20) pc_layout_ok pc_loader_ok high_boot_ok).
  - vm_compute. discriminate.
  - vm_compute. discriminate.
  - exists (mkMemoryArea 0x100000 0x17ff00000 1 0). split; [apply elem_of_cons; left; reflexivity|].
    split; [reflexivity|]. vm_compute. split; [discriminate|reflexivity].
Defined.
