(* ===== verification/Exception.v ===== *)
(** * Exception numbers (src/src/interrupt/exception.rs) *)
From S2P Require Import Prelude.

Definition EXCEPTION_MAX : Z := 31.

Inductive Exception : Set :=
  | DivideByZero | Debug | NonMaskableInterrupt | Breakpoint | Overflow | BoundRangeExceeded
  | InvalidOpcode | DeviceNotAvailable | DoubleFault | InvalidTss | SegmentNotPresent
  | StackSegmentFault | GeneralProtectionFault | PageFault | X87FloatingPoint | AlignmentCheck
  | MachineCheck | SimdFloatingPoint | Virtualization | Security
  | Reserved (num : Z).

#[export] Instance Exception_eq_dec : EqDecision Exception.
Proof. solve_decision. Defined.

(** [impl From<Exception> for usize] *)
Definition exception_to_usize (e : Exception) : Z :=
  match e with
  | DivideByZero => 0x0
  | Debug => 0x1
  | NonMaskableInterrupt => 0x2
  | Breakpoint => 0x3
  | Overflow => 0x4
  | BoundRangeExceeded => 0x5
  | InvalidOpcode => 0x6
  | DeviceNotAvailable => 0x7
  | DoubleFault => 0x8
  | InvalidTss => 0xa
  | SegmentNotPresent => 0xb
  | StackSegmentFault => 0xc
  | GeneralProtectionFault => 0xd
  | PageFault => 0xe
  | X87FloatingPoint => 0x10
  | AlignmentCheck => 0x11
  | MachineCheck => 0x12
  | SimdFloatingPoint => 0x13
  | Virtualization => 0x14
  | Security => 0x1e
  | Reserved num => num
  end.

(** [impl TryFrom<usize> for Exception] *)
Definition exception_try_from (num : Z) : Exception + string :=
  if EXCEPTION_MAX <=? num then inr "Not an exception"
  else
    match num with
    | 0x0 => inl DivideByZero
    | 0x1 => inl Debug
    | 0x2 => inl NonMaskableInterrupt
    | 0x3 => inl Breakpoint
    | 0x4 => inl Overflow
    | 0x5 => inl BoundRangeExceeded
    | 0x6 => inl InvalidOpcode
    | 0x7 => inl DeviceNotAvailable
    | 0x8 => inl DoubleFault
    | 0xa => inl InvalidTss
    | 0xb => inl SegmentNotPresent
    | 0xc => inl StackSegmentFault
    | 0xd => inl GeneralProtectionFault
    | 0xe => inl PageFault
    | 0x10 => inl X87FloatingPoint
    | 0x11 => inl AlignmentCheck
    | 0x12 => inl MachineCheck
    | 0x13 => inl SimdFloatingPoint
    | 0x14 => inl Virtualization
    | 0x1e => inl Security
    | num => inl (Reserved num)
    end.

(** The vectors that [exception_try_from] turns into [Reserved]. *)
Definition reserved_vectors : list Z := [9; 15; 21; 22; 23; 24; 25; 26; 27; 28; 29].

(** The numbers below [n], all of them. *)
Lemma below (P : Z → Prop) n : (∀ i, (i < n)%nat → P (Z.of_nat i)) → ∀ x, 0 ≤ x < Z.of_nat n → P x.
Proof. intros H x Hx. rewrite <-(Z2Nat.id x) by lia. apply H. lia. Qed.

(** One number: is it reserved? *)
Ltac reserved_case :=
  let E := fresh in
  split;
  [intros E; vm_compute in E; first [discriminate E | injection E as <-; split; [reflexivity|]];
     apply (bool_decide_unpack _); vm_compute; exact I
  |intros [<- E]; first [reflexivity | apply (bool_decide_pack _) in E; vm_compute in E; destruct E]].

(** Exception numbers. Every number below 31 is an exception whose number
    it is; every larger one is refused; every named exception is found again
    from its number; and the reserved ones are exactly 9, 15 and 21 to 29 (so
    31, which the documentation of [Reserved] lists, never is one). *)
Lemma exception_roundtrip :
  (∀ num, 0 ≤ num < EXCEPTION_MAX → ∃ e, exception_try_from num = inl e ∧ exception_to_usize e = num) ∧
  (∀ num, EXCEPTION_MAX ≤ num → exception_try_from num = inr "Not an exception") ∧
  (∀ e, (∀ n, e ≠ Reserved n) → exception_try_from (exception_to_usize e) = inl e) ∧
  (∀ num n, 0 ≤ num → exception_try_from num = inl (Reserved n) ↔ num = n ∧ num ∈ reserved_vectors).
Proof.
  split; [|split; [|split]].
  - apply (below _ 31). intros i Hi.
    do 31 (destruct i as [|i]; [eexists; split; [reflexivity|reflexivity]|]). lia.
  - intros num Hn. unfold exception_try_from. by rewrite (proj2 (Z.leb_le _ _)).
  - intros e He. destruct e as [| | | | | | | | | | | | | | | | | | | |n]; try reflexivity. by destruct (He n).
  - intros num n Hn. destruct (Z.leb_spec EXCEPTION_MAX num) as [Hbig|Hsmall].
    + unfold exception_try_from. rewrite (proj2 (Z.leb_le _ _)) by done. split; [done|].
      intros [-> Hin]. assert (∀ x, x ∈ reserved_vectors → x < EXCEPTION_MAX) as H; [|by apply H in Hin; lia].
      apply Forall_forall. repeat constructor.
    + revert num Hn Hsmall.
      cut (∀ num, 0 ≤ num < 31 → exception_try_from num = inl (Reserved n) ↔ num = n ∧ num ∈ reserved_vectors).
      { intros H num ? ?. by apply H. }
      apply (below _ 31). intros i Hi.
      do 31 (destruct i as [|i]; [reserved_case|]). lia.
Qed.
