(* ===== verification/Idt.v ===== *)
(** * The Interrupt Descriptor Table (src/src/interrupt/idt.rs)

    Gates as the code builds and packs them, the table and the pointer that
    is loaded. [decode_gate] is what the processor makes of the 16 bytes. *)
From S2P Require Import Prelude Memory Bits.

(** ** Attributes *)
Inductive GateType : Set := Int32 | Int16 | Trap32 | Trap16.

(** [impl From<GateType> for u8] *)
Definition gate_type_to_u8 (t : GateType) : Z :=
  match t with
  | Int32 => 14
  | Trap32 => 15
  | Int16 => 6
  | Trap16 => 7
  end.

Section attributes.
Context {BC : BitCrates}.

Definition EntryAttributes_missing : Z := 0.
Definition attr_set_present (x : Z) (present : bool) : Z := set_bit x 7 present.
(** [set_bits(5..7, dpl as u8)] *)
Definition attr_set_privilege_level (x dpl : Z) : Z := set_range x 6 5 dpl.
(** [set_bits(0..4, gate_type.into())] *)
Definition attr_set_gate_type (x : Z) (t : GateType) : Z := set_range x 3 0 (gate_type_to_u8 t).
End attributes.

(** ** Entries *)
Record Entry : Set := mkEntry {
  entry_low : Z; selector : Z; ist : Z; attributes : Z; entry_mid : Z; entry_hi : Z; entry_reserved : Z;
}.

Definition Entry_missing : Entry := mkEntry 0 0 0 EntryAttributes_missing 0 0 0.
(** [Self { ist: 0, ..Self::missing() }] *)
Definition Entry_missing_exception : Entry :=
  let m := Entry_missing in
  mkEntry (entry_low m) (selector m) 0 (attributes m) (entry_mid m) (entry_hi m) (entry_reserved m).
Definition Entry_missing_irq : Entry :=
  let m := Entry_missing in
  mkEntry (entry_low m) (selector m) 0 (attributes m) (entry_mid m) (entry_hi m) (entry_reserved m).

Section entries.
Context {BC : BitCrates}.

(** [cs] is the selector in CS, [segmentation::cs().bits()]. *)
Definition set_handler_addr (cs addr : Z) (e : Entry) : Entry :=
  mkEntry (as_u16 addr) cs (ist e)
    (attr_set_gate_type (attr_set_present (attributes e) true) Int32)
    (as_u16 (Z.shiftr addr 16)) (as_u32 (Z.shiftr addr 32)) (entry_reserved e).

Definition set_ist (v : Z) (e : Entry) : Entry :=
  mkEntry (entry_low e) (selector e) v (attributes e) (entry_mid e) (entry_hi e) (entry_reserved e).

(** [handler as u64] is the address of the trampoline. *)
Definition set_handler_fn (cs handler : Z) (e : Entry) : Entry := set_handler_addr cs handler e.
End entries.

(** [repr(C, packed)]: 16 bytes. *)
Definition Entry_bytes (e : Entry) : list Z :=
  le_bytes 2 (entry_low e) ++ le_bytes 2 (selector e) ++ le_bytes 1 (ist e) ++ le_bytes 1 (attributes e) ++
  le_bytes 2 (entry_mid e) ++ le_bytes 4 (entry_hi e) ++ le_bytes 4 (entry_reserved e).
Definition size_of_Entry : Z := 16.

(** ** The table

    [Idt] is [repr(C)] and each of its fields is an entry or an array of
    entries: the table is the list of its 256 entries in the order of the
    fields, and a field is its position. *)
Abbreviation Idt := (list Entry).

Definition divide_by_zero : Z := 0.
Definition debug : Z := 1.
Definition non_maskable_interrupt : Z := 2.
Definition breakpoint : Z := 3.
Definition overflow : Z := 4.
Definition bound_range_exceeded : Z := 5.
Definition invalid_opcode : Z := 6.
Definition device_not_available : Z := 7.
Definition double_fault : Z := 8.
Definition exception_9 : Z := 9.
Definition invalid_tss : Z := 10.
Definition segment_not_present : Z := 11.
Definition stack_segment_fault : Z := 12.
Definition general_protection_fault : Z := 13.
Definition page_fault : Z := 14.
Definition exception_15 : Z := 15.
Definition x87_floating_point : Z := 16.
Definition alignment_check : Z := 17.
Definition machine_check : Z := 18.
Definition simd_floating_point : Z := 19.
Definition virtualization : Z := 20.
Definition control_exception : Z := 21.
Definition idt_reserved : Z := 22.
Definition interrupts : Z := 32.

Definition Idt_new : Idt :=
  replicate 3 Entry_missing_exception ++ [Entry_missing] ++ replicate 17 Entry_missing_exception ++
  [Entry_missing] ++ replicate 10 Entry_missing ++ replicate (256 - 32) Entry_missing_irq.

Definition Idt_bytes (t : Idt) : list Z := t ≫= Entry_bytes.
Definition size_of_Idt (t : Idt) : Z := size_of_Entry * slice_len t.

(** [load]: the base and the limit given to [lidt]. *)
Definition Idt_load (base : Z) (t : Idt) : Z * Z := (base, as_u16 (size_of_Idt t - 1)).

(** ** What the processor reads *)
Record Gate : Set := mkGate {
  g_offset : Z; g_selector : Z; g_ist : Z; g_type : Z; g_dpl : Z; g_present : bool;
}.

Definition decode_gate (q r : Z) : Gate :=
  mkGate (bits_of q 0 16 + 2 ^ 16 * bits_of q 48 16 + 2 ^ 32 * bits_of r 0 32)
    (bits_of q 16 16) (bits_of q 32 3) (bits_of q 40 4) (bits_of q 45 2) (Z.testbit q 47).

(** The gate of a vector, when it lies within the limit. *)
Definition fetch_gate (mem : memory) (base limit vector : Z) : option Gate :=
  if vector * 16 + 15 <=? limit
  then Some (decode_gate (read_u64 mem (base + vector * 16)) (read_u64 mem (base + vector * 16 + 8)))
  else None.

(** ** Lemmas *)

(** The two halves of an entry as numbers. *)
Definition pack_gate (lo sel isx at_ mid : Z) : Z :=
  lo mod 2 ^ 16 + 2 ^ 16 * (sel mod 2 ^ 16 + 2 ^ 16 * (isx mod 2 ^ 8 + 2 ^ 8 * (at_ mod 2 ^ 8 +
    2 ^ 8 * (mid mod 2 ^ 16)))).

Lemma read_u64_gate mem a e : holds mem a (Entry_bytes e) →
  read_u64 mem a = pack_gate (entry_low e) (selector e) (ist e) (attributes e) (entry_mid e) ∧
  read_u64 mem (a + 8) = entry_hi e mod 2 ^ 32 + 2 ^ 32 * (entry_reserved e mod 2 ^ 32).
Proof.
  unfold Entry_bytes. rewrite !app_assoc, <-(app_assoc _ (le_bytes 4 (entry_hi e))).
  intros [H1 H2]%holds_app. rewrite !length_app, !length_le_bytes in H2. split; unfold read_u64.
  - pose proof (read_le_val _ _ _ H1) as E. rewrite !length_app, !length_le_bytes in E.
    refine (eq_trans E _). unfold pack_gate. rewrite <-!app_assoc, !le_val_le_bytes.
    rewrite <-(app_nil_r (le_bytes 2 (entry_mid e))), le_val_le_bytes. cbn [le_val].
    change (256 ^ Z.of_nat 2) with (2 ^ 16). change (256 ^ Z.of_nat 1) with (2 ^ 8). lia.
  - pose proof (read_le_val _ _ _ H2) as E. rewrite !length_app, !length_le_bytes in E.
    refine (eq_trans E _). rewrite le_val_le_bytes, <-(app_nil_r (le_bytes 4 (entry_reserved e))), le_val_le_bytes.
    cbn [le_val]. change (256 ^ Z.of_nat 4) with (2 ^ 32). lia.
Qed.

Lemma testbit_field a i b c :
  0 ≤ i → 0 ≤ a < 2 ^ i → 0 ≤ b < 2 → Z.testbit (a + 2 ^ i * (b + 2 * c)) i = (b =? 1).
Proof.
  intros Hi Ha Hb. rewrite Z.testbit_eqb by done.
  rewrite (Z.mul_comm (2 ^ i)), Z.div_add, (Z.div_small a), Z.add_0_l by lia.
  rewrite (Z.mul_comm 2), Z.mod_add by lia. by rewrite Z.mod_small.
Qed.

(** The fields of a gate whose attribute byte is [t + 32 dpl + 128 p]. *)
Lemma decode_pack lo sel st t dpl p mid hi :
  0 ≤ lo < 2 ^ 16 → 0 ≤ sel < 2 ^ 16 → 0 ≤ st < 2 ^ 3 → 0 ≤ t < 2 ^ 4 → 0 ≤ dpl < 2 ^ 2 → 0 ≤ p < 2 →
  0 ≤ mid < 2 ^ 16 → 0 ≤ hi < 2 ^ 32 →
  decode_gate (pack_gate lo sel st (t + 32 * dpl + 128 * p) mid) (hi + 2 ^ 32 * 0) =
    mkGate (lo + 2 ^ 16 * mid + 2 ^ 32 * hi) sel st t dpl (p =? 1).
Proof.
  intros. unfold decode_gate, pack_gate. rewrite !(Z.mod_small _ (2 ^ 16)) by done.
  rewrite (Z.mod_small st (2 ^ 8)), (Z.mod_small (_ + _) (2 ^ 8)) by lia.
  set (q := lo + _). f_equal.
  - f_equal; [f_equal; [|f_equal]|f_equal].
    + replace q with (0 + 2 ^ 0 * (lo + 2 ^ 16 * (sel + 2 ^ 16 * (st + 2 ^ 8 * (t + 32 * dpl + 128 * p + 2 ^ 8 * mid)))))
        by (unfold q; lia). apply bits_of_field; lia.
    + replace q with ((lo + 2 ^ 16 * sel + 2 ^ 32 * st + 2 ^ 40 * (t + 32 * dpl + 128 * p)) + 2 ^ 48 * (mid + 2 ^ 16 * 0))
        by (unfold q; lia). apply bits_of_field; lia.
    + replace (hi + 2 ^ 32 * 0) with (0 + 2 ^ 0 * (hi + 2 ^ 32 * 0)) by lia. apply bits_of_field; lia.
  - replace q with (lo + 2 ^ 16 * (sel + 2 ^ 16 * (st + 2 ^ 8 * (t + 32 * dpl + 128 * p + 2 ^ 8 * mid))))
      by (unfold q; lia). apply bits_of_field; lia.
  - replace q with ((lo + 2 ^ 16 * sel) + 2 ^ 32 * (st + 2 ^ 3 * (2 ^ 5 * (t + 32 * dpl + 128 * p + 2 ^ 8 * mid))))
      by (unfold q; lia). apply bits_of_field; lia.
  - replace q with ((lo + 2 ^ 16 * sel + 2 ^ 32 * st) + 2 ^ 40 * (t + 2 ^ 4 * (2 * dpl + 8 * p + 2 ^ 4 * mid)))
      by (unfold q; lia). apply bits_of_field; lia.
  - replace q with ((lo + 2 ^ 16 * sel + 2 ^ 32 * st + 2 ^ 40 * t) + 2 ^ 45 * (dpl + 2 ^ 2 * (p + 2 * mid)))
      by (unfold q; lia). apply bits_of_field; lia.
  - replace q with ((lo + 2 ^ 16 * sel + 2 ^ 32 * st + 2 ^ 40 * t + 2 ^ 45 * dpl) + 2 ^ 47 * (p + 2 * mid))
      by (unfold q; lia). apply testbit_field; lia.
Qed.

(** An address put together from its three parts. *)
Lemma addr_parts addr : 0 ≤ addr < 2 ^ 64 →
  as_u16 addr + 2 ^ 16 * as_u16 (Z.shiftr addr 16) + 2 ^ 32 * as_u32 (Z.shiftr addr 32) = addr.
Proof.
  intros Ha. unfold as_u16, as_u32. rewrite !Z.shiftr_div_pow2 by lia.
  rewrite (Z.mod_small (addr / 2 ^ 32)); [|split; [apply Z.div_pos; lia|apply Z.div_lt_upper_bound; lia]].
  rewrite (split_low addr 16) at 4 by lia. rewrite (split_low (addr / 2 ^ 16) 16) at 2 by lia.
  rewrite Z.div_div by lia. change (2 ^ 16 * 2 ^ 16) with (2 ^ 32).
  generalize (addr mod 2 ^ 16), ((addr / 2 ^ 16) mod 2 ^ 16), (addr / 2 ^ 32). lia.
Qed.

(** The bytes of one entry of a table in memory. *)
Lemma holds_entry mem base (t : Idt) v e :
  holds mem base (Idt_bytes t) → slice_get t v = Some e → holds mem (base + v * 16) (Entry_bytes e).
Proof.
  unfold slice_get. destruct (Z.leb_spec 0 v) as [Hv|]; [|done].
  rewrite <-(Z2Nat.id v) at 2 by done. generalize (Z.to_nat v) as i. clear v Hv. unfold Idt_bytes.
  revert base. induction t as [|x t IH]; intros base i H Hi; [done|].
  rewrite bind_cons in H. apply holds_app in H as [H1 H2].
  assert (Z.of_nat (length (Entry_bytes x)) = 16) as El.
  { unfold Entry_bytes. by rewrite !length_app, !length_le_bytes. }
  rewrite El in H2. destruct i as [|i]; simpl in Hi.
  - injection Hi as ->. by rewrite Z.add_0_r.
  - replace (base + Z.of_nat (S i) * 16) with (base + 16 + Z.of_nat i * 16) by lia. by apply IH.
Qed.

(** The gate that the processor finds for an entry. *)
Definition entry_gate (e : Entry) : Gate :=
  decode_gate (pack_gate (entry_low e) (selector e) (ist e) (attributes e) (entry_mid e))
    (entry_hi e mod 2 ^ 32 + 2 ^ 32 * (entry_reserved e mod 2 ^ 32)).

Lemma fetch_gate_entry mem base limit (t : Idt) v e :
  holds mem base (Idt_bytes t) → slice_get t v = Some e → v * 16 + 15 ≤ limit →
  fetch_gate mem base limit v = Some (entry_gate e).
Proof.
  intros H Hv Hl. unfold fetch_gate. rewrite (proj2 (Z.leb_le _ _)) by done.
  destruct (read_u64_gate _ _ _ (holds_entry _ _ _ _ _ H Hv)) as [-> ->]. done.
Qed.

Section gates.
Context {BC : BitCrates} {BL : BitCratesLaws}.

(** The gate that [set_handler_addr] makes of an entry that was missing. *)
Lemma handler_gate cs addr :
  0 ≤ cs < 2 ^ 16 → 0 ≤ addr < 2 ^ 64 →
  entry_gate (set_handler_fn cs addr Entry_missing) = mkGate addr cs 0 (gate_type_to_u8 Int32) 0 true.
Proof.
  intros Hc Ha. unfold set_handler_fn, set_handler_addr, attr_set_gate_type, attr_set_present, gate_type_to_u8.
  cbn [attributes Entry_missing ist entry_reserved]. unfold EntryAttributes_missing. eval_bits.
  unfold entry_gate. cbn [entry_low selector ist attributes entry_mid entry_hi entry_reserved].
  rewrite Z.mod_0_l by done. change 142 with (14 + 32 * 0 + 128 * 1).
  unfold as_u32. rewrite Z.mod_mod by done. fold (as_u32 (Z.shiftr addr 32)).
  rewrite decode_pack; try lia; try (apply Z.mod_pos_bound; lia).
  by rewrite addr_parts.
Qed.

Lemma missing_gate : entry_gate Entry_missing = mkGate 0 0 0 0 0 false.
Proof. reflexivity. Qed.
End gates.
