(* ===== verification/Xapic.v ===== *)
(** * The local APIC driver (src/src/interrupt/x86_xapic.rs, lapic.rs)

    The xAPIC registers, the driver's operations and the kernel's use of them.
    The device is a parameter: what volatile reads return and what writes do
    to it. A ghost log records the accesses in order. *)
From S2P Require Import Prelude Bits.

(** ** Registers *)
Definition XAPIC_ID : Z := 0x020.
Definition XAPIC_VERSION : Z := 0x030.
Definition XAPIC_TPR : Z := 0x080.
Definition XAPIC_PPR : Z := 0x0A0.
Definition XAPIC_EOI : Z := 0x0B0.
Definition XAPIC_LDR : Z := 0x0D0.
Definition XAPIC_SVR : Z := 0x0F0.
Definition XAPIC_ISR0 : Z := 0x100.
Definition XAPIC_ISR1 : Z := 0x110.
Definition XAPIC_ISR2 : Z := 0x120.
Definition XAPIC_ISR3 : Z := 0x130.
Definition XAPIC_ISR4 : Z := 0x140.
Definition XAPIC_ISR5 : Z := 0x150.
Definition XAPIC_ISR6 : Z := 0x160.
Definition XAPIC_ISR7 : Z := 0x170.
Definition XAPIC_TMR0 : Z := 0x180.
Definition XAPIC_TMR1 : Z := 0x190.
Definition XAPIC_TMR2 : Z := 0x1A0.
Definition XAPIC_TMR3 : Z := 0x1B0.
Definition XAPIC_TMR4 : Z := 0x1C0.
Definition XAPIC_TMR5 : Z := 0x1D0.
Definition XAPIC_TMR6 : Z := 0x1E0.
Definition XAPIC_TMR7 : Z := 0x1F0.
Definition XAPIC_IRR0 : Z := 0x200.
Definition XAPIC_IRR1 : Z := 0x210.
Definition XAPIC_IRR2 : Z := 0x220.
Definition XAPIC_IRR3 : Z := 0x230.
Definition XAPIC_IRR4 : Z := 0x240.
Definition XAPIC_IRR5 : Z := 0x250.
Definition XAPIC_IRR6 : Z := 0x260.
Definition XAPIC_IRR7 : Z := 0x270.
Definition XAPIC_ESR : Z := 0x280.
Definition XAPIC_LVT_CMCI : Z := 0x2F0.
Definition XAPIC_ICR0 : Z := 0x300.
Definition XAPIC_ICR1 : Z := 0x310.
Definition XAPIC_LVT_TIMER : Z := 0x320.
Definition XAPIC_LVT_THERMAL : Z := 0x330.
Definition XAPIC_LVT_PMI : Z := 0x340.
Definition XAPIC_LVT_LINT0 : Z := 0x350.
Definition XAPIC_LVT_LINT1 : Z := 0x360.
Definition XAPIC_LVT_ERROR : Z := 0x370.
Definition XAPIC_TIMER_INIT_COUNT : Z := 0x380.
Definition XAPIC_TIMER_CURRENT_COUNT : Z := 0x390.
Definition XAPIC_TIMER_DIV_CONF : Z := 0x3E0.

(** The enumeration [ApicRegister]; a register's discriminant is its offset. *)
Module ApicRegister.
Inductive t : Set :=
  | XAPIC_ID
  | XAPIC_VERSION
  | XAPIC_TPR
  | XAPIC_PPR
  | XAPIC_EOI
  | XAPIC_LDR
  | XAPIC_SVR
  | XAPIC_ISR0
  | XAPIC_ISR1
  | XAPIC_ISR2
  | XAPIC_ISR3
  | XAPIC_ISR4
  | XAPIC_ISR5
  | XAPIC_ISR6
  | XAPIC_ISR7
  | XAPIC_TMR0
  | XAPIC_TMR1
  | XAPIC_TMR2
  | XAPIC_TMR3
  | XAPIC_TMR4
  | XAPIC_TMR5
  | XAPIC_TMR6
  | XAPIC_TMR7
  | XAPIC_IRR0
  | XAPIC_IRR1
  | XAPIC_IRR2
  | XAPIC_IRR3
  | XAPIC_IRR4
  | XAPIC_IRR5
  | XAPIC_IRR6
  | XAPIC_IRR7
  | XAPIC_ESR
  | XAPIC_LVT_CMCI
  | XAPIC_ICR0
  | XAPIC_ICR1
  | XAPIC_LVT_TIMER
  | XAPIC_LVT_THERMAL
  | XAPIC_LVT_PMI
  | XAPIC_LVT_LINT0
  | XAPIC_LVT_LINT1
  | XAPIC_LVT_ERROR
  | XAPIC_TIMER_INIT_COUNT
  | XAPIC_TIMER_CURRENT_COUNT
  | XAPIC_TIMER_DIV_CONF.
End ApicRegister.

Definition register_offset (r : ApicRegister.t) : Z :=
  match r with
  | ApicRegister.XAPIC_ID => XAPIC_ID
  | ApicRegister.XAPIC_VERSION => XAPIC_VERSION
  | ApicRegister.XAPIC_TPR => XAPIC_TPR
  | ApicRegister.XAPIC_PPR => XAPIC_PPR
  | ApicRegister.XAPIC_EOI => XAPIC_EOI
  | ApicRegister.XAPIC_LDR => XAPIC_LDR
  | ApicRegister.XAPIC_SVR => XAPIC_SVR
  | ApicRegister.XAPIC_ISR0 => XAPIC_ISR0
  | ApicRegister.XAPIC_ISR1 => XAPIC_ISR1
  | ApicRegister.XAPIC_ISR2 => XAPIC_ISR2
  | ApicRegister.XAPIC_ISR3 => XAPIC_ISR3
  | ApicRegister.XAPIC_ISR4 => XAPIC_ISR4
  | ApicRegister.XAPIC_ISR5 => XAPIC_ISR5
  | ApicRegister.XAPIC_ISR6 => XAPIC_ISR6
  | ApicRegister.XAPIC_ISR7 => XAPIC_ISR7
  | ApicRegister.XAPIC_TMR0 => XAPIC_TMR0
  | ApicRegister.XAPIC_TMR1 => XAPIC_TMR1
  | ApicRegister.XAPIC_TMR2 => XAPIC_TMR2
  | ApicRegister.XAPIC_TMR3 => XAPIC_TMR3
  | ApicRegister.XAPIC_TMR4 => XAPIC_TMR4
  | ApicRegister.XAPIC_TMR5 => XAPIC_TMR5
  | ApicRegister.XAPIC_TMR6 => XAPIC_TMR6
  | ApicRegister.XAPIC_TMR7 => XAPIC_TMR7
  | ApicRegister.XAPIC_IRR0 => XAPIC_IRR0
  | ApicRegister.XAPIC_IRR1 => XAPIC_IRR1
  | ApicRegister.XAPIC_IRR2 => XAPIC_IRR2
  | ApicRegister.XAPIC_IRR3 => XAPIC_IRR3
  | ApicRegister.XAPIC_IRR4 => XAPIC_IRR4
  | ApicRegister.XAPIC_IRR5 => XAPIC_IRR5
  | ApicRegister.XAPIC_IRR6 => XAPIC_IRR6
  | ApicRegister.XAPIC_IRR7 => XAPIC_IRR7
  | ApicRegister.XAPIC_ESR => XAPIC_ESR
  | ApicRegister.XAPIC_LVT_CMCI => XAPIC_LVT_CMCI
  | ApicRegister.XAPIC_ICR0 => XAPIC_ICR0
  | ApicRegister.XAPIC_ICR1 => XAPIC_ICR1
  | ApicRegister.XAPIC_LVT_TIMER => XAPIC_LVT_TIMER
  | ApicRegister.XAPIC_LVT_THERMAL => XAPIC_LVT_THERMAL
  | ApicRegister.XAPIC_LVT_PMI => XAPIC_LVT_PMI
  | ApicRegister.XAPIC_LVT_LINT0 => XAPIC_LVT_LINT0
  | ApicRegister.XAPIC_LVT_LINT1 => XAPIC_LVT_LINT1
  | ApicRegister.XAPIC_LVT_ERROR => XAPIC_LVT_ERROR
  | ApicRegister.XAPIC_TIMER_INIT_COUNT => XAPIC_TIMER_INIT_COUNT
  | ApicRegister.XAPIC_TIMER_CURRENT_COUNT => XAPIC_TIMER_CURRENT_COUNT
  | ApicRegister.XAPIC_TIMER_DIV_CONF => XAPIC_TIMER_DIV_CONF
  end.

Definition all_registers : list ApicRegister.t :=
  [ApicRegister.XAPIC_ID; ApicRegister.XAPIC_VERSION; ApicRegister.XAPIC_TPR; ApicRegister.XAPIC_PPR;
   ApicRegister.XAPIC_EOI; ApicRegister.XAPIC_LDR; ApicRegister.XAPIC_SVR; ApicRegister.XAPIC_ISR0;
   ApicRegister.XAPIC_ISR1; ApicRegister.XAPIC_ISR2; ApicRegister.XAPIC_ISR3; ApicRegister.XAPIC_ISR4;
   ApicRegister.XAPIC_ISR5; ApicRegister.XAPIC_ISR6; ApicRegister.XAPIC_ISR7; ApicRegister.XAPIC_TMR0;
   ApicRegister.XAPIC_TMR1; ApicRegister.XAPIC_TMR2; ApicRegister.XAPIC_TMR3; ApicRegister.XAPIC_TMR4;
   ApicRegister.XAPIC_TMR5; ApicRegister.XAPIC_TMR6; ApicRegister.XAPIC_TMR7; ApicRegister.XAPIC_IRR0;
   ApicRegister.XAPIC_IRR1; ApicRegister.XAPIC_IRR2; ApicRegister.XAPIC_IRR3; ApicRegister.XAPIC_IRR4;
   ApicRegister.XAPIC_IRR5; ApicRegister.XAPIC_IRR6; ApicRegister.XAPIC_IRR7; ApicRegister.XAPIC_ESR;
   ApicRegister.XAPIC_LVT_CMCI; ApicRegister.XAPIC_ICR0; ApicRegister.XAPIC_ICR1; ApicRegister.XAPIC_LVT_TIMER;
   ApicRegister.XAPIC_LVT_THERMAL; ApicRegister.XAPIC_LVT_PMI; ApicRegister.XAPIC_LVT_LINT0; ApicRegister.XAPIC_LVT_LINT1;
   ApicRegister.XAPIC_LVT_ERROR; ApicRegister.XAPIC_TIMER_INIT_COUNT; ApicRegister.XAPIC_TIMER_CURRENT_COUNT; ApicRegister.XAPIC_TIMER_DIV_CONF].

(** ** The device *)
Class ApicDevice (Dev : Type) : Type := {
  mmio_read : Z → Dev → Z * Dev;       (** volatile read of a word of the region *)
  mmio_write : Z → Z → Dev → Dev;      (** volatile write *)
  rdmsr : Z → Dev → Z;
  wrmsr : Z → Z → Dev → Dev;
}.

Definition IA32_APIC_BASE : Z := 0x1b.
Definition IA32_TSC_DEADLINE : Z := 0x6e0.

Inductive ApicEvent : Set :=
  | EvMmioRead (offset value : Z)
  | EvMmioWrite (offset value : Z)
  | EvWrmsr (msr value : Z).

#[export] Instance ApicEvent_eq_dec : EqDecision ApicEvent.
Proof. solve_decision. Defined.

(** The driver: the length of [mmio_region] and the value of the base MSR. *)
Record XAPIC : Set := mkXAPIC { mmio_len : Z; base : Z }.

(** [cpu.xapic] (uninitialised before [lapic::init]), the device, the log. *)
Record ApicState (Dev : Type) : Type := mkApicState {
  cpu_xapic : option XAPIC;
  apic_dev : Dev;
  apic_log : list ApicEvent;
}.
Arguments mkApicState {Dev} cpu_xapic apic_dev apic_log.
Arguments cpu_xapic {Dev} a.
Arguments apic_dev {Dev} a.
Arguments apic_log {Dev} a.

Section driver.
Context {BC : BitCrates} {Dev : Type} {AD : ApicDevice Dev}.
Local Abbreviation A := (M (ApicState Dev)).

Definition apic_rdmsr (msr : Z) : A Z := gets (λ s, rdmsr msr (apic_dev s)).
Definition apic_wrmsr (msr v : Z) : A unit :=
  modify (λ s, mkApicState (cpu_xapic s) (wrmsr msr v (apic_dev s)) (apic_log s ++ [EvWrmsr msr v])).

Definition read_volatile (offset : Z) : A Z := λ s,
  let '(v, d) := mmio_read (offset / 4) (apic_dev s) in
  Done (v, mkApicState (cpu_xapic s) d (apic_log s ++ [EvMmioRead offset v])).
Definition write_volatile (offset v : Z) : A unit :=
  modify (λ s, mkApicState (cpu_xapic s) (mmio_write (offset / 4) v (apic_dev s))
                 (apic_log s ++ [EvMmioWrite offset v])).

(** [assert!(offset as usize % 4 == 0)] and the bounds check of the slice *)
Definition check_offset (self : XAPIC) (offset : Z) : A unit :=
  if offset mod 4 =? 0 then
    if offset / 4 <? mmio_len self then mret tt else panic PIndex
  else panic (PMessage "assertion failed").

Definition XAPIC_read (self : XAPIC) (r : ApicRegister.t) : A Z :=
  check_offset self (register_offset r);; read_volatile (register_offset r).
Definition XAPIC_write (self : XAPIC) (r : ApicRegister.t) (val : Z) : A unit :=
  check_offset self (register_offset r);; write_volatile (register_offset r) val.

Definition XAPIC_new (region_len : Z) : A XAPIC :=
  b ← apic_rdmsr IA32_APIC_BASE;
  mret (mkXAPIC region_len b).

(** Operations on [&mut self] return the updated driver. *)
Definition attach (self : XAPIC) : A XAPIC :=
  b ← apic_rdmsr IA32_APIC_BASE;
  let self := mkXAPIC (mmio_len self) (set_bit b 11 true) in
  apic_wrmsr IA32_APIC_BASE (base self);;
  let svr := Z.lor (Z.shiftl 1 8) 15 in
  XAPIC_write self ApicRegister.XAPIC_SVR svr;;
  mret self.

Definition detach (self : XAPIC) : A XAPIC :=
  b ← apic_rdmsr IA32_APIC_BASE;
  let self := mkXAPIC (mmio_len self) (set_bit b 11 false) in
  apic_wrmsr IA32_APIC_BASE (base self);;
  mret self.

Definition tsc_set_oneshot (self : XAPIC) (value : Z) : A unit :=
  XAPIC_write self ApicRegister.XAPIC_TIMER_INIT_COUNT value.

(** [impl ApicControl for XAPIC] *)
Definition bsp (self : XAPIC) : bool := 0 <? Z.land (base self) (Z.shiftl 1 8).
Definition id (self : XAPIC) : A Z := XAPIC_read self ApicRegister.XAPIC_ID.
Definition logical_id (self : XAPIC) : A Z := XAPIC_read self ApicRegister.XAPIC_LDR.
Definition version (self : XAPIC) : A Z := XAPIC_read self ApicRegister.XAPIC_VERSION.
Definition eoi (self : XAPIC) : A unit := XAPIC_write self ApicRegister.XAPIC_EOI 0.

(** The new value of the timer's LVT entry. *)
Definition timer_lvt (lvt vector : Z) : Z :=
  let lvt := Z.land lvt (Z.lnot 0xff) in
  let lvt := Z.lor lvt vector in
  let lvt := set_bit lvt 16 false in
  let lvt := set_bit lvt 17 true in
  set_bit lvt 18 false.

Definition tsc_enable (self : XAPIC) (vector : Z) : A unit :=
  lvt ← XAPIC_read self ApicRegister.XAPIC_LVT_TIMER;
  XAPIC_write self ApicRegister.XAPIC_LVT_TIMER (timer_lvt lvt vector).

Definition tsc_set (value : Z) : A unit := apic_wrmsr IA32_TSC_DEADLINE value.

(** The loop of [send_ipi], one unit of fuel per iteration. *)
Fixpoint ipi_wait (fuel : nat) (self : XAPIC) : A unit :=
  match fuel with
  | O => hang
  | S fuel' =>
      icr ← XAPIC_read self ApicRegister.XAPIC_ICR0;
      if Z.land (Z.shiftr icr 12) 1 =? 0 then mret tt
      else
        esr ← XAPIC_read self ApicRegister.XAPIC_ESR;
        if 0 <? esr then mret tt else ipi_wait fuel' self
  end.

(** [icr.upper()] and [icr.lower()] are given by the x86 crate. *)
Definition send_ipi (fuel : nat) (self : XAPIC) (upper lower : Z) : A unit :=
  XAPIC_write self ApicRegister.XAPIC_ESR 0;;
  XAPIC_write self ApicRegister.XAPIC_ESR 0;;
  XAPIC_write self ApicRegister.XAPIC_ICR1 upper;;
  XAPIC_write self ApicRegister.XAPIC_ICR0 lower;;
  ipi_wait fuel self.

(** ** lapic.rs *)

(** The address and the length in words of the APIC region. *)
Definition probe_apic : A (Z * Z) :=
  m ← apic_rdmsr IA32_APIC_BASE;
  let msr27 := as_u32 m in
  let lapic := Z.land msr27 0xffff0000 in
  if lapic =? 0 then panic PNull else mret (lapic, 4096 / 4).

Definition lapic_init : A unit :=
  apic_region ← probe_apic;
  xapic ← XAPIC_new apic_region.2;
  xapic ← attach xapic;
  tsc_set_oneshot xapic 0xfffffffe;;
  tsc_enable xapic 32;;
  modify (λ s, mkApicState (Some xapic) (apic_dev s) (apic_log s)).

(** [cpu.xapic.assume_init_mut()]: undefined behaviour before [lapic::init],
    which ends the run here. *)
Definition assume_init : A XAPIC :=
  x ← gets cpu_xapic;
  match x with
  | Some x => mret x
  | None => panic (PMessage "uninitialised")
  end.

Definition set_timer (cycles : Z) : A unit :=
  xapic ← assume_init;
  tsc_set_oneshot xapic (as_u32 cycles).

Definition end_of_interrupt : A unit :=
  xapic ← assume_init;
  eoi xapic.

(** [boot_ap], which is yet to be implemented. *)
Definition boot_ap (cpu_id stack code : Z) : A unit := mret tt.

(** The timer interrupt handler of mod.rs. *)
Definition timer : A unit :=
  set_timer 100000;;
  end_of_interrupt.
End driver.

(** ** Lemmas *)
Section lemmas.
Context {BC : BitCrates} {BL : BitCratesLaws} {Dev : Type} {AD : ApicDevice Dev}.
Implicit Types (s : ApicState Dev) (x : XAPIC).

Lemma register_bounds r : register_offset r mod 16 = 0 ∧ 0 ≤ register_offset r < 0x400.
Proof. destruct r; vm_compute; (split; [reflexivity|split; congruence]). Qed.

Lemma check_offset_ok x r s : mmio_len x = 1024 → check_offset x (register_offset r) s = Done (tt, s).
Proof.
  intros Hl. unfold check_offset. destruct (register_bounds r) as [Hm Hb].
  assert (register_offset r mod 4 = 0) as ->.
  { pose proof (Z.div_mod (register_offset r) 16 ltac:(lia)) as E. rewrite Hm in E. rewrite E.
    replace (16 * (register_offset r / 16) + 0) with (4 * (register_offset r / 16) * 4) by lia. by apply Z.mod_mul. }
  simpl. rewrite Hl, (proj2 (Z.ltb_lt _ _)); [done|]. apply Z.div_lt_upper_bound; lia.
Qed.

Definition after_write (r : ApicRegister.t) (v : Z) s : ApicState Dev :=
  mkApicState (cpu_xapic s) (mmio_write (register_offset r / 4) v (apic_dev s))
    (apic_log s ++ [EvMmioWrite (register_offset r) v]).
Definition after_read (r : ApicRegister.t) s : ApicState Dev :=
  mkApicState (cpu_xapic s) (mmio_read (register_offset r / 4) (apic_dev s)).2
    (apic_log s ++ [EvMmioRead (register_offset r) (mmio_read (register_offset r / 4) (apic_dev s)).1]).

Lemma XAPIC_write_run x r v s : mmio_len x = 1024 → XAPIC_write x r v s = Done (tt, after_write r v s).
Proof. intros Hl. unfold XAPIC_write, mbind, M_bind. by rewrite check_offset_ok. Qed.

Lemma XAPIC_read_run x r s : mmio_len x = 1024 →
  XAPIC_read x r s = Done ((mmio_read (register_offset r / 4) (apic_dev s)).1, after_read r s).
Proof.
  intros Hl. unfold XAPIC_read, mbind, M_bind. rewrite check_offset_ok by done.
  unfold read_volatile, after_read. by destruct (mmio_read _ _).
Qed.

Lemma wp_write x r v s Q : mmio_len x = 1024 → Q tt (after_write r v s) → wp (XAPIC_write x r v) Q s.
Proof. intros Hl HQ. eapply wp_run_eq; [by apply XAPIC_write_run|done]. Qed.
Lemma wp_read x r s Q : mmio_len x = 1024 →
  Q (mmio_read (register_offset r / 4) (apic_dev s)).1 (after_read r s) → wp (XAPIC_read x r) Q s.
Proof. intros Hl HQ. eapply wp_run_eq; [by apply XAPIC_read_run|done]. Qed.

(** One turn of the polling loop of [send_ipi]: the device afterwards, on the
    left when the loop ends. *)
Definition poll (d : Dev) : Dev + Dev :=
  let '(icr, d1) := mmio_read (XAPIC_ICR0 / 4) d in
  if Z.land (Z.shiftr icr 12) 1 =? 0 then inl d1
  else
    let '(esr, d2) := mmio_read (XAPIC_ESR / 4) d1 in
    if 0 <? esr then inl d2 else inr d2.

(** The device when it ends the loop within [n] turns. *)
Fixpoint polls (n : nat) (d : Dev) : option Dev :=
  match n with
  | O => None
  | S n' => match poll d with inl d' => Some d' | inr d' => polls n' d' end
  end.

Lemma ipi_wait_step fuel x s : mmio_len x = 1024 →
  ∃ rd, (∀ o v, EvMmioWrite o v ∉ rd) ∧
    ipi_wait (S fuel) x s =
      match poll (apic_dev s) with
      | inl d => Done (tt, mkApicState (cpu_xapic s) d (apic_log s ++ rd))
      | inr d => ipi_wait fuel x (mkApicState (cpu_xapic s) d (apic_log s ++ rd))
      end.
Proof.
  intros Hl. cbn [ipi_wait]. unfold poll, mbind at 1, M_bind at 1. rewrite XAPIC_read_run by done.
  unfold after_read. cbn [register_offset].
  destruct (mmio_read (XAPIC_ICR0 / 4) (apic_dev s)) as [icr d1] eqn:E1. cbn [fst snd].
  destruct (Z.land _ 1 =? 0).
  - exists [EvMmioRead XAPIC_ICR0 icr]. split; [set_solver|done].
  - unfold mbind at 1, M_bind at 1. rewrite XAPIC_read_run by done. unfold after_read.
    cbn [register_offset apic_dev cpu_xapic apic_log].
    destruct (mmio_read (XAPIC_ESR / 4) d1) as [esr d2] eqn:E2. cbn [fst snd].
    exists [EvMmioRead XAPIC_ICR0 icr; EvMmioRead XAPIC_ESR esr]. split; [set_solver|].
    rewrite <-app_assoc. by destruct (0 <? esr).
Qed.

Lemma ipi_wait_run fuel x s : mmio_len x = 1024 →
  match polls fuel (apic_dev s) with
  | Some d => ∃ rd, ipi_wait fuel x s = Done (tt, mkApicState (cpu_xapic s) d (apic_log s ++ rd)) ∧
      ∀ o v, EvMmioWrite o v ∉ rd
  | None => ipi_wait fuel x s = Hang
  end.
Proof.
  intros Hl. revert s. induction fuel as [|fuel IH]; intros s; [done|].
  destruct (ipi_wait_step fuel x s Hl) as (rd & Hrd & ->). cbn [polls].
  destruct (poll (apic_dev s)) as [d|d]; [by eauto|].
  specialize (IH (mkApicState (cpu_xapic s) d (apic_log s ++ rd))). cbn [apic_dev cpu_xapic apic_log] in IH.
  destruct (polls fuel d); [|done]. destruct IH as (rd' & -> & Hrd').
  rewrite <-app_assoc. eexists. split; [reflexivity|].
  intros o v [?|?]%elem_of_app; [by eapply Hrd|by eapply Hrd'].
Qed.

Lemma testbit_lnot_ff j : 0 ≤ j → Z.testbit (Z.lnot 0xff) j = negb (j <? 8).
Proof. intros Hj. rewrite Z.lnot_spec by done. change 0xff with (Z.ones 8). by rewrite testbit_ones_Z by lia. Qed.

(** Every bit of the entry that [tsc_enable] writes: the vector, the mask clear,
    the mode bits 18:17 at 01 (periodic), the rest as it was. *)
Lemma timer_lvt_testbit lvt vector j :
  0 ≤ lvt → 0 ≤ vector < 2 ^ 8 → 0 ≤ j →
  Z.testbit (timer_lvt lvt vector) j =
    if j <? 8 then Z.testbit vector j
    else if (16 <=? j) && (j <=? 18) then j =? 17 else Z.testbit lvt j.
Proof.
  intros Hl Hv Hj. unfold timer_lvt.
  assert (0 ≤ Z.lor (Z.land lvt (Z.lnot 0xff)) vector) as H0.
  { apply Z.lor_nonneg. split; [apply Z.land_nonneg; by left|lia]. }
  assert (0 ≤ set_bit (Z.lor (Z.land lvt (Z.lnot 0xff)) vector) 16 false) as H1 by (by apply set_bit_nonneg).
  assert (0 ≤ set_bit (set_bit (Z.lor (Z.land lvt (Z.lnot 0xff)) vector) 16 false) 17 true) as H2
    by (by apply set_bit_nonneg).
  rewrite !set_bit_spec by lia. rewrite Z.lor_spec, Z.land_spec, testbit_lnot_ff by done.
  rewrite <-(Z.mod_small vector (2 ^ 8)) at 1 by done. rewrite Z.testbit_mod_pow2 by lia.
  destruct (Z.eqb_spec j 18), (Z.eqb_spec j 17), (Z.eqb_spec j 16), (Z.ltb_spec j 8),
    (Z.leb_spec 16 j), (Z.leb_spec j 18); simpl; try lia; try done.
  all: by rewrite ?andb_false_r, ?andb_true_r, ?orb_false_r.
Qed.
End lemmas.

(** ** Theorems *)

(** Register accesses. The offsets of the registers are distinct, aligned
    to 16 bytes and inside the 4 KiB region, so neither the assertion nor the
    bounds check of [read] and [write] ever fails: each is exactly one volatile
    access to its register. *)
Lemma register_access {Dev} {AD : ApicDevice Dev} self r v (s : ApicState Dev) :
  mmio_len self = 4096 / 4 →
  NoDup (register_offset <$> all_registers) ∧ r ∈ all_registers ∧ register_offset r mod 16 = 0 ∧
  XAPIC_write self r v s = Done (tt,
    mkApicState (cpu_xapic s) (mmio_write (register_offset r / 4) v (apic_dev s))
      (apic_log s ++ [EvMmioWrite (register_offset r) v])) ∧
  XAPIC_read self r s =
    let '(x, d) := mmio_read (register_offset r / 4) (apic_dev s) in
    Done (x, mkApicState (cpu_xapic s) d (apic_log s ++ [EvMmioRead (register_offset r) x])).
Proof.
  intros Hl. split; [by apply (bool_decide_unpack _)|].
  split; [destruct r; apply list_elem_of_In; simpl; tauto|].
  split; [apply register_bounds|]. split; [by apply XAPIC_write_run|].
  rewrite XAPIC_read_run by done. unfold after_read. by destruct (mmio_read _ _).
Qed.

(** A device made of registers: reads return what was written last, except
    that the delivery status of ICR0 is always idle. *)
Record RegFile : Set := mkRegFile { rf_words : list (Z * Z); rf_msrs : list (Z * Z) }.
Definition assoc (k : Z) (l : list (Z * Z)) : Z :=
  default 0 (snd <$> find (λ p, p.1 =? k) l).
#[export] Instance reg_file : ApicDevice RegFile := {
  mmio_read i d := (if i =? XAPIC_ICR0 / 4 then Z.ldiff (assoc i (rf_words d)) 0x1000 else assoc i (rf_words d), d);
  mmio_write i v d := mkRegFile ((i, v) :: rf_words d) (rf_msrs d);
  rdmsr m d := assoc m (rf_msrs d);
  wrmsr m v d := mkRegFile (rf_words d) ((m, v) :: rf_msrs d);
}.
Definition pc_apic : ApicState RegFile := mkApicState None (mkRegFile [] [(IA32_APIC_BASE, 0xfee00900)]) [].

(** The accesses of [lapic::init]. *)
Lemma lapic_init_run {BC : BitCrates} {Dev} {AD : ApicDevice Dev} (s : ApicState Dev) :
  Z.land (as_u32 (rdmsr IA32_APIC_BASE (apic_dev s))) 0xffff0000 ≠ 0 →
  wp lapic_init (λ _ s', ∃ b b' lvt, b = rdmsr IA32_APIC_BASE (apic_dev s) ∧ b' = set_bit b 11 true ∧
      apic_log s' = apic_log s ++ [EvWrmsr IA32_APIC_BASE b'; EvMmioWrite XAPIC_SVR 0x10f;
        EvMmioWrite XAPIC_TIMER_INIT_COUNT 0xfffffffe; EvMmioRead XAPIC_LVT_TIMER lvt;
        EvMmioWrite XAPIC_LVT_TIMER (timer_lvt lvt 32)] ∧
      cpu_xapic s' = Some (mkXAPIC 1024 b') ∧
      ∃ d, lvt = (mmio_read (XAPIC_LVT_TIMER / 4) d).1) s.
Proof.
  intros Hr. unfold lapic_init, probe_apic, XAPIC_new, attach, tsc_set_oneshot, tsc_enable, apic_rdmsr, apic_wrmsr.
  repeat wp_seq_step. cbv zeta. rewrite (proj2 (Z.eqb_neq _ _)) by done. repeat wp_seq_step. cbn [snd mmio_len].
  apply wp_write; [done|]. repeat wp_seq_step. apply wp_write; [done|]. repeat wp_seq_step.
  apply wp_read; [done|]. repeat wp_seq_step. apply wp_write; [done|]. repeat wp_seq_step.
  eexists _, _, _. split_and!; [reflexivity|reflexivity| |reflexivity|by eexists].
  unfold after_write, after_read. cbn [apic_log cpu_xapic apic_dev register_offset base].
  rewrite <-!app_assoc. reflexivity.
Qed.

(** Starting the local APIC. When the base MSR gives a region, [lapic::init]
    makes exactly these accesses, in this order: the global enable bit is set
    in the base MSR, the spurious vector register gets the enable bit and
    vector 15, the initial count is set, and the timer's LVT entry is read and
    written with vector 32; the driver is then in [cpu.xapic]. *)
Lemma lapic_init_accesses {BC : BitCrates} {Dev} {AD : ApicDevice Dev} (s : ApicState Dev) :
  Z.land (as_u32 (rdmsr IA32_APIC_BASE (apic_dev s))) 0xffff0000 ≠ 0 →
  wp lapic_init (λ _ s', ∃ b b' lvt, b = rdmsr IA32_APIC_BASE (apic_dev s) ∧ b' = set_bit b 11 true ∧
      apic_log s' = apic_log s ++ [EvWrmsr IA32_APIC_BASE b'; EvMmioWrite XAPIC_SVR 0x10f;
        EvMmioWrite XAPIC_TIMER_INIT_COUNT 0xfffffffe; EvMmioRead XAPIC_LVT_TIMER lvt;
        EvMmioWrite XAPIC_LVT_TIMER (timer_lvt lvt 32)] ∧
      cpu_xapic s' = Some (mkXAPIC 1024 b')) s.
Proof.
  intros Hr. eapply wp_mono; [by apply lapic_init_run|]. intros _ s' (b & b' & lvt & ? & ? & ? & ? & _). by exists b, b', lvt.
Qed.

(** The whole of [send_ipi]: the writes, then the polling. *)
Lemma send_ipi_run {Dev} {AD : ApicDevice Dev} fuel self upper lower (s : ApicState Dev) :
  mmio_len self = 4096 / 4 →
  let d := mmio_write (XAPIC_ICR0 / 4) lower (mmio_write (XAPIC_ICR1 / 4) upper
             (mmio_write (XAPIC_ESR / 4) 0 (mmio_write (XAPIC_ESR / 4) 0 (apic_dev s)))) in
  match polls fuel d with
  | Some d' => ∃ rd, send_ipi fuel self upper lower s = Done (tt, mkApicState (cpu_xapic s) d'
      (apic_log s ++ [EvMmioWrite XAPIC_ESR 0; EvMmioWrite XAPIC_ESR 0; EvMmioWrite XAPIC_ICR1 upper;
         EvMmioWrite XAPIC_ICR0 lower] ++ rd)) ∧ ∀ o v, EvMmioWrite o v ∉ rd
  | None => send_ipi fuel self upper lower s = Hang
  end.
Proof.
  intros Hl d. unfold send_ipi, mbind, M_bind. rewrite !XAPIC_write_run by done.
  set (s1 := after_write ApicRegister.XAPIC_ICR0 lower _).
  assert (s1 = mkApicState (cpu_xapic s) d (apic_log s ++ [EvMmioWrite XAPIC_ESR 0; EvMmioWrite XAPIC_ESR 0;
    EvMmioWrite XAPIC_ICR1 upper; EvMmioWrite XAPIC_ICR0 lower])) as ->.
  { unfold s1, after_write. cbn [cpu_xapic apic_dev apic_log register_offset]. rewrite <-!app_assoc. reflexivity. }
  pose proof (ipi_wait_run fuel self (mkApicState (cpu_xapic s) d (apic_log s ++ [EvMmioWrite XAPIC_ESR 0;
    EvMmioWrite XAPIC_ESR 0; EvMmioWrite XAPIC_ICR1 upper; EvMmioWrite XAPIC_ICR0 lower])) Hl) as H.
  cbn [cpu_xapic apic_dev apic_log] in H. destruct (polls fuel d); [|done].
  destruct H as (rd & -> & Hrd). exists rd. split; [|done]. by rewrite <-app_assoc.
Qed.

(** C34: inter-processor interrupts. [send_ipi] clears the error register, writes
    the upper half of the command before the lower half (which sends it), and
    then polls; it ends exactly when the device ends the polling, and never
    writes while it polls. *)
Theorem send_ipi_order {Dev} {AD : ApicDevice Dev} fuel self upper lower (s : ApicState Dev) :
  mmio_len self = 4096 / 4 →
  let d := mmio_write (XAPIC_ICR0 / 4) lower (mmio_write (XAPIC_ICR1 / 4) upper
             (mmio_write (XAPIC_ESR / 4) 0 (mmio_write (XAPIC_ESR / 4) 0 (apic_dev s)))) in
  match polls fuel d with
  | Some d' => ∃ rd, send_ipi fuel self upper lower s = Done (tt, mkApicState (cpu_xapic s) d'
      (apic_log s ++ [EvMmioWrite XAPIC_ESR 0; EvMmioWrite XAPIC_ESR 0; EvMmioWrite XAPIC_ICR1 upper;
         EvMmioWrite XAPIC_ICR0 lower] ++ rd)) ∧ ∀ o v, EvMmioWrite o v ∉ rd
  | None => send_ipi fuel self upper lower s = Hang
  end.
Proof. apply send_ipi_run. Qed.

Lemma send_ipi_order_witness :
  ∃ d' rd, send_ipi 1 (mkXAPIC 1024 0) 0x1000000 0xc500 pc_apic = Done (tt, mkApicState None d'
      ([] ++ [EvMmioWrite XAPIC_ESR 0; EvMmioWrite XAPIC_ESR 0; EvMmioWrite XAPIC_ICR1 0x1000000;
         EvMmioWrite XAPIC_ICR0 0xc500] ++ rd)) ∧ ∀ o v, EvMmioWrite o v ∉ rd.
Proof.
  pose proof (send_ipi_order 1 (mkXAPIC 1024 0) 0x1000000 0xc500 pc_apic eq_refl) as H.
  eexists. exact H.
Defined.

(** The timer interrupt. Once the local APIC is started, the timer's handler
    sets the initial count to 100000 and then acknowledges the interrupt;
    [set_timer] passes on the cycles modulo 2^32. *)
Lemma timer_handler {Dev} {AD : ApicDevice Dev} (s : ApicState Dev) x cycles :
  cpu_xapic s = Some x → mmio_len x = 4096 / 4 →
  timer s = Done (tt, mkApicState (cpu_xapic s)
    (mmio_write (XAPIC_EOI / 4) 0 (mmio_write (XAPIC_TIMER_INIT_COUNT / 4) 100000 (apic_dev s)))
    (apic_log s ++ [EvMmioWrite XAPIC_TIMER_INIT_COUNT 100000; EvMmioWrite XAPIC_EOI 0])) ∧
  set_timer cycles s = Done (tt, mkApicState (cpu_xapic s)
    (mmio_write (XAPIC_TIMER_INIT_COUNT / 4) (cycles mod 2 ^ 32) (apic_dev s))
    (apic_log s ++ [EvMmioWrite XAPIC_TIMER_INIT_COUNT (cycles mod 2 ^ 32)])).
Proof.
  intros Hx Hl.
  assert (∀ c s', cpu_xapic s' = Some x → set_timer c s' = Done (tt, after_write ApicRegister.XAPIC_TIMER_INIT_COUNT (as_u32 c) s')) as Hset.
  { intros c s' Hs. unfold set_timer, assume_init, mbind, M_bind, gets. rewrite Hs. by apply XAPIC_write_run. }
  split; [|by rewrite Hset].
  unfold timer, mbind, M_bind. rewrite Hset by done.
  unfold end_of_interrupt, assume_init, mbind, M_bind, gets. cbn [cpu_xapic after_write]. rewrite Hx.
  unfold mret, M_ret, eoi. rewrite XAPIC_write_run by done. unfold after_write.
  cbn [cpu_xapic apic_dev apic_log register_offset]. rewrite Hx, <-app_assoc. reflexivity.
Qed.
