(* ===== verification/Ipi.v ===== *)
(** * Starting other processors, and the driver's dump (src/src/interrupt/x86_xapic.rs)

    The three inter-processor interrupts that start a processor, on top of
    [send_ipi], and the [Debug] implementation, which reads every register.
    The interrupt command of the x86 crate is a parameter with the documented
    layout of the two command registers as its laws. *)
From S2P Require Import Prelude Bits Xapic.

(** ** [Icr] of the x86 crate

    The modes that the driver names, their encodings, [Icr::for_xapic] of a
    vector, the id of an xAPIC and the modes, and the words of the command for
    ICR1 ([upper]) and ICR0 ([lower]). *)
Class X86Icr : Type := {
  Icr : Type;
  DestinationShorthand : Type;
  NoShorthand : DestinationShorthand;
  AllIncludingSelf : DestinationShorthand;
  DeliveryMode : Type;
  Init : DeliveryMode;
  StartUp : DeliveryMode;
  DestinationMode : Type;
  Physical : DestinationMode;
  DeliveryStatus : Type;
  Idle : DeliveryStatus;
  Level : Type;
  Assert : Level;
  Deassert : Level;
  TriggerMode : Type;
  Edge : TriggerMode;
  LevelTriggered : TriggerMode;
  for_xapic : Z → Z → DestinationShorthand → DeliveryMode → DestinationMode → DeliveryStatus → Level → TriggerMode → Icr;
  upper : Icr → Z;
  lower : Icr → Z;
  shorthand_code : DestinationShorthand → Z;
  delivery_code : DeliveryMode → Z;
  destination_code : DestinationMode → Z;
  status_code : DeliveryStatus → Z;
  level_code : Level → Z;
  trigger_code : TriggerMode → Z;
}.

(** The layout of the command registers (Intel SDM vol. 3, Figure 10-12). *)
Class X86IcrLaws {X : X86Icr} : Prop := {
  icr_upper v d sh dm m st l t : 0 ≤ d < 2 ^ 8 → upper (for_xapic v d sh dm m st l t) = d * 2 ^ 24;
  icr_lower v d sh dm m st l t : 0 ≤ v < 2 ^ 8 →
    lower (for_xapic v d sh dm m st l t) =
      v + delivery_code dm * 2 ^ 8 + destination_code m * 2 ^ 11 + status_code st * 2 ^ 12 +
      level_code l * 2 ^ 14 + trigger_code t * 2 ^ 15 + shorthand_code sh * 2 ^ 18;
  shorthand_codes : shorthand_code NoShorthand = 0 ∧ shorthand_code AllIncludingSelf = 2;
  delivery_codes : delivery_code Init = 5 ∧ delivery_code StartUp = 6;
  physical_code : destination_code Physical = 0;
  idle_code : status_code Idle = 0;
  level_codes : level_code Assert = 1 ∧ level_code Deassert = 0;
  trigger_codes : trigger_code Edge = 0 ∧ trigger_code LevelTriggered = 1;
}.

(** An instance: a command is its two words and each mode its code. *)
#[export] Instance icr_words : X86Icr := {
  Icr := Z * Z;
  DestinationShorthand := Z; NoShorthand := 0; AllIncludingSelf := 2;
  DeliveryMode := Z; Init := 5; StartUp := 6;
  DestinationMode := Z; Physical := 0; DeliveryStatus := Z; Idle := 0;
  Level := Z; Assert := 1; Deassert := 0; TriggerMode := Z; Edge := 0; LevelTriggered := 1;
  for_xapic v d sh dm m st l t :=
    (d * 2 ^ 24, v + dm * 2 ^ 8 + m * 2 ^ 11 + st * 2 ^ 12 + l * 2 ^ 14 + t * 2 ^ 15 + sh * 2 ^ 18);
  upper := fst; lower := snd;
  shorthand_code x := x; delivery_code x := x; destination_code x := x; status_code x := x; level_code x := x;
  trigger_code x := x;
}.

#[export] Instance icr_words_laws : @X86IcrLaws icr_words.
Proof. split; done. Qed.

Section ipi.
Context {BC : BitCrates} {Dev : Type} {AD : ApicDevice Dev} {XI : X86Icr}.
Local Abbreviation A := (M (ApicState Dev)).

(** [send_ipi] given the command. *)
Definition send_icr (fuel : nat) (self : XAPIC) (icr : Icr) : A unit :=
  send_ipi fuel self (upper icr) (lower icr).

Definition ipi_init (fuel : nat) (self : XAPIC) (core : Z) : A unit :=
  let icr := for_xapic 0 core NoShorthand Init Physical Idle Assert LevelTriggered in
  send_icr fuel self icr.

Definition ipi_init_deassert (fuel : nat) (self : XAPIC) : A unit :=
  let icr := for_xapic 0 0 AllIncludingSelf Init Physical Idle Deassert LevelTriggered in
  send_icr fuel self icr.

Definition ipi_startup (fuel : nat) (self : XAPIC) (core start_page : Z) : A unit :=
  let icr := for_xapic start_page core NoShorthand StartUp Physical Idle Assert Edge in
  send_icr fuel self icr.
End ipi.

(** ** The dump *)

(** The fields that [fmt] prints, in order. *)
Definition debug_fields : list (string * ApicRegister.t) :=
  [("XAPIC_ID", ApicRegister.XAPIC_ID); ("XAPIC_VERSION", ApicRegister.XAPIC_VERSION);
   ("XAPIC_TPR", ApicRegister.XAPIC_TPR); ("XAPIC_PPR", ApicRegister.XAPIC_PPR);
   ("XAPIC_EOI", ApicRegister.XAPIC_EOI); ("XAPIC_LDR", ApicRegister.XAPIC_LDR);
   ("XAPIC_SVR", ApicRegister.XAPIC_SVR); ("XAPIC_ISR0", ApicRegister.XAPIC_ISR0);
   ("XAPIC_ISR1", ApicRegister.XAPIC_ISR1); ("XAPIC_ISR2", ApicRegister.XAPIC_ISR2);
   ("XAPIC_ISR3", ApicRegister.XAPIC_ISR3); ("XAPIC_ISR4", ApicRegister.XAPIC_ISR4);
   ("XAPIC_ISR5", ApicRegister.XAPIC_ISR5); ("XAPIC_ISR6", ApicRegister.XAPIC_ISR6);
   ("XAPIC_ISR7", ApicRegister.XAPIC_ISR7); ("XAPIC_TMR0", ApicRegister.XAPIC_TMR0);
   ("XAPIC_TMR1", ApicRegister.XAPIC_TMR1); ("XAPIC_TMR2", ApicRegister.XAPIC_TMR2);
   ("XAPIC_TMR3", ApicRegister.XAPIC_TMR3); ("XAPIC_TMR4", ApicRegister.XAPIC_TMR4);
   ("XAPIC_TMR5", ApicRegister.XAPIC_TMR5); ("XAPIC_TMR6", ApicRegister.XAPIC_TMR6);
   ("XAPIC_TMR7", ApicRegister.XAPIC_TMR7); ("XAPIC_IRR0", ApicRegister.XAPIC_IRR0);
   ("XAPIC_IRR1", ApicRegister.XAPIC_IRR1); ("XAPIC_IRR2", ApicRegister.XAPIC_IRR2);
   ("XAPIC_IRR3", ApicRegister.XAPIC_IRR3); ("XAPIC_IRR4", ApicRegister.XAPIC_IRR4);
   ("XAPIC_IRR5", ApicRegister.XAPIC_IRR5); ("XAPIC_IRR6", ApicRegister.XAPIC_IRR6);
   ("XAPIC_IRR7", ApicRegister.XAPIC_IRR7); ("XAPIC_ESR", ApicRegister.XAPIC_ESR);
   ("XAPIC_LVT_CMCI", ApicRegister.XAPIC_LVT_CMCI); ("XAPIC_ICR0", ApicRegister.XAPIC_ICR0);
   ("XAPIC_ICR1", ApicRegister.XAPIC_ICR1); ("XAPIC_LVT_TIMER", ApicRegister.XAPIC_LVT_TIMER);
   ("XAPIC_LVT_THERMAL", ApicRegister.XAPIC_LVT_THERMAL); ("XAPIC_LVT_PMI", ApicRegister.XAPIC_LVT_PMI);
   ("XAPIC_LVT_LINT0", ApicRegister.XAPIC_LVT_LINT0); ("XAPIC_LVT_LINT1", ApicRegister.XAPIC_LVT_LINT1);
   ("XAPIC_LVT_ERROR", ApicRegister.XAPIC_LVT_ERROR);
   ("XAPIC_TIMER_INIT_COUNT", ApicRegister.XAPIC_TIMER_INIT_COUNT);
   ("XAPIC_TIMER_CURRENT_COUNT", ApicRegister.XAPIC_TIMER_CURRENT_COUNT);
   ("XAPIC_TIMER_DIV_CONF", ApicRegister.XAPIC_TIMER_DIV_CONF)].

(** [fmt]: the names and values that the formatter gets. *)
Definition XAPIC_fmt {Dev} {AD : ApicDevice Dev} (self : XAPIC) : M (ApicState Dev) (list (string * Z)) :=
  fold_each debug_fields (λ out '(name, r), v ← XAPIC_read self r; mret (out ++ [(name, v)])) [].

(** ** Lemmas *)

(** What [send_ipi] does: clear the errors, write the command, poll. *)
Definition ipi_log {Dev} {AD : ApicDevice Dev} (hi lo : Z) (s : ApicState Dev) (r : outcome (unit * ApicState Dev)) : Prop :=
  ∃ d rd, r = Done (tt, mkApicState (cpu_xapic s) d
    (apic_log s ++ [EvMmioWrite XAPIC_ESR 0; EvMmioWrite XAPIC_ESR 0; EvMmioWrite XAPIC_ICR1 hi; EvMmioWrite XAPIC_ICR0 lo] ++ rd)) ∧
    ∀ o v, EvMmioWrite o v ∉ rd.

(** The device ends the polling after the command [hi], [lo]. *)
Definition accepts {Dev} {AD : ApicDevice Dev} (fuel : nat) (hi lo : Z) (d : Dev) : Prop :=
  is_Some (polls fuel (mmio_write (XAPIC_ICR0 / 4) lo (mmio_write (XAPIC_ICR1 / 4) hi
    (mmio_write (XAPIC_ESR / 4) 0 (mmio_write (XAPIC_ESR / 4) 0 d))))).

Lemma send_icr_log {Dev} {AD : ApicDevice Dev} {XI : X86Icr} fuel self icr (s : ApicState Dev) :
  mmio_len self = 4096 / 4 → accepts fuel (upper icr) (lower icr) (apic_dev s) →
  ipi_log (upper icr) (lower icr) s (send_icr fuel self icr s).
Proof.
  intros Hl [d Hd]. pose proof (send_ipi_run fuel self (upper icr) (lower icr) s Hl) as H.
  cbv zeta in H. rewrite Hd in H. destruct H as (rd & ? & ?). by exists d, rd.
Qed.

Lemma send_icr_words {Dev} {AD : ApicDevice Dev} {XI : X86Icr} fuel self icr hi lo (s : ApicState Dev) :
  mmio_len self = 4096 / 4 → upper icr = hi → lower icr = lo → accepts fuel hi lo (apic_dev s) →
  ipi_log hi lo s (send_icr fuel self icr s).
Proof. intros Hl <- <-. by apply send_icr_log. Qed.

(** ** Theorems *)

(** Starting a processor. The INIT interrupt, its deassertion and the
    STARTUP interrupt write the command words that the manual asks for: INIT
    level-triggered and asserted to the core, INIT deasserted to all, STARTUP
    with the page number to the core; each ends when the device accepts it. *)
Lemma processor_start {Dev} {AD : ApicDevice Dev} {XI : X86Icr} {XL : X86IcrLaws} fuel self core page (s : ApicState Dev) :
  mmio_len self = 4096 / 4 → 0 ≤ core < 2 ^ 8 → 0 ≤ page < 2 ^ 8 →
  accepts fuel (core * 2 ^ 24) 0xc500 (apic_dev s) → accepts fuel 0 0x88500 (apic_dev s) →
  accepts fuel (core * 2 ^ 24) (0x4600 + page) (apic_dev s) →
  ipi_log (core * 2 ^ 24) 0xc500 s (ipi_init fuel self core s) ∧
  ipi_log 0 0x88500 s (ipi_init_deassert fuel self s) ∧
  ipi_log (core * 2 ^ 24) (0x4600 + page) s (ipi_startup fuel self core page s).
Proof.
  intros Hl Hc Hp H1 H2 H3. unfold ipi_init, ipi_init_deassert, ipi_startup.
  destruct shorthand_codes as [S0 S2], delivery_codes as [D5 D6], level_codes as [L1 L0], trigger_codes as [T0 T1].
  split_and!; (eapply send_icr_words; [done|apply icr_upper; lia|rewrite icr_lower by lia|done]);
    rewrite ?S0, ?S2, ?D5, ?D6, ?L1, ?L0, ?T0, ?T1, physical_code, idle_code; lia.
Qed.

(** The driver's dump. Printing the driver reads each register exactly once,
    in the order of the offsets, writes none, and prints each value under the
    name of its register. *)
Lemma fmt_reads_registers {Dev} {AD : ApicDevice Dev} self (s : ApicState Dev) :
  mmio_len self = 4096 / 4 →
  (snd <$> debug_fields) = all_registers ∧
  wp (XAPIC_fmt self) (λ out s', fst <$> out = fst <$> debug_fields ∧ cpu_xapic s' = cpu_xapic s ∧
      apic_log s' = apic_log s ++ zip_with (λ r p, EvMmioRead (register_offset r) p.2) all_registers out) s.
Proof.
  intros Hl. split; [reflexivity|]. unfold XAPIC_fmt.
  eapply wp_mono; [apply (wp_fold_each debug_fields _ (λ pre out s',
    fst <$> out = fst <$> pre ∧ cpu_xapic s' = cpu_xapic s ∧
    apic_log s' = apic_log s ++ zip_with (λ r p, EvMmioRead (register_offset r) p.2) (snd <$> pre) out))|].
  - intros pre [name r] post out s' _ (Hn & Hx & Hlog). wp_seq_step. apply wp_read; [done|]. wp_seq_step.
    cbn [after_read cpu_xapic apic_log]. rewrite !fmap_app, Hn, Hlog. split; [done|]. split; [done|].
    rewrite zip_with_app by (by rewrite length_fmap, <-(length_fmap fst out), Hn, length_fmap).
    by rewrite app_assoc.
  - cbn. by rewrite app_nil_r.
  - done.
Qed.
