(* ===== verification/Mps.v ===== *)
(** * MultiProcessor Specification tables (src/src/interrupt/mps.rs)

    The search for the floating pointer structure, the walk over the entries
    of the configuration table, and the identifiers of its header as text, on
    physical memory. [probe_ioapic]
    returns the fallback address; its earlier version, which used the search
    and the walk, is commented out in the source. *)
From S2P Require Import Prelude Memory.

Definition FALLBACK_IOAPIC_BASE : Z := 0xfec00000.
Definition EBDA_BASE : Z := 0x80000.
Definition EBDA_MAX_SIZE : Z := 128 * 1024.
Definition BIOS_BASE : Z := 0xf0000.
Definition BIOS_MAX_SIZE : Z := 64 * 1024.

(** [b"_MP_"] and [b"PCMP"] *)
Definition FP_SIGNATURE : list Z := [95; 77; 80; 95].
Definition CONF_SIGNATURE : list Z := [80; 67; 77; 80].
Definition ENTRY_IOAPIC : Z := 2.
Definition HEADER_SIZE : Z := 44.

(** [n] bytes of memory. *)
Definition read_bytes (n : nat) (mem : memory) (a : Z) : list Z :=
  (λ i, as_u8 (mem (a + Z.of_nat i))) <$> seq 0 n.

(** [FloatingPointer]: the address is the reference; its field [phys_addr]. *)
Definition fp_phys_addr (mem : memory) (fp : Z) : Z := read_u32 mem (fp + 4).

(** [ConfigurationTable.entry_count], at offset 34 of the [repr(C)] struct. *)
Definition conf_entry_count (mem : memory) (config : Z) : Z := read_le 2 mem (config + 34).

(** [IoApicEntry.base], at offset 4. *)
Definition ioapic_entry_base (mem : memory) (entry : Z) : Z := read_u32 mem (entry + 4).

(** [core::str::from_utf8(..).ok()]: the bytes, when they are well-formed UTF-8
    (Unicode, Table 3-7). *)
Definition within (lo hi b : Z) : bool := (lo <=? b) && (b <=? hi).
Definition two_bytes (b c : Z) : bool := within 0xC2 0xDF b && within 0x80 0xBF c.
Definition three_bytes (b c d : Z) : bool :=
  ((b =? 0xE0) && within 0xA0 0xBF c || within 0xE1 0xEC b && within 0x80 0xBF c ||
   (b =? 0xED) && within 0x80 0x9F c || within 0xEE 0xEF b && within 0x80 0xBF c) && within 0x80 0xBF d.
Definition four_bytes (b c d e : Z) : bool :=
  ((b =? 0xF0) && within 0x90 0xBF c || within 0xF1 0xF3 b && within 0x80 0xBF c ||
   (b =? 0xF4) && within 0x80 0x8F c) && within 0x80 0xBF d && within 0x80 0xBF e.
Fixpoint utf8_valid (bs : list Z) : bool :=
  match bs with
  | [] => true
  | b :: r =>
      if within 0 0x7F b then utf8_valid r
      else match r with
      | [] => false
      | c :: r1 =>
          if two_bytes b c then utf8_valid r1
          else match r1 with
          | [] => false
          | d :: r2 =>
              if three_bytes b c d then utf8_valid r2
              else match r2 with
              | [] => false
              | e :: r3 => four_bytes b c d e && utf8_valid r3
              end
          end
      end
  end.
Definition from_utf8 (bs : list Z) : option (list Z) := if utf8_valid bs then Some bs else None.

(** The identifiers of the configuration table, at offsets 8 and 16. *)
Definition oem_id_str (mem : memory) (config : Z) : option (list Z) := from_utf8 (read_bytes 8 mem (config + 8)).
Definition product_id_str (mem : memory) (config : Z) : option (list Z) := from_utf8 (read_bytes 12 mem (config + 16)).

Section mps.
Context {St : Type}.

Definition get_config_table (mem : memory) (fp : Z) : M St Z :=
  let config := fp_phys_addr mem fp in
  if bool_decide (read_bytes 4 mem config = CONF_SIGNATURE) then mret config
  else panic (PMessage "Invalid configuration table").

(** The length of an entry by its type. *)
Definition entry_len (entry_type : Z) : M St Z :=
  if entry_type =? 0 then mret 20
  else if (entry_type =? 1) || (entry_type =? 2) || (entry_type =? 3) || (entry_type =? 4) then mret 8
  else panic (PMessage "Invalid MPS entry type").

(** The loop of [get_ioapic_entry]: [i] counts up to [entry_count], a [u16]. *)
Fixpoint ioapic_loop (fuel : nat) (mem : memory) (entry_count i cur : Z) : M St (option Z) :=
  match fuel with
  | O => hang
  | S fuel' =>
      if i <? entry_count then
        let entry_type := as_u8 (mem cur) in
        len ← entry_len entry_type;
        if entry_type =? ENTRY_IOAPIC then mret (Some cur)
        else
          cur' ← uadd cur len;
          ioapic_loop fuel' mem entry_count (i + 1) cur'
      else mret None
  end.

Definition get_ioapic_entry (mem : memory) (config : Z) : M St (option Z) :=
  cur ← uadd config HEADER_SIZE;
  let n := conf_entry_count mem config in
  ioapic_loop (S (Z.to_nat n)) mem n 0 cur.

Definition probe_ioapic : M St Z := mret FALLBACK_IOAPIC_BASE.

(** The loop of [find_fp]; a step is 16 bytes. *)
Fixpoint fp_loop (fuel : nat) (mem : memory) (search_end cur : Z) : M St (option Z) :=
  match fuel with
  | O => hang
  | S fuel' =>
      if cur <? search_end then
        if bool_decide (read_bytes 4 mem cur = FP_SIGNATURE) then mret (Some cur)
        else
          cur' ← uadd cur 16;
          fp_loop fuel' mem search_end cur'
      else mret None
  end.

Definition find_fp (mem : memory) (base size : Z) : M St (option Z) :=
  let cur := base in
  e ← uadd cur size;
  search_end ← usub e 16;
  fp_loop (S (Z.to_nat size)) mem search_end cur.
End mps.

(** ** Lemmas *)

(** Identifiers in ASCII are returned as they are. *)
Lemma ascii_valid bs : Forall (λ b, 0 ≤ b < 128) bs → utf8_valid bs = true.
Proof.
  induction 1 as [|b bs Hb Hbs IH]; [done|]. cbn [utf8_valid]. unfold within at 1.
  by rewrite (proj2 (Z.leb_le 0 b)), (proj2 (Z.leb_le b 0x7F)) by lia.
Qed.
Lemma ids_ascii mem config :
  (Forall (λ b, 0 ≤ b < 128) (read_bytes 8 mem (config + 8)) →
   oem_id_str mem config = Some (read_bytes 8 mem (config + 8))) ∧
  (Forall (λ b, 0 ≤ b < 128) (read_bytes 12 mem (config + 16)) →
   product_id_str mem config = Some (read_bytes 12 mem (config + 16))).
Proof. split; intros H; unfold oem_id_str, product_id_str, from_utf8; by rewrite (ascii_valid _ H). Qed.
Example utf8_examples :
  utf8_valid [0xC3; 0xA9] = true ∧ utf8_valid [0xE2; 0x82; 0xAC] = true ∧ utf8_valid [0xC0; 0x80] = false ∧
  utf8_valid [0xED; 0xA0; 0x80] = false ∧ utf8_valid [0xF0; 0x9F; 0x98; 0x80] = true ∧ utf8_valid [0xE2; 0x82] = false.
Proof. by vm_compute. Qed.

(** The paragraph [base + 16 k] has the signature. *)
Definition signature_at (mem : memory) (a : Z) : Prop := read_bytes 4 mem a = FP_SIGNATURE.

(** The loop finds the first paragraph with the signature below [search_end]. *)
Lemma fp_loop_spec {St} fuel mem e cur (s : St) :
  0 ≤ cur → e + 16 ≤ U64_MAX → e - cur ≤ 16 * Z.of_nat fuel →
  ∃ r, fp_loop (S fuel) mem e cur s = Done (r, s) ∧
    match r with
    | Some a => ∃ k : nat, a = cur + 16 * Z.of_nat k ∧ a < e ∧ signature_at mem a ∧
        ∀ j : nat, (j < k)%nat → ¬ signature_at mem (cur + 16 * Z.of_nat j)
    | None => ∀ j : nat, cur + 16 * Z.of_nat j < e → ¬ signature_at mem (cur + 16 * Z.of_nat j)
    end.
Proof.
  revert cur. induction fuel as [|fuel IH]; intros cur Hc He Hf; cbn [fp_loop];
    (destruct (Z.ltb_spec cur e) as [Hlt|Hge]; [|exists None; split; [done|intros; lia]]); [lia|].
  case_bool_decide as Hs.
  { exists (Some cur). split; [done|]. exists O. split_and!; [lia|done|done|lia]. }
  destruct (IH (cur + 16)) as (r & Hr & Hp); [lia..|].
  exists r. split.
  { unfold uadd. erewrite bind_Done; [exact Hr|]. apply checked_ok. lia. }
  assert (∀ j : nat, cur + 16 * Z.of_nat (S j) = cur + 16 + 16 * Z.of_nat j) as Hstep by lia.
  destruct r as [a|].
  - destruct Hp as (k & -> & Ha & Hsig & Hfirst). exists (S k). rewrite Hstep. split_and!; try done.
    intros [|j] Hj; [by rewrite Z.add_0_r|]. rewrite Hstep. apply Hfirst. lia.
  - intros [|j] Hj; [by rewrite Z.add_0_r|]. rewrite Hstep in *. by apply Hp.
Qed.

(** An entry of the configuration table: its type byte and its length. *)
Definition entry_ok (e : list Z) : Prop :=
  (∃ bs, e = 0 :: bs ∧ length e = 20%nat) ∨ (∃ t bs, e = t :: bs ∧ 1 ≤ t ≤ 4 ∧ length e = 8%nat).
Definition entry_type (e : list Z) : Z := default 0 (head e).

Lemma entry_step {St} mem cur e bs (s : St) :
  entry_ok e → holds mem cur (e ++ bs) →
  as_u8 (mem cur) = entry_type e ∧ entry_len (entry_type e) s = Done (Z.of_nat (length e), s) ∧
  holds mem (cur + Z.of_nat (length e)) bs.
Proof.
  intros Hok Hh. pose proof Hh as [_ Hbs]%holds_app.
  destruct Hok as [(es & -> & El)|(t & es & -> & Ht & El)]; apply holds_cons in Hh as [-> _];
    rewrite El in *; cbn [entry_type head default]; unfold entry_len; (split; [|split; [|done]]); try done.
  - apply Z.mod_small. cbn. lia.
  - assert (t = 1 ∨ t = 2 ∨ t = 3 ∨ t = 4) as [-> | [-> | [-> | ->]]] by lia; done.
Qed.

(** The walk passes over entries that are no I/O APIC. *)
Lemma ioapic_loop_skip {St} (es : list (list Z)) fuel mem n i cur bs (s : St) :
  Forall (λ e, entry_ok e ∧ entry_type e ≠ ENTRY_IOAPIC) es →
  holds mem cur (concat es ++ bs) → 0 ≤ cur → cur + Z.of_nat (length (concat es)) ≤ U64_MAX →
  i + Z.of_nat (length es) ≤ n →
  ioapic_loop (length es + fuel) mem n i cur s =
    ioapic_loop fuel mem n (i + Z.of_nat (length es)) (cur + Z.of_nat (length (concat es))) s.
Proof.
  revert i cur. induction es as [|e es IH]; intros i cur Hes Hh Hc Hb Hn; cbn [length concat Nat.add].
  { by rewrite !Z.add_0_r. }
  apply Forall_cons in Hes as [[Hok Hne] Hes].
  cbn [concat length] in *. rewrite <-app_assoc in Hh. rewrite length_app in *.
  destruct (entry_step (St := St) _ _ _ _ s Hok Hh) as (Ht & Hlen & Hh').
  cbn [ioapic_loop]. rewrite (proj2 (Z.ltb_lt _ _)), Ht by lia.
  rewrite (bind_Done _ _ _ _ _ Hlen), (proj2 (Z.eqb_neq _ _)) by done.
  unfold uadd. erewrite bind_Done by (apply checked_ok; lia). rewrite IH; [|done|done|lia..].
  f_equal; lia.
Qed.

(** ** Theorems *)

(** The search for the floating pointer structure always ends, and returns
    the first 16-byte paragraph of the area whose first four bytes are the
    signature, among the paragraphs that start below [base + size - 16]; the
    last paragraph of the area is never looked at. *)
Lemma find_fp_first {St} mem base size (s : St) :
  0 ≤ base → 0 ≤ size → 16 ≤ base + size ≤ U64_MAX →
  ∃ r, find_fp mem base size s = Done (r, s) ∧
    match r with
    | Some a => ∃ k : nat, a = base + 16 * Z.of_nat k ∧ a < base + size - 16 ∧ signature_at mem a ∧
        ∀ j : nat, (j < k)%nat → ¬ signature_at mem (base + 16 * Z.of_nat j)
    | None => ∀ j : nat, base + 16 * Z.of_nat j < base + size - 16 → ¬ signature_at mem (base + 16 * Z.of_nat j)
    end.
Proof.
  intros Hb Hs Hr. unfold find_fp, uadd, usub.
  rewrite (bind_Done _ _ _ _ _ (checked_ok (base + size) s ltac:(lia))).
  rewrite (bind_Done _ _ _ _ _ (checked_ok (base + size - 16) s ltac:(lia))).
  apply fp_loop_spec; lia.
Qed.

(** A signature in the second paragraph of the BIOS area, and one in its last. *)
(** The walk over the configuration table. After a prefix of well-formed
    entries that are no I/O APIC, it returns [None] when the table ends there,
    the address of the next entry when that is an I/O APIC, and panics when the
    type of the next entry is unknown; the walk always ends, since the entry
    count bounds it. *)
Lemma get_ioapic_entry_walk {St} mem config (es : list (list Z)) (s : St) :
  let first := config + HEADER_SIZE in
  let next := first + Z.of_nat (length (concat es)) in
  let n := conf_entry_count mem config in
  0 ≤ config → next ≤ U64_MAX →
  Forall (λ e, entry_ok e ∧ entry_type e ≠ ENTRY_IOAPIC) es →
  holds mem first (concat es) → Z.of_nat (length es) ≤ n →
  (Z.of_nat (length es) = n → get_ioapic_entry mem config s = Done (None, s)) ∧
  (Z.of_nat (length es) < n → as_u8 (mem next) = ENTRY_IOAPIC → get_ioapic_entry mem config s = Done (Some next, s)) ∧
  (Z.of_nat (length es) < n → 4 < as_u8 (mem next) →
     get_ioapic_entry mem config s = Panicked (PMessage "Invalid MPS entry type")).
Proof.
  intros first next n Hc Hb Hes Hh Hn.
  assert (get_ioapic_entry mem config s = ioapic_loop (S (Z.to_nat n) - length es) mem n (Z.of_nat (length es)) next s) as E.
  { unfold get_ioapic_entry, uadd. rewrite (bind_Done _ _ _ _ _ (checked_ok (config + HEADER_SIZE) s ltac:(unfold next, HEADER_SIZE in *; lia))).
    fold n first. replace (S (Z.to_nat n)) with (length es + (S (Z.to_nat n) - length es))%nat at 1 by lia.
    rewrite <-(app_nil_r (concat es)) in Hh.
    rewrite (ioapic_loop_skip es _ _ _ _ _ [] s Hes Hh); [done|unfold first, HEADER_SIZE in *; lia..]. }
  replace (S (Z.to_nat n) - length es)%nat with (S (Z.to_nat n - length es)) in E by lia. cbn [ioapic_loop] in E.
  rewrite E. clear E. split_and!.
  - intros Heq. by rewrite (proj2 (Z.ltb_ge _ _)) by lia.
  - intros Hlt Ht. by rewrite (proj2 (Z.ltb_lt _ _)), Ht by lia.
  - intros Hlt Ht. rewrite (proj2 (Z.ltb_lt _ _)) by lia. unfold entry_len, mbind, M_bind.
    by rewrite !(proj2 (Z.eqb_neq _ _)) by lia.
Qed.

(** A table with a processor, a bus and an I/O APIC at 0xfec00000. *)
Definition sample_table : list Z :=
  replicate 34 0 ++ le_bytes 2 3 ++ replicate 8 0 ++
  (0 :: replicate 19 7) ++ (1 :: replicate 7 7) ++ (2 :: replicate 3 1 ++ le_bytes 4 FALLBACK_IOAPIC_BASE).

Example sample_walk :
  get_ioapic_entry (bytes_at 0x9000 sample_table) 0x9000 tt = Done (Some (0x9000 + 44 + 28), tt) ∧
  ioapic_entry_base (bytes_at 0x9000 sample_table) (0x9000 + 44 + 28) = FALLBACK_IOAPIC_BASE.
Proof. by vm_compute. Qed.

(** The last paragraph of an area is not looked at. *)
Example last_paragraph :
  find_fp (bytes_at 0x1020 FP_SIGNATURE) 0x1000 0x40 tt = Done (Some 0x1020, tt) ∧
  find_fp (bytes_at 0x1030 FP_SIGNATURE) 0x1000 0x40 tt = Done (None, tt).
Proof. by vm_compute. Qed.
