(* ===== verification/Ports.v ===== *)
(** * Port I/O

    The instructions behind [inb] and [outb] of the x86 crate, for the serial
    port and the interrupt controllers. The device at the ports is a
    parameter; a ghost log records the accesses in order. *)
From S2P Require Import Prelude.

Class PortDevice (Dev : Type) : Type := {
  dev_inb : Z → Dev → Z * Dev;       (** what a read returns, and the device afterwards *)
  dev_outb : Z → Z → Dev → Dev;
}.

Inductive PortEvent : Set :=
  | EvIn (port value : Z)
  | EvOut (port value : Z).

#[export] Instance PortEvent_eq_dec : EqDecision PortEvent.
Proof. solve_decision. Defined.

Record PortState (Dev : Type) : Type := mkPortState { port_dev : Dev; port_log : list PortEvent }.
Arguments mkPortState {Dev} port_dev port_log.
Arguments port_dev {Dev} p.
Arguments port_log {Dev} p.

Section ports.
Context {Dev : Type} {PD : PortDevice Dev}.

(** One access, as a function of the devices. *)
Definition do_inb (port : Z) (p : PortState Dev) : Z * PortState Dev :=
  let '(v, d) := dev_inb port (port_dev p) in (v, mkPortState d (port_log p ++ [EvIn port v])).
Definition do_outb (port v : Z) (p : PortState Dev) : PortState Dev :=
  mkPortState (dev_outb port v (port_dev p)) (port_log p ++ [EvOut port v]).

Definition inb (port : Z) : M (PortState Dev) Z := λ p, Done (do_inb port p).
Definition outb (port v : Z) : M (PortState Dev) unit := modify (do_outb port v).

Lemma wp_inb port Q p : Q (do_inb port p).1 (do_inb port p).2 → wp (inb port) Q p.
Proof. intros H. unfold wp, inb. destruct (do_inb port p) as [v p'] eqn:E. by exists v, p'. Qed.
Lemma wp_outb port v Q p : Q tt (do_outb port v p) → wp (outb port v) Q p.
Proof. intros H. by exists tt, (do_outb port v p). Qed.
End ports.

(** Port numbers are [u16]s: adding to one is checked. *)
Definition port_add {S} (base off : Z) : M S Z :=
  if base + off <=? U16_MAX then mret (base + off) else panic POverflow.

Lemma port_add_ok {S} base off (s : S) : base + off ≤ U16_MAX → port_add base off s = Done (base + off, s).
Proof. intros H. unfold port_add. by rewrite (proj2 (Z.leb_le _ _)). Qed.

Lemma port_add_overflow {S} base off (s : S) : U16_MAX < base + off → port_add base off s = Panicked POverflow.
Proof. intros H. unfold port_add. by rewrite (proj2 (Z.leb_gt _ _)). Qed.
