(* ===== verification/Trampoline.v ===== *)
(** * Interrupt trampolines (src/src/interrupt/mod.rs)

    The assembly that [wrap_interrupt!] and [wrap_interrupt_with_error_code!]
    put around a handler, on a machine with the registers, the flags and the
    stack that it uses, together with what the processor does when an
    interrupt is delivered through a gate and at [iretq]. The handler is
    compiled code: it is a parameter, a function on the machine. Memory is
    addressed in aligned 8-byte words, since every access is one. *)
From stdpp Require Import functions.
From S2P Require Import Prelude.

(** ** The machine *)
Inductive reg : Set :=
  | RAX | RBX | RCX | RDX | RSI | RDI | RBP | R8 | R9 | R10 | R11 | R12 | R13 | R14 | R15.

#[export] Instance reg_eq_dec : EqDecision reg.
Proof. solve_decision. Defined.

Record Mach : Type := mkMach {
  m_regs : reg → Z;
  m_rsp : Z;
  m_rip : Z;
  m_cs : Z;
  m_rflags : Z;
  m_ss : Z;
  m_mem : Z → Z;
}.

Definition set_regs (f : (reg → Z) → reg → Z) (m : Mach) : Mach :=
  mkMach (f (m_regs m)) (m_rsp m) (m_rip m) (m_cs m) (m_rflags m) (m_ss m) (m_mem m).
Definition set_rsp (v : Z) (m : Mach) : Mach :=
  mkMach (m_regs m) v (m_rip m) (m_cs m) (m_rflags m) (m_ss m) (m_mem m).
Definition set_rflags (v : Z) (m : Mach) : Mach :=
  mkMach (m_regs m) (m_rsp m) (m_rip m) (m_cs m) v (m_ss m) (m_mem m).
Definition store (a v : Z) (m : Mach) : Mach :=
  mkMach (m_regs m) (m_rsp m) (m_rip m) (m_cs m) (m_rflags m) (m_ss m) (<[a:=v]> (m_mem m)).

Definition push (v : Z) (m : Mach) : Mach :=
  let rsp := as_u64 (m_rsp m - 8) in store rsp v (set_rsp rsp m).

(** The instructions of the trampolines. *)
Inductive instr : Set :=
  | Cld
  | PushR (r : reg)
  | PushI (v : Z)
  | PopR (r : reg)
  | MovRsp (r : reg)   (** [mov r, rsp] *)
  | CallHandler
  | AddRsp (n : Z)
  | Iretq.

Definition RFLAGS_DF : Z := 10.

Section exec.
(** The handler, from its entry (the return address on top of the stack) to
    its return; the address after the call; the flags that [add] leaves. *)
Context (handler : Mach → Mach) (return_address : Z) (add_flags : Z → Z → Z).

Definition exec (i : instr) (m : Mach) : Mach :=
  match i with
  | Cld => set_rflags (Z.clearbit (m_rflags m) RFLAGS_DF) m
  | PushR r => push (m_regs m r) m
  | PushI v => push v m
  | PopR r => set_rsp (as_u64 (m_rsp m + 8)) (set_regs <[r := m_mem m (m_rsp m)]> m)
  | MovRsp r => set_regs <[r := m_rsp m]> m
  | CallHandler => handler (push return_address m)
  | AddRsp n =>
      let rsp := as_u64 (m_rsp m + n) in set_rflags (add_flags (m_rflags m) rsp) (set_rsp rsp m)
  | Iretq =>
      let w i := m_mem m (as_u64 (m_rsp m + 8 * i)) in
      mkMach (m_regs m) (w 3) (w 0) (w 1) (w 2) (w 4) (m_mem m)
  end.

Definition run (code : list instr) (m : Mach) : Mach := foldl (λ m i, exec i m) m code.
End exec.

(** ** The two macros *)
Definition wrap_interrupt_with_error_code : list instr :=
  [Cld; PushR RAX; PushR RDI; PushR RSI; PushR RDX; PushR RCX;
   PushR R8; PushR R9; PushR R10; PushR R11; PushR RBX; PushR RBP; PushR R12; PushR R13; PushR R14; PushR R15;
   MovRsp RDI; CallHandler;
   PopR R15; PopR R14; PopR R13; PopR R12; PopR RBP; PopR RBX; PopR R11; PopR R10; PopR R9; PopR R8;
   PopR RCX; PopR RDX; PopR RSI; PopR RDI; PopR RAX; AddRsp 8; Iretq].

Definition wrap_interrupt : list instr :=
  [Cld; PushI 0; PushR RAX; PushR RDI; PushR RSI; PushR RDX; PushR RCX;
   PushR R8; PushR R9; PushR R10; PushR R11; PushR RBX; PushR RBP; PushR R12; PushR R13; PushR R14; PushR R15;
   MovRsp RDI; CallHandler;
   PopR R15; PopR R14; PopR R13; PopR R12; PopR RBP; PopR RBX; PopR R11; PopR R10; PopR R9; PopR R8;
   PopR RCX; PopR RDX; PopR RSI; PopR RDI; PopR RAX; AddRsp 8; Iretq].

Definition trampoline (with_error_code : bool) : list instr :=
  if with_error_code then wrap_interrupt_with_error_code else wrap_interrupt.

(** ** The frame that handlers get *)
Record InterruptStackFrame : Set := mkFrame {
  f_r15 : Z; f_r14 : Z; f_r13 : Z; f_r12 : Z; f_rbp : Z; f_rbx : Z; f_r11 : Z; f_r10 : Z; f_r9 : Z; f_r8 : Z;
  f_rcx : Z; f_rdx : Z; f_rsi : Z; f_rdi : Z; f_rax : Z;
  f_error_code : Z; f_rip : Z; f_cs : Z; f_rflags : Z; f_rsp : Z; f_ss : Z;
}.

(** [repr(C)]: the field [i] is the word [i] of the frame. *)
Definition read_frame (mem : Z → Z) (a : Z) : InterruptStackFrame :=
  let w i := mem (a + 8 * i) in
  mkFrame (w 0) (w 1) (w 2) (w 3) (w 4) (w 5) (w 6) (w 7) (w 8) (w 9) (w 10) (w 11) (w 12) (w 13) (w 14)
    (w 15) (w 16) (w 17) (w 18) (w 19) (w 20).

(** ** Delivery by the processor

    Through an interrupt gate without stack switch in 64-bit mode: the stack
    pointer is aligned to 16 bytes, SS, RSP, RFLAGS, CS, RIP and the error code,
    if the vector has one, are pushed, and TF, IF, NT and RF are cleared. *)
Definition gate_flags (rflags : Z) : Z :=
  Z.clearbit (Z.clearbit (Z.clearbit (Z.clearbit rflags 8) 9) 14) 16.

Definition enter_gate (target cs : Z) (m : Mach) : Mach :=
  mkMach (m_regs m) (m_rsp m) target cs (gate_flags (m_rflags m)) (m_ss m) (m_mem m).

Definition deliver (target cs : Z) (error : option Z) (m : Mach) : Mach :=
  let m1 := set_rsp (m_rsp m - m_rsp m mod 16) m in
  let m2 := push (m_rip m) (push (m_cs m) (push (m_rflags m) (push (m_rsp m) (push (m_ss m) m1)))) in
  let m3 := match error with Some e => push e m2 | None => m2 end in
  enter_gate target cs m3.

(** An interrupt from its delivery to the return to the interrupted code. *)
Definition interrupt (handler : Mach → Mach) (return_address : Z) (add_flags : Z → Z → Z)
    (target cs : Z) (error : option Z) (m : Mach) : Mach :=
  run handler return_address add_flags (trampoline (bool_decide (is_Some error))) (deliver target cs error m).

(** ** Stacks *)

(** The words [ws] are on the stack, the first on top. *)
Definition stack_at (mem : Z → Z) (rsp : Z) (ws : list Z) : Prop :=
  ∀ (i : nat) w, ws !! i = Some w → mem (rsp + 8 * Z.of_nat i) = w.

Lemma stack_push mem rsp w ws : stack_at mem rsp ws → stack_at (<[rsp - 8:=w]> mem) (rsp - 8) (w :: ws).
Proof.
  intros Hs [|i] x Hi; cbn in Hi.
  - injection Hi as ->. rewrite Z.add_0_r. apply fn_lookup_insert.
  - rewrite fn_lookup_insert_ne by lia. replace (rsp - 8 + 8 * Z.of_nat (S i)) with (rsp + 8 * Z.of_nat i) by lia.
    by apply Hs.
Qed.

Lemma stack_pop mem rsp w ws : stack_at mem rsp (w :: ws) → mem rsp = w ∧ stack_at mem (rsp + 8) ws.
Proof.
  intros Hs. split.
  - rewrite <-(Z.add_0_r rsp). by apply (Hs O).
  - intros i x Hi. replace (rsp + 8 + 8 * Z.of_nat i) with (rsp + 8 * Z.of_nat (S i)) by lia. by apply Hs.
Qed.

(** The machine [m] has the stack [ws] at [rsp] and the registers [regs]. *)
Definition stacked (m : Mach) (regs : reg → Z) (rsp : Z) (ws : list Z) : Prop :=
  m_rsp m = rsp ∧ stack_at (m_mem m) rsp ws ∧ m_regs m = regs.

Lemma push_stacked m regs rsp ws v :
  stacked m regs rsp ws → 8 ≤ rsp < 2 ^ 64 → stacked (push v m) regs (rsp - 8) (v :: ws).
Proof.
  intros (<- & Hs & Hr) Hb. unfold push, as_u64. rewrite Z.mod_small by lia.
  split; [done|]. split; [by apply stack_push|done].
Qed.

(** The flags and the gate do not matter to the stack. *)
Lemma stacked_flags m regs rsp ws v : stacked m regs rsp ws → stacked (set_rflags v m) regs rsp ws.
Proof. done. Qed.
Lemma stacked_gate m regs rsp ws target cs : stacked m regs rsp ws → stacked (enter_gate target cs m) regs rsp ws.
Proof. done. Qed.

Section lemmas.
Context (handler : Mach → Mach) (return_address : Z) (add_flags : Z → Z → Z).
Local Abbreviation run_ := (run handler return_address add_flags).

Lemma run_app c1 c2 m : run_ (c1 ++ c2) m = run_ c2 (run_ c1 m).
Proof. apply foldl_app. Qed.

Lemma run_nil m : run_ [] m = m.
Proof. done. Qed.
Lemma run_push0 m : run_ [PushI 0] m = push 0 m.
Proof. done. Qed.
Lemma run_cld m : run_ [Cld] m = set_rflags (Z.clearbit (m_rflags m) RFLAGS_DF) m.
Proof. done. Qed.
Lemma run_mov_rsp m : run_ [MovRsp RDI] m = set_regs <[RDI := m_rsp m]> m.
Proof. done. Qed.

Lemma run_pushes rs m regs rsp ws :
  stacked m regs rsp ws → 8 * Z.of_nat (length rs) ≤ rsp < 2 ^ 64 →
  stacked (run_ (PushR <$> rs) m) regs (rsp - 8 * Z.of_nat (length rs)) (reverse (regs <$> rs) ++ ws).
Proof.
  revert m rsp ws. induction rs as [|r rs IH]; intros m rsp ws Hs Hb.
  - by rewrite Z.sub_0_r.
  - cbn [length] in Hb. assert (stacked (push (m_regs m r) m) regs (rsp - 8) (regs r :: ws)) as H.
    { replace (m_regs m r) with (regs r) by (by destruct Hs as (_ & _ & ->)). apply push_stacked; [done|lia]. }
    apply IH in H; [|lia]. rewrite (fmap_cons regs), reverse_cons, <-app_assoc.
    replace (rsp - 8 * Z.of_nat (length (r :: rs))) with (rsp - 8 - 8 * Z.of_nat (length rs)) by (cbn [length]; lia).
    exact H.
Qed.

(** Registers loaded from a list of words. *)
Fixpoint load_regs (rs : list reg) (vs : list Z) (regs : reg → Z) : reg → Z :=
  match rs, vs with
  | r :: rs', v :: vs' => load_regs rs' vs' (<[r:=v]> regs)
  | _, _ => regs
  end.

Lemma run_pops rs m rsp vs ws :
  length vs = length rs → m_rsp m = rsp → stack_at (m_mem m) rsp (vs ++ ws) →
  0 ≤ rsp → rsp + 8 * Z.of_nat (length rs) < 2 ^ 64 →
  ∃ m', run_ (PopR <$> rs) m = m' ∧ m_rsp m' = rsp + 8 * Z.of_nat (length rs) ∧ m_mem m' = m_mem m ∧
    m_regs m' = load_regs rs vs (m_regs m) ∧ stack_at (m_mem m) (rsp + 8 * Z.of_nat (length rs)) ws.
Proof.
  revert m rsp vs. induction rs as [|r rs IH]; intros m rsp [|v vs] Hl Hr Hs H0 Hb; try done.
  { exists m. rewrite Z.add_0_r. done. }
  cbn [length] in *. apply stack_pop in Hs as [Hv Hs].
  destruct (IH (exec handler return_address add_flags (PopR r) m) (rsp + 8) vs) as (m' & Hrun & Hr' & Hm & Hregs & Hst); try lia.
  - cbn. unfold as_u64. rewrite Hr, Z.mod_small by lia. done.
  - exact Hs.
  - exists m'. replace (rsp + 8 * Z.of_nat (S (length rs))) with (rsp + 8 + 8 * Z.of_nat (length rs)) by lia.
    split_and!; try done. rewrite Hregs. cbn [exec set_rsp set_regs m_regs load_regs m_mem]. by rewrite Hr, Hv.
Qed.

(** The registers that are saved, in the order of the pushes; the code before
    and after the call. *)
Definition saved : list reg := [RAX; RDI; RSI; RDX; RCX; R8; R9; R10; R11; RBX; RBP; R12; R13; R14; R15].
Definition save_code (with_error_code : bool) : list instr :=
  [Cld] ++ (if with_error_code then [] else [PushI 0]) ++ (PushR <$> saved) ++ [MovRsp RDI].
Definition restore_code : list instr := (PopR <$> reverse saved) ++ [AddRsp 8; Iretq].

Lemma trampoline_split b : trampoline b = save_code b ++ CallHandler :: restore_code.
Proof. by destruct b. Qed.

(** The address of the frame: 21 words below the aligned stack pointer. *)
Definition frame_addr (m : Mach) : Z := m_rsp m - m_rsp m mod 16 - 168.

(** The words that the processor pushes, and the error code or its stand-in. *)
Definition hardware_words (error : option Z) (m : Mach) : list Z :=
  [default 0 error; m_rip m; m_cs m; m_rflags m; m_rsp m; m_ss m].

Lemma deliver_stacked target cs error m :
  192 ≤ m_rsp m < 2 ^ 64 →
  let m' := deliver target cs error m in
  stacked (run_ ((if bool_decide (is_Some error) then [] else [PushI 0])) (set_rflags (Z.clearbit (m_rflags m') RFLAGS_DF) m'))
    (m_regs m) (frame_addr m + 120) (hardware_words error m).
Proof.
  intros Hb m'. pose proof (Z.mod_pos_bound (m_rsp m) 16 ltac:(lia)) as Hm. unfold frame_addr.
  set (top := m_rsp m - m_rsp m mod 16) in *.
  assert (stacked (set_rsp top m) (m_regs m) top []) as H0 by (split; [done|split; [by intros ??|done]]).
  apply (push_stacked _ _ _ _ (m_ss m)) in H0; [|lia]. apply (push_stacked _ _ _ _ (m_rsp m)) in H0; [|lia].
  apply (push_stacked _ _ _ _ (m_rflags m)) in H0; [|lia]. apply (push_stacked _ _ _ _ (m_cs m)) in H0; [|lia].
  apply (push_stacked _ _ _ _ (m_rip m)) in H0; [|lia].
  replace (top - 168 + 120) with (top - 8 - 8 - 8 - 8 - 8 - 8) by lia.
  unfold m', deliver. fold top. destruct error as [e|].
  - apply (push_stacked _ _ _ _ e) in H0; [|lia]. rewrite bool_decide_eq_true_2 by done.
    rewrite run_nil. by apply stacked_flags, stacked_gate.
  - rewrite bool_decide_eq_false_2 by (by intros [? [=]]). rewrite run_push0.
    apply (push_stacked _ _ _ _ 0); [|lia]. by apply stacked_flags, stacked_gate.
Qed.

(** The state in which the handler is entered. *)
Definition entry_state (target cs : Z) (error : option Z) (m : Mach) : Mach :=
  push return_address (run_ (save_code (bool_decide (is_Some error))) (deliver target cs error m)).

Lemma interrupt_split target cs error m :
  interrupt handler return_address add_flags target cs error m =
    run_ restore_code (handler (entry_state target cs error m)).
Proof. unfold interrupt. rewrite trampoline_split, run_app. done. Qed.

Lemma entry_stacked target cs error m :
  192 ≤ m_rsp m < 2 ^ 64 →
  stacked (entry_state target cs error m) (<[RDI := frame_addr m]> (m_regs m)) (frame_addr m - 8)
    (return_address :: reverse (m_regs m <$> saved) ++ hardware_words error m).
Proof.
  intros Hb. pose proof (deliver_stacked target cs error m Hb) as H. cbv zeta in H.
  pose proof (Z.mod_pos_bound (m_rsp m) 16 ltac:(lia)) as Hm.
  assert (176 ≤ m_rsp m - m_rsp m mod 16) as H176.
  { pose proof (Z.div_mod (m_rsp m) 16 ltac:(lia)). lia. }
  assert (8 ≤ frame_addr m < 2 ^ 64) as Hf by (unfold frame_addr; lia).
  apply (run_pushes saved) in H; [|cbn [length saved]; unfold frame_addr in *; lia].
  unfold entry_state. apply push_stacked; [|done]. unfold save_code.
  rewrite !run_app, run_cld, run_mov_rsp.
  replace (frame_addr m + 120 - 8 * Z.of_nat (length saved)) with (frame_addr m) in H by (cbn [length saved]; lia).
  revert H. generalize (run_ (PushR <$> saved) (run_ (if bool_decide (is_Some error) then [] else [PushI 0])
    (set_rflags (Z.clearbit (m_rflags (deliver target cs error m)) RFLAGS_DF) (deliver target cs error m)))).
  intros m' (Hr & Hs & Hregs). split; [exact Hr|]. split; [exact Hs|]. cbn [set_regs m_regs]. by rewrite Hr, Hregs.
Qed.
End lemmas.

(** ** What handlers see and what the interrupted code gets back *)

(** The frame that describes the interrupted code. *)
Definition frame_of (error : option Z) (m : Mach) : InterruptStackFrame :=
  let r := m_regs m in
  mkFrame (r R15) (r R14) (r R13) (r R12) (r RBP) (r RBX) (r R11) (r R10) (r R9) (r R8) (r RCX) (r RDX) (r RSI) (r RDI)
    (r RAX) (default 0 error) (m_rip m) (m_cs m) (m_rflags m) (m_rsp m) (m_ss m).

(** The registers of a frame. *)
Definition frame_reg (f : InterruptStackFrame) (r : reg) : Z :=
  match r with
  | RAX => f_rax f | RBX => f_rbx f | RCX => f_rcx f | RDX => f_rdx f | RSI => f_rsi f | RDI => f_rdi f
  | RBP => f_rbp f | R8 => f_r8 f | R9 => f_r9 f | R10 => f_r10 f | R11 => f_r11 f | R12 => f_r12 f
  | R13 => f_r13 f | R14 => f_r14 f | R15 => f_r15 f
  end.

Lemma frame_reg_of error m r : frame_reg (frame_of error m) r = m_regs m r.
Proof. by destruct r. Qed.

(** The words of a frame in memory. *)
Definition frame_words (mem : Z → Z) (a : Z) : list Z := (λ i, mem (a + 8 * Z.of_nat i)) <$> seq 0 21.

Lemma stack_frame_words mem a : stack_at mem a (frame_words mem a).
Proof. intros i w [j [-> [-> _]%lookup_seq]]%list_lookup_fmap_Some. done. Qed.

Lemma read_frame_stack mem a error m :
  stack_at mem a (reverse (m_regs m <$> saved) ++ hardware_words error m) → read_frame mem a = frame_of error m.
Proof.
  intros Hs. unfold read_frame, frame_of.
  f_equal; match goal with |- mem (a + 8 * ?i) = _ => apply (Hs (Z.to_nat i)); reflexivity end.
Qed.

Section frames.
Context (handler : Mach → Mach) (return_address : Z) (add_flags : Z → Z → Z).
Local Abbreviation run_ := (run handler return_address add_flags).
Local Abbreviation entry := (entry_state handler return_address add_flags).

Lemma push_flags v m : m_rflags (push v m) = m_rflags m.
Proof. done. Qed.
Lemma set_rsp_flags v m : m_rflags (set_rsp v m) = m_rflags m.
Proof. done. Qed.
Lemma gate_rflags target cs m : m_rflags (enter_gate target cs m) = gate_flags (m_rflags m).
Proof. done. Qed.
Lemma set_regs_flags f m : m_rflags (set_regs f m) = m_rflags m.
Proof. done. Qed.
Lemma set_flags_flags v m : m_rflags (set_rflags v m) = v.
Proof. done. Qed.

Lemma run_pushes_flags rs m : m_rflags (run_ (PushR <$> rs) m) = m_rflags m.
Proof.
  revert m. induction rs as [|r rs IH]; intros m; [done|].
  change (run_ (PushR <$> r :: rs) m) with (run_ (PushR <$> rs) (push (m_regs m r) m)). by rewrite IH, push_flags.
Qed.

Lemma deliver_flags target cs error m : m_rflags (deliver target cs error m) = gate_flags (m_rflags m).
Proof. unfold deliver. rewrite gate_rflags. destruct error; by rewrite !push_flags, set_rsp_flags. Qed.

Lemma entry_flags target cs error m :
  m_rflags (entry target cs error m) = Z.clearbit (gate_flags (m_rflags m)) RFLAGS_DF.
Proof.
  unfold entry_state, save_code. rewrite !run_app, run_cld, run_mov_rsp, push_flags, set_regs_flags, run_pushes_flags.
  destruct (bool_decide (is_Some error)); rewrite ?run_nil, ?run_push0, ?push_flags, set_flags_flags, deliver_flags; reflexivity.
Qed.

(** The code after the call, from the frame in memory. *)
Lemma restore_from_frame m a :
  m_rsp m = a → 0 ≤ a → a + 168 < 2 ^ 64 →
  let f := read_frame (m_mem m) a in
  ∃ regs, run_ restore_code m = mkMach regs (f_rsp f) (f_rip f) (f_cs f) (f_rflags f) (f_ss f) (m_mem m) ∧
    ∀ r, regs r = frame_reg f r.
Proof.
  intros Hr Ha Hb f. pose proof (stack_frame_words (m_mem m) a) as Hs.
  rewrite <-(take_drop 15 (frame_words _ _)) in Hs.
  destruct (run_pops handler return_address add_flags (reverse saved) m a
    (take 15 (frame_words (m_mem m) a)) (drop 15 (frame_words (m_mem m) a)) eq_refl Hr Hs Ha) as (m' & Hrun & Hr' & Hm & Hregs & _);
    [cbn [length reverse saved]; cbn; lia|].
  exists (m_regs m'). unfold restore_code. rewrite run_app, Hrun. split.
  - replace (a + 8 * Z.of_nat (length (reverse saved))) with (a + 120) in Hr' by done.
    cbn [foldl run exec set_rflags set_rsp m_rsp m_mem m_regs]. rewrite Hr', Hm. unfold as_u64.
    rewrite (Z.mod_small (a + 120 + 8)), !Z.mod_small by lia. unfold f, read_frame. cbn [f_rsp f_rip f_cs f_rflags f_ss].
    f_equal; f_equal; lia.
  - intros r. rewrite Hregs. by destruct r.
Qed.

(** An interrupt whose handler returns to its caller. *)
Lemma interrupt_run target cs error m :
  192 ≤ m_rsp m < 2 ^ 64 →
  let e := entry target cs error m in
  m_rsp (handler e) = m_rsp e + 8 →
  let f := read_frame (m_mem (handler e)) (m_regs e RDI) in
  ∃ regs, interrupt handler return_address add_flags target cs error m =
      mkMach regs (f_rsp f) (f_rip f) (f_cs f) (f_rflags f) (f_ss f) (m_mem (handler e)) ∧
    (∀ r, regs r = frame_reg f r) ∧ read_frame (m_mem e) (m_regs e RDI) = frame_of error m.
Proof.
  intros Hb e Hret f.
  destruct (entry_stacked handler return_address add_flags target cs error m Hb) as (Hr & Hs & Hregs).
  fold e in Hr, Hs, Hregs. apply stack_pop in Hs as [_ Hs].
  replace (frame_addr m - 8 + 8) with (frame_addr m) in Hs by lia. apply read_frame_stack in Hs.
  pose proof (Z.mod_pos_bound (m_rsp m) 16 ltac:(lia)) as Hm. pose proof (Z.div_mod (m_rsp m) 16 ltac:(lia)) as Hd.
  assert (m_regs e RDI = frame_addr m) as Hrdi by (by rewrite Hregs, fn_lookup_insert).
  destruct (restore_from_frame (handler e) (frame_addr m)) as (regs & Hrun & Hall);
    [lia|unfold frame_addr; lia|unfold frame_addr; lia|].
  exists regs. unfold f. rewrite Hrdi. split_and!; [|exact Hall|exact Hs].
  rewrite <-Hrun. apply interrupt_split.
Qed.
End frames.

(** ** Theorems *)

(** C35: what a handler gets. Whatever code is interrupted and through whichever
    of the two trampolines, the handler is called with RDI pointing to an
    [InterruptStackFrame] whose fields are the registers of the interrupted
    code, its error code (0 when the vector has none) and the five words of the
    processor, with interrupts off and the direction flag clear; the other
    registers are untouched. The stack pointer is then a multiple of 16, where
    the calling convention of [extern C] functions asks for 8 modulo 16. *)
Theorem handler_gets_frame handler return_address add_flags target cs error m :
  192 ≤ m_rsp m < 2 ^ 64 →
  let e := entry_state handler return_address add_flags target cs error m in
  interrupt handler return_address add_flags target cs error m = run handler return_address add_flags restore_code (handler e) ∧
  m_regs e RDI = frame_addr m ∧ (∀ r, r ≠ RDI → m_regs e r = m_regs m r) ∧
  read_frame (m_mem e) (m_regs e RDI) = frame_of error m ∧
  m_mem e (m_rsp e) = return_address ∧ m_rsp e mod 16 = 0 ∧
  Z.testbit (m_rflags e) 9 = false ∧ Z.testbit (m_rflags e) 10 = false.
Proof.
  intros Hb e. destruct (entry_stacked handler return_address add_flags target cs error m Hb) as (Hr & Hs & Hregs).
  fold e in Hr, Hs, Hregs. apply stack_pop in Hs as [Hret Hs].
  replace (frame_addr m - 8 + 8) with (frame_addr m) in Hs by lia.
  split; [apply interrupt_split|]. rewrite Hregs, fn_lookup_insert. split_and!.
  - done.
  - intros r Hne. by rewrite fn_lookup_insert_ne.
  - by apply read_frame_stack.
  - by rewrite Hr.
  - rewrite Hr. unfold frame_addr. rewrite (Z.div_mod (m_rsp m) 16) at 1 by lia.
    replace (16 * (m_rsp m / 16) + m_rsp m mod 16 - m_rsp m mod 16 - 168 - 8) with ((m_rsp m / 16 - 11) * 16) by lia.
    by apply Z.mod_mul.
  - unfold e. rewrite entry_flags. unfold gate_flags, RFLAGS_DF. by rewrite !Z.clearbit_eqb, !andb_false_r by lia.
  - unfold e. rewrite entry_flags. unfold RFLAGS_DF. by rewrite Z.clearbit_eqb, andb_false_r by lia.
Qed.

(** A handler that returns at once, and interrupted code. *)
Definition idle_handler (m : Mach) : Mach := set_rsp (m_rsp m + 8) m.
Lemma idle_handler_returns m : m_rsp (idle_handler m) = m_rsp m + 8.
Proof. done. Qed.
Lemma idle_handler_frame m a : read_frame (m_mem (idle_handler m)) a = read_frame (m_mem m) a.
Proof. done. Qed.
Definition interrupted : Mach :=
  mkMach (λ r, match r with RAX => 1 | RDI => 2 | R15 => 3 | _ => 0 end) 0x7ff8 0x100000 16 0x202 8 (λ _, 0).

Lemma handler_gets_frame_witness :
  read_frame (m_mem (entry_state idle_handler 0x1234 (λ f _, f) 0x5000 16 (Some 5) interrupted)) (0x7ff0 - 168) =
    frame_of (Some 5) interrupted.
Proof.
  destruct (handler_gets_frame idle_handler 0x1234 (λ f _, f) 0x5000 16 (Some 5) interrupted) as (_ & Hd & _ & Hf & _).
  - split; vm_compute; congruence.
  - rewrite Hd in Hf. exact Hf.
Defined.

(** C9: an interrupt is transparent. When the handler returns to its caller,
    the interrupted code goes on with exactly the registers, instruction and
    stack pointer, flags and segments that the frame holds by then: what the
    handler wrote there, and what they were when it left the frame alone. *)
Theorem interrupt_transparent handler return_address add_flags target cs error m :
  192 ≤ m_rsp m < 2 ^ 64 →
  let e := entry_state handler return_address add_flags target cs error m in
  m_rsp (handler e) = m_rsp e + 8 →
  let f := read_frame (m_mem (handler e)) (m_regs e RDI) in
  let m' := interrupt handler return_address add_flags target cs error m in
  (∀ r, m_regs m' r = frame_reg f r) ∧ m_rip m' = f_rip f ∧ m_cs m' = f_cs f ∧ m_rflags m' = f_rflags f ∧
  m_rsp m' = f_rsp f ∧ m_ss m' = f_ss f ∧ m_mem m' = m_mem (handler e) ∧
  (f = read_frame (m_mem e) (m_regs e RDI) →
   (∀ r, m_regs m' r = m_regs m r) ∧ m_rip m' = m_rip m ∧ m_cs m' = m_cs m ∧ m_rflags m' = m_rflags m ∧
   m_rsp m' = m_rsp m ∧ m_ss m' = m_ss m).
Proof.
  intros Hb e Hret f m'. destruct (interrupt_run _ _ _ _ _ error m Hb Hret) as (regs & Em & Hall & Hs).
  fold e f in Em, Hall, Hs. fold m' in Em. rewrite Em. cbn [m_regs m_rip m_cs m_rflags m_rsp m_ss m_mem].
  do 7 (split; [done|]). intros Heq. rewrite !Heq, Hs. split_and!; try done. intros r. by rewrite Hall, Heq, Hs, frame_reg_of.
Qed.

Lemma interrupt_transparent_witness :
  let m' := interrupt idle_handler 0x1234 (λ f _, f) 0x5000 16 None interrupted in
  m_rip m' = 0x100000 ∧ m_rsp m' = 0x7ff8 ∧ m_rflags m' = 0x202.
Proof.
  assert (192 ≤ m_rsp interrupted < 2 ^ 64) as Hb by (split; vm_compute; congruence).
  pose proof (interrupt_transparent idle_handler 0x1234 (λ f _, f) 0x5000 16 None interrupted Hb
    (idle_handler_returns _))
    as (_ & _ & _ & _ & _ & _ & _ & H).
  destruct (H (idle_handler_frame _ _)) as (_ & H1 & _ & H2 & H3 & _). exact (conj H1 (conj H3 H2)).
Defined.
