(* ===== verification/Interrupt.v ===== *)
(** * Interrupt setup (src/src/interrupt/mod.rs, ioapic.rs)

    [interrupt::init] and [interrupt::init_cpu]: the 8259 controllers are
    masked, the handlers are put into the IDT, the I/O APIC and the local APIC
    are started, the IDT is loaded and interrupts are turned on; and the
    handlers themselves. Together with the files on the IDT, the local APIC and
    the trampolines this is the path of an interrupt from the device to the
    handler and back. *)
From S2P Require Import Prelude Memory Bits Idt Ports Xapic Mps Trampoline.

Definition IRQ_OFFSET : Z := 32.
Definition IRQ_TIMER : Z := 0.
Definition PIC1_DATA : Z := 0x21.
Definition PIC2_DATA : Z := 0xa1.

(** The trampolines: one for each use of the two macros in [init]. *)
Inductive Handler : Set :=
  | HDivideByZero | HBreakpoint | HInvalidOpcode | HDoubleFault | HGeneralProtectionFault | HPageFault | HTimer.

(** Which macro makes the trampoline: [wrap_interrupt_with_error_code!] or not. *)
Definition with_error_code (h : Handler) : bool :=
  match h with
  | HDoubleFault | HGeneralProtectionFault | HPageFault => true
  | _ => false
  end.

(** [IoApic] of the x86 crate. *)
Class X86IoApic (Io : Type) : Type := {
  IoApic_new : Z → Io;
  IoApic_enable : Z → Z → Io → Io;
}.

(** Events whose order matters at the end of [init_cpu]. *)
Inductive SetupEvent : Set :=
  | EvLidt (base limit : Z)
  | EvStiSetup.

(** [GLOBAL_IDT], the ports, [IOAPIC], the local APIC with [cpu.xapic], the
    IDTR, the interrupt flag, and a ghost log. *)
Record IntState (Dev PDev Io : Type) : Type := mkIntState {
  gs_idt : Idt;
  gs_ports : PortState PDev;
  gs_ioapic : option Io;
  gs_apic : ApicState Dev;
  gs_idtr : Z * Z;
  gs_if : bool;
  gs_log : list SetupEvent;
}.
Arguments mkIntState {Dev PDev Io} gs_idt gs_ports gs_ioapic gs_apic gs_idtr gs_if gs_log.
Arguments gs_idt {Dev PDev Io} i.
Arguments gs_ports {Dev PDev Io} i.
Arguments gs_ioapic {Dev PDev Io} i.
Arguments gs_apic {Dev PDev Io} i.
Arguments gs_idtr {Dev PDev Io} i.
Arguments gs_if {Dev PDev Io} i.
Arguments gs_log {Dev PDev Io} i.

Section setup.
Context {BC : BitCrates} {Dev PDev Io : Type} {AD : ApicDevice Dev} {PD : PortDevice PDev} {XI : X86IoApic Io}.
(** The addresses of the trampolines and of [GLOBAL_IDT], and the selector in CS. *)
Context (tramp : Handler → Z) (idt_addr cs : Z).
Local Abbreviation I := (M (IntState Dev PDev Io)).

Definition with_idt (f : Idt → Idt) (s : IntState Dev PDev Io) : IntState Dev PDev Io :=
  mkIntState (f (gs_idt s)) (gs_ports s) (gs_ioapic s) (gs_apic s) (gs_idtr s) (gs_if s) (gs_log s).
Definition with_ports (p : PortState PDev) (s : IntState Dev PDev Io) : IntState Dev PDev Io :=
  mkIntState (gs_idt s) p (gs_ioapic s) (gs_apic s) (gs_idtr s) (gs_if s) (gs_log s).
Definition with_ioapic (x : Io) (s : IntState Dev PDev Io) : IntState Dev PDev Io :=
  mkIntState (gs_idt s) (gs_ports s) (Some x) (gs_apic s) (gs_idtr s) (gs_if s) (gs_log s).
Definition with_apic (a : ApicState Dev) (s : IntState Dev PDev Io) : IntState Dev PDev Io :=
  mkIntState (gs_idt s) (gs_ports s) (gs_ioapic s) a (gs_idtr s) (gs_if s) (gs_log s).

(** Port I/O and the local APIC's operations on the whole state. *)
Definition int_inb (port : Z) : I Z := λ s,
  let '(v, p) := do_inb port (gs_ports s) in Done (v, with_ports p s).
Definition int_outb (port v : Z) : I unit := modify (λ s, with_ports (do_outb port v (gs_ports s)) s).
Definition on_apic {A} (m : M (ApicState Dev) A) : I A := λ s,
  match m (gs_apic s) with
  | Done (a, x) => Done (a, with_apic x s)
  | Panicked r => Panicked r
  | Hang => Hang
  end.

(** [idt.<field>.set_handler_fn(..)], the field being a position of the table. *)
Definition set_gate (field : Z) (h : Handler) : I unit :=
  t ← gets gs_idt;
  match slice_get t field with
  | Some e => modify (with_idt (λ t, slice_set t field (set_handler_fn cs (tramp h) e)))
  | None => panic PIndex
  end.
(** [idt.interrupts[irq].set_handler_fn(..)]: the index of the array is checked. *)
Definition set_irq_gate (irq : Z) (h : Handler) : I unit :=
  if irq <? 256 - 32 then set_gate (interrupts + irq) h else panic PIndex.

(** ** ioapic.rs *)
Definition ioapic_init (ioapic_base : Z) : I unit :=
  let ioapic := IoApic_new ioapic_base in
  modify (with_ioapic ioapic).

(** [cpu::get_cpu_id()] *)
Definition get_cpu_id : Z := 0.

Definition ioapic_init_cpu : I unit :=
  o ← gets gs_ioapic;
  match o with
  | Some ioapic =>
      modify (with_ioapic (IoApic_enable 0 (as_u8 get_cpu_id) ioapic));;
      modify (with_ioapic (IoApic_enable 1 (as_u8 get_cpu_id) (IoApic_enable 0 (as_u8 get_cpu_id) ioapic)))
  | None => panic (PMessage "uninitialised")
  end.

(** ** mod.rs *)
Definition init : I unit :=
  pic1 ← int_inb PIC1_DATA;
  pic2 ← int_inb PIC2_DATA;
  int_outb PIC1_DATA 0xff;;
  int_outb PIC2_DATA 0xff;;
  set_gate divide_by_zero HDivideByZero;;
  set_gate breakpoint HBreakpoint;;
  set_gate invalid_opcode HInvalidOpcode;;
  set_gate double_fault HDoubleFault;;
  set_gate general_protection_fault HGeneralProtectionFault;;
  set_gate page_fault HPageFault;;
  set_irq_gate IRQ_TIMER HTimer;;
  ioapic_base ← probe_ioapic;
  ioapic_init ioapic_base.

(** [GLOBAL_IDT.load()] *)
Definition load_idt : I unit := modify (λ s,
  let p := Idt_load idt_addr (gs_idt s) in
  mkIntState (gs_idt s) (gs_ports s) (gs_ioapic s) (gs_apic s) p (gs_if s) (gs_log s ++ [EvLidt p.1 p.2])).

(** [asm!("sti")] *)
Definition sti : I unit := modify (λ s,
  mkIntState (gs_idt s) (gs_ports s) (gs_ioapic s) (gs_apic s) (gs_idtr s) true (gs_log s ++ [EvStiSetup])).

Definition init_cpu : I unit :=
  on_apic lapic_init;;
  ioapic_init_cpu;;
  load_idt;;
  sti.

(** ** The handlers

    The Rust function that a trampoline calls, on the frame that [regs] refers
    to; the result is the frame when the function returns. The numbers in the
    messages of the panics are left out. *)
Definition fn_invalid_opcode (regs : InterruptStackFrame) : I InterruptStackFrame := mret regs.
Definition fn_breakpoint (regs : InterruptStackFrame) : I InterruptStackFrame := mret regs.
Definition fn_page_fault (regs : InterruptStackFrame) : I InterruptStackFrame := panic (PMessage "Page fault").
Definition fn_general_protection_fault (regs : InterruptStackFrame) : I InterruptStackFrame :=
  panic (PMessage "General Protection Fault").
Definition fn_double_fault (regs : InterruptStackFrame) : I InterruptStackFrame := panic (PMessage "Double Fault").
Definition fn_timer (regs : InterruptStackFrame) : I InterruptStackFrame := on_apic timer;; mret regs.

(** The function of each trampoline, as [init] pairs them: divide errors share
    the one of invalid opcodes. *)
Definition run_handler (h : Handler) : InterruptStackFrame → I InterruptStackFrame :=
  match h with
  | HDivideByZero | HInvalidOpcode => fn_invalid_opcode
  | HBreakpoint => fn_breakpoint
  | HPageFault => fn_page_fault
  | HGeneralProtectionFault => fn_general_protection_fault
  | HDoubleFault => fn_double_fault
  | HTimer => fn_timer
  end.
End setup.

(** ** Lemmas *)

(** The vectors that have a handler. *)
Definition vectors : list (Z * Handler) :=
  [(32, HTimer); (14, HPageFault); (13, HGeneralProtectionFault); (8, HDoubleFault); (6, HInvalidOpcode);
   (3, HBreakpoint); (0, HDivideByZero)].

Definition find_handler (l : list (Z * Handler)) (v : Z) : option Handler :=
  snd <$> find (λ p, p.1 =? v) l.
Definition handler_of (v : Z) : option Handler := find_handler vectors v.

(** The exceptions for which the processor pushes an error code (Intel SDM
    vol. 3, Table 6-1). *)
Definition pushes_error_code (v : Z) : bool :=
  bool_decide (v ∈ [8; 10; 11; 12; 13; 14; 17; 21]).

Section wiring.
Context {BC : BitCrates} {BL : BitCratesLaws} {Dev PDev Io : Type} {AD : ApicDevice Dev}.
Context (tramp : Handler → Z) (cs : Z).

(** What an entry is, given its handler. *)
Definition wired_entry (o : option Handler) : Entry :=
  match o with Some h => set_handler_fn cs (tramp h) Entry_missing | None => Entry_missing end.

(** The table [t] has the handlers [l] and no others. *)
Definition wired (l : list (Z * Handler)) (t : Idt) : Prop :=
  slice_len t = 256 ∧ ∀ v, 0 ≤ v < 256 → slice_get t v = Some (wired_entry (find_handler l v)).

Lemma wired_new : wired [] Idt_new.
Proof. split; [done|]. intros v Hv. change Idt_new with (replicate 256 Entry_missing). by apply slice_get_replicate. Qed.

Lemma set_gate_wired l v h (s : IntState Dev PDev Io) Q :
  wired l (gs_idt s) → find_handler l v = None → 0 ≤ v < 256 →
  (∀ t, wired ((v, h) :: l) t → Q tt (with_idt (λ _, t) s)) →
  wp (set_gate tramp cs v h) Q s.
Proof.
  intros [Hlen Hw] Hl Hv HQ. unfold set_gate. apply wp_bind, wp_gets. rewrite Hw, Hl by done.
  apply wp_modify, HQ. split; [by rewrite slice_len_set|]. intros v' Hv'. unfold find_handler. cbn [find fst].
  destruct (Z.eqb_spec v v') as [->|Hne].
  - by rewrite slice_get_set_eq by lia.
  - by rewrite slice_get_set_ne by done; apply Hw.
Qed.

(** The gate that the processor finds. *)
Lemma wired_gate mem base l t v :
  wired l t → holds mem base (Idt_bytes t) → 0 ≤ v < 256 → 0 ≤ cs < 2 ^ 16 → (∀ h, 0 ≤ tramp h < 2 ^ 64) →
  fetch_gate mem (Idt_load base t).1 (Idt_load base t).2 v = Some
    match find_handler l v with
    | Some h => mkGate (tramp h) cs 0 (gate_type_to_u8 Int32) 0 true
    | None => mkGate 0 0 0 0 0 false
    end.
Proof.
  intros [Hlen Hw] Hm Hv Hc Ht. cbn [Idt_load fst snd].
  assert (as_u16 (size_of_Idt t - 1) = 4095) as -> by (unfold size_of_Idt; by rewrite Hlen).
  rewrite (fetch_gate_entry _ _ _ _ _ _ Hm (Hw v Hv)) by lia. f_equal. unfold wired_entry.
  destruct (find_handler l v); [by apply handler_gate|apply missing_gate].
Qed.
End wiring.

Section setup_spec.
Context {BC : BitCrates} {BL : BitCratesLaws} {Dev PDev Io : Type} {AD : ApicDevice Dev} {PD : PortDevice PDev} {XI : X86IoApic Io}.
Context (tramp : Handler → Z) (idt_addr cs : Z).
Implicit Types (s : IntState Dev PDev Io).

Lemma wp_int_inb port s Q :
  Q (do_inb port (gs_ports s)).1 (with_ports (do_inb port (gs_ports s)).2 s) → wp (int_inb port) Q s.
Proof. intros H. unfold wp, int_inb. destruct (do_inb port (gs_ports s)) as [v p]. by exists v, (with_ports p s). Qed.

Lemma wp_on_apic {A} (m : M (ApicState Dev) A) s Q :
  wp m (λ a x, Q a (with_apic x s)) (gs_apic s) → wp (on_apic m) Q s.
Proof. intros (a & x & Hm & HQ). exists a, (with_apic x s). split; [|done]. unfold on_apic. by rewrite Hm. Qed.

(** [init]: the controllers are masked and the table is wired. *)
Record init_done s s' : Prop := {
  id_wired : wired tramp cs vectors (gs_idt s');
  id_ports : ∃ v1 v2, port_log (gs_ports s') = port_log (gs_ports s) ++
    [EvIn PIC1_DATA v1; EvIn PIC2_DATA v2; EvOut PIC1_DATA 0xff; EvOut PIC2_DATA 0xff];
  id_ioapic : gs_ioapic s' = Some (IoApic_new FALLBACK_IOAPIC_BASE);
  id_apic : gs_apic s' = gs_apic s;
  id_if : gs_if s' = gs_if s;
  id_log : gs_log s' = gs_log s;
}.

Ltac wire Hw :=
  apply wp_bind; eapply set_gate_wired; [exact Hw|reflexivity|vm_compute; split; congruence|]; clear Hw; intros ? Hw.

Lemma init_spec s : gs_idt s = Idt_new → wp (init tramp cs) (λ _ s', init_done s s') s.
Proof.
  intros Hidt. pose proof (wired_new tramp cs) as Hw. rewrite <-Hidt in Hw.
  unfold init, int_outb, set_irq_gate. apply wp_bind, wp_int_inb, wp_bind, wp_int_inb. do 4 wp_seq_step.
  cbn [IRQ_TIMER Z.ltb Z.compare Z.sub]. do 7 wire Hw. unfold probe_ioapic, ioapic_init. do 3 wp_seq_step.
  split; try done. cbn [gs_ports with_ioapic with_idt with_ports].
  unfold do_outb, do_inb. cbn [port_log port_dev].
  destruct (dev_inb PIC1_DATA _) as [v1 d1]. cbn [fst snd port_log port_dev].
  destruct (dev_inb PIC2_DATA d1) as [v2 d2]. cbn [fst snd port_log port_dev]. exists v1, v2. by rewrite <-!app_assoc.
Qed.

(** [init_cpu], after [init]. *)
Record cpu_done s s' : Prop := {
  cd_idt : gs_idt s' = gs_idt s;
  cd_idtr : gs_idtr s' = Idt_load idt_addr (gs_idt s);
  cd_if : gs_if s' = true;
  cd_log : gs_log s' = gs_log s ++ [EvLidt (gs_idtr s').1 (gs_idtr s').2; EvStiSetup];
  cd_ports : gs_ports s' = gs_ports s;
  cd_ioapic : ∃ io, gs_ioapic s = Some io ∧ gs_ioapic s' = Some (IoApic_enable 1 0 (IoApic_enable 0 0 io));
  cd_apic : ∃ b lvt, apic_log (gs_apic s') = apic_log (gs_apic s) ++ [EvWrmsr IA32_APIC_BASE b;
      EvMmioWrite XAPIC_SVR 0x10f; EvMmioWrite XAPIC_TIMER_INIT_COUNT 0xfffffffe; EvMmioRead XAPIC_LVT_TIMER lvt;
      EvMmioWrite XAPIC_LVT_TIMER (timer_lvt lvt 32)] ∧ cpu_xapic (gs_apic s') = Some (mkXAPIC 1024 b) ∧
      ∃ d, lvt = (mmio_read (XAPIC_LVT_TIMER / 4) d).1;
}.

Lemma init_cpu_spec s io :
  gs_ioapic s = Some io → Z.land (as_u32 (rdmsr IA32_APIC_BASE (apic_dev (gs_apic s)))) 0xffff0000 ≠ 0 →
  wp (init_cpu idt_addr) (λ _ s', cpu_done s s') s.
Proof.
  intros Hio Hb. unfold init_cpu, ioapic_init_cpu, load_idt, sti. apply wp_bind, wp_on_apic.
  eapply wp_mono; [by apply lapic_init_run|]. intros _ a (b0 & b & lvt & _ & _ & Hlog & Hx & Hd).
  do 2 wp_seq_step. wp_seq_step. cbn [gs_ioapic with_apic]. rewrite Hio. repeat wp_seq_step.
  split; try done; cbn; [by rewrite <-app_assoc|by exists io|by exists b, lvt].
Qed.

Lemma setup_spec s :
  gs_idt s = Idt_new → Z.land (as_u32 (rdmsr IA32_APIC_BASE (apic_dev (gs_apic s)))) 0xffff0000 ≠ 0 →
  wp (init tramp cs;; init_cpu idt_addr) (λ _ s2, ∃ s1, init_done s s1 ∧ cpu_done s1 s2) s.
Proof.
  intros Hidt Hb. apply wp_bind. eapply wp_mono; [by apply init_spec|]. intros [] s1 H1.
  eapply wp_mono; [eapply init_cpu_spec; [apply H1|by rewrite (id_apic _ _ H1)]|]. by intros [] s2 H2; exists s1.
Qed.
End setup_spec.

(** The low byte of the timer's LVT entry. *)
Lemma timer_lvt_vector {BC : BitCrates} {BL : BitCratesLaws} lvt vector :
  0 ≤ lvt → 0 ≤ vector < 2 ^ 8 → bits_of (timer_lvt lvt vector) 0 8 = vector.
Proof.
  intros Hl Hv. apply Z.bits_inj'. intros j Hj. rewrite bits_of_testbit, Z.add_0_l, timer_lvt_testbit by lia.
  rewrite <-(Z.mod_small vector (2 ^ 8)) at 2 by done. rewrite Z.testbit_mod_pow2 by lia. by destruct (j <? 8).
Qed.

Lemma handlers_expect_codes v h : handler_of v = Some h → with_error_code h = pushes_error_code v.
Proof.
  unfold handler_of, find_handler, vectors. cbn [find fst].
  repeat (case (Z.eqb_spec _ v); [intros <- [= <-]; reflexivity|intros _]). done.
Qed.

(** ** Theorems *)

(** C7: interrupt setup. After [init] and [init_cpu] both 8259 controllers are
    masked; the IDTR covers the 256 gates of the table in memory; each vector
    with a handler has a present interrupt gate to its trampoline with the
    kernel's code segment and every other vector has no gate; an exception
    with an error code has a trampoline that expects one, and no other has; the
    local APIC's timer is set to the vector of the timer's trampoline; and
    interrupts are turned on last, after the IDT is loaded. *)
Theorem interrupt_setup {BC : BitCrates} {BL : BitCratesLaws} {Dev PDev Io} {AD : ApicDevice Dev} {PD : PortDevice PDev}
    {XI : X86IoApic Io} tramp idt_addr cs (s : IntState Dev PDev Io) :
  gs_idt s = Idt_new → 0 ≤ cs < 2 ^ 16 → (∀ h, 0 ≤ tramp h < 2 ^ 64) → (∀ i d, 0 ≤ (mmio_read i d).1) →
  Z.land (as_u32 (rdmsr IA32_APIC_BASE (apic_dev (gs_apic s)))) 0xffff0000 ≠ 0 →
  wp (init tramp cs;; init_cpu idt_addr) (λ _ s',
      (∃ v1 v2, port_log (gs_ports s') = port_log (gs_ports s) ++
         [EvIn PIC1_DATA v1; EvIn PIC2_DATA v2; EvOut PIC1_DATA 0xff; EvOut PIC2_DATA 0xff]) ∧
      (∀ mem v, holds mem idt_addr (Idt_bytes (gs_idt s')) → 0 ≤ v < 256 →
         fetch_gate mem (gs_idtr s').1 (gs_idtr s').2 v = Some
           match handler_of v with
           | Some h => mkGate (tramp h) cs 0 (gate_type_to_u8 Int32) 0 true
           | None => mkGate 0 0 0 0 0 false
           end) ∧
      (∀ v h, handler_of v = Some h → with_error_code h = pushes_error_code v) ∧
      (∃ old lvt, apic_log (gs_apic s') = old ++ [EvMmioWrite XAPIC_LVT_TIMER lvt] ∧
         bits_of lvt 0 8 = IRQ_OFFSET + IRQ_TIMER ∧ handler_of (bits_of lvt 0 8) = Some HTimer) ∧
      gs_if s' = true ∧ gs_log s' = gs_log s ++ [EvLidt idt_addr 4095; EvStiSetup]) s.
Proof.
  intros Hidt Hc Ht Hrd Hb. eapply wp_mono; [by apply setup_spec|]. intros _ s2 (s1 & H1 & H2).
  pose proof (id_wired _ _ _ _ H1) as Hw.
  assert (gs_idtr s2 = (idt_addr, 4095)) as Hidtr.
  { rewrite (cd_idtr _ _ _ H2). unfold Idt_load, size_of_Idt. by rewrite (proj1 Hw). }
  split_and!.
  - rewrite (cd_ports _ _ _ H2). apply (id_ports _ _ _ _ H1).
  - intros mem v Hm Hv. rewrite (cd_idtr _ _ _ H2). apply wired_gate; try done. by rewrite <-(cd_idt _ _ _ H2).
  - apply handlers_expect_codes.
  - destruct (cd_apic _ _ _ H2) as (b & lvt & Hlog & _ & Hd). eexists _, _. split.
    { rewrite Hlog. apply (app_assoc _ [_; _; _; _] [_]). }
    assert (0 ≤ lvt) by (destruct Hd as [d ->]; apply Hrd). rewrite timer_lvt_vector by lia. done.
  - apply (cd_if _ _ _ H2).
  - by rewrite (cd_log _ _ _ H2), (id_log _ _ _ _ H1), Hidtr.
Qed.

(** A machine with register files for devices. *)
#[export] Instance null_port : PortDevice unit := {| dev_inb _ d := (0, d); dev_outb _ _ d := d |}.
#[export] Instance ioapic_calls : X86IoApic (list (Z * Z)) := {| IoApic_new _ := []; IoApic_enable irq cpu l := l ++ [(irq, cpu)] |}.
Definition zero_apic : ApicDevice Z := {|
  mmio_read _ d := (0, d); mmio_write _ _ d := d; rdmsr _ d := d; wrmsr _ v _ := v |}.
Definition int_start : IntState Z unit (list (Z * Z)) :=
  mkIntState Idt_new (mkPortState tt []) None (mkApicState None 0xfee00900 []) (0, 0) false [].
Definition sample_tramp (h : Handler) : Z :=
  match h with
  | HDivideByZero => 0x101000 | HBreakpoint => 0x101100 | HInvalidOpcode => 0x101200 | HDoubleFault => 0x101300
  | HGeneralProtectionFault => 0x101400 | HPageFault => 0x101500 | HTimer => 0x101600
  end.

Lemma interrupt_setup_witness :
  wp (init (Dev := Z) (PDev := unit) (Io := list (Z * Z)) sample_tramp 16;; init_cpu (AD := zero_apic) 0x200000) (λ _ s',
      gs_if s' = true ∧ gs_log s' = [] ++ [EvLidt 0x200000 4095; EvStiSetup]) int_start.
Proof.
  eapply wp_mono; [apply (interrupt_setup (BC := bit_crates) (AD := zero_apic) sample_tramp 0x200000 16 int_start)|].
  - reflexivity.
  - lia.
  - intros []; vm_compute; split; congruence.
  - intros i d. cbn. lia.
  - vm_compute. discriminate.
  - intros a s' (_ & _ & _ & _ & H). exact H.
Defined.
