(* ===== verification/Dispatch.v ===== *)
(** * Interrupts from the vector to the return

    The setup of Interrupt.v and the trampolines of Trampoline.v together: the
    processor looks a vector up in the loaded IDT, delivers it to the
    trampoline, which calls the handler; or it raises a second fault when there
    is no gate. What a handler does to the kernel and to the frame is
    [run_handler], the function in the sources; its compiled body, a parameter,
    is assumed to do that and to return ([compiled_ok]). *)
From S2P Require Import Prelude Memory Bits Idt Ports Xapic Mps Trampoline Interrupt.

Definition all_handlers : list Handler :=
  [HDivideByZero; HBreakpoint; HInvalidOpcode; HDoubleFault; HGeneralProtectionFault; HPageFault; HTimer].

(** The trampoline at an address. *)
Definition handler_at (tramp : Handler → Z) (addr : Z) : option Handler := find (λ h, tramp h =? addr) all_handlers.

(** Vectors during whose delivery another fault makes a double fault (Intel SDM
    vol. 3, Table 6-5). *)
Definition contributory (v : Z) : bool := bool_decide (v ∈ [0; 10; 11; 12; 13; 14]).

(** What becomes of an instruction: the next state, or a fault with its vector
    and error code. *)
Inductive Result : Type :=
  | Retires (m : Mach)
  | Faults (v : Z) (error : option Z).

Section dispatch.
Context {Dev PDev Io : Type} {AD : ApicDevice Dev}.
Context (tramp : Handler → Z) (mem : memory) (body : Handler → Mach → Mach) (return_address : Handler → Z)
        (add_flags : Z → Z → Z).
Implicit Types (m : Mach) (s : IntState Dev PDev Io).

(** The machine when the trampoline of [h] calls it, and the frame that the
    argument then points to. *)
Definition called (h : Handler) (target cs : Z) (error : option Z) m : Mach :=
  push (return_address h) (run (body h) (return_address h) add_flags (save_code (with_error_code h)) (deliver target cs error m)).
Definition frame_at (e : Mach) : InterruptStackFrame := read_frame (m_mem e) (m_regs e RDI).

(** Through the gate of [v], when there is one. *)
Definition enter (v : Z) (error : option Z) m s : option (outcome (Mach * IntState Dev PDev Io)) :=
  match fetch_gate mem (gs_idtr s).1 (gs_idtr s).2 v with
  | Some g =>
      if g_present g then
        Some match handler_at tramp (g_offset g) with
        | Some h =>
            match run_handler h (frame_at (called h (g_offset g) (g_selector g) error m)) s with
            | Done (_, s') => Done (run (body h) (return_address h) add_flags (trampoline (with_error_code h))
                                      (deliver (g_offset g) (g_selector g) error m), s')
            | Panicked r => Panicked r
            | Hang => Hang
            end
        | None => Hang
        end
      else None
  | None => None
  end.

(** The fault that a missing gate raises: #NP, or #GP outside of the table. *)
Definition delivery_fault (v : Z) s : Z :=
  match fetch_gate mem (gs_idtr s).1 (gs_idtr s).2 v with Some _ => 11 | None => 13 end.

(** A vector is delivered, or the fault in doing so, or a double fault; the
    processor resets when that fails too. *)
Definition dispatch (v : Z) (error : option Z) m s : outcome (Mach * IntState Dev PDev Io) :=
  match enter v error m s with
  | Some r => r
  | None =>
      match (if contributory v then None else enter (delivery_fault v s) (Some (v * 8 + 2)) m s) with
      | Some r => r
      | None =>
          match enter 8 (Some 0) m s with
          | Some r => r
          | None => Hang
          end
      end
  end.

(** The timer's interrupts, each in one of the machines [ms]. *)
Fixpoint ticks (ms : list Mach) s : outcome (list Mach * IntState Dev PDev Io) :=
  match ms with
  | [] => Done ([], s)
  | m :: ms' =>
      match dispatch 32 None m s with
      | Done (m', s') =>
          match ticks ms' s' with
          | Done (r, s'') => Done (m' :: r, s'')
          | Panicked x => Panicked x
          | Hang => Hang
          end
      | Panicked x => Panicked x
      | Hang => Hang
      end
  end.

(** A processor that runs code: [step] executes the instruction at RIP, which
    retires or faults; a fault is dispatched, with RIP at the instruction, and the
    processor goes on wherever the return from the handler leads. *)
Context (step : Mach → Result).
Fixpoint execute (n : nat) m s : outcome (Mach * IntState Dev PDev Io) :=
  match n with
  | O => Done (m, s)
  | S n' =>
      match step m with
      | Retires m' => execute n' m' s
      | Faults v error =>
          match dispatch v error m s with
          | Done (m', s') => execute n' m' s'
          | Panicked x => Panicked x
          | Hang => Hang
          end
      end
  end.
End dispatch.

(** The interrupted code goes on where it was. *)
Definition resumes (m m' : Mach) : Prop :=
  (∀ r, m_regs m' r = m_regs m r) ∧ m_rip m' = m_rip m ∧ m_cs m' = m_cs m ∧ m_rflags m' = m_rflags m ∧
  m_rsp m' = m_rsp m ∧ m_ss m' = m_ss m.

Lemma resumes_trans m1 m2 m3 : resumes m1 m2 → resumes m2 m3 → resumes m1 m3.
Proof.
  intros (R & R1 & R2 & R3 & R4 & R5) (S & S1 & S2 & S3 & S4 & S5). split; [intros r; by rewrite S|]. split_and!; congruence.
Qed.

(** The compiled handlers do what the functions in the sources do: when the
    function returns, the body returns to its caller, and leaves in memory the
    frame that the function leaves. *)
Definition compiled_ok {Dev} (PDev Io : Type) {AD : ApicDevice Dev} (body : Handler → Mach → Mach) : Prop :=
  ∀ h e (s : IntState Dev PDev Io) f s', run_handler h (frame_at e) s = Done (f, s') →
    m_rsp (body h e) = m_rsp e + 8 ∧ read_frame (m_mem (body h e)) (m_regs e RDI) = f.

Lemma handler_at_tramp tramp h : (∀ h h', tramp h = tramp h' → h = h') → handler_at tramp (tramp h) = Some h.
Proof.
  intros Hinj. assert (∀ l, h ∈ l → find (λ h', tramp h' =? tramp h) l = Some h) as Hf.
  { induction l as [|h' l IH]; [by intros ?%elem_of_nil|]. intros Hin. cbn [find].
    destruct (Z.eqb_spec (tramp h') (tramp h)) as [->%Hinj|Hne]; [done|]. apply IH.
    apply elem_of_cons in Hin as [->|?]; done. }
  apply Hf. destruct h; set_solver.
Qed.

Section booted.
Context {BC : BitCrates} {BL : BitCratesLaws} {Dev PDev Io : Type} {AD : ApicDevice Dev} {PD : PortDevice PDev} {XI : X86IoApic Io}.
Context (tramp : Handler → Z) (idt_addr cs : Z).
Context (Hcs : 0 ≤ cs < 2 ^ 16) (Htr : ∀ h, 0 ≤ tramp h < 2 ^ 64) (Hinj : ∀ h h', tramp h = tramp h' → h = h').
Context (mem : memory) (body : Handler → Mach → Mach) (return_address : Handler → Z) (add_flags : Z → Z → Z).
Context (Hbody : compiled_ok (Dev := Dev) PDev Io body).
Implicit Types (m : Mach) (s : IntState Dev PDev Io).
Local Abbreviation dispatch_ := (dispatch tramp mem body return_address add_flags).

(** The interrupt state after [init] and [init_cpu]. *)
Record booted s : Prop := {
  bt_wired : wired tramp cs vectors (gs_idt s);
  bt_idtr : gs_idtr s = Idt_load idt_addr (gs_idt s);
  bt_apic : ∃ b, cpu_xapic (gs_apic s) = Some (mkXAPIC 1024 b);
}.

Lemma cpu_done_booted s0 s1 s2 s : init_done tramp cs s0 s1 → gs_idt s = gs_idt s1 → cpu_done idt_addr s s2 → booted s2.
Proof.
  intros H1 Hs H2. pose proof (cd_idt _ _ _ H2) as E. split.
  - rewrite E, Hs. apply (id_wired _ _ _ _ H1).
  - rewrite E. apply (cd_idtr _ _ _ H2).
  - destruct (cd_apic _ _ _ H2) as (b & lvt & _ & Hx & _). by exists b.
Qed.

Lemma setup_booted s :
  gs_idt s = Idt_new → Z.land (as_u32 (rdmsr IA32_APIC_BASE (apic_dev (gs_apic s)))) 0xffff0000 ≠ 0 →
  wp (init tramp cs;; init_cpu idt_addr) (λ _ s', booted s') s.
Proof.
  intros Hidt Hb. eapply wp_mono; [by apply setup_spec|]. intros [] s2 (s1 & H1 & H2). by eapply cpu_done_booted.
Qed.

(** The gates of a booted kernel. *)
Lemma booted_gate s v : booted s → holds mem idt_addr (Idt_bytes (gs_idt s)) → 0 ≤ v < 256 →
  fetch_gate mem (gs_idtr s).1 (gs_idtr s).2 v = Some
    match handler_of v with
    | Some h => mkGate (tramp h) cs 0 (gate_type_to_u8 Int32) 0 true
    | None => mkGate 0 0 0 0 0 false
    end.
Proof. intros [Hw Hi _] Hm Hv. rewrite Hi. by apply wired_gate. Qed.

Lemma booted_enter s m v h error : booted s → holds mem idt_addr (Idt_bytes (gs_idt s)) → 0 ≤ v < 256 →
  handler_of v = Some h →
  enter tramp mem body return_address add_flags v error m s = Some
    match run_handler h (frame_at (called body return_address add_flags h (tramp h) cs error m)) s with
    | Done (_, s') => Done (run (body h) (return_address h) add_flags (trampoline (with_error_code h))
                              (deliver (tramp h) cs error m), s')
    | Panicked r => Panicked r
    | Hang => Hang
    end.
Proof.
  intros HB Hm Hv Hh. unfold enter. rewrite (booted_gate s v HB Hm Hv), Hh. cbn [g_present g_offset g_selector].
  by rewrite handler_at_tramp.
Qed.

(** A handler that returns: the interrupted code is resumed. *)
Lemma dispatch_returns s s' m v h error :
  booted s → holds mem idt_addr (Idt_bytes (gs_idt s)) → 0 ≤ v < 256 → handler_of v = Some h →
  bool_decide (is_Some error) = pushes_error_code v → 192 ≤ m_rsp m < 2 ^ 64 →
  (∀ regs, run_handler h regs s = Done (regs, s')) →
  ∃ m', dispatch_ v error m s = Done (m', s') ∧ resumes m m'.
Proof.
  intros HB Hm Hv Hh He Hsp Hr. unfold dispatch. rewrite (booted_enter s m v h error HB Hm Hv Hh), Hr.
  eexists. split; [reflexivity|].
  rewrite (handlers_expect_codes v h Hh), <-He. fold (interrupt (body h) (return_address h) add_flags (tramp h) cs error m).
  destruct (Hbody h (entry_state (body h) (return_address h) add_flags (tramp h) cs error m) s _ s' (Hr _)) as [Hret Hfr].
  destruct (interrupt_run (body h) (return_address h) add_flags (tramp h) cs error m Hsp Hret) as (regs & Em & Hall & Hf).
  rewrite Em. rewrite Hfr in *. unfold frame_at in *. rewrite Hf in *. unfold resumes. cbn [m_regs m_rip m_cs m_rflags m_rsp m_ss].
  split_and!; try done. intros r. by rewrite Hall, frame_reg_of.
Qed.

Lemma dispatch_unexpected s m v error :
  booted s → holds mem idt_addr (Idt_bytes (gs_idt s)) → 0 ≤ v < 256 → handler_of v = None →
  dispatch_ v error m s = Panicked (PMessage "Double Fault").
Proof.
  intros HB Hm Hv Hh.
  assert (∀ w e, 0 ≤ w < 256 → handler_of w = None → enter tramp mem body return_address add_flags w e m s = None) as Hn.
  { intros w e Hw E. unfold enter. by rewrite (booted_gate s w HB Hm Hw), E. }
  unfold dispatch, delivery_fault. rewrite (Hn v error Hv Hh), (booted_gate s v HB Hm Hv), (Hn 11) by (done || lia).
  rewrite (booted_enter s m 8 HDoubleFault) by (done || lia). by destruct (contributory v).
Qed.

(** The timer's handler. *)
Definition rearmed s : IntState Dev PDev Io :=
  with_apic (mkApicState (cpu_xapic (gs_apic s))
    (mmio_write (XAPIC_EOI / 4) 0 (mmio_write (XAPIC_TIMER_INIT_COUNT / 4) 100000 (apic_dev (gs_apic s))))
    (apic_log (gs_apic s) ++ [EvMmioWrite XAPIC_TIMER_INIT_COUNT 100000; EvMmioWrite XAPIC_EOI 0])) s.

Lemma timer_run s : booted s → (∀ regs, run_handler HTimer regs s = Done (regs, rearmed s)) ∧ booted (rearmed s).
Proof.
  intros [Hw Hi [b Hx]]. split; [|by split; try exists b].
  intros regs. cbn [run_handler]. unfold fn_timer, on_apic, mbind, M_bind. by rewrite (proj1 (timer_handler _ _ 0 Hx eq_refl)).
Qed.

Lemma ticks_run ms s : booted s → holds mem idt_addr (Idt_bytes (gs_idt s)) → Forall (λ m, 192 ≤ m_rsp m < 2 ^ 64) ms →
  ∃ ms' s', ticks tramp mem body return_address add_flags ms s = Done (ms', s') ∧ Forall2 resumes ms ms' ∧
    apic_log (gs_apic s') = apic_log (gs_apic s) ++
      mjoin (replicate (length ms) [EvMmioWrite XAPIC_TIMER_INIT_COUNT 100000; EvMmioWrite XAPIC_EOI 0]) ∧
    gs_idt s' = gs_idt s ∧ gs_idtr s' = gs_idtr s ∧ gs_ports s' = gs_ports s ∧ gs_ioapic s' = gs_ioapic s ∧ gs_if s' = gs_if s.
Proof.
  revert s. induction ms as [|m ms IH]; intros s HB Hm Hsp.
  - exists [], s. cbn. rewrite app_nil_r. by split_and!.
  - apply Forall_cons in Hsp as [H1 Hsp]. destruct (timer_run s HB) as [Ht HB'].
    destruct (dispatch_returns s (rearmed s) m 32 HTimer None HB Hm) as (m' & E & Hr); try done.
    destruct (IH (rearmed s) HB' Hm Hsp) as (ms' & s' & E' & Hrs & Hlog & Hrest).
    exists (m' :: ms'), s'. cbn [ticks]. rewrite E, E'. split_and!; [done|by constructor| |apply Hrest..].
    rewrite Hlog. cbn [rearmed with_apic gs_apic apic_log length replicate mjoin list_join]. by rewrite <-app_assoc.
Qed.
End booted.

(** ** Theorems *)

(** C8: timer interrupts. In a kernel set up by [init] and [init_cpu], timer
    interrupts in any number and at any points of running code each re-arm the
    timer with 100000 and then acknowledge the interrupt, in this order; every
    interrupted computation goes on with its registers, instruction and stack
    pointer, flags and segments; and the IDT, the controllers and the interrupt
    flag are as before. *)
Theorem timer_ticks {BC : BitCrates} {BL : BitCratesLaws} {Dev PDev Io} {AD : ApicDevice Dev} {PD : PortDevice PDev}
    {XI : X86IoApic Io} tramp idt_addr cs body return_address add_flags (s0 : IntState Dev PDev Io) :
  0 ≤ cs < 2 ^ 16 → (∀ h, 0 ≤ tramp h < 2 ^ 64) → (∀ h h', tramp h = tramp h' → h = h') → compiled_ok (Dev := Dev) PDev Io body →
  gs_idt s0 = Idt_new → Z.land (as_u32 (rdmsr IA32_APIC_BASE (apic_dev (gs_apic s0)))) 0xffff0000 ≠ 0 →
  wp (init tramp cs;; init_cpu idt_addr) (λ _ s, ∀ mem ms,
      holds mem idt_addr (Idt_bytes (gs_idt s)) → Forall (λ m, 192 ≤ m_rsp m < 2 ^ 64) ms →
      ∃ ms' s', ticks tramp mem body return_address add_flags ms s = Done (ms', s') ∧ Forall2 resumes ms ms' ∧
        apic_log (gs_apic s') = apic_log (gs_apic s) ++
          mjoin (replicate (length ms) [EvMmioWrite XAPIC_TIMER_INIT_COUNT 100000; EvMmioWrite XAPIC_EOI 0]) ∧
        gs_idt s' = gs_idt s ∧ gs_idtr s' = gs_idtr s ∧ gs_ports s' = gs_ports s ∧ gs_ioapic s' = gs_ioapic s ∧
        gs_if s' = gs_if s) s0.
Proof.
  intros Hc Ht Hi Hb Hidt Hapic. eapply wp_mono; [by apply (setup_booted tramp idt_addr cs)|].
  intros [] s HB mem ms Hm Hsp. by eapply ticks_run.
Qed.

(** No function of the sources that returns changes the frame. *)
Lemma run_handler_frame {Dev PDev Io} {AD : ApicDevice Dev} h regs (s : IntState Dev PDev Io) f s' :
  run_handler h regs s = Done (f, s') → f = regs.
Proof.
  destruct h; cbn [run_handler]; try by intros [= -> _].
  unfold fn_timer, mbind, M_bind. destruct (on_apic timer s) as [[[] s1]| |]; by intros [= -> _].
Qed.

(** Handlers that return at once, compiled. *)
Lemma idle_compiled {Dev PDev Io} {AD : ApicDevice Dev} : compiled_ok (Dev := Dev) PDev Io (λ _, idle_handler).
Proof. intros h e s f s' ->%run_handler_frame. by split. Qed.
Lemma sample_tramp_inj h h' : sample_tramp h = sample_tramp h' → h = h'.
Proof. by destruct h, h'. Qed.
Lemma sample_tramp_range h : 0 ≤ sample_tramp h < 2 ^ 64.
Proof. by destruct h. Qed.
Definition sample_setup : M (IntState Z unit (list (Z * Z))) unit :=
  init sample_tramp 16;; init_cpu (AD := zero_apic) 0x200000.
Definition table_memory : memory :=
  match sample_setup int_start with
  | Done (_, s) => bytes_at 0x200000 (Idt_bytes (gs_idt s))
  | _ => λ _, 0
  end.

Lemma table_holds a s : sample_setup int_start = Done (a, s) → holds table_memory 0x200000 (Idt_bytes (gs_idt s)).
Proof. intros E. unfold table_memory. rewrite E. apply holds_bytes_at. Qed.

Lemma timer_ticks_witness :
  wp sample_setup (λ _ s,
    ∃ m1 m2 s', ticks (AD := zero_apic) sample_tramp table_memory (λ _, idle_handler) (λ _, 0x1234) (λ f _, f)
        [interrupted; interrupted] s = Done ([m1; m2], s') ∧ resumes interrupted m1 ∧ resumes interrupted m2 ∧
      apic_log (gs_apic s') = apic_log (gs_apic s) ++
        [EvMmioWrite XAPIC_TIMER_INIT_COUNT 100000; EvMmioWrite XAPIC_EOI 0;
         EvMmioWrite XAPIC_TIMER_INIT_COUNT 100000; EvMmioWrite XAPIC_EOI 0]) int_start.
Proof.
  destruct (timer_ticks (BC := bit_crates) (AD := zero_apic) sample_tramp 0x200000 16 (λ _, idle_handler)
    (λ _, 0x1234) (λ f _, f) int_start) as (u & s & E0 & H).
  - lia.
  - exact sample_tramp_range.
  - exact sample_tramp_inj.
  - exact idle_compiled.
  - reflexivity.
  - vm_compute. discriminate.
  - exists u, s. split; [exact E0|]. destruct (H table_memory [interrupted; interrupted] (table_holds u s E0)) as (ms' & s' & E & Hr & Hlog & _).
    + repeat constructor; vm_compute; congruence.
    + destruct ms' as [|m1 [|m2 [|m3 ms']]]; [inversion Hr|inversion Hr as [|? ? ? ? ? Hr']; inversion Hr'| |
        inversion Hr as [|? ? ? ? ? Hr']; inversion Hr' as [|? ? ? ? ? Hr'']; inversion Hr''].
      apply Forall2_cons in Hr as [H1 [H2 _]%Forall2_cons]. exists m1, m2, s'. exact (conj E (conj H1 (conj H2 Hlog))).
Defined.

(** C37: faults that repeat for ever. Code whose instruction at RIP faults with a
    divide error or an invalid opcode, whenever the registers are what they are:
    the functions that handle these vectors return with the frame as they found
    it, so that the return from the interrupt leads back to the instruction. The
    processor, however long it runs, is still at that instruction, with the same
    registers, stack pointer and flags, and the kernel's state has not changed. *)
Theorem fault_handlers_retry {BC : BitCrates} {BL : BitCratesLaws} {Dev PDev Io} {AD : ApicDevice Dev} {PD : PortDevice PDev}
    {XI : X86IoApic Io} tramp idt_addr cs body return_address add_flags (s0 : IntState Dev PDev Io) step v :
  0 ≤ cs < 2 ^ 16 → (∀ h, 0 ≤ tramp h < 2 ^ 64) → (∀ h h', tramp h = tramp h' → h = h') → compiled_ok (Dev := Dev) PDev Io body →
  gs_idt s0 = Idt_new → Z.land (as_u32 (rdmsr IA32_APIC_BASE (apic_dev (gs_apic s0)))) 0xffff0000 ≠ 0 →
  v = divide_by_zero ∨ v = invalid_opcode →
  wp (init tramp cs;; init_cpu idt_addr) (λ _ s, ∀ mem m n,
      holds mem idt_addr (Idt_bytes (gs_idt s)) → 192 ≤ m_rsp m < 2 ^ 64 →
      (∀ m', resumes m m' → step m' = Faults v None) →
      ∃ m', execute tramp mem body return_address add_flags step n m s = Done (m', s) ∧ resumes m m') s0.
Proof.
  intros Hc Ht Hi Hb Hidt Hapic Hv. eapply wp_mono; [by apply (setup_booted tramp idt_addr cs)|].
  intros [] s HB mem m n Hm. revert m. induction n as [|n IH]; intros m Hsp Hst.
  - exists m. split; [done|]. by split_and!.
  - assert (∃ m', dispatch tramp mem body return_address add_flags v None m s = Done (m', s) ∧ resumes m m') as (m1 & E & H1).
    { destruct Hv as [-> | ->]; [apply (dispatch_returns tramp idt_addr cs) with (h := HDivideByZero)|
        apply (dispatch_returns tramp idt_addr cs) with (h := HInvalidOpcode)]; done. }
    cbn [execute]. rewrite (Hst m) by by split_and!. rewrite E.
    destruct (IH m1) as (m' & E' & H2).
    + by destruct H1 as (_ & _ & _ & _ & -> & _).
    + intros m' H2. apply Hst. by eapply resumes_trans.
    + exists m'. split; [done|]. by eapply resumes_trans.
Qed.

(** Code that has a division by zero at RIP. *)
Definition divides (m : Mach) : Result := if m_rip m =? 0x100000 then Faults 0 None else Retires m.

Lemma fault_handlers_retry_witness :
  wp sample_setup (λ _ s,
    ∃ m', execute (AD := zero_apic) sample_tramp table_memory (λ _, idle_handler) (λ _, 0x1234) (λ f _, f) divides 1000
        interrupted s = Done (m', s) ∧ m_rip m' = m_rip interrupted) int_start.
Proof.
  destruct (fault_handlers_retry (BC := bit_crates) (AD := zero_apic) sample_tramp 0x200000 16 (λ _, idle_handler)
    (λ _, 0x1234) (λ f _, f) int_start divides 0) as (u & s & E0 & H).
  - lia.
  - exact sample_tramp_range.
  - exact sample_tramp_inj.
  - exact idle_compiled.
  - reflexivity.
  - vm_compute. discriminate.
  - left. reflexivity.
  - exists u, s. split; [exact E0|]. destruct (H table_memory interrupted 1000%nat (table_holds u s E0)) as (m' & E & _ & Hrip & _).
    + split; vm_compute; congruence.
    + intros m' (_ & Hrip & _). unfold divides. rewrite Hrip. reflexivity.
    + exists m'. exact (conj E Hrip).
Defined.

(** Unexpected vectors. A vector without a handler, whether an exception or
    an interrupt, ends in the double fault handler's panic: the missing gate
    raises a fault that has no gate either. *)
Lemma unexpected_vector_panics {BC : BitCrates} {BL : BitCratesLaws} {Dev PDev Io} {AD : ApicDevice Dev}
    {PD : PortDevice PDev} {XI : X86IoApic Io} tramp idt_addr cs body return_address add_flags (s0 : IntState Dev PDev Io) :
  0 ≤ cs < 2 ^ 16 → (∀ h, 0 ≤ tramp h < 2 ^ 64) → (∀ h h', tramp h = tramp h' → h = h') →
  gs_idt s0 = Idt_new → Z.land (as_u32 (rdmsr IA32_APIC_BASE (apic_dev (gs_apic s0)))) 0xffff0000 ≠ 0 →
  wp (init tramp cs;; init_cpu idt_addr) (λ _ s, ∀ mem m v error,
      holds mem idt_addr (Idt_bytes (gs_idt s)) → 0 ≤ v < 256 → handler_of v = None →
      dispatch tramp mem body return_address add_flags v error m s = Panicked (PMessage "Double Fault")) s0.
Proof.
  intros Hc Ht Hi Hidt Hapic. eapply wp_mono; [by apply (setup_booted tramp idt_addr cs)|].
  intros [] s HB mem m v error Hm Hv Hh. by eapply dispatch_unexpected.
Qed.
