(* ===== verification/Serial.v ===== *)
(** * The serial console (src/src/serial.rs)

    The driver of the first serial port and the function behind [println!].
    The UART is a device at the ports; a 16550 is given as an instance. The
    spin lock of the spin crate around the port is a parameter. *)
From S2P Require Import Prelude Ports.

Definition COM1 : Z := 0x3F8.

Record SerialPort : Set := mkSerialPort { serial_base : Z }.
Definition SerialPort_new (base : Z) : SerialPort := mkSerialPort base.

Section driver.
Context {Dev : Type} {PD : PortDevice Dev}.
Local Abbreviation P := (M (PortState Dev)).

(** [outb(self.base + off, v)] *)
Definition out_reg (self : SerialPort) (off v : Z) : P unit :=
  p ← port_add (serial_base self) off; outb p v.

Definition serial_init (self : SerialPort) : P unit :=
  out_reg self 1 0x00;;
  out_reg self 3 0x80;;
  out_reg self 0 0x03;;
  out_reg self 1 0x00;;
  out_reg self 3 0x03;;
  out_reg self 2 0xC7;;
  out_reg self 4 0x0B.

(** The loop of [write_byte], one unit of fuel per read of the status. *)
Fixpoint tx_wait (fuel : nat) (self : SerialPort) : P unit :=
  match fuel with
  | O => hang
  | S fuel' =>
      p ← port_add (serial_base self) 5;
      v ← inb p;
      if Z.land v 0x20 =? 0 then tx_wait fuel' self else mret tt
  end.

Definition write_byte (fuel : nat) (self : SerialPort) (byte : Z) : P unit :=
  tx_wait fuel self;;
  outb (serial_base self) byte.

Definition write_str (fuel : nat) (self : SerialPort) (s : list Z) : P unit :=
  for_each s (write_byte fuel self).

(** [core::fmt::Write] for [SerialPort]; the result is [true] for [Ok]. *)
Definition Write_write_str (fuel : nat) (self : SerialPort) (s : list Z) : P bool :=
  write_str fuel self s;; mret true.

(** [write_fmt] of core, on text that is formatted to [pieces]: they are
    written in order, up to the first error. *)
Definition write_fmt (fuel : nat) (self : SerialPort) (pieces : list (list Z)) : P bool :=
  check_each pieces (Write_write_str fuel self).
End driver.

(** ** [_print] *)

(** [spin::Mutex]: [spin_lock] is [None] when the lock never comes free. *)
Class SpinMutex (L : Type) : Type := {
  spin_new : L;
  spin_free : L → bool;
  spin_lock : L → option L;
  spin_unlock : L → L;
}.
Class SpinMutexLaws (L : Type) {SM : SpinMutex L} : Prop := {
  spin_new_free : spin_free spin_new = true;
  spin_lock_free l : spin_free l = true → ∃ l', spin_lock l = Some l' ∧ spin_free l' = false;
  spin_lock_taken l : spin_free l = false → spin_lock l = None;
  spin_unlock_free l : spin_free (spin_unlock l) = true;
}.

(** [SERIAL1], which [lazy_static!] builds at its first use, and the ports. *)
Record ConsoleState (Dev L : Type) : Type := mkConsole {
  serial1 : option (SerialPort * L);
  con_ports : PortState Dev;
}.
Arguments mkConsole {Dev L} serial1 con_ports.
Arguments serial1 {Dev L} c.
Arguments con_ports {Dev L} c.

Section print.
Context {Dev L : Type} {PD : PortDevice Dev} {SM : SpinMutex L}.
Local Abbreviation C := (M (ConsoleState Dev L)).

(** An operation on the ports. *)
Definition on_ports {A} (m : M (PortState Dev) A) : C A := λ c,
  match m (con_ports c) with
  | Done (a, p) => Done (a, mkConsole (serial1 c) p)
  | Panicked r => Panicked r
  | Hang => Hang
  end.

Definition set_serial1 (x : SerialPort * L) : C unit := modify (λ c, mkConsole (Some x) (con_ports c)).

(** The first use of [SERIAL1] runs its initialiser. *)
Definition SERIAL1 : C (SerialPort * L) :=
  o ← gets serial1;
  match o with
  | Some x => mret x
  | None =>
      let serial_port := SerialPort_new COM1 in
      on_ports (serial_init serial_port);;
      set_serial1 (serial_port, spin_new);;
      mret (serial_port, spin_new)
  end.

(** [_print] of the arguments that are formatted to [pieces]. *)
Definition print (fuel : nat) (pieces : list (list Z)) : C unit :=
  '(port, l) ← SERIAL1;
  match spin_lock l with
  | None => hang
  | Some l' =>
      set_serial1 (port, l');;
      ok ← on_ports (write_fmt fuel port pieces);
      if (ok : bool) then set_serial1 (port, spin_unlock l') else panic PUnwrap
  end.

(** [serial_print!] and [serial_println!]; the newline is part of the last
    literal piece, which makes no difference to the bytes. *)
Definition serial_print (fuel : nat) (pieces : list (list Z)) : C unit := print fuel pieces.
Definition serial_println (fuel : nat) (pieces : list (list Z)) : C unit := serial_print fuel (pieces ++ [[10]]).
End print.

(** ** A 16550 UART at COM1 *)
Record Uart : Set := mkUart {
  u_dll : Z; u_dlm : Z; u_ier : Z; u_fcr : Z; u_lcr : Z; u_mcr : Z;
  u_sent : list Z;  (** bytes given to the transmitter *)
  u_busy : nat;     (** status reads until the transmitter is empty *)
}.

Definition u_dlab (u : Uart) : bool := Z.testbit (u_lcr u) 7.
(** The rate, from the 1.8432 MHz clock and the divisor. *)
Definition u_baud (u : Uart) : Z := 115200 / (u_dll u + 256 * u_dlm u).

(** A byte takes three status reads to send. *)
#[export] Instance uart : PortDevice Uart := {
  dev_inb p u :=
    if p =? COM1 + 5 then
      match u_busy u with
      | O => (0x60, u)
      | S n => (0, mkUart (u_dll u) (u_dlm u) (u_ier u) (u_fcr u) (u_lcr u) (u_mcr u) (u_sent u) n)
      end
    else (0, u);
  dev_outb p v u :=
    if p =? COM1 then
      if u_dlab u
      then mkUart v (u_dlm u) (u_ier u) (u_fcr u) (u_lcr u) (u_mcr u) (u_sent u) (u_busy u)
      else mkUart (u_dll u) (u_dlm u) (u_ier u) (u_fcr u) (u_lcr u) (u_mcr u) (u_sent u ++ [v]) 3
    else if p =? COM1 + 1 then
      if u_dlab u
      then mkUart (u_dll u) v (u_ier u) (u_fcr u) (u_lcr u) (u_mcr u) (u_sent u) (u_busy u)
      else mkUart (u_dll u) (u_dlm u) v (u_fcr u) (u_lcr u) (u_mcr u) (u_sent u) (u_busy u)
    else if p =? COM1 + 2 then mkUart (u_dll u) (u_dlm u) (u_ier u) v (u_lcr u) (u_mcr u) (u_sent u) (u_busy u)
    else if p =? COM1 + 3 then mkUart (u_dll u) (u_dlm u) (u_ier u) (u_fcr u) v (u_mcr u) (u_sent u) (u_busy u)
    else if p =? COM1 + 4 then mkUart (u_dll u) (u_dlm u) (u_ier u) (u_fcr u) (u_lcr u) v (u_sent u) (u_busy u)
    else u;
}.

#[export] Instance spin_bool : SpinMutex bool := {
  spin_new := false; spin_free := negb; spin_lock b := if b then None else Some true; spin_unlock _ := false;
}.
#[export] Instance spin_bool_laws : SpinMutexLaws bool.
Proof. split; [done|intros []; [done|by eexists]|by intros []|done]. Qed.

(** ** Lemmas *)
Section lemmas.
Context {Dev : Type} {PD : PortDevice Dev}.
Implicit Types (p : PortState Dev).

Lemma out_reg_run self off v p : serial_base self + off ≤ U16_MAX →
  out_reg self off v p = Done (tt, do_outb (serial_base self + off) v p).
Proof. intros H. unfold out_reg, mbind, M_bind. by rewrite port_add_ok. Qed.

Lemma out_reg_overflow self off v p : U16_MAX < serial_base self + off → out_reg self off v p = Panicked POverflow.
Proof. intros H. unfold out_reg, mbind, M_bind. by rewrite port_add_overflow. Qed.

(** The status becomes ready within [n] reads. *)
Fixpoint ready_within (n : nat) (port : Z) (d : Dev) : bool :=
  match n with
  | O => false
  | S n' => let '(v, d') := dev_inb port d in if Z.land v 0x20 =? 0 then ready_within n' port d' else true
  end.

(** The accesses that send one byte: reads that say busy, one that says ready,
    and the byte. *)
Definition sends (base : Z) (b : Z) (ev : list PortEvent) : Prop :=
  ∃ (busy : list Z) (v : Z), ev = (EvIn (base + 5) <$> busy) ++ [EvIn (base + 5) v; EvOut base b] ∧
    Forall (λ x, Z.land x 0x20 = 0) busy ∧ Z.land v 0x20 ≠ 0.

Lemma tx_wait_run fuel self p : serial_base self + 5 ≤ U16_MAX →
  if ready_within fuel (serial_base self + 5) (port_dev p) then
    ∃ busy v d, tx_wait fuel self p = Done (tt, mkPortState d
        (port_log p ++ (EvIn (serial_base self + 5) <$> busy) ++ [EvIn (serial_base self + 5) v])) ∧
      Forall (λ x, Z.land x 0x20 = 0) busy ∧ Z.land v 0x20 ≠ 0
  else tx_wait fuel self p = Hang.
Proof.
  intros Hb. revert p. induction fuel as [|fuel IH]; intros p; [done|]. cbn [tx_wait ready_within].
  unfold mbind, M_bind. rewrite port_add_ok by done. unfold inb, do_inb.
  destruct (dev_inb _ (port_dev p)) as [v d]. destruct (Z.eqb_spec (Z.land v 0x20) 0) as [Hv|Hv].
  - specialize (IH (mkPortState d (port_log p ++ [EvIn (serial_base self + 5) v]))). cbn [port_dev port_log] in IH.
    destruct (ready_within _ _ _); [|done]. destruct IH as (busy & w & d' & -> & Hbusy & Hw).
    exists (v :: busy), w, d'. split; [by rewrite <-app_assoc|]. by split; [constructor|].
  - exists [], v, d. by split; [|split].
Qed.

(** The device is ready within [fuel] reads, whatever happened before. *)
Definition always_ready (fuel : nat) (port : Z) : Prop := ∀ d, ready_within fuel port d = true.

Lemma write_byte_sends fuel self b p :
  serial_base self + 5 ≤ U16_MAX → always_ready fuel (serial_base self + 5) →
  wp (write_byte fuel self b) (λ _ p', ∃ ev, port_log p' = port_log p ++ ev ∧ sends (serial_base self) b ev) p.
Proof.
  intros Hb Hr. pose proof (tx_wait_run fuel self p Hb) as H. rewrite Hr in H.
  destruct H as (busy & v & d & Hw & Hbusy & Hv). apply wp_bind. eapply wp_run_eq; [exact Hw|].
  apply wp_outb. eexists. cbn [do_outb port_log]. rewrite <-!app_assoc. split; [reflexivity|]. by exists busy, v.
Qed.

Lemma write_str_sends fuel self s p :
  serial_base self + 5 ≤ U16_MAX → always_ready fuel (serial_base self + 5) →
  wp (write_str fuel self s) (λ _ p', ∃ evs, port_log p' = port_log p ++ concat evs ∧
      Forall2 (sends (serial_base self)) s evs) p.
Proof.
  intros Hb Hr. apply (wp_for_each s _ (λ pre p', ∃ evs, port_log p' = port_log p ++ concat evs ∧
      Forall2 (sends (serial_base self)) pre evs)).
  - intros pre b post p' _ (evs & Hlog & Hf). eapply wp_mono; [by apply write_byte_sends|].
    intros _ p'' (ev & Hlog' & Hs). exists (evs ++ [ev]). split; [|by apply Forall2_app; [|repeat constructor]].
    by rewrite Hlog', Hlog, concat_app, <-app_assoc; cbn; rewrite app_nil_r.
  - exists []. split; [by rewrite app_nil_r|constructor].
Qed.

Lemma write_pieces_sends fuel self ss p :
  serial_base self + 5 ≤ U16_MAX → always_ready fuel (serial_base self + 5) →
  wp (for_each ss (write_str fuel self)) (λ _ p', ∃ evs, port_log p' = port_log p ++ concat evs ∧
      Forall2 (sends (serial_base self)) (concat ss) evs) p.
Proof.
  intros Hb Hr. apply (wp_for_each ss _ (λ pre p', ∃ evs, port_log p' = port_log p ++ concat evs ∧
      Forall2 (sends (serial_base self)) (concat pre) evs)).
  - intros pre s post p' _ (evs & Hlog & Hf). eapply wp_mono; [by apply write_str_sends|].
    intros _ p'' (evs' & Hlog' & Hs). exists (evs ++ evs').
    rewrite Hlog', Hlog, !concat_app, <-app_assoc. cbn. rewrite app_nil_r. split; [done|by apply Forall2_app].
  - exists []. split; [by rewrite app_nil_r|constructor].
Qed.

(** The accesses of [serial_init]. *)
Definition init_events (base : Z) : list PortEvent :=
  [EvOut (base + 1) 0; EvOut (base + 3) 0x80; EvOut (base + 0) 3; EvOut (base + 1) 0; EvOut (base + 3) 3;
   EvOut (base + 2) 0xC7; EvOut (base + 4) 0x0B].

Lemma serial_init_run self p : serial_base self + 4 ≤ U16_MAX →
  ∃ d, serial_init self p = Done (tt, mkPortState d (port_log p ++ init_events (serial_base self))).
Proof.
  intros Hb. unfold serial_init, mbind, M_bind. rewrite !out_reg_run by lia.
  eexists. unfold do_outb. cbn [port_dev port_log]. rewrite <-!app_assoc. reflexivity.
Qed.
End lemmas.

(** [SERIAL1] when it is free or not yet built. *)
Lemma serial1_ready {Dev L} {PD : PortDevice Dev} {SM : SpinMutex L} {SL : SpinMutexLaws L} (c : ConsoleState Dev L) l0 :
  serial1 c = Some (SerialPort_new COM1, l0) ∧ spin_free l0 = true ∨ serial1 c = None →
  ∃ l p, SERIAL1 c = Done ((SerialPort_new COM1, l), mkConsole (Some (SerialPort_new COM1, l)) p) ∧
    spin_free l = true ∧
    port_log p = port_log (con_ports c) ++ (if serial1 c is Some _ then [] else init_events COM1).
Proof.
  destruct c as [o p]. cbn [serial1 con_ports]. intros [[-> Hl]| ->].
  - exists l0, p. rewrite app_nil_r. done.
  - destruct (serial_init_run (SerialPort_new COM1) p) as [d Hd]; [done|].
    exists spin_new, (mkPortState d (port_log p ++ init_events COM1)). split; [|by split; [apply spin_new_free|]].
    unfold SERIAL1, on_ports, mbind, M_bind, gets. cbn [serial1 con_ports]. rewrite Hd. reflexivity.
Qed.

(** Only the transmit register sends. *)
Lemma uart_ier_sent port v (u : PortState Uart) : port ≠ COM1 → u_sent (port_dev (do_outb port v u)) = u_sent (port_dev u).
Proof.
  intros Hp. unfold do_outb, dev_outb, uart. cbn [port_dev]. rewrite (proj2 (Z.eqb_neq _ _)) by done.
  repeat match goal with |- context [if ?b then _ else _] => destruct b end; done.
Qed.

Lemma uart_ier_closed v (u : PortState Uart) :
  u_dlab (port_dev u) = false → u_ier (port_dev (do_outb (COM1 + 1) v u)) = v.
Proof. intros Hd. unfold do_outb, dev_outb, uart. cbn [port_dev]. rewrite Hd. reflexivity. Qed.

(** ** Theorems *)

(** Starting the port. [init] writes the seven registers in this order, and
    panics when a port number does not fit in 16 bits. On a 16550 at COM1, in
    whatever state, it leaves 38400 baud, 8 bits, no parity, one stop bit, the
    divisor latch closed and the FIFOs on, and sends nothing; the UART's
    interrupts are off afterwards if the divisor latch was closed before. *)
Lemma serial_init_config {Dev} {PD : PortDevice Dev} self (p : PortState Dev) (u : PortState Uart) :
  0 ≤ serial_base self →
  (serial_base self + 4 ≤ U16_MAX →
   ∃ d, serial_init self p = Done (tt, mkPortState d (port_log p ++ init_events (serial_base self)))) ∧
  (U16_MAX < serial_base self + 4 → serial_init self p = Panicked POverflow) ∧
  wp (serial_init (SerialPort_new COM1)) (λ _ u', u_baud (port_dev u') = 38400 ∧ u_lcr (port_dev u') = 0x03 ∧
      u_dlab (port_dev u') = false ∧ (u_dlab (port_dev u) = false → u_ier (port_dev u') = 0) ∧ u_fcr (port_dev u') = 0xC7 ∧
      u_mcr (port_dev u') = 0x0B ∧ u_sent (port_dev u') = u_sent (port_dev u)) u.
Proof.
  intros Hb. split; [apply serial_init_run|]. split.
  - intros Ho. unfold serial_init, mbind, M_bind.
    repeat match goal with
    | |- context [out_reg self ?k _ _] =>
        destruct (decide (serial_base self + k ≤ U16_MAX));
        [rewrite (out_reg_run self k) by lia|by rewrite (out_reg_overflow self k) by lia]
    end; lia.
  - unfold serial_init, mbind, M_bind, wp. cbn [serial_base SerialPort_new].
    rewrite !out_reg_run by (unfold COM1, U16_MAX; cbn; lia).
    eexists _, _. split; [reflexivity|]. rewrite <-(uart_ier_sent (serial_base (mkSerialPort COM1) + 1) 0 u) by done.
    pose proof (uart_ier_closed 0 u) as Hi. change (COM1 + 1) with (serial_base (mkSerialPort COM1) + 1) in Hi.
    destruct (do_outb _ 0 u) as [[dll dlm ier fcr lcr mcr sent busy] l]. cbn [port_dev u_ier] in Hi.
    vm_compute; split_and!; first [reflexivity|exact Hi].
Qed.

(** Sending text. When the transmitter always comes ready within the fuel,
    [write_str] returns, and its port accesses are, for each byte of the text
    in order, status reads that say busy, one that says ready, and the byte:
    no byte is lost, doubled, reordered or written to a busy transmitter. When
    the transmitter never comes ready, it never returns. *)
Lemma write_str_transmits {Dev} {PD : PortDevice Dev} fuel self s (p : PortState Dev) :
  serial_base self + 5 ≤ U16_MAX →
  (always_ready fuel (serial_base self + 5) →
   wp (write_str fuel self s) (λ _ p', ∃ evs, port_log p' = port_log p ++ concat evs ∧
       Forall2 (sends (serial_base self)) s evs) p) ∧
  ((∀ d, Z.land (dev_inb (serial_base self + 5) d).1 0x20 = 0) → s ≠ [] →
   ∀ n, write_str n self s p = Hang).
Proof.
  intros Hb. split; [by apply write_str_sends|]. intros Hn Hs n. destruct s as [|b s]; [done|].
  unfold write_str, for_each. cbn [fold_each]. unfold write_byte, mbind, M_bind.
  pose proof (tx_wait_run n self p Hb) as H. replace (ready_within n _ _) with false in H; [by rewrite H|].
  clear H. generalize (port_dev p) as d. induction n as [|n IH]; intros d; [done|]. cbn [ready_within].
  specialize (Hn d). destruct (dev_inb _ d) as [v d']. cbn in Hn. rewrite Hn. apply IH.
Qed.

(** [write_str] never returns an error, so the [unwrap] of [_print] is safe. *)
Lemma write_fmt_ok {Dev} {PD : PortDevice Dev} fuel self pieces (p : PortState Dev) :
  write_fmt fuel self pieces p = (for_each pieces (write_str fuel self);; mret true) p.
Proof.
  revert p. induction pieces as [|s pieces IH]; intros p; [done|].
  unfold write_fmt, for_each, Write_write_str in *. cbn [check_each fold_each].
  unfold mbind, M_bind in *. destruct (write_str fuel self s p) as [[[] p']| |]; [apply IH|done..].
Qed.

(** A transmitter that is always ready. *)
Definition ready_port : PortDevice (list Z) := {| dev_inb _ d := (0x60, d); dev_outb _ v d := d ++ [v] |}.

(** Printing. With the lock free and the transmitter ready, [_print] returns
    with the lock free again, having sent the bytes of all pieces in order; the
    first call, and only the first, sets up the port before. A call made while
    the lock is held, such as the panic message of a fault inside [_print],
    never returns. *)
Lemma print_sends_pieces {Dev L} {PD : PortDevice Dev} {SM : SpinMutex L} {SL : SpinMutexLaws L}
    fuel pieces (c : ConsoleState Dev L) :
  always_ready fuel (COM1 + 5) →
  (∀ l, serial1 c = Some (SerialPort_new COM1, l) ∧ spin_free l = true ∨ serial1 c = None →
   wp (print fuel pieces) (λ _ c', (∃ l', serial1 c' = Some (SerialPort_new COM1, l') ∧ spin_free l' = true) ∧
     ∃ evs, Forall2 (sends COM1) (concat pieces) evs ∧
       port_log (con_ports c') = port_log (con_ports c) ++
         (if serial1 c is Some _ then [] else init_events COM1) ++ concat evs) c) ∧
  (∀ port l, serial1 c = Some (port, l) → spin_free l = false → print fuel pieces c = Hang).
Proof.
  intros Hr. split; [|intros port l Hc Hl; unfold print, SERIAL1, mbind, M_bind, gets; rewrite Hc; cbn; by rewrite spin_lock_taken].
  intros l0 Hc. destruct (serial1_ready c l0 Hc) as (l & p1 & Hser & Hl & Hlog).
  unfold print. apply wp_bind. eapply wp_run_eq; [exact Hser|]. destruct (spin_lock_free l Hl) as (l' & -> & _).
  apply wp_bind, wp_modify, wp_bind. cbn [con_ports].
  destruct (write_pieces_sends fuel (SerialPort_new COM1) pieces p1) as ([] & p2 & Hw & evs & Hlog2 & Hf); [done|done|].
  eapply wp_run_eq; [unfold on_ports; cbn [con_ports]; rewrite write_fmt_ok, (bind_Done _ _ _ _ _ Hw); reflexivity|].
  apply wp_modify. cbn [serial1 con_ports]. split.
  - exists (spin_unlock l'). split; [done|apply spin_unlock_free].
  - exists evs. split; [done|]. by rewrite Hlog2, Hlog, <-app_assoc.
Qed.

(** [serial_println!] sends the text and the newline in one go, where
    [println!] takes the lock twice. *)
Lemma serial_println_sends {Dev L} {PD : PortDevice Dev} {SM : SpinMutex L} {SL : SpinMutexLaws L}
    fuel pieces (c : ConsoleState Dev L) l :
  always_ready fuel (COM1 + 5) → serial1 c = Some (SerialPort_new COM1, l) → spin_free l = true →
  wp (serial_println fuel pieces) (λ _ c', ∃ evs, Forall2 (sends COM1) (concat pieces ++ [10]) evs ∧
    port_log (con_ports c') = port_log (con_ports c) ++ concat evs) c.
Proof.
  intros Hr Hc Hl. eapply wp_mono; [apply (proj1 (print_sends_pieces fuel (pieces ++ [[10]]) c Hr) l); by left|].
  intros [] c' (_ & evs & Hs & Hlog). rewrite Hc in Hlog. rewrite concat_app in Hs. by exists evs.
Qed.

(** The text that a 16550 at COM1 has sent after a [println!]. *)
Example uart_prints :
  match print (L := bool) 4 [[72]; [105]; [10]] (mkConsole None (mkPortState (mkUart 0 0 1 0 0 0 [] 0) [])) with
  | Done (_, c) => u_sent (port_dev (con_ports c)) = [72; 105; 10]
  | _ => False
  end.
Proof. vm_compute. reflexivity. Qed.
