(* ===== verification/Panic.v ===== *)
(** * Panics (src/src/main.rs)

    [println!], the panic handler and the allocation error handler: what a
    [Panicked] outcome of the other files leads to. The text of a panic comes
    from the formatting of core, which is a parameter. *)
From S2P Require Import Prelude Ports Serial Mutex GlobalAlloc.

(** The bytes of a string. *)
Definition text (s : string) : list Z := (λ a, Z.of_N (Ascii.N_of_ascii a)) <$> String.list_ascii_of_string s.

(** The console, the interrupt flag, and how often [hlt] has been reached. *)
Record PanicState (Dev L : Type) : Type := mkPanicState {
  ps_console : ConsoleState Dev L;
  ps_if : bool;
  ps_halts : nat;
}.
Arguments mkPanicState {Dev L} ps_console ps_if ps_halts.
Arguments ps_console {Dev L} p.
Arguments ps_if {Dev L} p.
Arguments ps_halts {Dev L} p.

Section panic.
Context {Dev L : Type} {PD : PortDevice Dev} {SM : SpinMutex L}.
Local Abbreviation S := (PanicState Dev L).

Definition on_console {A} (m : M (ConsoleState Dev L) A) : M S A := λ s,
  match m (ps_console s) with
  | Done (a, c) => Done (a, mkPanicState c (ps_if s) (ps_halts s))
  | Panicked r => Panicked r
  | Hang => Hang
  end.

(** [println!]: two calls of [_print], each of which takes the lock. *)
Definition println (fuel : nat) (pieces : list (list Z)) : M S unit :=
  on_console (print fuel pieces);;
  on_console (print fuel [[10]]).

(** [asm!("cli; hlt")], once. *)
Definition cli_hlt : M S unit := modify (λ s, mkPanicState (ps_console s) false (Datatypes.S (ps_halts s))).

(** The loop that never ends, as far as its [n]th [hlt]. *)
Fixpoint halt_loop (n : nat) : M S unit :=
  match n with
  | O => mret tt
  | Datatypes.S n' => cli_hlt;; halt_loop n'
  end.

(** [info] is what the formatting of [PanicInfo] hands to [write_str]. *)
Definition panic_handler (fuel n : nat) (info : list (list Z)) : M S unit :=
  println fuel [10 :: text "!!! KERNEL PANIC !!!"];;
  println fuel info;;
  halt_loop n.

(** [panic!("Allocation error: {:?}", layout)]; [fmt_layout] and [fmt_info]
    stand for the formatting of core. *)
Definition alloc_error_handler (fmt_layout : Layout → list Z) (fmt_info : list (list Z) → list (list Z))
    (fuel n : nat) (layout : Layout) : M S unit :=
  panic_handler fuel n (fmt_info [text "Allocation error: "; fmt_layout layout]).

(** ** Lemmas *)
Context {SL : SpinMutexLaws L}.

(** The console can print: the port is not built yet, or its lock is free. *)
Definition console_free (c : ConsoleState Dev L) : Prop :=
  serial1 c = None ∨ ∃ l, serial1 c = Some (SerialPort_new COM1, l) ∧ spin_free l = true.

(** The accesses of the port's first use. *)
Definition first_use (c : ConsoleState Dev L) : list PortEvent :=
  match serial1 c with Some _ => [] | None => init_events COM1 end.

(** [c'] is [c] after the text [s] has been sent. *)
Definition printed (c : ConsoleState Dev L) (s : list Z) (c' : ConsoleState Dev L) : Prop :=
  console_free c' ∧ serial1 c' ≠ None ∧ ∃ evs, Forall2 (sends COM1) s evs ∧
    port_log (con_ports c') = port_log (con_ports c) ++ first_use c ++ concat evs.

Lemma print_prints fuel pieces c : always_ready fuel (COM1 + 5) → console_free c →
  wp (print fuel pieces) (λ _ c', printed c (concat pieces) c') c.
Proof.
  intros Hr Hc. assert (∃ l, serial1 c = Some (SerialPort_new COM1, l) ∧ spin_free l = true ∨ serial1 c = None) as [l Hl].
  { destruct Hc as [H|[l H]]; [exists spin_new|exists l]; auto. }
  eapply wp_mono; [apply (proj1 (print_sends_pieces fuel pieces c Hr) l Hl)|].
  intros [] c' ((l' & Hs & Hf) & evs & He & Hlog). split; [right; eauto|]. split; [by rewrite Hs|].
  exists evs. split; [done|]. rewrite Hlog. unfold first_use. by destruct (serial1 c).
Qed.

Lemma printed_app c s c1 s1 c2 : printed c s c1 → printed c1 s1 c2 → printed c (s ++ s1) c2.
Proof.
  intros (_ & Hn & evs & He & Hlog) (Hf & Hn2 & evs' & He' & Hlog'). split; [done|]. split; [done|].
  exists (evs ++ evs'). split; [by apply Forall2_app|]. rewrite Hlog', Hlog, concat_app, <-!app_assoc.
  unfold first_use at 2. by destruct (serial1 c1).
Qed.

Lemma on_console_prints fuel pieces (s : S) : always_ready fuel (COM1 + 5) → console_free (ps_console s) →
  wp (on_console (print fuel pieces)) (λ _ s', printed (ps_console s) (concat pieces) (ps_console s') ∧
    ps_if s' = ps_if s ∧ ps_halts s' = ps_halts s) s.
Proof.
  intros Hr Hc. destruct (print_prints fuel pieces _ Hr Hc) as ([] & c' & E & Hp).
  eexists tt, _. unfold on_console. rewrite E. by split.
Qed.

Lemma println_prints fuel pieces (s : S) : always_ready fuel (COM1 + 5) → console_free (ps_console s) →
  wp (println fuel pieces) (λ _ s', printed (ps_console s) (concat pieces ++ [10]) (ps_console s') ∧
    ps_if s' = ps_if s ∧ ps_halts s' = ps_halts s) s.
Proof.
  intros Hr Hc. unfold println. apply wp_bind. eapply wp_mono; [by apply on_console_prints|].
  intros [] s1 (H1 & Hi1 & Hh1). eapply wp_mono; [apply on_console_prints; [done|apply H1]|].
  intros [] s2 (H2 & Hi2 & Hh2). split_and!; [by eapply printed_app|congruence..].
Qed.

Lemma halt_loop_run n (s : S) : halt_loop n s =
  Done (tt, mkPanicState (ps_console s) (if n is O then ps_if s else false) (n + ps_halts s)).
Proof.
  revert s. induction n as [|n IH]; intros s; cbn [halt_loop]; [by destruct s|].
  unfold mbind, M_bind, cli_hlt, modify. rewrite IH. cbn [ps_console ps_if ps_halts]. do 2 f_equal. destruct n; f_equal; lia.
Qed.
End panic.

(** ** Theorems *)

(** C38: panicking. With the console's lock free and the transmitter ready, a
    panic sends the banner line and then the formatted message, each byte in
    order and after a status read that says ready, sets the port up first when
    nothing was printed before, and then halts with interrupts off, again each
    time that something wakes the processor. A panic while the lock is held,
    such as one in a handler that interrupts [_print], hangs in [lock] instead:
    it reports nothing and never reaches [cli]. *)
Theorem panic_reports {Dev L} {PD : PortDevice Dev} {SM : SpinMutex L} {SL : SpinMutexLaws L} fuel n info (s : PanicState Dev L) :
  always_ready fuel (COM1 + 5) →
  (console_free (ps_console s) →
   wp (panic_handler fuel (S n) info) (λ _ s', ps_if s' = false ∧ ps_halts s' = (S n + ps_halts s)%nat ∧
     ∃ evs, Forall2 (sends COM1) ((10 :: text "!!! KERNEL PANIC !!!") ++ [10] ++ concat info ++ [10]) evs ∧
       port_log (con_ports (ps_console s')) =
         port_log (con_ports (ps_console s)) ++ first_use (ps_console s) ++ concat evs) s) ∧
  (∀ port l, serial1 (ps_console s) = Some (port, l) → spin_free l = false → panic_handler fuel (S n) info s = Hang).
Proof.
  intros Hr. split.
  - intros Hc. unfold panic_handler. apply wp_bind. eapply wp_mono; [by apply println_prints|].
    intros [] s1 (H1 & Hi1 & Hh1). apply wp_bind. eapply wp_mono; [apply println_prints; [done|apply H1]|].
    intros [] s2 (H2 & Hi2 & Hh2). eapply wp_run_eq; [apply halt_loop_run|]. cbn [ps_if ps_halts ps_console].
    destruct (printed_app _ _ _ _ _ H1 H2) as (_ & _ & evs & He & Hlog).
    split; [done|]. split; [by rewrite Hh2, Hh1|]. exists evs. split; [|exact Hlog].
    cbn [concat] in He. rewrite app_nil_r, <-app_assoc in He. exact He.
  - intros port l Hs Hl. unfold panic_handler, println, mbind, M_bind, on_console.
    pose proof (proj2 (print_sends_pieces fuel [10 :: text "!!! KERNEL PANIC !!!"] _ Hr) port l Hs Hl) as E. by rewrite E.
Qed.

Lemma panic_reports_witness :
  wp (panic_handler (PD := ready_port) (L := bool) 1 3 [text "no memory"]) (λ _ s',
      ps_if s' = false ∧ ps_halts s' = 3%nat ∧
      ∃ evs, Forall2 (sends COM1) ((10 :: text "!!! KERNEL PANIC !!!") ++ [10] ++ (text "no memory" ++ []) ++ [10]) evs ∧
        port_log (con_ports (ps_console s')) = [] ++ init_events COM1 ++ concat evs)
    (mkPanicState (mkConsole None (mkPortState [] [])) true 0).
Proof.
  apply (panic_reports (PD := ready_port) (L := bool) 1 2 [text "no memory"]
    (mkPanicState (mkConsole None (mkPortState [] [])) true 0)).
  - intros d. reflexivity.
  - left. reflexivity.
Defined.

(** What a 16550 at COM1 has sent after an allocation error. *)
Example uart_reports :
  match alloc_error_handler (L := bool) (λ l, text "Layout") (λ m, m) 4 1 (mkLayout 8 8)
      (mkPanicState (mkConsole None (mkPortState (mkUart 0 0 1 0 0 0 [] 0) [])) true 0) with
  | Done (_, s) => u_sent (port_dev (con_ports (ps_console s))) =
      (10 :: text "!!! KERNEL PANIC !!!") ++ [10] ++ text "Allocation error: Layout" ++ [10] ∧ ps_if s = false
  | _ => False
  end.
Proof. vm_compute. done. Qed.
