(* ===== verification/SelfTest.v ===== *)
(** * The allocator's test in main.rs

    [test_allocator] of src/src/main.rs: a [Box], a [Vec] that grows, and a
    larger [Box], dropped at the end of the function in reverse order. [Box] and
    [Vec] are modelled as far as they use the global allocator: the layouts they
    ask for, growth, and the call of the allocation error handler. The proofs are
    against the interface of a page allocator. *)
From S2P Require Import Prelude Mutex Memory Multiboot2 PageAllocator FreeList AllocInv AllocExec AllocInit AllocSpec AllocTheorems GlobalAlloc.

(** ** Room: a page allocator that has free 4KB pages does not fail *)
Class PageRoom (S : Type) {PP : PageProvider S} : Type := {
  pr_room : nat → S → Prop;
  pr_allocate own n s : pp_holds own s → pr_room (Datatypes.S n) s →
    wp (pp_allocate Size4KB) (λ r s', ∃ addr, r = Some addr ∧ (addr, Size4KB) ∉ own ∧
      pp_holds ({[(addr, Size4KB)]} ∪ own) s' ∧ pr_room n s') s;
}.

Section containers.
Context {S : Type} {PP : PageProvider S}.

(** [handle_alloc_error], when the allocator returns null. *)
Definition alloc_or_error (l : Layout) : M S Z :=
  p ← alloc l;
  if p =? null then panic (PMessage "Allocation error") else mret p.

(** [Box::new] of a value with the layout [l], and its drop. *)
Definition box_new (l : Layout) : M S Z := alloc_or_error l.
Definition box_drop (p : Z) (l : Layout) : M S unit := dealloc p l.

(** [Vec<i32>]: elements of 4 bytes. *)
Record Vec : Set := mkVec { vec_ptr : Z; vec_cap : Z; vec_len : Z }.
Definition vec_layout (cap : Z) : Layout := mkLayout (4 * cap) 4.
Definition vec_new : Vec := mkVec 4 0 0.

(** [GlobalAlloc::realloc], the default: a new block, a copy, and the old block
    is freed. *)
Definition vec_grow (v : Vec) : M S Vec :=
  let cap := Z.max (Z.max (vec_cap v * 2) (vec_len v + 1)) 4 in
  p ← alloc_or_error (vec_layout cap);
  (if vec_cap v =? 0 then mret tt else dealloc (vec_ptr v) (vec_layout (vec_cap v)));;
  mret (mkVec p cap (vec_len v)).

Definition vec_push (v : Vec) : M S Vec :=
  v ← (if vec_len v =? vec_cap v then vec_grow v else mret v);
  mret (mkVec (vec_ptr v) (vec_cap v) (vec_len v + 1)).

Definition vec_drop (v : Vec) : M S unit :=
  if vec_cap v =? 0 then mret tt else dealloc (vec_ptr v) (vec_layout (vec_cap v)).

Definition test_allocator : M S unit :=
  boxed_value ← box_new (mkLayout 8 8);
  vec ← vec_push vec_new;
  vec ← vec_push vec;
  vec ← vec_push vec;
  large_box ← box_new (mkLayout 1024 1);
  box_drop large_box (mkLayout 1024 1);;
  vec_drop vec;;
  box_drop boxed_value (mkLayout 8 8).
End containers.

(** ** Lemmas *)
Section client.
Context {S : Type} {PP : PageProvider S} {PL : PageProviderLaws S} {PR : PageRoom S}.
Implicit Types (live : gset (Z * Layout)) (l : Layout).

(** A small object, with a page to spare. *)
Lemma alloc_room live l n s :
  heap_ok live s → 0 < layout_size l ≤ 4096 → pr_room (Datatypes.S n) s →
  wp (alloc_or_error l) (λ p s', (p, l) ∉ live ∧ heap_ok ({[(p, l)]} ∪ live) s' ∧ pr_room n s') s.
Proof.
  intros Hh Hl Hr. pose proof (alloc_ok live l s Hh ltac:(lia)) as (p & s' & E & Hp).
  destruct Hh as (Hh & _). destruct (pr_allocate _ n s Hh Hr) as (r & s2 & E2 & addr & -> & _ & Hh2 & Hr2).
  unfold alloc_or_error. apply wp_bind. eapply wp_run_eq; [exact E|].
  assert (p = addr ∧ s' = s2) as [-> ->].
  { rewrite alloc_eq in E by lia. unfold page_or_null, block_size in E. rewrite (proj2 (Z.leb_le _ _)) in E by lia.
    unfold mbind, M_bind in E. rewrite E2 in E. by injection E. }
  assert (0 < addr) as Ha by (apply (pp_nonnull _ _ (addr, Size4KB) Hh2); set_solver).
  destruct Hp as [[-> _]|(_ & Hf & Hh')]; [done|].
  rewrite (proj2 (Z.eqb_neq addr null)) by (unfold null; lia). apply wp_ret. done.
Qed.

(** An object that is not there is not there after it has come and gone. *)
Lemma dealloc_new live p l s :
  heap_ok ({[(p, l)]} ∪ live) s → (p, l) ∉ live → wp (dealloc p l) (λ _ s', heap_ok live s') s.
Proof.
  intros Hh Hf. eapply wp_mono; [apply (dealloc_ok _ _ _ _ Hh); set_solver|]. intros [] s' H.
  by replace (({[(p, l)]} ∪ live) ∖ {[(p, l)]}) with live in H by set_solver.
Qed.

(** The first [push] takes room for four elements, the next three take none. *)
Lemma wp_first_push s (Q : Vec → S → Prop) :
  wp (alloc_or_error (vec_layout 4)) (λ p s', Q (mkVec p 4 1) s') s → wp (vec_push vec_new) Q s.
Proof.
  intros H. unfold vec_push, vec_grow, vec_new. cbn [vec_len vec_cap]. apply wp_bind.
  change (0 =? 0) with true. change (Z.max (Z.max (0 * 2) (0 + 1)) 4) with 4. cbv iota. apply wp_bind.
  eapply wp_mono; [exact H|]. intros p s' HQ. apply wp_bind, wp_ret, wp_ret, wp_ret. exact HQ.
Qed.
Lemma wp_next_push p c n s (Q : Vec → S → Prop) :
  n ≠ c → Q (mkVec p c (n + 1)) s → wp (vec_push (mkVec p c n)) Q s.
Proof.
  intros Hn HQ. unfold vec_push. cbn [vec_len vec_cap]. rewrite (proj2 (Z.eqb_neq n c)) by done.
  apply wp_bind, wp_ret, wp_ret. exact HQ.
Qed.

Lemma test_allocator_run live s :
  heap_ok live s → pr_room 3 s → wp test_allocator (λ _ s', heap_ok live s') s.
Proof.
  intros Hh Hr. unfold test_allocator, box_new, box_drop. apply wp_bind.
  eapply wp_mono; [apply (alloc_room live (mkLayout 8 8) 2 s Hh); [simpl; lia|exact Hr]|]. intros p1 s1 (F1 & H1 & R1).
  apply wp_bind, wp_first_push.
  eapply wp_mono; [apply (alloc_room _ (vec_layout 4) 1 s1 H1); [simpl; lia|exact R1]|]. intros p2 s2 (F2 & H2 & R2).
  apply wp_bind, wp_next_push; [done|]. apply wp_bind, wp_next_push; [done|].
  apply wp_bind. eapply wp_mono; [apply (alloc_room _ (mkLayout 1024 1) 0 s2 H2); [simpl; lia|exact R2]|].
  intros p3 s3 (F3 & H3 & _). unfold vec_drop. cbn [vec_cap vec_ptr]. change (4 =? 0) with false. cbv iota.
  apply wp_bind. eapply wp_mono; [apply (dealloc_new _ _ _ _ H3 F3)|]. intros [] s4 H4.
  apply wp_bind. eapply wp_mono; [apply (dealloc_new _ _ _ _ H4 F2)|]. intros [] s5 H5. apply (dealloc_new _ _ _ _ H5 F1).
Qed.
End client.

(** ** [PageAllocator] has room while frames are free *)
Lemma dseg_unique ps pv l l' :
  dseg ps pv l None → dseg ps pv l' None → hd_or l None = hd_or l' None → l = l'.
Proof.
  revert pv l'. induction l as [|p l IH]; intros pv [|p' l'] H H' E; simplify_eq/=; [done|].
  destruct H as [H1 H2], H' as [H1' H2']. rewrite H1 in H1'. simplify_eq. f_equal. by eapply IH.
Qed.
Lemma dll_unique ps h l l' : dll ps h l → dll ps h l' → l = l'.
Proof. intros (-> & H & _) (E & H' & _). by eapply dseg_unique. Qed.

(** The free frames are determined by the memory of the allocator. *)
Lemma free_frames_unique c a a' : Inv c a → Inv c a' → free_frames a = free_frames a'.
Proof.
  intros HI HI'. unfold free_frames. by rewrite (dll_unique _ _ _ _ (inv_dll4 _ _ HI) (inv_dll4 _ _ HI')),
    (dll_unique _ _ _ _ (inv_dll2 _ _ HI) (inv_dll2 _ _ HI')).
Qed.

(** A 4KB allocation takes one frame. *)
Lemma alloc4_takes_one a r a' : alloc_step a (AllocReq Size4KB) r a' → free_frames a ≠ [] →
  r ≠ None ∧ length (free_frames a) = S (length (free_frames a')).
Proof.
  intros Hs Hne. inversion Hs as [p l E|s l E4 E2|E4 E2| | | | |]; subst.
  - split; [done|]. unfold free_frames, abs_alloc4. cbn [a_l4 a_l2]. by rewrite E.
  - split; [done|]. apply Nat2Z.inj. rewrite Nat2Z.inj_succ, !length_free_frames. unfold abs_alloc4, abs_split. cbn [a_l4 a_l2].
    rewrite E4, E2, length_reverse, length_seqZ. cbn [length]. lia.
  - unfold free_frames in Hne. by rewrite E4, E2 in Hne.
Qed.

#[export] Program Instance page_allocator_room : PageRoom Machine := {|
  pr_room n s := ∃ o b t c a, s = idle o b t c ∧ Inv c a ∧ (n ≤ length (free_frames a))%nat;
|}.
Next Obligation.
  intros own n s (o & b & t & c & a & -> & HI & Ho & Hm) (o' & b' & t' & c' & a0 & E & HI0 & Hn).
  assert (c' = c) as -> by (unfold idle, mach in E; simplify_eq; by destruct c, c'; simplify_eq/=).
  rewrite (free_frames_unique _ _ _ HI0 HI) in Hn.
  destruct (pp_allocate_ok own Size4KB (idle o b t c)) as (r & s' & E1 & Hr); [by exists o, b, t, c, a|].
  destruct (perform_refines o b t c a (AllocReq Size4KB) HI I) as (r2 & s2 & E2 & a' & Hs & ev & c2 & -> & HI2 & _).
  cbn [pp_allocate page_allocator_provider perform] in *. rewrite E1 in E2. simplify_eq.
  destruct (alloc4_takes_one _ _ _ Hs) as [Hne Hl]; [intros E0; rewrite E0 in Hn; simpl in Hn; lia|].
  destruct r2 as [addr|]; [|done]. destruct Hr as [Hf Hh]. eexists _, _. split; [exact E1|]. exists addr.
  split_and!; [done..|]. eexists _, _, _, c2, a'. split_and!; [done|done|lia].
Qed.

(** ** Theorems *)

(** The allocator's test. Against any page allocator that keeps the promise
    of [PageProvider] and has three free 4KB pages, [test_allocator] runs to its
    end without panic and gives back exactly what it took: the live objects are
    those from before. On a booted machine with three free frames, that is
    [PageAllocator]. *)
Lemma test_allocator_restores {S} {PP : PageProvider S} {PL : PageProviderLaws S} {PR : PageRoom S}
    live (s : S) o b t size image store mem mmap version areas :
  (heap_ok live s → pr_room 3 s → wp test_allocator (λ _ s', heap_ok live s') s) ∧
  (boot_ok size image store mem mmap version areas → memory_top areas ≤ COUNTED_LIMIT →
   ∀ p q r, NoDup [p; q; r] → Forall (map_frames (first_free size image areas / PAGE_SIZE_4KB) (total_pages areas) areas) [p; q; r] →
   wp (init size image store mem mmap;; test_allocator) (λ _ s', heap_ok (∅ : gset (Z * Layout)) s')
     (mkMachine (mkCpu o b) PageAllocator_new t)).
Proof.
  split; [apply test_allocator_run|]. intros Hb Ht p q r Hnd Hpqr. apply wp_bind.
  destruct (boot_init o b t _ _ _ _ _ _ _ Hb Ht) as ([] & s1 & E & ev & c & a & -> & HP & _).
  destruct (boot_heap o b t _ _ _ _ _ _ _ Hb Ht) as ([] & s2 & E2 & Hh). rewrite E in E2. injection E2 as <-.
  eapply wp_run_eq; [exact E|]. apply test_allocator_run; [exact Hh|].
  exists o, b, (t ++ ev), c, a. split; [done|]. destruct HP as [HI H4 H2 _ _ _ Hm _ _ _]. split; [done|].
  apply (submseteq_length [p; q; r]), NoDup_submseteq; [done|]. intros x Hx.
  rewrite Forall_forall in Hpqr. apply Hpqr, Hm in Hx. apply (elem_of_free_frames _ _ _ _ x (inv_meta _ _ HI)).
  destruct Hx as [?|[Hx|[?|Hx]]]; [by left| |by right|]; set_solver.
Qed.

Lemma test_allocator_on_pc :
  wp (pc_init;; test_allocator) (λ _ s', heap_ok (∅ : gset (Z * Layout)) s') (boot_machine true).
Proof.
  apply (test_allocator_restores (S := Machine) ∅ (boot_machine true) 2 true [] 40 pc_image_end (zero_store 40) pc_memory
    pc_mmap 0 pc_areas) with (p := 512) (q := 513) (r := 514).
  - exact pc_boot_ok.
  - exact pc_top.
  - repeat constructor; rewrite ?elem_of_cons, ?elem_of_nil; lia.
  - repeat constructor; (exists (mkMemoryArea 0x100000 0x800000 1 0); split;
      [do 2 apply list_elem_of_further; apply list_elem_of_here|split; [reflexivity|vm_compute; split; congruence]]).
Qed.
