(* ===== verification/Main.v ===== *)
(** * Booting (src/src/main.rs)

    [rust_main]: the segments, the memory allocator, the interrupt controllers,
    in this order, on the state of the whole kernel; the idle loop, on the
    processor of Trampoline.v and Dispatch.v; and the whole way there from the
    loader's jump, through the assembly of Boot.v. [memory::test::test_all],
    which is called before the idle loop, has no definition in the sources: it is
    a parameter, and what [rust_main] relies on is [test_ok]. *)
From S2P Require Import Prelude Mutex Memory Multiboot2 PageAllocator AllocInv AllocExec AllocInit AllocSpec AllocTheorems GlobalAlloc.
From S2P Require Import Bits Gdt Idt Ports Xapic Mps Trampoline Interrupt Dispatch Boot.

(** The parts of the kernel; the interrupt flag of the CPU is in [k_mach]. *)
Record Kernel (TSS Dev PDev Io : Type) : Type := mkKernel {
  k_seg : GdtState (TSS := TSS);
  k_mach : Machine;
  k_int : IntState Dev PDev Io;
}.
Arguments mkKernel {TSS Dev PDev Io} k_seg k_mach k_int.
Arguments k_seg {TSS Dev PDev Io} k.
Arguments k_mach {TSS Dev PDev Io} k.
Arguments k_int {TSS Dev PDev Io} k.

Section main.
Context {BC : BitCrates} {XS : X86Selectors} {TSS Dev PDev Io : Type} {XT : X86Tss TSS} {AD : ApicDevice Dev}
        {PD : PortDevice PDev} {XI : X86IoApic Io}.
Local Abbreviation K := (Kernel TSS Dev PDev Io).

(** Operations of the parts on the kernel. *)
Definition on_seg {A} (m : M (GdtState (TSS := TSS)) A) : M K A := λ k,
  match m (k_seg k) with
  | Done (a, x) => Done (a, mkKernel x (k_mach k) (k_int k))
  | Panicked r => Panicked r
  | Hang => Hang
  end.
Definition on_mach {A} (m : M Machine A) : M K A := λ k,
  match m (k_mach k) with
  | Done (a, x) => Done (a, mkKernel (k_seg k) x (k_int k))
  | Panicked r => Panicked r
  | Hang => Hang
  end.

(** The interrupt code works on the CPU's interrupt flag. *)
Definition with_flag (b : bool) (s : IntState Dev PDev Io) : IntState Dev PDev Io :=
  mkIntState (gs_idt s) (gs_ports s) (gs_ioapic s) (gs_apic s) (gs_idtr s) b (gs_log s).
Definition with_cpu_flag (b : bool) (m : Machine) : Machine :=
  mkMachine (mkCpu (other_flags (m_cpu m)) b) (m_alloc m) (m_trace m).
Definition on_int {A} (m : M (IntState Dev PDev Io) A) : M K A := λ k,
  match m (with_flag (if_flag (m_cpu (k_mach k))) (k_int k)) with
  | Done (a, x) => Done (a, mkKernel (k_seg k) (with_cpu_flag (gs_if x) (k_mach k)) x)
  | Panicked r => Panicked r
  | Hang => Hang
  end.

(** Addresses: of the parts of [NEW_CPU], of [GLOBAL_IDT], of the trampolines;
    what [PageAllocator.init] needs; and the missing [test_all]. *)
Context (gdt_addr tss_addr ist_addr idt_addr : Z) (tramp : Handler → Z).
Context (size_of_PageMetadata kernel_image_end : Z) (store_metadata : Z → Z → memory → memory).
Context (test_all : M K unit).

(** Everything before [test_all]. *)
Definition boot (fuel : nat) (mem : memory) (bootinfo : Z) : M K unit :=
  on_seg (Gdt.init_cpu gdt_addr tss_addr ist_addr);;
  on_mach (memory_init size_of_PageMetadata kernel_image_end store_metadata fuel mem bootinfo);;
  cs ← gets (λ k, reg_cs (st_regs (k_seg k)));
  on_int (Interrupt.init tramp cs);;
  on_int (Interrupt.init_cpu idt_addr).

Definition rust_main (fuel : nat) (mem : memory) (bootinfo : Z) : M K unit :=
  boot fuel mem bootinfo;;
  test_all.

(** [loop { hlt }], which is compiled to [hlt] at [loop_addr] and a jump back,
    as far as the interrupts with the vectors [vs]: with interrupts on, each of
    them ends the wait, and its handler returns to the jump; with interrupts
    off, the processor waits for ever. *)
Context (idt_mem : memory) (body : Handler → Mach → Mach) (return_address : Handler → Z) (add_flags : Z → Z → Z).
Definition set_rip (x : Z) (m : Mach) : Mach :=
  mkMach (m_regs m) (m_rsp m) x (m_cs m) (m_rflags m) (m_ss m) (m_mem m).
Fixpoint idle_loop (loop_addr : Z) (vs : list Z) (m : Mach) (k : K) : outcome (Mach * K) :=
  match vs with
  | [] => Done (m, k)
  | v :: vs' =>
      if Z.testbit (m_rflags m) 9 then
        match dispatch tramp idt_mem body return_address add_flags v None (set_rip (loop_addr + 1) m) (k_int k) with
        | Done (m', s) => idle_loop loop_addr vs' (set_rip loop_addr m') (mkKernel (k_seg k) (k_mach k) s)
        | Panicked r => Panicked r
        | Hang => Hang
        end
      else Hang
  end.

(** ** Lemmas *)
Lemma wp_on_seg {A} (m : M (GdtState (TSS := TSS)) A) k Q :
  wp m (λ a x, Q a (mkKernel x (k_mach k) (k_int k))) (k_seg k) → wp (on_seg m) Q k.
Proof. intros (a & x & Hm & HQ). eexists _, _. split; [|exact HQ]. unfold on_seg. by rewrite Hm. Qed.
Lemma wp_on_mach {A} (m : M Machine A) k Q :
  wp m (λ a x, Q a (mkKernel (k_seg k) x (k_int k))) (k_mach k) → wp (on_mach m) Q k.
Proof. intros (a & x & Hm & HQ). eexists _, _. split; [|exact HQ]. unfold on_mach. by rewrite Hm. Qed.
Lemma wp_on_int {A} (m : M (IntState Dev PDev Io) A) k Q :
  wp m (λ a x, Q a (mkKernel (k_seg k) (with_cpu_flag (gs_if x) (k_mach k)) x))
    (with_flag (if_flag (m_cpu (k_mach k))) (k_int k)) → wp (on_int m) Q k.
Proof. intros (a & x & Hm & HQ). eexists _, _. split; [|exact HQ]. unfold on_int. by rewrite Hm. Qed.
End main.

(** The allocator after boot. *)
Lemma memory_init_boot o b t size image store fuel mem info tags mmap version areas :
  boot_ok size image store mem mmap version areas → memory_top areas ≤ COUNTED_LIMIT →
  0 < info → info + 8 ≤ U64_MAX → (length tags < fuel)%nat → Forall (λ t, 0 ≤ t.2) tags →
  tags_at mem (info + 8) tags → first_tag (info + 8) MULTIBOOT2_TAG_TYPE_MMAP tags = Some mmap →
  wp (memory_init size image store fuel mem info) (λ _ s', ∃ ev c a, s' = idle o b (t ++ ev) c ∧
      prepared size image areas c a ∧ quiet b ev)
    (mkMachine (mkCpu o b) PageAllocator_new t).
Proof.
  intros Hb Ht Hi Hmax Hf Hsz Htags Hmm. destruct (boot_init o b t _ _ _ _ _ _ _ Hb Ht) as (x & s' & E & HP).
  exists x, s'. split; [|exact HP]. rewrite (memory_init_eq _ _ _ _ _ _ tags) by (done || lia).
  rewrite (proj2 (Z.eqb_neq info 0)) by lia. by rewrite Hmm.
Qed.

(** The allocator as [init] leaves it: nothing is handed out. *)
Definition unused (c : Core) (a : Abs) : Prop := Inv c a ∧ fully_merged a ∧ a_al4 a = ∅ ∧ a_al2 a = ∅.

(** [memory::test::test_all], a test of the allocator: started on a kernel whose
    allocator is unused, with interrupts on and no lock held, it returns, has
    given back what it took, and has touched nothing else. *)
Definition test_ok {TSS Dev PDev Io} (o : Z) (test_all : M (Kernel TSS Dev PDev Io) unit) : Prop :=
  ∀ k t c a, k_mach k = idle o true t c → unused c a →
    wp test_all (λ _ k', k_seg k' = k_seg k ∧ k_int k' = k_int k ∧
      ∃ t' c' a', k_mach k' = idle o true t' c' ∧ Inv c' a' ∧ a_al4 a' = ∅ ∧ a_al2 a' = ∅) k.

(** What an observer of the kernel sees after boot: the allocator ready, every
    gate with a handler leading to it through a kernel code segment, and the
    interrupt part as Dispatch.v needs it. *)
Record up {TSS Dev PDev Io} {BC : BitCrates} {XT : X86Tss TSS} (gdt_addr idt_addr : Z) (tramp : Handler → Z)
    (o : Z) (t : list LockEvent) (log : list SetupEvent) (k : Kernel TSS Dev PDev Io) : Prop := {
  up_alloc : ∃ ev c a, k_mach k = idle o true (t ++ ev) c ∧ EvSti ∉ ev ∧ unused c a;
  up_log : gs_log (k_int k) = log ++ [EvLidt (gs_idtr (k_int k)).1 (gs_idtr (k_int k)).2; EvStiSetup];
  up_gates m v h : holds m gdt_addr (GDT_bytes (st_gdt (k_seg k))) → holds m idt_addr (Idt_bytes (gs_idt (k_int k))) →
    0 ≤ v < 256 → handler_of v = Some h →
    ∃ g d, fetch_gate m (gs_idtr (k_int k)).1 (gs_idtr (k_int k)).2 v = Some g ∧
      g_present g = true ∧ g_offset g = tramp h ∧
      fetch m (gdtr_base (st_regs (k_seg k))) (gdtr_limit (st_regs (k_seg k))) (g_selector g) = Some d ∧
      segment_ok d 0 true;
  up_int : booted tramp idt_addr 0x10 (k_int k);
}.

(** [boot] on a memory with a well-formed boot information. *)
Lemma boot_run {BC : BitCrates} {BL : BitCratesLaws} {XS : X86Selectors} {XL : X86SelectorsLaws} {TSS Dev PDev Io}
    {XT : X86Tss TSS} {TL : X86TssLaws TSS} {AD : ApicDevice Dev} {PD : PortDevice PDev} {XI : X86IoApic Io}
    gdt_addr tss_addr ist_addr idt_addr tramp size image store fuel mem info tags mmap version areas
    (k : Kernel TSS Dev PDev Io) o t :
  k_mach k = mkMachine (mkCpu o false) PageAllocator_new t → gs_idt (k_int k) = Idt_new →
  0 ≤ tss_addr < 2 ^ 64 → (∀ h, 0 ≤ tramp h < 2 ^ 64) →
  Z.land (as_u32 (rdmsr IA32_APIC_BASE (apic_dev (gs_apic (k_int k))))) 0xffff0000 ≠ 0 →
  boot_ok size image store mem mmap version areas → memory_top areas ≤ COUNTED_LIMIT →
  0 < info → info + 8 ≤ U64_MAX → (length tags < fuel)%nat → Forall (λ t, 0 ≤ t.2) tags →
  tags_at mem (info + 8) tags → first_tag (info + 8) MULTIBOOT2_TAG_TYPE_MMAP tags = Some mmap →
  wp (boot gdt_addr tss_addr ist_addr idt_addr tramp size image store fuel mem info) (λ _ k',
      up gdt_addr idt_addr tramp o t (gs_log (k_int k)) k') k.
Proof.
  intros Hk Hidt Htss Htr Hapic Hb Ht Hi Hmax Hf Hsz Htags Hmm. unfold boot.
  apply wp_bind, wp_on_seg. eapply wp_mono; [apply init_cpu_run|]. intros [] g (Hg & Hr & _ & _).
  apply wp_bind, wp_on_mach. cbn [k_mach]. rewrite Hk.
  eapply wp_mono; [by eapply (memory_init_boot o false t)|]. intros [] mc (ev & c & a & -> & HP & Hq).
  apply wp_bind, wp_gets. cbn [k_seg]. rewrite Hr. cbn [reg_cs].
  apply wp_bind, wp_on_int. cbn [k_int k_mach]. eapply wp_mono; [by apply init_spec|]. intros [] s1 H1.
  apply wp_on_int. cbn [k_int k_mach].
  eapply wp_mono; [eapply init_cpu_spec; [exact (id_ioapic _ _ _ _ H1)|]|].
  { cbn [with_flag gs_apic]. rewrite (id_apic _ _ _ _ H1). exact Hapic. }
  intros [] s2 H2. pose proof (id_wired _ _ _ _ H1) as Hw. split; cbn [k_mach k_int k_seg].
  - exists ev, c, a. rewrite (cd_if _ _ _ H2). destruct HP as [HI H4 Hal2 HF]. split; [done|]. split; [by apply quiet_no_sti|]. done.
  - rewrite (cd_log _ _ _ H2). cbn [gs_log with_flag]. by rewrite (id_log _ _ _ _ H1).
  - intros m v h Hm1 Hm2 Hv Hh. rewrite Hg in Hm1. destruct (fetch_segments _ _ _ _ Hm1 Htss) as (_ & F & _).
    rewrite (cd_idt _ _ _ H2) in Hm2. rewrite (cd_idtr _ _ _ H2). cbn [gs_idt with_flag] in *.
    eexists _, _. rewrite (wired_gate tramp 0x10 m idt_addr vectors _ v Hw Hm2 Hv) by (done || lia).
    unfold handler_of in Hh. rewrite Hh. split; [reflexivity|]. cbn [g_present g_offset g_selector].
    split; [done|]. split; [done|]. rewrite Hr. split; [exact F|by vm_compute].
  - eapply (cpu_done_booted _ _ _ _ s1); [exact H1| |exact H2]. done.
Qed.

(** Idling: the timer's interrupts, as many as come, leave the machine at the
    [hlt] and the kernel as it was but for the local APIC. *)
Section idling.
Context {BC : BitCrates} {BL : BitCratesLaws} {TSS Dev PDev Io : Type} {AD : ApicDevice Dev} {PD : PortDevice PDev} {XI : X86IoApic Io}.
Context (tramp : Handler → Z) (idt_addr cs : Z) (mem : memory) (body : Handler → Mach → Mach)
        (return_address : Handler → Z) (add_flags : Z → Z → Z).
Context (Hcs : 0 ≤ cs < 2 ^ 16) (Htr : ∀ h, 0 ≤ tramp h < 2 ^ 64) (Hinj : ∀ h h', tramp h = tramp h' → h = h') (Hbody : compiled_ok (Dev := Dev) PDev Io body).

Lemma idle_run loop_addr n m (k : Kernel TSS Dev PDev Io) :
  booted tramp idt_addr cs (k_int k) → holds mem idt_addr (Idt_bytes (gs_idt (k_int k))) →
  192 ≤ m_rsp m < 2 ^ 64 → m_rip m = loop_addr → Z.testbit (m_rflags m) 9 = true →
  ∃ m' s, idle_loop tramp mem body return_address add_flags loop_addr (replicate n 32) m k =
      Done (m', mkKernel (k_seg k) (k_mach k) s) ∧ resumes m m' ∧
    apic_log (gs_apic s) = apic_log (gs_apic (k_int k)) ++
      mjoin (replicate n [EvMmioWrite XAPIC_TIMER_INIT_COUNT 100000; EvMmioWrite XAPIC_EOI 0]) ∧
    gs_idt s = gs_idt (k_int k) ∧ gs_idtr s = gs_idtr (k_int k) ∧ gs_if s = gs_if (k_int k).
Proof.
  revert m k. induction n as [|n IH]; intros m k HB Hm Hsp Hip Hif.
  - exists m, (k_int k). cbn. rewrite app_nil_r. destruct k. by split_and!.
  - destruct (timer_run tramp idt_addr cs (k_int k) HB) as [Ht HB'].
    destruct (dispatch_returns tramp idt_addr cs Hcs Htr Hinj mem body return_address add_flags Hbody (k_int k) (rearmed (k_int k))
      (set_rip (loop_addr + 1) m) 32 HTimer None HB Hm) as (m1 & E & Hr & H1 & H2 & H3 & H4 & H5); try done.
    cbn [m_regs m_rip m_cs m_rflags m_rsp m_ss set_rip] in *.
    destruct (IH (set_rip loop_addr m1) (mkKernel (k_seg k) (k_mach k) (rearmed (k_int k)))) as (m' & s & E' & (R & R1 & R2 & R3 & R4 & R5) & Hlog & Hi);
      cbn [m_regs m_rip m_cs m_rflags m_rsp m_ss set_rip k_int] in *; try done; [by rewrite H4|by rewrite H3|].
    exists m', s. cbn [idle_loop replicate]. rewrite Hif, E. split; [exact E'|]. split; [|split; [|exact Hi]].
    + split; [intros r; by rewrite R, Hr|]. split_and!; congruence.
    + rewrite Hlog. cbn [rearmed with_apic gs_apic apic_log replicate mjoin list_join]. by rewrite <-app_assoc.
Qed.
End idling.

(** The boot information, [n] bytes at [info]: a chain of tags with the memory
    map, outside of what the boot assembly writes. *)
Record info_ok (p4 bootinfo esp : Z) (mem : memory) (info n : Z) (tags : list (Z * Z)) (mmap : Z)
    (areas : list MemoryArea) : Prop := {
  io_range : 0 < info ∧ info + 8 ≤ U64_MAX;
  io_sizes : Forall (λ t, 0 ≤ t.2) tags;
  io_tags : tags_at mem (info + 8) tags;
  io_end : tags_end (info + 8) tags ≤ info + n;
  io_mmap : first_tag (info + 8) MULTIBOOT2_TAG_TYPE_MMAP tags = Some mmap;
  io_areas : info ≤ mmap ∧ mmap + 16 + 24 * Z.of_nat (length areas) ≤ info + n;
  io_stack : info + n ≤ esp - 4 ∨ esp ≤ info;
  io_bootinfo : info + n ≤ bootinfo ∨ bootinfo + 8 ≤ info;
  io_bss : info + n ≤ p4 ∨ stack_top p4 ≤ info;
}.

(** The assembly leaves the boot information as it was. *)
Lemma info_kept p4 bootinfo rust_main_ l l' n tags size image store mmap version areas :
  entered p4 bootinfo rust_main_ l l' → info_ok p4 bootinfo (b_regs l ESP) (b_mem l) (b_regs l EBX) n tags mmap areas →
  boot_ok size image store (b_mem l) mmap version areas →
  boot_ok size image store (b_mem l') mmap version areas ∧ tags_at (b_mem l') (b_regs l EBX + 8) tags.
Proof.
  intros HE [_ Hsz Ht Hend _ Hin Hs Hb Hp] Hbok.
  assert (∀ x, b_regs l EBX ≤ x < b_regs l EBX + n → b_mem l' x = b_mem l x) as Hag.
  { intros x Hx. apply (en_frame _ _ _ _ _ HE); lia. }
  split.
  - destruct Hbok. split; try done. eapply holds_agree; [|done]. intros x Hx.
    rewrite length_encode_mmap in Hx. apply Hag. lia.
  - eapply tags_at_agree; [done| |exact Ht]. intros x Hx. apply Hag. lia.
Qed.

(** ** Theorems *)


(** The boot information of a small machine: one memory map tag and the end tag. *)
Definition pc_info : list Z :=
  le_bytes 4 (8 + 16 + 24 * slice_len pc_areas + 8) ++ le_bytes 4 0 ++ encode_mmap 0 pc_areas ++ le_bytes 4 0 ++ le_bytes 4 8.
Definition pc_info_memory : memory := bytes_at (pc_mmap - 8) pc_info.

(** What the loader leaves on it. *)
Definition pc_entry : Boot :=
  mkBoot (λ r, match r with EAX => 0x36d76289 | EBX => pc_mmap - 8 | ESP => 0x7ff00 | _ => 0 end)
    (λ c, match c with CR0 => 0x11 | _ => 0 end) (λ _, 0) (0, 0) 8 [16; 16; 16; 16; 16] 0x102000 false
    (λ x, if x <? 0x100000 then pc_info_memory x else b_mem pc_loader x).

Lemma pc_entry_ok : loader_ok 0x103000 0x101000 pc_entry.
Proof.
  split; cbn [b_regs b_df pc_entry]; unfold pc_mmap; try lia; try done.
  eapply holds_agree; [|apply (ld_gdt _ _ _ pc_loader_ok)]. intros x Hx. cbn [b_mem pc_entry].
  by rewrite (proj2 (Z.ltb_ge _ _)) by lia.
Qed.

Lemma pc_entry_boot_ok : boot_ok 40 pc_image_end (zero_store 40) (b_mem pc_entry) pc_mmap 0 pc_areas.
Proof.
  destruct pc_boot_ok as [? ? ? ? ? ? ? ? _ ?]. split; try done.
  eapply (holds_agree pc_info_memory).
  - intros x Hx. cbn [b_mem pc_entry]. rewrite length_encode_mmap in Hx. unfold pc_mmap in Hx. simpl in Hx.
    by rewrite (proj2 (Z.ltb_lt _ _)) by lia.
  - apply (holds_sub _ (pc_mmap - 8) (take 8 pc_info) (encode_mmap 0 pc_areas) (drop (8 + length (encode_mmap 0 pc_areas)) pc_info)).
    apply holds_bytes_at.
Qed.

Lemma pc_info_ok : info_ok 0x104000 0x103000 (b_regs pc_entry ESP) (b_mem pc_entry) (b_regs pc_entry EBX) 104
  [(6, 16 + 24 * slice_len pc_areas)] pc_mmap pc_areas.
Proof.
  split.
  - vm_compute. split; [reflexivity|discriminate].
  - repeat constructor. vm_compute. discriminate.
  - repeat split; vm_compute; discriminate || reflexivity.
  - vm_compute. discriminate.
  - reflexivity.
  - vm_compute. split; discriminate.
  - left. vm_compute. discriminate.
  - left. vm_compute. discriminate.
  - left. vm_compute. discriminate.
Qed.

Definition pc_kernel : Kernel FunTss Z unit (list (Z * Z)) :=
  mkKernel (Cpu_new (mkSegRegs 0 0 0 0 0 0 0)) (boot_machine false) int_start.

(** A test of the allocator: a page of each size, taken and given back. *)
Definition page_test {TSS Dev PDev Io} : M (Kernel TSS Dev PDev Io) unit :=
  on_mach (alloc_then_free Size4KB);; on_mach (alloc_then_free Size2MB).

(** It gives back what it takes. *)
Lemma alloc_then_free_unused {TSS Dev PDev Io} o size (k : Kernel TSS Dev PDev Io) t c a :
  k_mach k = idle o true t c → unused c a →
  wp (on_mach (alloc_then_free size)) (λ _ k', k_seg k' = k_seg k ∧ k_int k' = k_int k ∧
    ∃ t' c' a', k_mach k' = idle o true t' c' ∧ unused c' a') k.
Proof.
  intros Hk (HI & HF & H4 & H2). apply wp_on_mach. rewrite Hk. pose proof (inv_meta _ _ HI) as HM.
  eapply wp_mono; [by apply (alloc_then_free_steps o true t c a size HI)|].
  intros [] s (ev & c' & a' & -> & HI' & HF' & Hs). split; [done|]. split; [done|]. exists (t ++ ev), c', a'. split; [done|].
  split; [done|]. split; [by apply HF'|].
  destruct Hs as [Hs|(addr & a1 & Hs1 & Hs2)]; [by inversion Hs; subst|].
  by destruct (step_roundtrip _ _ _ _ _ _ _ _ HM HF Hs1 Hs2) as [->|(p & -> & -> & _ & ->)].
Qed.

Lemma page_test_ok {TSS Dev PDev Io} o : test_ok (TSS := TSS) (Dev := Dev) (PDev := PDev) (Io := Io) o page_test.
Proof.
  intros k t c a Hk Hu. unfold page_test. apply wp_bind. eapply wp_mono; [by eapply alloc_then_free_unused|].
  intros [] k1 (Hs1 & Hi1 & t1 & c1 & a1 & Hk1 & Hu1).
  eapply wp_mono; [by eapply alloc_then_free_unused|]. intros [] k2 (Hs2 & Hi2 & t2 & c2 & a2 & Hk2 & HI & _ & H4 & H2).
  split; [congruence|]. split; [congruence|]. by exists t2, c2, a2.
Qed.

